(** * TaskNotes bulk engines and Bases query watcher: a shallow embedding

    The development follows the TypeScript sources

    - [bulk/duplicate-detector.ts]  (reference parsing, duplicate detection),
    - [bulk/bulk-task-engine.ts]    (bulk task generation),
    - [bulk/bulk-convert-engine.ts] (in-place conversion of notes),
    - [notifications/BasesQueryWatcher.ts] (debounced, snooze-aware watcher).

    JavaScript strings are modelled as sequences of code units in the
    Latin-1 range (one [ascii] per code unit, U+0000..U+00FF); on that range
    [toLowerCase], [trim] and the regular expressions of the sources are
    modelled exactly.  Objects used as dictionaries are [gmap]s, [Set]s that
    are only tested for membership are [gset]s, [Map]s and [Set]s that are
    iterated are insertion-ordered lists.

    Each engine is modelled twice.  The first model of the two bulk
    engines is a call in which nothing outside the per-item [try] fails and
    in which no field name is one that objects inherit; the first model of
    the watcher runs every asynchronous method in one piece.  The modules
    [PlainObject], [ConvertExecution], [CreateExecution] and
    [WatcherObjects] model what the first ones leave out: inherited
    property names, the wait after a frontmatter write, the progress
    callback and the rejection of a call, and the identity of the watcher's
    entry objects across an [await]. *)

From Stdlib Require Import ZArith Lia List Ascii String Bool.
From stdpp Require Import gmap strings list fin_maps pretty.
Import ListNotations.

Local Open Scope string_scope.

(** ** JavaScript string primitives *)

Module JsString.

Definition codeUnit (c : ascii) : nat := nat_of_ascii c.

(** [String.prototype.toLowerCase] on one Latin-1 code unit: [A-Z] and
    U+00C0..U+00DE (except the multiplication sign U+00D7) move up by 32. *)
Definition toLowerChar (c : ascii) : ascii :=
  let n := codeUnit c in
  if ((65 <=? n) && (n <=? 90))%nat
     || ((192 <=? n) && (n <=? 222) && negb (n =? 215))%nat
  then ascii_of_nat (n + 32)
  else c.

(** [String.prototype.toLowerCase] on a string of Latin-1 code units,
    where it maps code unit by code unit.  On other strings it does not:
    the lower case of a capital sigma depends on its position in the word,
    so nothing proved from the unit-wise behaviour (that lower-casing
    commutes with appending or with removing a suffix) is claimed of
    paths outside Latin-1. *)
Fixpoint toLowerCase (s : string) : string :=
  match s with
  | EmptyString => EmptyString
  | String c r => String (toLowerChar c) (toLowerCase r)
  end.

(** White space and line terminators removed by [trim]: TAB, LF, VT, FF,
    CR, SPACE and NBSP. *)
Definition isWhiteSpace (c : ascii) : bool :=
  let n := codeUnit c in
  ((9 <=? n) && (n <=? 13) || (n =? 32) || (n =? 160))%nat.

(** Characters that the regular-expression atom [.] refuses. *)
Definition isLineTerminator (c : ascii) : bool :=
  let n := codeUnit c in ((n =? 10) || (n =? 13))%nat.

Fixpoint trimStart (s : string) : string :=
  match s with
  | EmptyString => EmptyString
  | String c r => if isWhiteSpace c then trimStart r else s
  end.

Fixpoint allWhiteSpace (s : string) : bool :=
  match s with
  | EmptyString => true
  | String c r => isWhiteSpace c && allWhiteSpace r
  end.

Fixpoint trimEnd (s : string) : string :=
  match s with
  | EmptyString => EmptyString
  | String c r => if allWhiteSpace s then EmptyString else String c (trimEnd r)
  end.

Definition trim (s : string) : string := trimEnd (trimStart s).

(** [s.endsWith(suffix)] *)
Fixpoint endsWith (s suffix : string) : bool :=
  if String.eqb s suffix then true
  else match s with
       | EmptyString => false
       | String _ r => endsWith r suffix
       end.

(** [s.split("/").pop()]: the text after the last slash. *)
Fixpoint lastSegment (s : string) : string :=
  match s with
  | EmptyString => EmptyString
  | String c r =>
      if existsb (Ascii.eqb "/") (list_ascii_of_string r) then lastSegment r
      else if Ascii.eqb c "/" then r else s
  end.

(** Longest prefix of [s] whose characters all satisfy [p], and the rest. *)
Fixpoint span (p : ascii -> bool) (s : string) : string * string :=
  match s with
  | EmptyString => (EmptyString, EmptyString)
  | String c r =>
      if p c then let '(a, b) := span p r in (String c a, b)
      else (EmptyString, s)
  end.

(** JavaScript truthiness of a string. *)
Definition truthy (s : string) : bool := negb (String.eqb s "").

(** [a || b] on strings. *)
Definition orElse (a b : string) : string := if truthy a then a else b.

End JsString.

(** ** duplicate-detector.ts *)

Module DuplicateDetector.
Import JsString.

(** The part of [TaskInfo] the detector reads. *)
Record TaskInfo := {
  path : string;
  projects : option (list string)
}.

(** [/^\[\[([^\]|]+)(?:\|[^\]]+)?\]\]$/]: capture group 1. *)
Definition wikiMatch (link : string) : option string :=
  match link with
  | String c0 (String c1 rest) =>
      if Ascii.eqb c0 "[" && Ascii.eqb c1 "[" then
        let '(target, r1) :=
          span (fun c => negb (Ascii.eqb c "]") && negb (Ascii.eqb c "|")) rest in
        if String.eqb target "" then None
        else if String.eqb r1 "]]" then Some target
        else match r1 with
             | String c2 r2 =>
                 if Ascii.eqb c2 "|" then
                   let '(alias, r3) := span (fun c => negb (Ascii.eqb c "]")) r2 in
                   if String.eqb alias "" then None
                   else if String.eqb r3 "]]" then Some target
                   else None
                 else None
             | EmptyString => None
             end
      else None
  | _ => None
  end.

(** The tail [\]\(([^)]+)\)$] of the markdown-link expression, tried at
    the current position. *)
Definition mdTail (s : string) : option string :=
  match s with
  | String c0 (String c1 r) =>
      if Ascii.eqb c0 "]" && Ascii.eqb c1 "(" then
        let '(target, r') := span (fun c => negb (Ascii.eqb c ")")) r in
        if String.eqb target "" then None
        else if String.eqb r' ")" then Some target
        else None
      else None
  | _ => None
  end.

(** The lazy [.*?] of [/^\[.*?\]\(([^)]+)\)$/]: the tail is tried at the
    leftmost position first, and [.] never crosses a line terminator. *)
Fixpoint mdScan (s : string) : option string :=
  match mdTail s with
  | Some target => Some target
  | None =>
      match s with
      | EmptyString => None
      | String c r => if isLineTerminator c then None else mdScan r
      end
  end.

Definition mdMatch (link : string) : option string :=
  match link with
  | String c0 rest => if Ascii.eqb c0 "[" then mdScan rest else None
  | EmptyString => None
  end.

Definition extractPathFromLink (link : string) : string :=
  if negb (truthy link) then ""
  else match wikiMatch link with
       | Some target => trim target
       | None =>
           match mdMatch link with
           | Some target => trim target
           | None => trim link
           end
       end.

(** Does [s] consist of exactly [.md], in any letter case? *)
Definition isDotMd (s : string) : bool :=
  match s with
  | String c (String m (String d EmptyString)) =>
      Ascii.eqb c "." && (Ascii.eqb m "m" || Ascii.eqb m "M")
      && (Ascii.eqb d "d" || Ascii.eqb d "D")
  | _ => false
  end.

(** [path.replace(/\.md$/i, "")] *)
Fixpoint stripMd (s : string) : string :=
  if isDotMd s then EmptyString
  else match s with
       | EmptyString => EmptyString
       | String c r => String c (stripMd r)
       end.

(** Does [/\.md$/i] match somewhere in [s]? *)
Fixpoint hasMdSuffix (s : string) : bool :=
  if isDotMd s then true
  else match s with
       | EmptyString => false
       | String _ r => hasMdSuffix r
       end.

Definition normalizePath (path : string) : string :=
  toLowerCase (stripMd path).

(** [p.split("/").pop() || p] *)
Definition basename (p : string) : string := orElse (lastSegment p) p.

(** The disjunction tested for one entry of [task.projects]. *)
Definition projectMatches (normalizedSource sourceBasename project : string) : bool :=
  let projectPath := extractPathFromLink project in
  let normalizedProject := normalizePath projectPath in
  let projectBasename := basename normalizedProject in
  String.eqb normalizedProject normalizedSource
  || String.eqb projectBasename sourceBasename
  || endsWith normalizedProject ("/" ++ sourceBasename)
  || endsWith normalizedSource ("/" ++ projectBasename).

Fixpoint anyProject (normalizedSource sourceBasename : string)
         (ps : list string) : bool :=
  match ps with
  | [] => false
  | project :: rest =>
      if projectMatches normalizedSource sourceBasename project then true
      else anyProject normalizedSource sourceBasename rest
  end.

Definition taskLinksToSource (task : TaskInfo) (sourcePath : string) : bool :=
  match projects task with
  | None => false
  | Some [] => false
  | Some ps =>
      let normalizedSource := normalizePath sourcePath in
      let sourceBasename := basename normalizedSource in
      anyProject normalizedSource sourceBasename ps
  end.

Record DuplicateCheckResult := {
  existingTaskPaths : gset string;
  sourceToTaskMap : gmap string (list string)
}.

(** The inner loop: paths of the tasks that link to [sourcePath]. *)
Definition linkedTasksOf (allTasks : list TaskInfo) (sourcePath : string)
  : list string :=
  map path (List.filter (fun t => taskLinksToSource t sourcePath) allTasks).

Fixpoint checkLoop (allTasks : list TaskInfo) (sourcePaths : list string)
         (acc : DuplicateCheckResult) : DuplicateCheckResult :=
  match sourcePaths with
  | [] => acc
  | sourcePath :: rest =>
      let linkedTasks := linkedTasksOf allTasks sourcePath in
      if (0 <? List.length linkedTasks)%nat
      then checkLoop allTasks rest
             {| existingTaskPaths := {[ sourcePath ]} ∪ existingTaskPaths acc;
                sourceToTaskMap := <[ sourcePath := linkedTasks ]> (sourceToTaskMap acc) |}
      else checkLoop allTasks rest acc
  end.

(** [checkForDuplicates]; the task cache is the argument [allTasks]. *)
Definition checkForDuplicates (allTasks : list TaskInfo)
           (sourcePaths : list string) : DuplicateCheckResult :=
  checkLoop allTasks sourcePaths
    {| existingTaskPaths := ∅; sourceToTaskMap := ∅ |}.

End DuplicateDetector.

(** ** Values of a metadata bag and collaborators of the engines *)

Module Host.
Import JsString.

(** A YAML/JavaScript value as the engines see it.  Numbers are never
    inspected beyond truthiness and printing. *)
#[warnings="-register-all"]
Inductive value :=
| VNull
| VBool (b : bool)
| VNum (n : Z)
| VStr (s : string)
| VList (l : list value).

(** A frontmatter object by its own properties.  In this first model an
    absent key reads as [undefined]; [PlainObject] adds the names that a
    plain object inherits, for which that is not so. *)
Abbreviation Frontmatter := (gmap string value).

Definition isArray (o : option value) : bool :=
  match o with Some (VList _) => true | _ => false end.

Definition isUndefined (o : option value) : bool :=
  match o with None => true | Some _ => false end.

(** [arr.includes(s)] for a string [s]: strict equality with an element. *)
Definition includesStr (arr : list value) (s : string) : bool :=
  existsb (fun v => match v with VStr t => String.eqb t s | _ => false end) arr.

Definition valueTruthy (o : option value) : bool :=
  match o with
  | None | Some VNull => false
  | Some (VBool b) => b
  | Some (VNum n) => negb (n =? 0)%Z
  | Some (VStr s) => truthy s
  | Some (VList _) => true
  end.

(** Result of a call that may throw. *)
Inductive outcome (A : Type) :=
| Returned (a : A)
| Threw (message : string).
Arguments Returned {A} a.
Arguments Threw {A} message.

(** What the vault knows of a path: no file there, or a file with its
    cached frontmatter (if it has one). *)
Abbreviation Vault := (gmap string (option Frontmatter)).

(** [vault.getAbstractFileByPath(p) instanceof TFile] *)
Definition isTFile (vault : Vault) (p : string) : bool :=
  match vault !! p with Some _ => true | None => false end.

(** [metadataCache.getFileCache(file)?.frontmatter] *)
Definition frontmatterOf (vault : Vault) (p : string) : option Frontmatter :=
  match vault !! p with Some (Some fm) => Some fm | _ => None end.

End Host.

(** ** bulk-convert-engine.ts *)

Module BulkConvertEngine.
Import JsString Host.

Inductive TaskIdentificationMethod := TagMethod | PropertyMethod.

(** The settings read by [convertSingleNote]. *)
Record Settings := {
  taskIdentificationMethod : TaskIdentificationMethod;
  taskPropertyName : string;
  taskPropertyValue : string;
  taskTag : string;
  defaultTaskStatus : string;
  defaultTaskPriority : string
}.

(** [fieldMapper.toUserField] at the five keys the engine asks for. *)
Record FieldMapper := {
  statusField : string;
  priorityField : string;
  dateCreatedField : string;
  dateModifiedField : string;
  projectsField : string
}.

Record BulkConvertOptions := {
  applyDefaults : bool;
  linkToBase : option bool;
  baseFilePath : option string
}.

Record BulkConvertResult := {
  converted : nat;
  skipped : nat;
  failed : nat;
  errors : list string;
  convertedPaths : list string
}.

Record ConvertPreCheckResult := {
  toConvert : nat;
  alreadyTasks : nat;
  alreadyTaskPaths : gset string
}.

(** Collaborators: the link generator, the task classifier, the clock
    (its reading for the creation and for the modification stamp of the
    note at a path) and the host's verdict on a frontmatter write. *)
Record Collaborators := {
  generateMarkdownLink : string -> string -> string;
  isTaskFile : Frontmatter -> bool;
  timestampCreated : string -> string;
  timestampModified : string -> string;
  processFrontMatterFails : string -> option string
}.

Section Convert.
Variable settings : Settings.
Variable fieldMapper : FieldMapper.
Variable host : Collaborators.

(** [if (fm[key] === undefined) fm[key] = v], for a [key] that the
    object does not inherit ([ConvertExecution.setIfUndefined] covers the
    inherited names). *)
Definition setIfUndefined (key : string) (v : value) (fm : Frontmatter)
  : Frontmatter :=
  if isUndefined (fm !! key) then <[ key := v ]> fm else fm.

(** Step 1, property method, for a property name that the object does
    not inherit. *)
Definition identifyByProperty (fm : Frontmatter) : Frontmatter :=
  let propName := taskPropertyName settings in
  let propValue := taskPropertyValue settings in
  if truthy propName && isUndefined (fm !! propName) then
    if String.eqb propValue "true" then <[ propName := VBool true ]> fm
    else if String.eqb propValue "false" then <[ propName := VBool false ]> fm
    else <[ propName := VStr propValue ]> fm
  else fm.

(** Step 1, tag method. *)
Definition identifyByTag (fm : Frontmatter) : Frontmatter :=
  let taskTag := orElse (taskTag settings) "task" in
  let fm1 := if negb (isArray (fm !! "tags")) then <[ "tags" := VList [] ]> fm
             else fm in
  match fm1 !! "tags" with
  | Some (VList tags) =>
      if negb (includesStr tags taskTag)
      then <[ "tags" := VList (tags ++ [VStr taskTag]) ]> fm1
      else fm1
  | _ => fm1
  end.

Definition identify (fm : Frontmatter) : Frontmatter :=
  match taskIdentificationMethod settings with
  | PropertyMethod => identifyByProperty fm
  | TagMethod => identifyByTag fm
  end.

(** Step 2. *)
Definition applyDefaultFields (created : string) (fm : Frontmatter)
  : Frontmatter :=
  let fm1 := setIfUndefined (statusField fieldMapper)
               (VStr (orElse (defaultTaskStatus settings) "open")) fm in
  let fm2 := setIfUndefined (priorityField fieldMapper)
               (VStr (orElse (defaultTaskPriority settings) "normal")) fm1 in
  setIfUndefined (dateCreatedField fieldMapper) (VStr created) fm2.

(** Is step 2.5 entered, and with which base file? *)
Definition linkTarget (vault : Vault) (options : BulkConvertOptions)
  : option string :=
  match linkToBase options, baseFilePath options with
  | Some true, Some base =>
      if truthy base && isTFile vault base then Some base else None
  | _, _ => None
  end.

(** Step 2.5. *)
Definition linkToBaseView (vault : Vault) (options : BulkConvertOptions)
           (filePath : string) (fm : Frontmatter) : Frontmatter :=
  match linkTarget vault options with
  | Some base =>
      let link := generateMarkdownLink host base filePath in
      match fm !! projectsField fieldMapper with
      | None => <[ projectsField fieldMapper := VList [VStr link] ]> fm
      | Some (VList ps) =>
          if negb (includesStr ps link)
          then <[ projectsField fieldMapper := VList (ps ++ [VStr link]) ]> fm
          else fm
      | Some _ => fm
      end
  | None => fm
  end.

(** The callback handed to [processFrontMatter]. *)
Definition convertFrontmatter (vault : Vault) (options : BulkConvertOptions)
           (filePath : string) (fm : Frontmatter) : Frontmatter :=
  let fm1 := identify fm in
  let fm2 := if applyDefaults options
             then applyDefaultFields (timestampCreated host filePath) fm1
             else fm1 in
  let fm3 := linkToBaseView vault options filePath fm2 in
  <[ dateModifiedField fieldMapper := VStr (timestampModified host filePath) ]> fm3.

(** [convertSingleNote] up to the end of the frontmatter write: one
    read-modify-write of the note's frontmatter, which the host may
    reject; a note without frontmatter starts from the empty object.  The
    wait for the metadata cache that follows the write, and which can
    fail after the note has been rewritten, is in
    [ConvertExecution.convertSingleNote]. *)
Definition convertSingleNote (vault : Vault) (options : BulkConvertOptions)
           (filePath : string) : outcome Vault :=
  match processFrontMatterFails host filePath with
  | Some message => Threw message
  | None =>
      let fm := default ∅ (frontmatterOf vault filePath) in
      Returned (<[ filePath := Some (convertFrontmatter vault options filePath fm) ]> vault)
  end.

(** [preCheck]: the set of item paths that already are tasks. *)
Fixpoint alreadyTaskLoop (vault : Vault) (paths : list (option string))
         (acc : gset string) : gset string :=
  match paths with
  | [] => acc
  | p :: rest =>
      let sourcePath := orElse (default "" p) "" in
      if negb (truthy sourcePath) then alreadyTaskLoop vault rest acc
      else if negb (isTFile vault sourcePath) then alreadyTaskLoop vault rest acc
      else match frontmatterOf vault sourcePath with
           | Some fm =>
               if isTaskFile host fm
               then alreadyTaskLoop vault rest ({[ sourcePath ]} ∪ acc)
               else alreadyTaskLoop vault rest acc
           | None => alreadyTaskLoop vault rest acc
           end
  end.

Definition preCheck (vault : Vault) (paths : list (option string))
  : ConvertPreCheckResult :=
  let already := alreadyTaskLoop vault paths ∅ in
  {| toConvert := List.length paths - size already;
     alreadyTasks := size already;
     alreadyTaskPaths := already |}.

(** One iteration of the loop of [convertNotes]. *)
Definition convertStep (pre : ConvertPreCheckResult)
           (options : BulkConvertOptions) (p : option string)
           (st : Vault * BulkConvertResult) : Vault * BulkConvertResult :=
  let '(vault, result) := st in
  let sourcePath := orElse (default "" p) "" in
  if decide (sourcePath ∈ alreadyTaskPaths pre) then
    (vault, {| converted := converted result; skipped := S (skipped result);
               failed := failed result; errors := errors result;
               convertedPaths := convertedPaths result |})
  else if negb (isTFile vault sourcePath) then
    (vault, {| converted := converted result; skipped := skipped result;
               failed := S (failed result);
               errors := errors result ++ ["File not found: " ++ sourcePath];
               convertedPaths := convertedPaths result |})
  else match convertSingleNote vault options sourcePath with
       | Returned vault' =>
           (vault', {| converted := S (converted result); skipped := skipped result;
                       failed := failed result; errors := errors result;
                       convertedPaths := convertedPaths result ++ [sourcePath] |})
       | Threw errorMsg =>
           (vault, {| converted := converted result; skipped := skipped result;
                      failed := S (failed result);
                      errors := errors result
                                ++ ["Error for " ++ sourcePath ++ ": " ++ errorMsg];
                      convertedPaths := convertedPaths result |})
       end.

Definition emptyResult : BulkConvertResult :=
  {| converted := 0; skipped := 0; failed := 0; errors := []; convertedPaths := [] |}.

(** [convertNotes] over the paths of the items, for a call in which
    nothing outside the per-item [try] fails: the optional progress
    callback is absent and the dry run returns.
    [ConvertExecution.convertNotes] has the callback and the rejections. *)
Definition convertNotes (vault : Vault) (paths : list (option string))
           (options : BulkConvertOptions) : Vault * BulkConvertResult :=
  match paths with
  | [] => (vault, emptyResult)
  | _ =>
      let pre := preCheck vault paths in
      fold_left (fun st p => convertStep pre options p st) paths (vault, emptyResult)
  end.

End Convert.
End BulkConvertEngine.

(** ** bulk-task-engine.ts *)

Module BulkTaskEngine.
Import JsString Host DuplicateDetector.

(** A Bases data item, as far as the engine reads it: [path], [name],
    [file?.basename] and the property bag. *)
Record BasesDataItem := {
  itemPath : option string;
  itemName : option string;
  fileBasename : option string;
  properties : option Frontmatter
}.

Record BulkCreationOptions := {
  skipExisting : bool;
  useParentAsProject : bool
}.

Record BulkCreationResult := {
  created : nat;
  skipped : nat;
  failed : nat;
  errors : list string;
  createdPaths : list string
}.

Record TaskCreationData := {
  title : string;
  creationContext : string;
  taskProjects : option (list string);
  due : option string;
  scheduled : option string;
  priority : option string;
  contexts : option (list string)
}.

(** Collaborators: the vault's link generator, JavaScript's [String] on
    values, and the task service, which returns the path of the created
    file, returns no file, or throws. *)
Record Collaborators := {
  generateMarkdownLink : string -> string -> string;
  jsString : value -> string;
  createTask : TaskCreationData -> outcome (option string)
}.

(** [item.path || ""] *)
Definition sourcePathOf (item : BasesDataItem) : string :=
  orElse (default "" (itemPath item)) "".

Definition props (item : BasesDataItem) : Frontmatter :=
  default ∅ (properties item).

(** The sources tried after an explicit [title] property. *)
Definition fallbackTitle (item : BasesDataItem) : string :=
  if truthy (default "" (fileBasename item)) then default "" (fileBasename item)
  else if truthy (default "" (itemName item)) then default "" (itemName item)
  else if truthy (default "" (itemPath item))
       then stripMd (basename (default "" (itemPath item)))
       else "Untitled task".

Definition extractTitle (item : BasesDataItem) : string :=
  match props item !! "title" with
  | Some (VStr t) => if truthy t then t else fallbackTitle item
  | _ => fallbackTitle item
  end.

Section Create.
Variable host : Collaborators.
Variable vault : Vault.

Definition generateProjectLink (sourcePath : string) : string :=
  if isTFile vault sourcePath then generateMarkdownLink host sourcePath sourcePath
  else "[[" ++ orElse (stripMd (lastSegment sourcePath)) sourcePath ++ "]]".

Definition stringIfTruthy (o : option value) : option string :=
  if valueTruthy o then jsString host <$> o else None.

(** The record handed to the task service for one item. *)
Definition taskDataFor (item : BasesDataItem) (options : BulkCreationOptions)
  : TaskCreationData :=
  let sourcePath := sourcePathOf item in
  {| title := extractTitle item;
     creationContext := "manual-creation";
     taskProjects :=
       if useParentAsProject options && truthy sourcePath
       then Some [generateProjectLink sourcePath] else None;
     due := stringIfTruthy (props item !! "due");
     scheduled := stringIfTruthy (props item !! "scheduled");
     priority := stringIfTruthy (props item !! "priority");
     contexts :=
       match props item !! "contexts" with
       | Some (VList cs) => Some (map (jsString host) cs)
       | _ => None
       end |}.

Definition createTaskForItem (item : BasesDataItem)
           (options : BulkCreationOptions) : outcome (option string) :=
  createTask host (taskDataFor item options).

(** The state of the loop of [createTasks]: the result under
    construction and the calls made to the task service so far. *)
Record LoopState := {
  result : BulkCreationResult;
  serviceCalls : list TaskCreationData
}.

Definition isSkipped (options : BulkCreationOptions)
           (duplicateCheck : option DuplicateCheckResult)
           (sourcePath : string) : bool :=
  skipExisting options &&
  match duplicateCheck with
  | Some d => bool_decide (sourcePath ∈ existingTaskPaths d)
  | None => false
  end.

(** One iteration of the loop of [createTasks]. *)
Definition createStep (options : BulkCreationOptions)
           (duplicateCheck : option DuplicateCheckResult)
           (item : BasesDataItem) (st : LoopState) : LoopState :=
  let r := result st in
  let sourcePath := sourcePathOf item in
  if isSkipped options duplicateCheck sourcePath then
    {| result := {| created := created r; skipped := S (skipped r);
                    failed := failed r; errors := errors r;
                    createdPaths := createdPaths r |};
       serviceCalls := serviceCalls st |}
  else
    let calls := (serviceCalls st ++ [taskDataFor item options])%list in
    match createTaskForItem item options with
    | Returned (Some taskFilePath) =>
        {| result := {| created := S (created r); skipped := skipped r;
                        failed := failed r; errors := errors r;
                        createdPaths := createdPaths r ++ [taskFilePath] |};
           serviceCalls := calls |}
    | Returned None =>
        {| result := {| created := created r; skipped := skipped r;
                        failed := S (failed r);
                        errors := errors r
                                  ++ ["Failed to create task for: " ++ sourcePath];
                        createdPaths := createdPaths r |};
           serviceCalls := calls |}
    | Threw errorMsg =>
        {| result := {| created := created r; skipped := skipped r;
                        failed := S (failed r);
                        errors := errors r
                                  ++ ["Error for " ++ sourcePath ++ ": " ++ errorMsg];
                        createdPaths := createdPaths r |};
           serviceCalls := calls |}
    end.

Definition emptyResult : BulkCreationResult :=
  {| created := 0; skipped := 0; failed := 0; errors := []; createdPaths := [] |}.

(** [items.map((item) => item.path || "").filter(Boolean)] *)
Definition checkedSourcePaths (items : list BasesDataItem) : list string :=
  List.filter truthy (map sourcePathOf items).

(** The duplicate check made up front when [skipExisting] is set. *)
Definition duplicateCheckFor (allTasks : list TaskInfo)
           (items : list BasesDataItem) (options : BulkCreationOptions)
  : option DuplicateCheckResult :=
  if skipExisting options
  then Some (checkForDuplicates allTasks (checkedSourcePaths items))
  else None.

(** [createTasks] for a call in which nothing outside the per-item [try]
    fails: the optional progress callback is absent and the task cache
    answers the duplicate check with [allTasks].
    [CreateExecution.createTasks] has the callback and the rejections. *)
Definition createTasksLoop (allTasks : list TaskInfo)
           (items : list BasesDataItem) (options : BulkCreationOptions)
  : LoopState :=
  match items with
  | [] => {| result := emptyResult; serviceCalls := [] |}
  | _ =>
      let duplicateCheck := duplicateCheckFor allTasks items options in
      fold_left (fun st item => createStep options duplicateCheck item st) items
                {| result := emptyResult; serviceCalls := [] |}
  end.

Definition createTasks (allTasks : list TaskInfo)
           (items : list BasesDataItem) (options : BulkCreationOptions)
  : BulkCreationResult :=
  result (createTasksLoop allTasks items options).

(** [preCheck] *)
Definition preCheck (allTasks : list TaskInfo) (items : list BasesDataItem)
           (skip : bool) : nat * nat * gset string :=
  if negb skip then (List.length items, 0, ∅)
  else
    let duplicateCheck := checkForDuplicates allTasks (checkedSourcePaths items) in
    let toSkip := size (existingTaskPaths duplicateCheck) in
    (List.length items - toSkip, toSkip, existingTaskPaths duplicateCheck).

End Create.
End BulkTaskEngine.

(** ** notifications/BasesQueryWatcher.ts *)

Module BasesQueryWatcher.
Import JsString Host.

Record NotificationItem := {
  itemPath : string;
  title : string;
  isTask : option bool;
  status : option string
}.

Record MonitoredBase := {
  path : string;
  name : string;
  snoozedUntil : Z;
  lastResultCount : nat;
  cachedPaths : gset string
}.

(** The fields of [BaseFileConfig] that the watcher reads. *)
Record BaseFileConfig := {
  configName : option string;
  notify : bool;
  source : option string
}.

Definition EVALUATION_DEBOUNCE_MS : Z := 1000.
Definition STARTUP_SCAN_DELAY_MS : Z := 5000.
Definition PERIODIC_SCAN_INTERVAL_MS : Z := 5 * 60 * 1000.

(** *** The host's timers and event subscriptions *)

(** The three closures the watcher hands to [setTimeout]/[setInterval]. *)
Inductive Callback := StartupScan | DebouncedEvaluation | PeriodicScan.

Record Timer := {
  timerId : positive;
  due : Z;
  callback : Callback;
  repeatEvery : option Z
}.

Inductive EventSource := TaskUpdated | MetadataChanged | VaultDelete | VaultRename.

(** The fields of the watcher object. *)
Record Watcher := {
  monitoredBases : list (string * MonitoredBase);
  taskUpdateListener : option positive;
  metadataListener : option positive;
  fileDeleteListener : option positive;
  fileRenameListener : option positive;
  scanTimeout : option positive;
  pendingEvaluations : list string;
  evaluationDebounceTimer : option positive;
  initialized : bool
}.

(** The watcher together with what it shares with its host: the timer
    table, the subscription table, the handle counter, the notification
    modals opened so far, and a log of the evaluation passes begun (time
    and snapshot of each). *)
Record World := {
  self : Watcher;
  timers : list Timer;
  listeners : list (positive * EventSource);
  nextHandle : positive;
  openedModals : list (string * string * list NotificationItem);
  passLog : list (Z * list string)
}.

(** Collaborators, as functions of the time of the call: the [.base]
    files of the vault (path and basename), [vault.read] followed by
    [parseBaseConfig] (which throws only when the read is rejected),
    whether a path is a file, the items of an open Bases view on a path (if
    there is one; scanning the leaves may throw), and
    [evaluateSourceFilter]. *)
Record Env := {
  baseFiles : Z -> list (string * string);
  readBaseConfig : Z -> string -> outcome BaseFileConfig;
  isFile : Z -> string -> bool;
  liveView : Z -> string -> outcome (option (list NotificationItem));
  evaluateSourceFilter : Z -> string -> outcome (list NotificationItem)
}.

(** *** Insertion-ordered [Map] and [Set] *)

Definition mapGet {A} (k : string) (m : list (string * A)) : option A :=
  snd <$> List.find (fun e => String.eqb (fst e) k) m.

Definition mapHas {A} (k : string) (m : list (string * A)) : bool :=
  existsb (fun e => String.eqb (fst e) k) m.

Definition mapAlter {A} (f : A -> A) (k : string) (m : list (string * A))
  : list (string * A) :=
  map (fun e => if String.eqb (fst e) k then (fst e, f (snd e)) else e) m.

Definition mapSet {A} (k : string) (v : A) (m : list (string * A))
  : list (string * A) :=
  if mapHas k m then mapAlter (fun _ => v) k m else (m ++ [(k, v)])%list.

Definition mapDelete {A} (k : string) (m : list (string * A))
  : list (string * A) :=
  List.filter (fun e => negb (String.eqb (fst e) k)) m.

Definition setAdd (x : string) (s : list string) : list string :=
  if existsb (String.eqb x) s then s else (s ++ [x])%list.

(** *** Field updates *)

Definition withBases (m : list (string * MonitoredBase)) (w : Watcher) : Watcher :=
  {| monitoredBases := m;
     taskUpdateListener := taskUpdateListener w;
     metadataListener := metadataListener w;
     fileDeleteListener := fileDeleteListener w;
     fileRenameListener := fileRenameListener w;
     scanTimeout := scanTimeout w;
     pendingEvaluations := pendingEvaluations w;
     evaluationDebounceTimer := evaluationDebounceTimer w;
     initialized := initialized w |}.

Definition withPending (p : list string) (w : Watcher) : Watcher :=
  {| monitoredBases := monitoredBases w;
     taskUpdateListener := taskUpdateListener w;
     metadataListener := metadataListener w;
     fileDeleteListener := fileDeleteListener w;
     fileRenameListener := fileRenameListener w;
     scanTimeout := scanTimeout w;
     pendingEvaluations := p;
     evaluationDebounceTimer := evaluationDebounceTimer w;
     initialized := initialized w |}.

Definition withDebounceTimer (t : option positive) (w : Watcher) : Watcher :=
  {| monitoredBases := monitoredBases w;
     taskUpdateListener := taskUpdateListener w;
     metadataListener := metadataListener w;
     fileDeleteListener := fileDeleteListener w;
     fileRenameListener := fileRenameListener w;
     scanTimeout := scanTimeout w;
     pendingEvaluations := pendingEvaluations w;
     evaluationDebounceTimer := t;
     initialized := initialized w |}.

Definition withScanTimeout (t : option positive) (w : Watcher) : Watcher :=
  {| monitoredBases := monitoredBases w;
     taskUpdateListener := taskUpdateListener w;
     metadataListener := metadataListener w;
     fileDeleteListener := fileDeleteListener w;
     fileRenameListener := fileRenameListener w;
     scanTimeout := t;
     pendingEvaluations := pendingEvaluations w;
     evaluationDebounceTimer := evaluationDebounceTimer w;
     initialized := initialized w |}.

Definition withInitialized (b : bool) (w : Watcher) : Watcher :=
  {| monitoredBases := monitoredBases w;
     taskUpdateListener := taskUpdateListener w;
     metadataListener := metadataListener w;
     fileDeleteListener := fileDeleteListener w;
     fileRenameListener := fileRenameListener w;
     scanTimeout := scanTimeout w;
     pendingEvaluations := pendingEvaluations w;
     evaluationDebounceTimer := evaluationDebounceTimer w;
     initialized := b |}.

Definition withListeners (task meta del ren : option positive) (w : Watcher)
  : Watcher :=
  {| monitoredBases := monitoredBases w;
     taskUpdateListener := task;
     metadataListener := meta;
     fileDeleteListener := del;
     fileRenameListener := ren;
     scanTimeout := scanTimeout w;
     pendingEvaluations := pendingEvaluations w;
     evaluationDebounceTimer := evaluationDebounceTimer w;
     initialized := initialized w |}.

Definition withSelf (s : Watcher) (w : World) : World :=
  {| self := s; timers := timers w; listeners := listeners w;
     nextHandle := nextHandle w; openedModals := openedModals w;
     passLog := passLog w |}.

Definition onSelf (f : Watcher -> Watcher) (w : World) : World :=
  withSelf (f (self w)) w.

(** *** Host primitives *)

(** [setTimeout] / [setInterval]: a fresh positive handle is returned. *)
Definition addTimer (cb : Callback) (delay : Z) (periodic : bool) (now : Z)
           (w : World) : positive * World :=
  let id := nextHandle w in
  (id,
   {| self := self w;
      timers := (timers w ++ [{| timerId := id; due := now + delay; callback := cb;
                                repeatEvery := if periodic then Some delay else None |}])%list;
      listeners := listeners w;
      nextHandle := Pos.succ id;
      openedModals := openedModals w;
      passLog := passLog w |}).

Definition clearTimeout (id : positive) (w : World) : World :=
  {| self := self w;
     timers := List.filter (fun t => negb (Pos.eqb (timerId t) id)) (timers w);
     listeners := listeners w;
     nextHandle := nextHandle w;
     openedModals := openedModals w;
     passLog := passLog w |}.

(** [emitter.on(...)]: a fresh [EventRef]. *)
Definition subscribe (src : EventSource) (w : World) : positive * World :=
  let id := nextHandle w in
  (id,
   {| self := self w;
      timers := timers w;
      listeners := (listeners w ++ [(id, src)])%list;
      nextHandle := Pos.succ id;
      openedModals := openedModals w;
      passLog := passLog w |}).

Definition offref (ref : positive) (w : World) : World :=
  {| self := self w;
     timers := timers w;
     listeners := List.filter (fun l => negb (Pos.eqb (fst l) ref)) (listeners w);
     nextHandle := nextHandle w;
     openedModals := openedModals w;
     passLog := passLog w |}.

(** [modal.open()] *)
Definition openModal (m : MonitoredBase) (items : list NotificationItem)
           (w : World) : World :=
  {| self := self w;
     timers := timers w;
     listeners := listeners w;
     nextHandle := nextHandle w;
     openedModals := (openedModals w ++ [(path m, name m, items)])%list;
     passLog := passLog w |}.

Definition logPass (now : Z) (snapshot : list string) (w : World) : World :=
  {| self := self w;
     timers := timers w;
     listeners := listeners w;
     nextHandle := nextHandle w;
     openedModals := openedModals w;
     passLog := (passLog w ++ [(now, snapshot)])%list |}.

(** *** The watcher's methods *)

Section Methods.
Variable env : Env.

Definition setCached (paths : gset string) (count : nat) (m : MonitoredBase)
  : MonitoredBase :=
  {| path := path m; name := name m; snoozedUntil := snoozedUntil m;
     lastResultCount := count; cachedPaths := paths |}.

Definition setSnoozedUntil (t : Z) (m : MonitoredBase) : MonitoredBase :=
  {| path := path m; name := name m; snoozedUntil := t;
     lastResultCount := lastResultCount m; cachedPaths := cachedPaths m |}.

Definition setPath (p : string) (m : MonitoredBase) : MonitoredBase :=
  {| path := p; name := name m; snoozedUntil := snoozedUntil m;
     lastResultCount := lastResultCount m; cachedPaths := cachedPaths m |}.

(** [checkAndRegisterBase] on the registry. *)
Definition checkAndRegisterBase (now : Z) (file : string * string)
           (reg : list (string * MonitoredBase)) : list (string * MonitoredBase) :=
  let '(filePath, fileBasename) := file in
  match readBaseConfig env now filePath with
  | Returned config =>
      if notify config then
        let existing := mapGet filePath reg in
        mapSet filePath
          {| path := filePath;
             name := orElse (default "" (configName config)) fileBasename;
             snoozedUntil := default 0%Z (snoozedUntil <$> existing);
             lastResultCount := default 0 (lastResultCount <$> existing);
             cachedPaths := default ∅ (cachedPaths <$> existing) |}
          reg
      else mapDelete filePath reg
  | Threw _ => reg
  end.

Definition scanForMonitoredBases (now : Z) (w : World) : World :=
  onSelf (fun s =>
            withBases (fold_left (fun reg file => checkAndRegisterBase now file reg)
                                 (baseFiles env now) (monitoredBases s)) s) w.

(** [scheduleEvaluation] *)
Definition scheduleEvaluation (now : Z) (w : World) : World :=
  let w1 := match evaluationDebounceTimer (self w) with
            | Some id => clearTimeout id w
            | None => w
            end in
  let '(id, w2) := addTimer DebouncedEvaluation EVALUATION_DEBOUNCE_MS false now w1 in
  onSelf (withDebounceTimer (Some id)) w2.

(** The two marking loops of [handlePathChange]. *)
Definition markCached (changedPath : string) (reg : list (string * MonitoredBase))
           (pending : list string) : list string :=
  fold_left (fun p e =>
               if bool_decide (changedPath ∈ cachedPaths (snd e))
               then setAdd (fst e) p else p) reg pending.

Definition markNotSnoozed (now : Z) (reg : list (string * MonitoredBase))
           (pending : list string) : list string :=
  fold_left (fun p e =>
               if (snoozedUntil (snd e) <=? now)%Z
               then setAdd (fst e) p else p) reg pending.

Definition handlePathChange (changedPath : string) (now : Z) (w : World)
  : World :=
  let w1 :=
    onSelf (fun s =>
              withPending
                (markNotSnoozed now (monitoredBases s)
                   (markCached changedPath (monitoredBases s)
                               (pendingEvaluations s))) s) w in
  scheduleEvaluation now w1.

(** [evaluateWithTemporaryView]: every failure is caught and gives [null]. *)
Definition evaluateWithTemporaryView (now : Z) (filePath : string)
  : option (list NotificationItem) :=
  match readBaseConfig env now filePath with
  | Returned config =>
      if truthy (default "" (source config)) then
        match evaluateSourceFilter env now (default "" (source config)) with
        | Returned items => Some items
        | Threw _ => None
        end
      else None
  | Threw _ => None
  end.

(** [evaluateBaseQuery] *)
Definition evaluateBaseQuery (now : Z) (basePath : string)
  : outcome (option (list NotificationItem)) :=
  if negb (isFile env now basePath) then Returned None
  else match liveView env now basePath with
       | Threw message => Threw message
       | Returned (Some items) => Returned (Some items)
       | Returned None => Returned (evaluateWithTemporaryView now basePath)
       end.

Definition pathSet (results : list NotificationItem) : gset string :=
  list_to_set (map itemPath results).

(** [showNotification] *)
Definition showNotification (m : MonitoredBase) (items : list NotificationItem)
           (w : World) : World :=
  openModal m items w.

(** The body of the loop of [evaluatePendingBases], run in one piece:
    nothing else of the watcher runs between the look at the registry and
    the write of the result.  [WatcherObjects.evaluateOne] has what can
    happen while the evaluation awaits [evaluateBaseQuery]. *)
Definition evaluateOne (now : Z) (w : World) (basePath : string) : World :=
  match mapGet basePath (monitoredBases (self w)) with
  | None => w
  | Some monitored =>
      if (snoozedUntil monitored >? now)%Z then w
      else
        match evaluateBaseQuery now basePath with
        | Returned (Some (r :: rs)) =>
            let results := r :: rs in
            let updated := setCached (pathSet results) (List.length results) in
            showNotification (updated monitored) results
              (onSelf (fun s => withBases (mapAlter updated basePath (monitoredBases s)) s) w)
        | Returned _ =>
            onSelf (fun s => withBases (mapAlter (setCached ∅ 0) basePath
                                                 (monitoredBases s)) s) w
        | Threw _ => w
        end
  end.

(** [evaluatePendingBases], each evaluation of the pass run in one
    piece. *)
Definition evaluatePendingBases (now : Z) (w : World) : World :=
  match pendingEvaluations (self w) with
  | [] => w
  | toEvaluate =>
      let w1 := logPass now toEvaluate (onSelf (withPending []) w) in
      fold_left (evaluateOne now) toEvaluate w1
  end.

(** [snoozeBase] *)
Definition snoozeBase (basePath : string) (durationMinutes : Z) (now : Z)
           (w : World) : World :=
  match mapGet basePath (monitoredBases (self w)) with
  | Some _ =>
      onSelf (fun s =>
                withBases
                  (mapAlter (setSnoozedUntil (now + durationMinutes * 60 * 1000))
                            basePath (monitoredBases s)) s) w
  | None => w
  end.

(** [startPeriodicScan]: the handle returned by [setInterval] is dropped. *)
Definition startPeriodicScan (now : Z) (w : World) : World :=
  snd (addTimer PeriodicScan PERIODIC_SCAN_INTERVAL_MS true now w).

(** The closure run by the periodic timer. *)
Definition periodicScan (now : Z) (w : World) : World :=
  let w1 := scanForMonitoredBases now w in
  let w2 := onSelf (fun s => withPending
                               (markNotSnoozed now (monitoredBases s)
                                               (pendingEvaluations s)) s) w1 in
  if (0 <? List.length (pendingEvaluations (self w2)))%nat
  then evaluatePendingBases now w2 else w2.

(** [setupEventListeners] *)
Definition setupEventListeners (w : World) : World :=
  let '(r1, w1) := subscribe TaskUpdated w in
  let '(r2, w2) := subscribe MetadataChanged w1 in
  let '(r3, w3) := subscribe VaultDelete w2 in
  let '(r4, w4) := subscribe VaultRename w3 in
  onSelf (withListeners (Some r1) (Some r2) (Some r3) (Some r4)) w4.

(** The closure run by the start-up timer. *)
Definition startupScan (now : Z) (w : World) : World :=
  startPeriodicScan now (setupEventListeners (scanForMonitoredBases now w)).

(** The closure run by the debounce timer. *)
Definition debouncedEvaluation (now : Z) (w : World) : World :=
  evaluatePendingBases now (onSelf (withDebounceTimer None) w).

(** [initialize] *)
Definition initialize (now : Z) (w : World) : World :=
  if initialized (self w) then w
  else
    let w1 := onSelf (withInitialized true) w in
    let '(id, w2) := addTimer StartupScan STARTUP_SCAN_DELAY_MS false now w1 in
    onSelf (withScanTimeout (Some id)) w2.

Definition release (ref : option positive) (w : World) : World :=
  match ref with Some r => offref r w | None => w end.

(** [destroy] *)
Definition destroy (w : World) : World :=
  let w1 := match scanTimeout (self w) with
            | Some id => onSelf (withScanTimeout None) (clearTimeout id w)
            | None => w
            end in
  let w2 := match evaluationDebounceTimer (self w1) with
            | Some id => onSelf (withDebounceTimer None) (clearTimeout id w1)
            | None => w1
            end in
  let w3 := release (taskUpdateListener (self w2)) w2 in
  let w4 := release (metadataListener (self w3)) w3 in
  let w5 := release (fileDeleteListener (self w4)) w4 in
  let w6 := release (fileRenameListener (self w5)) w5 in
  onSelf (fun s => withInitialized false
                     (withPending []
                        (withBases [] (withListeners None None None None s)))) w6.

(** [triggerEvaluation] *)
Definition triggerEvaluation (basePath : string) (now : Z) (w : World) : World :=
  evaluatePendingBases now
    (onSelf (fun s => withPending (setAdd basePath (pendingEvaluations s)) s) w).

(** [showNotificationFromView] *)
Definition showNotificationFromView (basePath baseName : string)
           (items : list NotificationItem) (now : Z) (w : World) : World :=
  match items with
  | [] => w
  | _ =>
      let fresh := {| path := basePath; name := baseName; snoozedUntil := 0;
                      lastResultCount := 0; cachedPaths := ∅ |} in
      let w1 := match mapGet basePath (monitoredBases (self w)) with
                | Some _ => w
                | None => onSelf (fun s => withBases (mapSet basePath fresh
                                                        (monitoredBases s)) s) w
                end in
      let monitored := default fresh (mapGet basePath (monitoredBases (self w1))) in
      if (snoozedUntil monitored >? now)%Z then w1
      else
        let updated := setCached (pathSet items) (List.length items) in
        showNotification (updated monitored) items
          (onSelf (fun s => withBases (mapAlter updated basePath (monitoredBases s)) s) w1)
  end.

(** *** The listeners installed by [setupEventListeners] *)

(** A file as an event reports it: path, basename and extension. *)
Record FileRef := {
  filePath : string;
  fileBasename : string;
  extension : string
}.

Inductive HostEvent :=
| TaskUpdatedEvent (taskPath : option string)
| MetadataChangedEvent (file : FileRef)
| FileDeletedEvent (file : FileRef)
| FileRenamedEvent (file : FileRef) (oldPath : string).

Definition sourceOf (ev : HostEvent) : EventSource :=
  match ev with
  | TaskUpdatedEvent _ => TaskUpdated
  | MetadataChangedEvent _ => MetadataChanged
  | FileDeletedEvent _ => VaultDelete
  | FileRenamedEvent _ _ => VaultRename
  end.

Definition onRegistry (f : list (string * MonitoredBase) -> list (string * MonitoredBase))
           (w : World) : World :=
  onSelf (fun s => withBases (f (monitoredBases s)) s) w.

(** The bodies of the four listeners. *)
Definition handleEvent (ev : HostEvent) (now : Z) (w : World) : World :=
  match ev with
  | TaskUpdatedEvent taskPath =>
      if truthy (default "" taskPath)
      then handlePathChange (default "" taskPath) now w else w
  | MetadataChangedEvent file =>
      if String.eqb (extension file) "base"
      then onRegistry (checkAndRegisterBase now (filePath file, fileBasename file)) w
      else if String.eqb (extension file) "md"
           then handlePathChange (filePath file) now w
           else w
  | FileDeletedEvent file =>
      if String.eqb (extension file) "base"
      then onRegistry (mapDelete (filePath file)) w
      else handlePathChange (filePath file) now w
  | FileRenamedEvent file oldPath =>
      if String.eqb (extension file) "base" then
        match mapGet oldPath (monitoredBases (self w)) with
        | Some existing =>
            onRegistry (fun reg => mapSet (filePath file) (setPath (filePath file) existing)
                                          (mapDelete oldPath reg)) w
        | None => w
        end
      else handlePathChange oldPath now (handlePathChange (filePath file) now w)
  end.

(** The host delivers an event to the watcher only through a live
    subscription. *)
Definition dispatch (ev : HostEvent) (now : Z) (w : World) : World :=
  if existsb (fun l => match snd l, sourceOf ev with
                       | TaskUpdated, TaskUpdated
                       | MetadataChanged, MetadataChanged
                       | VaultDelete, VaultDelete
                       | VaultRename, VaultRename => true
                       | _, _ => false
                       end) (listeners w)
  then handleEvent ev now w else w.

(** *** The host's timer queue *)

Definition runCallback (cb : Callback) (now : Z) (w : World) : World :=
  match cb with
  | StartupScan => startupScan now w
  | DebouncedEvaluation => debouncedEvaluation now w
  | PeriodicScan => periodicScan now w
  end.

Definition rearm (now : Z) (t : Timer) (tbl : list Timer) : list Timer :=
  match repeatEvery t with
  | Some period =>
      map (fun u => if Pos.eqb (timerId u) (timerId t)
                    then {| timerId := timerId u; due := now + period;
                            callback := callback u; repeatEvery := repeatEvery u |}
                    else u) tbl
  | None => List.filter (fun u => negb (Pos.eqb (timerId u) (timerId t))) tbl
  end.

(** The host fires timer [t], unless it was cleared in the meantime: a
    one-shot timer leaves the table, an interval is re-armed, then the
    closure runs. *)
Definition fireTimer (now : Z) (w : World) (t : Timer) : World :=
  if existsb (fun u => Pos.eqb (timerId u) (timerId t)) (timers w) then
    runCallback (callback t) now
      {| self := self w; timers := rearm now t (timers w);
         listeners := listeners w; nextHandle := nextHandle w;
         openedModals := openedModals w; passLog := passLog w |}
  else w.

Fixpoint insertByDue (t : Timer) (l : list Timer) : list Timer :=
  match l with
  | [] => [t]
  | u :: r => if (due t <? due u)%Z then t :: l else u :: insertByDue t r
  end.

(** The timers due at [now], earliest first (ties in order of creation). *)
Definition dueTimers (now : Z) (tbl : list Timer) : list Timer :=
  fold_left (fun acc t => insertByDue t acc)
            (List.filter (fun t => (due t <=? now)%Z) tbl) [].

(** One turn of the timer queue at time [now]: every timer that has fallen
    due by then fires, each at its own due time. *)
Definition advanceTo (now : Z) (w : World) : World :=
  fold_left (fun w t => fireTimer (due t) w t) (dueTimers now (timers w)) w.

(** A sequence of change events [(time, path)] reaching
    [handlePathChange], the timer queue being served before each. *)
Definition deliver (events : list (Z * string)) (w : World) : World :=
  fold_left (fun w e => handlePathChange (snd e) (fst e) (advanceTo (fst e) w))
            events w.

End Methods.

Definition newWatcher : Watcher :=
  {| monitoredBases := []; taskUpdateListener := None; metadataListener := None;
     fileDeleteListener := None; fileRenameListener := None; scanTimeout := None;
     pendingEvaluations := []; evaluationDebounceTimer := None;
     initialized := false |}.

(** A freshly constructed watcher in a host with no timers. *)
Definition newWorld : World :=
  {| self := newWatcher; timers := []; listeners := []; nextHandle := 1%positive;
     openedModals := []; passLog := [] |}.

End BasesQueryWatcher.

(** ** Frontmatter as a plain JavaScript object *)

Module PlainObject.
Import JsString Host.

(** The names that a plain object inherits from [Object.prototype].  Read
    on an object without an own property of that name, each of them gives
    a function (for [__proto__]: the prototype itself), a value that is
    neither [undefined] nor an array. *)
Definition objectPrototypeNames : list string :=
  [ "constructor"; "__defineGetter__"; "__defineSetter__"; "hasOwnProperty";
    "__lookupGetter__"; "__lookupSetter__"; "isPrototypeOf";
    "propertyIsEnumerable"; "toString"; "valueOf"; "__proto__";
    "toLocaleString" ].

Definition inherited (key : string) : bool :=
  existsb (String.eqb key) objectPrototypeNames.

(** [fm[key] === undefined]: there is no own property and nothing is
    inherited under that name. *)
Definition readsUndefined (fm : Frontmatter) (key : string) : bool :=
  match fm !! key with
  | Some _ => false
  | None => negb (inherited key)
  end.

(** [fm[key] = v] for a string, a boolean or a list [v].  The assignment
    creates or overwrites an own property, with one exception: on an
    object without an own [__proto__] property it reaches the setter
    inherited from [Object.prototype], which ignores a string or a boolean
    and leaves the own properties as they are.  (A list written there
    would become the prototype of the object; the engine writes lists only
    after a read that [__proto__] answers, so it never does.) *)
Definition assign (key : string) (v : value) (fm : Frontmatter) : Frontmatter :=
  if String.eqb key "__proto__" && isUndefined (fm !! key) then fm
  else <[ key := v ]> fm.

End PlainObject.

(** ** bulk-convert-engine.ts, as it runs in the host

    The engine once more, with what the first model leaves to the host:
    the frontmatter handed to the callback is a plain object, the write is
    followed by the wait for the metadata cache, the classifier of the dry
    run and the optional progress callback are foreign code that may
    throw, and every [await] outside a [try] lets the rejection through to
    the caller. *)

Module ConvertExecution.
Import JsString Host PlainObject BulkConvertEngine.

(** The collaborators of a run: those of [BulkConvertEngine], the
    message with which [cacheManager.isTaskFile] throws on a frontmatter
    (if it does), and [cacheManager.waitForFreshTaskData], an optional
    method whose promise for a path is fulfilled or rejected with a
    message. *)
Record Runtime := {
  services : Collaborators;
  isTaskFileFails : Frontmatter -> option string;
  waitForFreshTaskData : option (string -> option string)
}.

(** [BulkConvertOptions] with its callback: [onProgress current total
    status] returns, or throws a message. *)
Record RunOptions := {
  conversion : BulkConvertOptions;
  onProgress : option (nat -> nat -> string -> option string)
}.

(** How a call of [convertNotes] ends: the vault it leaves, the progress
    reports it made, and the promise it returned, fulfilled with a result
    or rejected. *)
Record Run := {
  vaultAfter : Vault;
  progressReports : list (nat * nat * string);
  settled : outcome BulkConvertResult
}.

Section Convert.
Variable settings : Settings.
Variable fieldMapper : FieldMapper.
Variable host : Runtime.

(** [if (fm[key] === undefined) fm[key] = v] *)
Definition setIfUndefined (key : string) (v : value) (fm : Frontmatter)
  : Frontmatter :=
  if readsUndefined fm key then assign key v fm else fm.

(** Step 1, property method. *)
Definition identifyByProperty (fm : Frontmatter) : Frontmatter :=
  let propName := taskPropertyName settings in
  let propValue := taskPropertyValue settings in
  if truthy propName && readsUndefined fm propName then
    if String.eqb propValue "true" then assign propName (VBool true) fm
    else if String.eqb propValue "false" then assign propName (VBool false) fm
    else assign propName (VStr propValue) fm
  else fm.

(** Step 1, tag method: [tags] is not an inherited name, so the step is
    the one of [BulkConvertEngine]. *)
Definition identify (fm : Frontmatter) : Frontmatter :=
  match taskIdentificationMethod settings with
  | PropertyMethod => identifyByProperty fm
  | TagMethod => identifyByTag settings fm
  end.

(** Step 2. *)
Definition applyDefaultFields (created : string) (fm : Frontmatter)
  : Frontmatter :=
  let fm1 := setIfUndefined (statusField fieldMapper)
               (VStr (orElse (defaultTaskStatus settings) "open")) fm in
  let fm2 := setIfUndefined (priorityField fieldMapper)
               (VStr (orElse (defaultTaskPriority settings) "normal")) fm1 in
  setIfUndefined (dateCreatedField fieldMapper) (VStr created) fm2.

(** Step 2.5. *)
Definition linkToBaseView (vault : Vault) (options : BulkConvertOptions)
           (filePath : string) (fm : Frontmatter) : Frontmatter :=
  match linkTarget vault options with
  | Some base =>
      let link := generateMarkdownLink (services host) base filePath in
      if readsUndefined fm (projectsField fieldMapper)
      then assign (projectsField fieldMapper) (VList [VStr link]) fm
      else match fm !! projectsField fieldMapper with
           | Some (VList ps) =>
               if negb (includesStr ps link)
               then assign (projectsField fieldMapper) (VList (ps ++ [VStr link])) fm
               else fm
           | _ => fm
           end
  | None => fm
  end.

(** The callback handed to [processFrontMatter]. *)
Definition convertFrontmatter (vault : Vault) (options : BulkConvertOptions)
           (filePath : string) (fm : Frontmatter) : Frontmatter :=
  let fm1 := identify fm in
  let fm2 := if applyDefaults options
             then applyDefaultFields (timestampCreated (services host) filePath) fm1
             else fm1 in
  let fm3 := linkToBaseView vault options filePath fm2 in
  assign (dateModifiedField fieldMapper)
         (VStr (timestampModified (services host) filePath)) fm3.

(** The wait that follows the write, when the cache manager has the
    method. *)
Definition awaitFreshTaskData (filePath : string) : outcome unit :=
  match waitForFreshTaskData host with
  | Some wait =>
      match wait filePath with
      | Some message => Threw message
      | None => Returned tt
      end
  | None => Returned tt
  end.

(** [convertSingleNote]: the vault it leaves and how its promise settles.
    A rejected [processFrontMatter] leaves the note as it was; a rejected
    wait comes after the note has been rewritten. *)
Definition convertSingleNote (vault : Vault) (options : BulkConvertOptions)
           (filePath : string) : Vault * outcome unit :=
  match processFrontMatterFails (services host) filePath with
  | Some message => (vault, Threw message)
  | None =>
      let fm := default ∅ (frontmatterOf vault filePath) in
      (<[ filePath := Some (convertFrontmatter vault options filePath fm) ]> vault,
       awaitFreshTaskData filePath)
  end.

(** [cacheManager.isTaskFile(frontmatter)] *)
Definition classify (fm : Frontmatter) : outcome bool :=
  match isTaskFileFails host fm with
  | Some message => Threw message
  | None => Returned (isTaskFile (services host) fm)
  end.

(** The loop of [preCheck]; the classifier is called outside any [try]. *)
Fixpoint alreadyTaskLoop (vault : Vault) (paths : list (option string))
         (acc : gset string) : outcome (gset string) :=
  match paths with
  | [] => Returned acc
  | p :: rest =>
      let sourcePath := orElse (default "" p) "" in
      if negb (truthy sourcePath) then alreadyTaskLoop vault rest acc
      else if negb (isTFile vault sourcePath) then alreadyTaskLoop vault rest acc
      else match frontmatterOf vault sourcePath with
           | Some fm =>
               match classify fm with
               | Returned true => alreadyTaskLoop vault rest ({[ sourcePath ]} ∪ acc)
               | Returned false => alreadyTaskLoop vault rest acc
               | Threw message => Threw message
               end
           | None => alreadyTaskLoop vault rest acc
           end
  end.

Definition preCheck (vault : Vault) (paths : list (option string))
  : outcome ConvertPreCheckResult :=
  match alreadyTaskLoop vault paths ∅ with
  | Returned already =>
      Returned {| toConvert := List.length paths - size already;
                  alreadyTasks := size already;
                  alreadyTaskPaths := already |}
  | Threw message => Threw message
  end.

(** The state of the loop of [convertNotes]. *)
Record LoopState := {
  vaultNow : Vault;
  result : BulkConvertResult;
  reports : list (nat * nat * string)
}.

(** [options.onProgress?.(current, total, status)] *)
Definition report (options : RunOptions) (current total : nat) (status : string)
  : option string :=
  match onProgress options with
  | Some callback => callback current total status
  | None => None
  end.

Definition reported (options : RunOptions) (current total : nat) (status : string)
           (log : list (nat * nat * string)) : list (nat * nat * string) :=
  match onProgress options with
  | Some _ => (log ++ [(current, total, status)])%list
  | None => log
  end.

(** The body of the loop after the progress report. *)
Definition convertStep (pre : ConvertPreCheckResult) (options : RunOptions)
           (sourcePath : string) (st : LoopState) : LoopState :=
  let r := result st in
  if decide (sourcePath ∈ alreadyTaskPaths pre) then
    {| vaultNow := vaultNow st;
       result := {| converted := converted r; skipped := S (skipped r);
                    failed := failed r; errors := errors r;
                    convertedPaths := convertedPaths r |};
       reports := reports st |}
  else if negb (isTFile (vaultNow st) sourcePath) then
    {| vaultNow := vaultNow st;
       result := {| converted := converted r; skipped := skipped r;
                    failed := S (failed r);
                    errors := errors r ++ ["File not found: " ++ sourcePath];
                    convertedPaths := convertedPaths r |};
       reports := reports st |}
  else
    let '(vault', promise) :=
      convertSingleNote (vaultNow st) (conversion options) sourcePath in
    match promise with
    | Returned _ =>
        {| vaultNow := vault';
           result := {| converted := S (converted r); skipped := skipped r;
                        failed := failed r; errors := errors r;
                        convertedPaths := convertedPaths r ++ [sourcePath] |};
           reports := reports st |}
    | Threw errorMsg =>
        {| vaultNow := vault';
           result := {| converted := converted r; skipped := skipped r;
                        failed := S (failed r);
                        errors := errors r
                                  ++ ["Error for " ++ sourcePath ++ ": " ++ errorMsg];
                        convertedPaths := convertedPaths r |};
           reports := reports st |}
    end.

Definition convertingStatus (current total : nat) : string :=
  "Converting " ++ pretty current ++ " of " ++ pretty total ++ "...".

(** The loop of [convertNotes] from index [i] on: the progress report of
    an item is made outside the [try], so a throwing callback ends the
    call. *)
Fixpoint convertLoop (pre : ConvertPreCheckResult) (options : RunOptions)
         (total i : nat) (paths : list (option string)) (st : LoopState) : Run :=
  match paths with
  | [] => {| vaultAfter := vaultNow st; progressReports := reports st;
             settled := Returned (result st) |}
  | p :: rest =>
      let sourcePath := orElse (default "" p) "" in
      let status := convertingStatus (i + 1) total in
      let log := reported options (i + 1) total status (reports st) in
      match report options (i + 1) total status with
      | Some message =>
          {| vaultAfter := vaultNow st; progressReports := log;
             settled := Threw message |}
      | None =>
          convertLoop pre options total (S i) rest
            (convertStep pre options sourcePath
               {| vaultNow := vaultNow st; result := result st; reports := log |})
      end
  end.

(** [convertNotes] *)
Definition convertNotes (vault : Vault) (paths : list (option string))
           (options : RunOptions) : Run :=
  match paths with
  | [] => {| vaultAfter := vault; progressReports := [];
             settled := Returned emptyResult |}
  | _ =>
      let total := List.length paths in
      let log := reported options 0 total "Checking existing tasks..." [] in
      match report options 0 total "Checking existing tasks..." with
      | Some message =>
          {| vaultAfter := vault; progressReports := log; settled := Threw message |}
      | None =>
          match preCheck vault paths with
          | Threw message =>
              {| vaultAfter := vault; progressReports := log;
                 settled := Threw message |}
          | Returned pre =>
              convertLoop pre options total 0 paths
                {| vaultNow := vault; result := emptyResult; reports := log |}
          end
      end
  end.

End Convert.
End ConvertExecution.

(** ** bulk-task-engine.ts, as it runs in the host

    [createTasks] with the progress callback and with the task cache as a
    promise that may be rejected: both are used outside the [try] that
    guards the creation of one item. *)

Module CreateExecution.
Import JsString Host DuplicateDetector BulkTaskEngine.

(** The collaborators of a run: those of [BulkTaskEngine], and
    [cacheManager.getAllTasks()], awaited by the duplicate check. *)
Record Runtime := {
  services : Collaborators;
  getAllTasks : outcome (list TaskInfo)
}.

(** [BulkCreationOptions] with its callback: [onProgress current total
    status] returns, or throws a message. *)
Record RunOptions := {
  creation : BulkCreationOptions;
  onProgress : option (nat -> nat -> string -> option string)
}.

(** How a call of [createTasks] ends: the progress reports made, the
    calls made to the task service, and the promise returned. *)
Record Run := {
  progressReports : list (nat * nat * string);
  serviceRequests : list TaskCreationData;
  settled : outcome BulkCreationResult
}.

Section Create.
Variable host : Runtime.
Variable vault : Vault.

(** [options.onProgress?.(current, total, status)] *)
Definition report (options : RunOptions) (current total : nat) (status : string)
  : option string :=
  match onProgress options with
  | Some callback => callback current total status
  | None => None
  end.

Definition reported (options : RunOptions) (current total : nat) (status : string)
           (log : list (nat * nat * string)) : list (nat * nat * string) :=
  match onProgress options with
  | Some _ => (log ++ [(current, total, status)])%list
  | None => log
  end.

Definition creatingStatus (current total : nat) : string :=
  "Creating task " ++ pretty current ++ " of " ++ pretty total ++ "...".

(** The loop of [createTasks] from index [i] on; the body after the
    progress report is [BulkTaskEngine.createStep]. *)
Fixpoint createLoop (options : RunOptions)
         (duplicateCheck : option DuplicateCheckResult) (total i : nat)
         (items : list BasesDataItem) (st : LoopState)
         (log : list (nat * nat * string)) : Run :=
  match items with
  | [] => {| progressReports := log; serviceRequests := serviceCalls st;
             settled := Returned (BulkTaskEngine.result st) |}
  | item :: rest =>
      let status := creatingStatus (i + 1) total in
      let log' := reported options (i + 1) total status log in
      match report options (i + 1) total status with
      | Some message =>
          {| progressReports := log'; serviceRequests := serviceCalls st;
             settled := Threw message |}
      | None =>
          createLoop options duplicateCheck total (S i) rest
            (createStep (services host) vault (creation options) duplicateCheck item st)
            log'
      end
  end.

(** [createTasks] *)
Definition createTasks (items : list BasesDataItem) (options : RunOptions) : Run :=
  let start := {| BulkTaskEngine.result := emptyResult; serviceCalls := [] |} in
  match items with
  | [] => {| progressReports := []; serviceRequests := [];
             settled := Returned emptyResult |}
  | _ =>
      let total := List.length items in
      if skipExisting (creation options) then
        let log := reported options 0 total "Checking for existing tasks..." [] in
        match report options 0 total "Checking for existing tasks..." with
        | Some message =>
            {| progressReports := log; serviceRequests := [];
               settled := Threw message |}
        | None =>
            match getAllTasks host with
            | Threw message =>
                {| progressReports := log; serviceRequests := [];
                   settled := Threw message |}
            | Returned allTasks =>
                createLoop options
                  (Some (checkForDuplicates allTasks (checkedSourcePaths items)))
                  total 0 items start log
            end
        end
      else createLoop options None total 0 items start []
  end.

(** [preCheck], whose duplicate check awaits the task cache as well. *)
Definition preCheck (items : list BasesDataItem) (skip : bool)
  : outcome (nat * nat * gset string) :=
  if negb skip then Returned (List.length items, 0, ∅)
  else match getAllTasks host with
       | Threw message => Threw message
       | Returned allTasks =>
           Returned (BulkTaskEngine.preCheck allTasks items true)
       end.

End Create.
End CreateExecution.

(** ** The watcher's entries as objects

    [evaluatePendingBases] takes the entry of a query out of the registry,
    checks its snooze deadline, and then awaits [evaluateBaseQuery]; what
    follows the [await] works on the object taken before it.  Other code
    of the watcher can run in between: [checkAndRegisterBase] files a new
    object under the path (which shares the [Set] of the one it replaces),
    [snoozeBase] and the rename listener write to the registered object.
    The model above runs each evaluation in one piece; this one keeps the
    identity of the entry objects and of their [Set]s and takes what runs
    during the [await] as a parameter. *)

Module WatcherObjects.
Import JsString Host BasesQueryWatcher.

(** A [MonitoredBase] object; [cachedPaths] refers to a [Set] object. *)
Record EntryObject := {
  entryPath : string;
  entryName : string;
  entrySnoozedUntil : Z;
  entryResultCount : nat;
  entryCachedPaths : positive
}.

(** The objects by reference, the registry ([this.monitoredBases], from
    path to entry object), and the notifications opened so far. *)
Record Store := {
  entries : gmap positive EntryObject;
  sets : gmap positive (gset string);
  registry : list (string * positive);
  modals : list (string * string * list NotificationItem);
  nextRef : positive
}.

Definition emptyStore : Store :=
  {| entries := ∅; sets := ∅; registry := []; modals := []; nextRef := 1%positive |}.

(** [new Set(paths)] *)
Definition newSet (paths : gset string) (st : Store) : positive * Store :=
  (nextRef st,
   {| entries := entries st; sets := <[ nextRef st := paths ]> (sets st);
      registry := registry st; modals := modals st;
      nextRef := Pos.succ (nextRef st) |}).

(** An object literal for an entry. *)
Definition newEntry (e : EntryObject) (st : Store) : positive * Store :=
  (nextRef st,
   {| entries := <[ nextRef st := e ]> (entries st); sets := sets st;
      registry := registry st; modals := modals st;
      nextRef := Pos.succ (nextRef st) |}).

Definition withEntries (m : gmap positive EntryObject) (st : Store) : Store :=
  {| entries := m; sets := sets st; registry := registry st; modals := modals st;
     nextRef := nextRef st |}.

Definition withSets (m : gmap positive (gset string)) (st : Store) : Store :=
  {| entries := entries st; sets := m; registry := registry st; modals := modals st;
     nextRef := nextRef st |}.

Definition withRegistry (m : list (string * positive)) (st : Store) : Store :=
  {| entries := entries st; sets := sets st; registry := m; modals := modals st;
     nextRef := nextRef st |}.

(** [this.monitoredBases.get(path)]: the object itself. *)
Definition registeredObject (st : Store) (basePath : string) : option positive :=
  mapGet basePath (registry st).

(** The entry filed under a path, read through its object and its [Set]. *)
Definition resolve (st : Store) (ref : positive) : option MonitoredBase :=
  match entries st !! ref with
  | Some e =>
      match sets st !! entryCachedPaths e with
      | Some paths =>
          Some {| path := entryPath e; name := entryName e;
                  snoozedUntil := entrySnoozedUntil e;
                  lastResultCount := entryResultCount e; cachedPaths := paths |}
      | None => None
      end
  | None => None
  end.

Definition lookup (st : Store) (basePath : string) : option MonitoredBase :=
  match registeredObject st basePath with
  | Some ref => resolve st ref
  | None => None
  end.

(** [checkAndRegisterBase], after the read of the file has been awaited:
    a new object is filed under the path; it takes the snooze deadline and
    the result count of the object it replaces and shares its [Set]. *)
Definition registerBase (config : BaseFileConfig) (file : string * string)
           (st : Store) : Store :=
  let '(filePath, fileBasename) := file in
  if notify config then
    let existing :=
      match registeredObject st filePath with
      | Some ref => entries st !! ref
      | None => None
      end in
    let '(paths, st1) :=
      match existing with
      | Some e => (entryCachedPaths e, st)
      | None => newSet ∅ st
      end in
    let '(ref, st2) :=
      newEntry {| entryPath := filePath;
                  entryName := orElse (default "" (configName config)) fileBasename;
                  entrySnoozedUntil := default 0%Z (entrySnoozedUntil <$> existing);
                  entryResultCount := default 0 (entryResultCount <$> existing);
                  entryCachedPaths := paths |} st1 in
    withRegistry (mapSet filePath ref (registry st2)) st2
  else withRegistry (mapDelete filePath (registry st)) st.

Section Methods.
Variable env : Env.

Definition checkAndRegisterBase (now : Z) (file : string * string) (st : Store)
  : Store :=
  match readBaseConfig env now (fst file) with
  | Returned config => registerBase config file st
  | Threw _ => st
  end.

(** [snoozeBase] writes to the registered object. *)
Definition snoozeBase (basePath : string) (durationMinutes : Z) (now : Z)
           (st : Store) : Store :=
  match registeredObject st basePath with
  | Some ref =>
      match entries st !! ref with
      | Some e =>
          withEntries
            (<[ ref := {| entryPath := entryPath e; entryName := entryName e;
                          entrySnoozedUntil := now + durationMinutes * 60 * 1000;
                          entryResultCount := entryResultCount e;
                          entryCachedPaths := entryCachedPaths e |} ]> (entries st)) st
      | None => st
      end
  | None => st
  end.

(** The loop body of [evaluatePendingBases] up to the [await]: the
    object taken from the registry, unless there is none or the query is
    snoozed. *)
Definition holdEntry (now : Z) (st : Store) (basePath : string) : option positive :=
  match registeredObject st basePath with
  | Some ref =>
      match entries st !! ref with
      | Some e => if (entrySnoozedUntil e >? now)%Z then None else Some ref
      | None => None
      end
  | None => None
  end.

(** The loop body after the [await]: the results go into the object held
    (a new [Set] for a non-empty result, the old one cleared otherwise),
    and the notification is opened with the path and the name of that
    object.  There is no second look at the registry or at the deadline. *)
Definition resumeWith (held : positive)
           (answer : outcome (option (list NotificationItem))) (st : Store) : Store :=
  match entries st !! held with
  | None => st
  | Some e =>
      match answer with
      | Returned (Some (r :: rs)) =>
          let results := r :: rs in
          let '(paths, st1) := newSet (pathSet results) st in
          let st2 :=
            withEntries
              (<[ held := {| entryPath := entryPath e; entryName := entryName e;
                             entrySnoozedUntil := entrySnoozedUntil e;
                             entryResultCount := List.length results;
                             entryCachedPaths := paths |} ]> (entries st1)) st1 in
          {| entries := entries st2; sets := sets st2; registry := registry st2;
             modals := (modals st2 ++ [(entryPath e, entryName e, results)])%list;
             nextRef := nextRef st2 |}
      | Returned _ =>
          withEntries
            (<[ held := {| entryPath := entryPath e; entryName := entryName e;
                           entrySnoozedUntil := entrySnoozedUntil e;
                           entryResultCount := 0;
                           entryCachedPaths := entryCachedPaths e |} ]> (entries st))
            (withSets (<[ entryCachedPaths e := ∅ ]> (sets st)) st)
      | Threw _ => st
      end
  end.

(** One evaluation, with what the watcher does while it awaits the
    result. *)
Definition evaluateOne (now : Z) (meanwhile : Store -> Store) (st : Store)
           (basePath : string) : Store :=
  match holdEntry now st basePath with
  | Some held => resumeWith held (evaluateBaseQuery env now basePath) (meanwhile st)
  | None => st
  end.

End Methods.
End WatcherObjects.

(** * Properties *)

(** ** Reference resolution *)

Module ReferenceProofs.
Import JsString DuplicateDetector.

Fixpoint allChars (p : ascii -> bool) (s : string) : bool :=
  match s with
  | EmptyString => true
  | String c r => p c && allChars p r
  end.

(** [s] does not begin with a character accepted by [p]. *)
Definition stopsAt (p : ascii -> bool) (s : string) : Prop :=
  match s with
  | EmptyString => True
  | String c _ => p c = false
  end.

Fixpoint lastChar (s : string) : option ascii :=
  match s with
  | EmptyString => None
  | String c EmptyString => Some c
  | String _ r => lastChar r
  end.

Definition EndsWith (s suffix : string) : Prop := exists pre, s = pre ++ suffix.

Lemma toLowerChar_idem c : toLowerChar (toLowerChar c) = toLowerChar c.
Proof. destruct c as [[] [] [] [] [] [] [] []]; reflexivity. Qed.

Lemma toLowerCase_idem s : toLowerCase (toLowerCase s) = toLowerCase s.
Proof.
  induction s as [|c r IH]; simpl; [reflexivity|].
  now rewrite toLowerChar_idem, IH.
Qed.

Lemma toLowerCase_length s : String.length (toLowerCase s) = String.length s.
Proof. induction s as [|c r IH]; simpl; congruence. Qed.

Lemma isDotMd_length s : isDotMd s = true -> String.length s = 3.
Proof. destruct s as [|a [|b [|c [|d r]]]]; simpl; now try discriminate. Qed.

Lemma stripMd_id s : hasMdSuffix s = false -> stripMd s = s.
Proof.
  induction s as [|c r IH]; [reflexivity|].
  cbn [hasMdSuffix stripMd]. destruct (isDotMd (String c r)); [discriminate|].
  intros H. now rewrite IH.
Qed.

Lemma stripMd_shorter s :
  hasMdSuffix s = true -> String.length (stripMd s) + 3 = String.length s.
Proof.
  induction s as [|c r IH]; [discriminate|].
  cbn [hasMdSuffix stripMd]. destruct (isDotMd (String c r)) eqn:E.
  - intros _. apply isDotMd_length in E. simpl in *. lia.
  - intros H. simpl. rewrite <- (IH H). lia.
Qed.

Lemma append_cons c s t : String c s ++ t = String c (s ++ t).
Proof. reflexivity. Qed.

Lemma append_nil t : "" ++ t = t.
Proof. reflexivity. Qed.

Lemma append_nil_r s : s ++ "" = s.
Proof. induction s as [|c r IH]; [reflexivity|]. now rewrite append_cons, IH. Qed.

Lemma span_append p a b :
  allChars p a = true -> stopsAt p b -> span p (a ++ b) = (a, b).
Proof.
  induction a as [|c r IH]; simpl; intros Ha Hb.
  - destruct b as [|c r]; [reflexivity|]. simpl in *. now rewrite Hb.
  - apply andb_true_iff in Ha as [Hc Hr]. now rewrite Hc, IH.
Qed.

Lemma span_spec p s a b : span p s = (a, b) -> s = a ++ b.
Proof.
  revert a b. induction s as [|c r IH]; simpl; intros a b H.
  - now inversion H.
  - destruct (p c).
    + destruct (span p r) as [a' b'] eqn:E. specialize (IH a' b' eq_refl).
      inversion H; subst. reflexivity.
    + now inversion H.
Qed.

Lemma lastChar_cons c s : s <> "" -> lastChar (String c s) = lastChar s.
Proof. destruct s; [congruence|reflexivity]. Qed.

Lemma lastChar_append a b : b <> "" -> lastChar (a ++ b) = lastChar b.
Proof.
  intros Hb. induction a as [|c r IH]; [reflexivity|].
  change (String c r ++ b) with (String c (r ++ b)).
  rewrite lastChar_cons; [exact IH|].
  destruct r; simpl; [exact Hb|discriminate].
Qed.

(** The wiki-link expression only matches a text that ends in a closing
    bracket. *)
Lemma wikiMatch_lastChar link target :
  wikiMatch link = Some target -> lastChar link = Some "]"%char.
Proof.
  unfold wikiMatch.
  destruct link as [|c0 [|c1 rest]]; try discriminate.
  destruct (Ascii.eqb c0 "[" && Ascii.eqb c1 "["); [|discriminate].
  destruct (span _ rest) as [g r1] eqn:E1. apply span_spec in E1. subst rest.
  destruct (String.eqb_spec g "") as [|Hg]; [discriminate|].
  assert (Hgt : forall t, t <> "" -> g ++ t <> "").
  { intros t Ht. destruct g; [exact Ht|discriminate]. }
  destruct (String.eqb_spec r1 "]]") as [->|_].
  { intros _.
    rewrite lastChar_cons by discriminate.
    rewrite lastChar_cons by (apply Hgt; discriminate).
    now rewrite lastChar_append. }
  destruct r1 as [|c2 r2]; [discriminate|].
  destruct (Ascii.eqb c2 "|"); [|discriminate].
  destruct (span (fun c => negb (Ascii.eqb c "]")) r2) as [al r3] eqn:E2.
  apply span_spec in E2. subst r2.
  destruct (String.eqb al ""); [discriminate|].
  destruct (String.eqb_spec r3 "]]") as [->|_]; [|discriminate].
  intros _.
  assert (Hal : al ++ "]]" <> "") by (destruct al; discriminate).
  rewrite lastChar_cons by discriminate.
  rewrite lastChar_cons by (apply Hgt; discriminate).
  rewrite lastChar_append by discriminate.
  rewrite lastChar_cons by exact Hal.
  now rewrite lastChar_append.
Qed.

Lemma toLowerChar_dot c : Ascii.eqb (toLowerChar c) "." = Ascii.eqb c ".".
Proof. destruct c as [[] [] [] [] [] [] [] []]; reflexivity. Qed.

Lemma toLowerChar_m c :
  Ascii.eqb (toLowerChar c) "m" || Ascii.eqb (toLowerChar c) "M"
  = Ascii.eqb c "m" || Ascii.eqb c "M".
Proof. destruct c as [[] [] [] [] [] [] [] []]; reflexivity. Qed.

Lemma toLowerChar_d c :
  Ascii.eqb (toLowerChar c) "d" || Ascii.eqb (toLowerChar c) "D"
  = Ascii.eqb c "d" || Ascii.eqb c "D".
Proof. destruct c as [[] [] [] [] [] [] [] []]; reflexivity. Qed.

Lemma isDotMd_toLowerCase s : isDotMd (toLowerCase s) = isDotMd s.
Proof.
  destruct s as [|a [|b [|c [|d r]]]]; try reflexivity.
  cbn [toLowerCase isDotMd].
  now rewrite toLowerChar_dot, toLowerChar_m, toLowerChar_d.
Qed.

Lemma hasMdSuffix_toLowerCase s : hasMdSuffix (toLowerCase s) = hasMdSuffix s.
Proof.
  induction s as [|c r IH]; [reflexivity|].
  change (toLowerCase (String c r)) with (String (toLowerChar c) (toLowerCase r)).
  cbn [hasMdSuffix].
  change (String (toLowerChar c) (toLowerCase r)) with (toLowerCase (String c r)).
  now rewrite isDotMd_toLowerCase, IH.
Qed.

(** *** Claim C2 *)

(** C2, as stated, fails: a path that carries the extension twice loses
    one copy at each application, so [normalizePath] moves it twice. *)
Lemma normalizePath_not_idempotent :
  normalizePath (normalizePath "a.md.md") <> normalizePath "a.md.md".
Proof. vm_compute. discriminate. Qed.

(** C2 (amended): [normalizePath] removes exactly one trailing [.md] (in
    any letter case) and lower-cases; applying it a second time changes
    nothing exactly when the path, once stripped, does not end in the
    extension again. *)
Theorem normalizePath_idempotent_iff (p : string) :
  normalizePath (normalizePath p) = normalizePath p
  <-> hasMdSuffix (stripMd p) = false.
Proof.
  unfold normalizePath. rewrite <- (hasMdSuffix_toLowerCase (stripMd p)).
  split.
  - intros H. destruct (hasMdSuffix (toLowerCase (stripMd p))) eqn:E; [|reflexivity].
    apply stripMd_shorter in E.
    apply (f_equal String.length) in H. rewrite toLowerCase_length in H. lia.
  - intros H. rewrite (stripMd_id _ H). apply toLowerCase_idem.
Qed.

(** *** Claim C8 *)

Definition wikiTargetOk (target : string) : bool :=
  negb (String.eqb target "")
  && allChars (fun c => negb (Ascii.eqb c "]") && negb (Ascii.eqb c "|")) target.

Definition aliasOk (alias : string) : bool :=
  negb (String.eqb alias "") && allChars (fun c => negb (Ascii.eqb c "]")) alias.

Definition labelOk (label : string) : bool :=
  allChars (fun c => negb (Ascii.eqb c "]") && negb (isLineTerminator c)) label.

Definition mdTargetOk (target : string) : bool :=
  negb (String.eqb target "") && allChars (fun c => negb (Ascii.eqb c ")")) target.

Lemma wikiMatch_plain target :
  wikiTargetOk target = true -> wikiMatch ("[[" ++ (target ++ "]]")) = Some target.
Proof.
  unfold wikiTargetOk. intros [Hne Hall]%andb_true_iff.
  unfold wikiMatch. rewrite !append_cons, !append_nil.
  cbn [Ascii.eqb Bool.eqb andb].
  rewrite (span_append _ target "]]" Hall) by reflexivity.
  apply negb_true_iff in Hne. now rewrite Hne.
Qed.

Lemma wikiMatch_alias target alias :
  wikiTargetOk target = true -> aliasOk alias = true ->
  wikiMatch ("[[" ++ (target ++ ("|" ++ (alias ++ "]]")))) = Some target.
Proof.
  unfold wikiTargetOk, aliasOk.
  intros [Hne Hall]%andb_true_iff [Hane Haall]%andb_true_iff.
  unfold wikiMatch. rewrite !append_cons, !append_nil.
  cbn [Ascii.eqb Bool.eqb andb].
  rewrite (span_append _ target (String "|" (alias ++ "]]")) Hall) by reflexivity.
  apply negb_true_iff in Hne, Hane. rewrite Hne.
  cbn [String.eqb Ascii.eqb Bool.eqb andb].
  rewrite (span_append _ alias "]]" Haall) by reflexivity.
  now rewrite Hane.
Qed.

Lemma mdScan_label label target :
  labelOk label = true -> mdTargetOk target = true ->
  mdScan (label ++ ("](" ++ (target ++ ")"))) = Some target.
Proof.
  unfold labelOk, mdTargetOk. intros Hl [Hne Hall]%andb_true_iff.
  apply negb_true_iff in Hne.
  induction label as [|c r IH].
  - rewrite !append_cons, !append_nil.
    cbn [mdScan]. unfold mdTail. cbn [Ascii.eqb Bool.eqb andb].
    rewrite (span_append _ target ")" Hall) by reflexivity.
    now rewrite Hne.
  - cbn [allChars] in Hl. apply andb_true_iff in Hl as [Hc Hr].
    apply andb_true_iff in Hc as [Hb Hlt].
    apply negb_true_iff in Hb, Hlt.
    change (String c r ++ ("](" ++ (target ++ ")")))
      with (String c (r ++ ("](" ++ (target ++ ")")))).
    cbn [mdScan].
    assert (Htail : mdTail (String c (r ++ ("](" ++ (target ++ ")")))) = None).
    { unfold mdTail. destruct (r ++ ("](" ++ (target ++ ")"))); [reflexivity|].
      now rewrite Hb. }
    rewrite Htail, Hlt. exact (IH Hr).
Qed.

Lemma wikiMatch_md_none label target :
  wikiMatch ("[" ++ (label ++ ("](" ++ (target ++ ")")))) = None.
Proof.
  destruct (wikiMatch _) as [t|] eqn:E; [|reflexivity].
  apply wikiMatch_lastChar in E.
  rewrite !append_cons, !append_nil in E.
  rewrite lastChar_cons in E by (destruct label; discriminate).
  rewrite lastChar_append in E by discriminate.
  change ("](" ++ (target ++ ")")) with (String "]" (String "(" (target ++ ")"))) in E.
  rewrite !lastChar_cons in E by (try discriminate; destruct target; discriminate).
  rewrite lastChar_append in E by discriminate.
  discriminate.
Qed.

(** C8, as stated, fails: a plain path is not returned verbatim, its
    surrounding white space is removed. *)
Lemma extractPathFromLink_not_verbatim :
  extractPathFromLink " A " <> " A ".
Proof. vm_compute. discriminate. Qed.

(** C8 (amended): the empty input gives the empty string; [[[Target]]] and
    [[[Target|Alias]]] give the trimmed target, [[Label](Target)] gives the
    trimmed target, and every other input is taken as a plain path and
    returned trimmed (so it is the empty string only for an input that is
    empty or all white space). *)
Theorem extractPathFromLink_forms (target alias label link : string) :
  extractPathFromLink "" = ""
  /\ (wikiTargetOk target = true ->
      extractPathFromLink ("[[" ++ (target ++ "]]")) = trim target)
  /\ (wikiTargetOk target = true -> aliasOk alias = true ->
      extractPathFromLink ("[[" ++ (target ++ ("|" ++ (alias ++ "]]")))) = trim target)
  /\ (labelOk label = true -> mdTargetOk target = true ->
      extractPathFromLink ("[" ++ (label ++ ("](" ++ (target ++ ")")))) = trim target)
  /\ (wikiMatch link = None -> mdMatch link = None ->
      extractPathFromLink link = trim link)
  /\ extractPathFromLink "[[A]]" = "A"
  /\ extractPathFromLink "[[A|B]]" = "A"
  /\ extractPathFromLink "[Label](A)" = "A"
  /\ extractPathFromLink "A" = "A"
  /\ extractPathFromLink "[[A|]]" = "[[A|]]".
Proof.
  assert (Htruthy : forall c r, negb (truthy (String c r)) = false) by reflexivity.
  repeat split; try reflexivity.
  - intros Hw. unfold extractPathFromLink.
    rewrite (wikiMatch_plain _ Hw). rewrite !append_cons. now rewrite Htruthy.
  - intros Hw Ha. unfold extractPathFromLink.
    rewrite (wikiMatch_alias _ _ Hw Ha). rewrite !append_cons. now rewrite Htruthy.
  - intros Hl Ht. unfold extractPathFromLink.
    rewrite wikiMatch_md_none. unfold mdMatch.
    rewrite !append_cons, !append_nil. rewrite Htruthy.
    cbn [Ascii.eqb Bool.eqb andb].
    pose proof (mdScan_label _ _ Hl Ht) as Hscan.
    rewrite !append_cons, !append_nil in Hscan. now rewrite Hscan.
  - intros Hw Hm. unfold extractPathFromLink. rewrite Hw, Hm.
    destruct link; reflexivity.
Qed.

Lemma extractPathFromLink_forms_witness :
  extractPathFromLink "[[ Note Name ]]" = "Note Name"
  /\ extractPathFromLink "[[ Note Name |Display Text]]" = "Note Name"
  /\ extractPathFromLink "[Display]( Note Name )" = "Note Name"
  /\ extractPathFromLink " path/to/Note.md " = "path/to/Note.md".
Proof.
  destruct (extractPathFromLink_forms " Note Name " "Display Text" "Display"
                                      " path/to/Note.md ")
    as (_ & Hwiki & Halias & Hmd & Hplain & _).
  split; [exact (Hwiki eq_refl)|].
  split; [exact (Halias eq_refl eq_refl)|].
  split; [exact (Hmd eq_refl eq_refl)|].
  exact (Hplain eq_refl eq_refl).
Defined.

(** *** Claim C4 *)

Lemma endsWith_spec s suffix : endsWith s suffix = true <-> EndsWith s suffix.
Proof.
  split.
  - induction s as [|c r IH]; cbn [endsWith].
    + destruct (String.eqb_spec "" suffix) as [<-|_]; [|discriminate].
      intros _. now exists "".
    + destruct (String.eqb_spec (String c r) suffix) as [<-|_].
      * intros _. now exists "".
      * intros H. destruct (IH H) as [pre ->]. now exists (String c pre).
  - intros [pre ->]. induction pre as [|c r IH].
    + rewrite append_nil. destruct suffix; cbn [endsWith]; now rewrite String.eqb_refl.
    + rewrite append_cons. cbn [endsWith]. rewrite IH.
      now destruct (String.eqb _ suffix).
Qed.

(** The four-way test on one reference, as a proposition. *)
Definition Matches (S Sbase r : string) : Prop :=
  let P := normalizePath (extractPathFromLink r) in
  let Pbase := basename P in
  P = S \/ Pbase = Sbase \/ EndsWith P ("/" ++ Sbase) \/ EndsWith S ("/" ++ Pbase).

Lemma projectMatches_spec S Sbase r :
  projectMatches S Sbase r = true <-> Matches S Sbase r.
Proof.
  unfold projectMatches, Matches. cbv zeta.
  rewrite !orb_true_iff, !String.eqb_eq, !endsWith_spec. tauto.
Qed.

Lemma anyProject_spec S Sbase ps :
  anyProject S Sbase ps = true <-> exists r, In r ps /\ Matches S Sbase r.
Proof.
  induction ps as [|r rest IH]; cbn [anyProject].
  - split; [discriminate|]. now intros (r & [] & _).
  - destruct (projectMatches S Sbase r) eqn:E.
    + split; [|reflexivity]. intros _. exists r. split; [now left|].
      now apply projectMatches_spec.
    + rewrite IH. split.
      * intros (r' & Hin & Hm). exists r'. split; [now right|exact Hm].
      * intros (r' & [<-|Hin] & Hm).
        -- apply projectMatches_spec in Hm. congruence.
        -- now exists r'.
Qed.

(** C4: a task links to a source path exactly when some reference [r] of
    its link-list has, with [P = normalize(extractTarget(r))],
    [S = normalize(sourcePath)] and their basenames, [P = S], or equal
    basenames, or [P] ending in ["/"+Sbase], or [S] ending in ["/"+Pbase];
    so [[[Report]]] links to [Notes/Report.md] and [[[Other/Report]]] links
    to [Report.md]. *)
Theorem taskLinksToSource_iff (task : TaskInfo) (sourcePath taskPath : string) :
  (taskLinksToSource task sourcePath = true
   <-> exists r, In r (default [] (projects task))
                 /\ Matches (normalizePath sourcePath)
                            (basename (normalizePath sourcePath)) r)
  /\ taskLinksToSource {| path := taskPath; projects := Some ["[[Report]]"] |}
                       "Notes/Report.md" = true
  /\ taskLinksToSource {| path := taskPath; projects := Some ["[[Other/Report]]"] |}
                       "Report.md" = true.
Proof.
  split; [|split; reflexivity].
  unfold taskLinksToSource. destruct (projects task) as [[|r rest]|]; cbn [default].
  - split; [discriminate|]. now intros (r & [] & _).
  - apply anyProject_spec.
  - split; [discriminate|]. now intros (r & [] & _).
Qed.

End ReferenceProofs.

(** ** In-place conversion: a note and its settings *)

Module ConvertProofs.
Import JsString Host BulkConvertEngine.

(** A note with one tag, converted under the tag strategy. *)
Definition tagSettings : Settings :=
  {| taskIdentificationMethod := TagMethod; taskPropertyName := "isTask";
     taskPropertyValue := "true"; taskTag := "task";
     defaultTaskStatus := "open"; defaultTaskPriority := "normal" |}.

Definition plainMapper : FieldMapper :=
  {| statusField := "status"; priorityField := "priority";
     dateCreatedField := "dateCreated"; dateModifiedField := "dateModified";
     projectsField := "projects" |}.

Definition quietHost : Collaborators :=
  {| generateMarkdownLink := fun base _ => "[[" ++ base ++ "]]";
     isTaskFile := fun _ => false;
     timestampCreated := fun _ => "2026-01-16T09:00:00";
     timestampModified := fun _ => "2026-01-16T09:00:01";
     processFrontMatterFails := fun _ => None |}.

Definition noExtras : BulkConvertOptions :=
  {| applyDefaults := false; linkToBase := None; baseFilePath := None |}.

Definition taggedNote : Frontmatter :=
  {[ "tags" := VList [VStr "document"]; "title" := VStr "Password Policy" ]}.

Definition oneNoteVault : Vault := {[ "Library/Password-Policy.md" := Some taggedNote ]}.

End ConvertProofs.

(** ** Bulk generation and conversion: the loops *)

Module BulkProofs.
Import JsString Host DuplicateDetector.

(** Only checked source paths are ever reported as having a task. *)
Lemma checkLoop_subset allTasks sourcePaths acc x :
  x ∈ existingTaskPaths (checkLoop allTasks sourcePaths acc) ->
  x ∈ existingTaskPaths acc \/ In x sourcePaths.
Proof.
  revert acc. induction sourcePaths as [|p rest IH]; intros acc H; cbn [checkLoop] in H.
  - now left.
  - destruct (0 <? _)%nat.
    + apply IH in H as [H|H]; [|right; now right].
      cbn [existingTaskPaths] in H. apply elem_of_union in H as [H|H].
      * apply elem_of_singleton in H. subst. right. now left.
      * now left.
    + apply IH in H as [H|H]; [now left|right; now right].
Qed.

Lemma checkForDuplicates_subset allTasks sourcePaths x :
  x ∈ existingTaskPaths (checkForDuplicates allTasks sourcePaths) ->
  In x sourcePaths.
Proof.
  intros H. apply checkLoop_subset in H as [H|H]; [|exact H].
  cbn [existingTaskPaths] in H. now apply not_elem_of_empty in H.
Qed.

Section Generation.
Import BulkTaskEngine.
Variable host : Collaborators.
Variable vault : Vault.

Lemma checkedSourcePaths_truthy items x :
  In x (checkedSourcePaths items) -> truthy x = true.
Proof. unfold checkedSourcePaths. intros H. now apply filter_In in H. Qed.

Lemma empty_path_not_skipped allTasks items options :
  isSkipped options (duplicateCheckFor allTasks items options) "" = false.
Proof.
  unfold isSkipped, duplicateCheckFor.
  destruct (skipExisting options); [|reflexivity]. cbn [andb].
  apply bool_decide_eq_false. intros H.
  apply checkForDuplicates_subset, checkedSourcePaths_truthy in H. discriminate H.
Qed.

Lemma createStep_calls_extend options dup item st :
  exists more,
    serviceCalls (createStep host vault options dup item st)
    = (serviceCalls st ++ more)%list.
Proof.
  unfold createStep. cbv zeta. destruct (isSkipped _ _ _).
  - exists []. now rewrite app_nil_r.
  - exists [taskDataFor host vault item options].
    now destruct (createTaskForItem _ _ _ _) as [[p|]|msg].
Qed.

Lemma createLoop_calls_extend options dup items st :
  exists more,
    serviceCalls (fold_left (fun st item => createStep host vault options dup item st)
                            items st)
    = (serviceCalls st ++ more)%list.
Proof.
  revert st. induction items as [|i rest IH]; intros st; cbn [fold_left].
  - exists []. now rewrite app_nil_r.
  - destruct (IH (createStep host vault options dup i st)) as [m1 ->].
    destruct (createStep_calls_extend options dup i st) as [m2 ->].
    exists (m2 ++ m1)%list. now rewrite app_assoc.
Qed.

Lemma createStep_not_skipped options dup item st :
  isSkipped options dup (sourcePathOf item) = false ->
  skipped (result (createStep host vault options dup item st)) = skipped (result st)
  /\ serviceCalls (createStep host vault options dup item st)
     = (serviceCalls st ++ [taskDataFor host vault item options])%list.
Proof.
  intros H. unfold createStep. cbv zeta. rewrite H.
  now destruct (createTaskForItem _ _ _ _) as [[p|]|msg].
Qed.

Lemma createLoop_calls_item options dup items item st :
  In item items ->
  isSkipped options dup (sourcePathOf item) = false ->
  In (taskDataFor host vault item options)
     (serviceCalls (fold_left (fun st item => createStep host vault options dup item st)
                              items st)).
Proof.
  intros Hin Hskip. revert st.
  induction items as [|i rest IH]; intros st; [destruct Hin|].
  cbn [fold_left]. destruct Hin as [->|Hin]; [|now apply IH].
  destruct (createLoop_calls_extend options dup rest
              (createStep host vault options dup item st)) as [more ->].
  destruct (createStep_not_skipped options dup item st Hskip) as [_ ->].
  apply in_or_app. left. apply in_or_app. right. now left.
Qed.

(** The task service is asked, in input order, for every item that is not
    skipped, whatever the outcome for the items before it. *)
Definition attempted (options : BulkCreationOptions)
           (dup : option DuplicateCheckResult) (items : list BasesDataItem)
  : list TaskCreationData :=
  map (fun item => taskDataFor host vault item options)
      (List.filter (fun item => negb (isSkipped options dup (sourcePathOf item))) items).

Lemma createLoop_calls_exact options dup items st :
  serviceCalls (fold_left (fun st item => createStep host vault options dup item st)
                          items st)
  = (serviceCalls st ++ attempted options dup items)%list.
Proof.
  revert st. induction items as [|i rest IH]; intros st; cbn [fold_left].
  - unfold attempted. cbn. now rewrite app_nil_r.
  - rewrite IH. unfold attempted. cbn [List.filter].
    destruct (isSkipped options dup (sourcePathOf i)) eqn:E; cbn [negb map].
    + unfold createStep. cbv zeta. now rewrite E.
    + destruct (createStep_not_skipped options dup i st E) as [_ ->].
      now rewrite <- app_assoc.
Qed.

(** *** Claim C10 *)

(** C10: with [skipExisting] set, an item whose path is missing or empty
    is filtered out of the paths handed to the duplicate check, is never
    counted as skipped, and is handed to the task service. *)
Theorem empty_path_item_is_created
        (allTasks : list TaskInfo) (items : list BasesDataItem)
        (options : BulkCreationOptions) (item : BasesDataItem) :
  skipExisting options = true ->
  In item items ->
  itemPath item = None \/ itemPath item = Some "" ->
  let duplicateCheck := duplicateCheckFor allTasks items options in
  ~ In (sourcePathOf item) (checkedSourcePaths items)
  /\ isSkipped options duplicateCheck (sourcePathOf item) = false
  /\ (forall st,
         skipped (result (createStep host vault options duplicateCheck item st))
         = skipped (result st)
         /\ serviceCalls (createStep host vault options duplicateCheck item st)
            = (serviceCalls st ++ [taskDataFor host vault item options])%list)
  /\ In (taskDataFor host vault item options)
        (serviceCalls (createTasksLoop host vault allTasks items options)).
Proof.
  intros Hskip Hin Hpath duplicateCheck.
  assert (Hsp : sourcePathOf item = "").
  { unfold sourcePathOf. now destruct Hpath as [-> | ->]. }
  assert (Hns : isSkipped options duplicateCheck (sourcePathOf item) = false).
  { rewrite Hsp. apply empty_path_not_skipped. }
  split; [|split; [exact Hns|split]].
  - rewrite Hsp. intros H. apply checkedSourcePaths_truthy in H. discriminate H.
  - intros st. now apply createStep_not_skipped.
  - unfold createTasksLoop. destruct items as [|i rest]; [destruct Hin|].
    now apply createLoop_calls_item.
Qed.

(** The error message that an item contributes to the result, if any. *)
Definition itemError (options : BulkCreationOptions)
           (dup : option DuplicateCheckResult) (item : BasesDataItem)
  : option string :=
  if isSkipped options dup (sourcePathOf item) then None
  else match createTaskForItem host vault item options with
       | Returned (Some _) => None
       | Returned None => Some ("Failed to create task for: " ++ sourcePathOf item)
       | Threw errorMsg => Some ("Error for " ++ sourcePathOf item ++ ": " ++ errorMsg)
       end.

(** What the loop of [createTasks] maintains. *)
Record CreateProgress (options : BulkCreationOptions)
       (dup : option DuplicateCheckResult) (processed : list BasesDataItem)
       (st : LoopState) : Prop := {
  create_total :
    created (result st) + skipped (result st) + failed (result st)
    = List.length processed;
  create_errors : errors (result st) = omap (itemError options dup) processed;
  create_failed : failed (result st) = List.length (errors (result st));
  create_paths : created (result st) = List.length (createdPaths (result st));
  create_calls :
    List.length (serviceCalls st) = created (result st) + failed (result st)
}.

Lemma createStep_progress options dup processed item st :
  CreateProgress options dup processed st ->
  CreateProgress options dup (processed ++ [item])
                 (createStep host vault options dup item st).
Proof.
  intros [Ht He Hf Hp Hc].
  assert (Hom : omap (itemError options dup) (processed ++ [item])%list
                = (omap (itemError options dup) processed
                   ++ option_list (itemError options dup item))%list).
  { rewrite omap_app. cbn. now destruct (itemError options dup item). }
  assert (Hie := eq_refl (itemError options dup item)).
  unfold itemError at 2 in Hie. rewrite He in Hf.
  unfold createStep. cbv zeta.
  destruct (isSkipped _ _ _);
    [|destruct (createTaskForItem _ _ _ _) as [[p|]|msg]];
    rewrite Hie in Hom; split;
    cbn [result serviceCalls created skipped failed errors createdPaths];
    rewrite ?Hom, ?length_app; cbn [option_list List.length];
    rewrite ?app_nil_r, ?He; try reflexivity; lia.
Qed.

Lemma createLoop_progress options dup items processed st :
  CreateProgress options dup processed st ->
  CreateProgress options dup (processed ++ items)
    (fold_left (fun st item => createStep host vault options dup item st) items st).
Proof.
  revert processed st. induction items as [|i rest IH]; intros processed st H.
  - now rewrite app_nil_r.
  - cbn [fold_left]. replace (processed ++ i :: rest)%list
      with ((processed ++ [i]) ++ rest)%list by now rewrite <- app_assoc.
    apply IH. now apply createStep_progress.
Qed.

Lemma createTasks_progress allTasks items options :
  CreateProgress options (duplicateCheckFor allTasks items options) items
                 (createTasksLoop host vault allTasks items options).
Proof.
  unfold createTasksLoop. destruct items as [|i rest].
  - now split.
  - apply (createLoop_progress options _ (i :: rest) []). now split.
Qed.

End Generation.

Section Conversion.
Import BulkConvertEngine.
Variable settings : Settings.
Variable fieldMapper : FieldMapper.
Variable host : Collaborators.

(** [item.path || ""] for a path taken from an item. *)
Definition convertSourcePath (p : option string) : string :=
  orElse (default "" p) "".

(** The error message that an item contributes to the result, if any,
    judged on the vault as it is when the batch starts. *)
Definition convertError (pre : ConvertPreCheckResult) (vault : Vault)
           (p : option string) : option string :=
  if decide (convertSourcePath p ∈ alreadyTaskPaths pre) then None
  else if negb (isTFile vault (convertSourcePath p))
       then Some ("File not found: " ++ convertSourcePath p)
       else match processFrontMatterFails host (convertSourcePath p) with
            | Some errorMsg =>
                Some ("Error for " ++ convertSourcePath p ++ ": " ++ errorMsg)
            | None => None
            end.

(** What the loop of [convertNotes] maintains. *)
Record ConvertProgress (pre : ConvertPreCheckResult) (vault0 : Vault)
       (processed : list (option string))
       (st : Vault * BulkConvertResult) : Prop := {
  convert_files : forall q, isTFile (fst st) q = isTFile vault0 q;
  convert_total :
    converted (snd st) + skipped (snd st) + failed (snd st)
    = List.length processed;
  convert_errors : errors (snd st) = omap (convertError pre vault0) processed;
  convert_failed : failed (snd st) = List.length (errors (snd st));
  convert_paths : converted (snd st) = List.length (convertedPaths (snd st))
}.

Lemma convertStep_progress pre vault0 options processed p st :
  ConvertProgress pre vault0 processed st ->
  ConvertProgress pre vault0 (processed ++ [p])
    (convertStep settings fieldMapper host pre options p st).
Proof.
  destruct st as [vault r]. intros [Hv Ht He Hf Hp]. cbn [fst snd] in *.
  assert (Hom : omap (convertError pre vault0) (processed ++ [p])%list
                = (omap (convertError pre vault0) processed
                   ++ option_list (convertError pre vault0 p))%list).
  { rewrite omap_app. cbn. now destruct (convertError pre vault0 p). }
  assert (Hie := eq_refl (convertError pre vault0 p)).
  unfold convertError at 2 in Hie. unfold convertSourcePath in Hie.
  rewrite <- Hv in Hie. rewrite He in Hf.
  unfold convertStep. cbv zeta.
  destruct (decide _);
    [|destruct (isTFile vault _) eqn:Hfile; cbn [negb] in *;
      [unfold convertSingleNote;
       destruct (processFrontMatterFails host _) as [msg|]|]];
    rewrite Hie in Hom; split;
    cbn [fst snd converted skipped failed errors convertedPaths];
    rewrite ?Hom, ?length_app; cbn [option_list List.length];
    rewrite ?app_nil_r, ?He; try reflexivity; try lia; try exact Hv.
  intros q. rewrite <- Hv. unfold isTFile in *.
  destruct (String.eqb_spec (orElse (default "" p) "") q) as [<-|Hne].
  - rewrite lookup_insert_eq. now destruct (vault !! _).
  - now rewrite lookup_insert_ne.
Qed.

Lemma convertLoop_progress pre vault0 options paths processed st :
  ConvertProgress pre vault0 processed st ->
  ConvertProgress pre vault0 (processed ++ paths)
    (fold_left (fun st p => convertStep settings fieldMapper host pre options p st)
               paths st).
Proof.
  revert processed st. induction paths as [|p rest IH]; intros processed st H.
  - now rewrite app_nil_r.
  - cbn [fold_left]. replace (processed ++ p :: rest)%list
      with ((processed ++ [p]) ++ rest)%list by now rewrite <- app_assoc.
    apply IH. now apply convertStep_progress.
Qed.

Lemma convertNotes_progress vault paths options :
  ConvertProgress (preCheck host vault paths) vault paths
                  (convertNotes settings fieldMapper host vault paths options).
Proof.
  unfold convertNotes. destruct paths as [|p rest].
  - now split.
  - apply (convertLoop_progress _ vault options (p :: rest) []). now split.
Qed.

End Conversion.

(** One item without a path, an empty task cache, and a task service that
    creates the file it is asked for. *)
Definition pathlessItem : BulkTaskEngine.BasesDataItem :=
  {| BulkTaskEngine.itemPath := None;
     BulkTaskEngine.itemName := Some "Quarterly review";
     BulkTaskEngine.fileBasename := None;
     BulkTaskEngine.properties := None |}.

Definition obligingService : BulkTaskEngine.Collaborators :=
  {| BulkTaskEngine.generateMarkdownLink := fun p _ => "[[" ++ p ++ "]]";
     BulkTaskEngine.jsString := fun _ => "";
     BulkTaskEngine.createTask :=
       fun data => Returned (Some ("TaskNotes/Tasks/" ++ BulkTaskEngine.title data ++ ".md")) |}.

Definition skipExistingOptions : BulkTaskEngine.BulkCreationOptions :=
  {| BulkTaskEngine.skipExisting := true; BulkTaskEngine.useParentAsProject := true |}.

Lemma empty_path_item_is_created_witness :
  BulkTaskEngine.skipped
    (BulkTaskEngine.createTasks obligingService ∅ [] [pathlessItem] skipExistingOptions) = 0
  /\ In (BulkTaskEngine.taskDataFor obligingService ∅ pathlessItem skipExistingOptions)
        (BulkTaskEngine.serviceCalls
           (BulkTaskEngine.createTasksLoop obligingService ∅ [] [pathlessItem]
                                           skipExistingOptions)).
Proof.
  destruct (empty_path_item_is_created obligingService ∅ [] [pathlessItem]
              skipExistingOptions pathlessItem)
    as (_ & _ & _ & Hcall).
  - reflexivity.
  - simpl. left. reflexivity.
  - left. reflexivity.
  - split; [vm_compute; reflexivity|exact Hcall].
Defined.

End BulkProofs.

(** ** The query watcher *)

Module WatcherProofs.
Import JsString Host BasesQueryWatcher.

(** *** The registry as a map *)

Lemma mapGet_mapAlter_eq {A} (f : A -> A) k (m : list (string * A)) :
  mapGet k (mapAlter f k m) = f <$> mapGet k m.
Proof.
  unfold mapGet, mapAlter. induction m as [|[k' a] r IH]; [reflexivity|].
  cbn [map List.find fst snd]. destruct (String.eqb_spec k' k) as [->|Hne].
  - cbn [fst]. now rewrite String.eqb_refl.
  - cbn [fst]. destruct (String.eqb_spec k' k); [contradiction|exact IH].
Qed.

Lemma mapGet_mapAlter_ne {A} (f : A -> A) k k' (m : list (string * A)) :
  k <> k' -> mapGet k' (mapAlter f k m) = mapGet k' m.
Proof.
  intros Hne. unfold mapGet, mapAlter. induction m as [|[k0 a] r IH]; [reflexivity|].
  cbn [map List.find fst snd]. destruct (String.eqb_spec k0 k) as [->|Hk].
  - cbn [fst]. destruct (String.eqb_spec k k'); [contradiction|exact IH].
  - cbn [fst]. destruct (String.eqb k0 k'); [reflexivity|exact IH].
Qed.

Lemma mapGet_In {A} k (m : list (string * A)) a :
  mapGet k m = Some a -> In (k, a) m.
Proof.
  unfold mapGet. induction m as [|[k0 b] r IH]; [discriminate|].
  cbn [List.find fst]. destruct (String.eqb_spec k0 k) as [->|Hk].
  - cbn. intros [= ->]. now left.
  - intros H. right. now apply IH.
Qed.

(** Keys and snooze deadlines of the registry, in order. *)
Definition snoozeProfile (reg : list (string * MonitoredBase)) : list (string * Z) :=
  map (fun e => (fst e, snoozedUntil (snd e))) reg.

(** Every entry is filed under its own path. *)
Definition WellKeyed (reg : list (string * MonitoredBase)) : Prop :=
  Forall (fun e => path (snd e) = fst e) reg.

Lemma snoozeProfile_setCached ps n k reg :
  snoozeProfile (mapAlter (setCached ps n) k reg) = snoozeProfile reg.
Proof.
  unfold snoozeProfile, mapAlter. rewrite map_map. apply map_ext.
  intros [k0 m]. cbn [fst snd]. now destruct (String.eqb k0 k).
Qed.

Lemma WellKeyed_setCached ps n k reg :
  WellKeyed reg -> WellKeyed (mapAlter (setCached ps n) k reg).
Proof.
  unfold WellKeyed, mapAlter. induction 1 as [|[k0 m] r Hp Hr IH]; cbn [map].
  - constructor.
  - constructor; [|exact IH]. cbn [fst snd] in *. now destruct (String.eqb k0 k).
Qed.

Section Pass.
Variable env : Env.
Variable now : Z.

(** What one evaluation does to the entry of the evaluated query. *)
Definition evaluated (q : string) (m : MonitoredBase) : MonitoredBase :=
  if (snoozedUntil m >? now)%Z then m
  else match evaluateBaseQuery env now q with
       | Returned (Some (r :: rs)) =>
           setCached (pathSet (r :: rs)) (List.length (r :: rs)) m
       | Returned _ => setCached ∅ 0 m
       | Threw _ => m
       end.

Lemma evaluated_idem q m : evaluated q (evaluated q m) = evaluated q m.
Proof.
  unfold evaluated. destruct (snoozedUntil m >? now)%Z eqn:E; [now rewrite E|].
  destruct (evaluateBaseQuery env now q) as [[[|r rs]|]|msg];
    cbn [setCached snoozedUntil]; now rewrite E.
Qed.

Lemma evaluateOne_get_same w q :
  mapGet q (monitoredBases (self (evaluateOne env now w q)))
  = evaluated q <$> mapGet q (monitoredBases (self w)).
Proof.
  unfold evaluateOne.
  destruct (mapGet q (monitoredBases (self w))) as [m|] eqn:Hget;
    [|now rewrite Hget].
  change (evaluated q <$> Some m) with (Some (evaluated q m)).
  unfold evaluated.
  destruct (snoozedUntil m >? now)%Z; [exact Hget|].
  destruct (evaluateBaseQuery env now q) as [[[|r rs]|]|msg];
    cbn [showNotification openModal onSelf withSelf self withBases monitoredBases];
    rewrite ?mapGet_mapAlter_eq, Hget; reflexivity.
Qed.

Lemma evaluateOne_get_other w q q' :
  q <> q' ->
  mapGet q' (monitoredBases (self (evaluateOne env now w q)))
  = mapGet q' (monitoredBases (self w)).
Proof.
  intros Hne. unfold evaluateOne.
  destruct (mapGet q (monitoredBases (self w))) as [m|]; [|reflexivity].
  destruct (snoozedUntil m >? now)%Z; [reflexivity|].
  destruct (evaluateBaseQuery env now q) as [[[|r rs]|]|msg];
    cbn [showNotification openModal onSelf withSelf self withBases monitoredBases];
    rewrite ?mapGet_mapAlter_ne by exact Hne; reflexivity.
Qed.

Lemma evaluateLoop_get qs w q :
  mapGet q (monitoredBases (self (fold_left (evaluateOne env now) qs w)))
  = (if existsb (String.eqb q) qs then evaluated q else id)
      <$> mapGet q (monitoredBases (self w)).
Proof.
  revert w. induction qs as [|q0 rest IH]; intros w; cbn [fold_left existsb].
  - now destruct (mapGet q _).
  - rewrite IH. destruct (String.eqb_spec q q0) as [<-|Hne]; cbn [orb].
    + rewrite evaluateOne_get_same.
      destruct (mapGet q (monitoredBases (self w))) as [m|]; cbn; [|reflexivity].
      destruct (existsb _ rest); cbn; [now rewrite evaluated_idem|reflexivity].
    + rewrite evaluateOne_get_other by congruence. reflexivity.
Qed.

Lemma evaluatePendingBases_get w q :
  mapGet q (monitoredBases (self (evaluatePendingBases env now w)))
  = (if existsb (String.eqb q) (pendingEvaluations (self w))
     then evaluated q else id)
      <$> mapGet q (monitoredBases (self w)).
Proof.
  unfold evaluatePendingBases.
  destruct (pendingEvaluations (self w)) as [|q0 rest] eqn:Hp.
  - cbn [existsb]. now destruct (mapGet q _).
  - now rewrite evaluateLoop_get.
Qed.

Lemma evaluateWithTemporaryView_failure q :
  (exists msg, readBaseConfig env now q = Threw msg)
  \/ (exists cfg msg,
         readBaseConfig env now q = Returned cfg
         /\ evaluateSourceFilter env now (default "" (source cfg)) = Threw msg) ->
  evaluateWithTemporaryView env now q = None.
Proof.
  unfold evaluateWithTemporaryView. intros [[msg ->]|(cfg & msg & -> & ->)].
  - reflexivity.
  - now destruct (truthy _).
Qed.

(** *** Snoozed queries *)

Lemma evaluateOne_silent w q0 q m :
  mapGet q (monitoredBases (self w)) = Some m ->
  (now < snoozedUntil m)%Z ->
  WellKeyed (monitoredBases (self w)) ->
  mapGet q (monitoredBases (self (evaluateOne env now w q0))) = Some m
  /\ WellKeyed (monitoredBases (self (evaluateOne env now w q0)))
  /\ exists added,
      openedModals (evaluateOne env now w q0) = (openedModals w ++ added)%list
      /\ Forall (fun n => fst (fst n) <> q) added.
Proof.
  intros Hget Hsnz Hwk.
  assert (Hquiet : forall w', monitoredBases (self w') = monitoredBases (self w) ->
                              openedModals w' = openedModals w ->
            mapGet q (monitoredBases (self w')) = Some m
            /\ WellKeyed (monitoredBases (self w'))
            /\ exists added, openedModals w' = (openedModals w ++ added)%list
                             /\ Forall (fun n => fst (fst n) <> q) added).
  { intros w' -> ->. repeat split; try assumption.
    exists []. split; [now rewrite app_nil_r|constructor]. }
  destruct (String.eqb_spec q0 q) as [->|Hne].
  - unfold evaluateOne. rewrite Hget.
    assert (E : (snoozedUntil m >? now)%Z = true) by (apply Z.gtb_lt; lia).
    rewrite E. now apply Hquiet.
  - split; [rewrite evaluateOne_get_other by exact Hne; exact Hget|].
    unfold evaluateOne.
    destruct (mapGet q0 (monitoredBases (self w))) as [m0|] eqn:Hget0;
      [|now apply Hquiet].
    destruct (snoozedUntil m0 >? now)%Z; [now apply Hquiet|].
    assert (Hp0 : path m0 = q0).
    { apply mapGet_In in Hget0. unfold WellKeyed in Hwk.
      rewrite List.Forall_forall in Hwk. exact (Hwk _ Hget0). }
    destruct (evaluateBaseQuery env now q0) as [[[|r rs]|]|msg];
      cbn [showNotification openModal onSelf withSelf self withBases
           monitoredBases openedModals];
      try (split; [now apply WellKeyed_setCached|];
           exists []; split; [now rewrite app_nil_r|constructor]).
    + split; [now apply WellKeyed_setCached|].
      eexists. split; [reflexivity|]. constructor; [|constructor].
      cbn [fst setCached path]. congruence.
    + split; [exact Hwk|]. exists []. split; [now rewrite app_nil_r|constructor].
Qed.

Lemma evaluateLoop_silent qs w q m :
  mapGet q (monitoredBases (self w)) = Some m ->
  (now < snoozedUntil m)%Z ->
  WellKeyed (monitoredBases (self w)) ->
  mapGet q (monitoredBases (self (fold_left (evaluateOne env now) qs w))) = Some m
  /\ exists added,
      openedModals (fold_left (evaluateOne env now) qs w)
      = (openedModals w ++ added)%list
      /\ Forall (fun n => fst (fst n) <> q) added.
Proof.
  revert w. induction qs as [|q0 rest IH]; intros w Hget Hsnz Hwk; cbn [fold_left].
  - split; [exact Hget|]. exists []. split; [now rewrite app_nil_r|constructor].
  - destruct (evaluateOne_silent w q0 q m Hget Hsnz Hwk)
      as (Hget1 & Hwk1 & a1 & Ha1 & Hf1).
    destruct (IH _ Hget1 Hsnz Hwk1) as (Hget2 & a2 & Ha2 & Hf2).
    split; [exact Hget2|]. exists (a1 ++ a2)%list. split.
    + now rewrite Ha2, Ha1, app_assoc.
    + apply List.Forall_app. now split.
Qed.

Lemma setAdd_In x s : In x (setAdd x s).
Proof.
  unfold setAdd. destruct (existsb (String.eqb x) s) eqn:E.
  - apply existsb_exists in E as (y & Hy & Heq). apply String.eqb_eq in Heq.
    now subst.
  - apply in_or_app. right. now left.
Qed.

Lemma setAdd_keeps x y s : In y s -> In y (setAdd x s).
Proof.
  unfold setAdd. destruct (existsb _ s); [auto|]. intros H.
  apply in_or_app. now left.
Qed.

Lemma markCached_keeps changed reg pending y :
  In y pending -> In y (markCached changed reg pending).
Proof.
  unfold markCached. revert pending.
  induction reg as [|e r IH]; intros pending H; cbn [fold_left]; [exact H|].
  apply IH. destruct (bool_decide _); [now apply setAdd_keeps|exact H].
Qed.

Lemma markNotSnoozed_keeps t reg pending y :
  In y pending -> In y (markNotSnoozed t reg pending).
Proof.
  unfold markNotSnoozed. revert pending.
  induction reg as [|e r IH]; intros pending H; cbn [fold_left]; [exact H|].
  apply IH. destruct (_ <=? _)%Z; [now apply setAdd_keeps|exact H].
Qed.

Lemma markCached_marks changed reg pending k m :
  In (k, m) reg -> changed ∈ cachedPaths m ->
  In k (markCached changed reg pending).
Proof.
  intros Hin Hc. revert pending.
  induction reg as [|e r IH]; intros pending; [destruct Hin|].
  destruct Hin as [->|Hin].
  - unfold markCached. cbn [fold_left fst snd].
    rewrite bool_decide_eq_true_2 by exact Hc.
    apply (markCached_keeps changed r). apply setAdd_In.
  - unfold markCached in *. cbn [fold_left]. now apply IH.
Qed.

Lemma handlePathChange_pending changed t w :
  pendingEvaluations (self (handlePathChange changed t w))
  = markNotSnoozed t (monitoredBases (self w))
      (markCached changed (monitoredBases (self w)) (pendingEvaluations (self w))).
Proof.
  unfold handlePathChange, scheduleEvaluation. cbv zeta.
  cbn [onSelf withSelf self withPending evaluationDebounceTimer].
  now destruct (evaluationDebounceTimer (self w)).
Qed.

(** While a query is snoozed, a pass skips it, a pushed view result is
    dropped, and a change to one of its cached paths still marks it. *)
Lemma snoozed_entry_is_skipped (w : World) (q : string) (m : MonitoredBase) :
  mapGet q (monitoredBases (self w)) = Some m ->
  WellKeyed (monitoredBases (self w)) ->
  (forall durationMinutes t,
      mapGet q (monitoredBases (self (snoozeBase q durationMinutes t w)))
      = Some (setSnoozedUntil (t + durationMinutes * 60 * 1000) m))
  /\ ((now < snoozedUntil m)%Z ->
      mapGet q (monitoredBases (self (evaluatePendingBases env now w))) = Some m
      /\ (exists added,
             openedModals (evaluatePendingBases env now w)
             = (openedModals w ++ added)%list
             /\ Forall (fun n => fst (fst n) <> q) added)
      /\ (forall baseName items,
             showNotificationFromView q baseName items now w = w))
  /\ (forall changed t,
         changed ∈ cachedPaths m ->
         In q (pendingEvaluations (self (handlePathChange changed t w)))).
Proof.
  intros Hget Hwk. split; [|split].
  - intros d t. unfold snoozeBase. rewrite Hget.
    cbn [onSelf withSelf self withBases monitoredBases].
    now rewrite mapGet_mapAlter_eq, Hget.
  - intros Hsnz. split; [|split].
    + unfold evaluatePendingBases.
      destruct (pendingEvaluations (self w)) as [|q0 rest]; [exact Hget|].
      now apply evaluateLoop_silent.
    + unfold evaluatePendingBases.
      destruct (pendingEvaluations (self w)) as [|q0 rest].
      * exists []. split; [now rewrite app_nil_r|constructor].
      * destruct (evaluateLoop_silent (q0 :: rest)
                    (logPass now (q0 :: rest) (onSelf (withPending []) w)) q m)
          as (_ & added & Hadd & Hall); try assumption.
        exists added. split; [exact Hadd|exact Hall].
    + intros baseName items. unfold showNotificationFromView.
      destruct items as [|i rest]; [reflexivity|]. rewrite Hget.
      cbn [default]. rewrite Hget. cbn [default]. unfold id.
      assert (E : (snoozedUntil m >? now)%Z = true) by (apply Z.gtb_lt; lia).
      now rewrite E.
  - intros changed t Hc. rewrite handlePathChange_pending.
    apply markNotSnoozed_keeps.
    apply (markCached_marks changed _ _ q m); [now apply mapGet_In|exact Hc].
Qed.

End Pass.

(** *** A vault with one monitored query *)

Definition overdueBase : string := "Queries/Overdue.base".
Definition policyNote : string := "Library/Password-Policy.md".
Definition backupNote : string := "Library/Backup-Recovery-Procedure.md".

Definition overdueConfig : BaseFileConfig :=
  {| configName := Some "Overdue reviews"; notify := true;
     source := Some "file.inFolder('Library')" |}.

Definition libraryItems : list NotificationItem :=
  [ {| itemPath := policyNote; title := "Password Policy";
       isTask := Some false; status := None |};
    {| itemPath := backupNote; title := "Backup Recovery Procedure";
       isTask := Some false; status := None |} ].

(** The fallback evaluator finds the two notes of the folder. *)
Definition steadyEnv : Env :=
  {| baseFiles := fun _ => [(overdueBase, "Overdue")];
     readBaseConfig := fun _ _ => Returned overdueConfig;
     isFile := fun _ _ => true;
     liveView := fun _ _ => Returned None;
     evaluateSourceFilter := fun _ _ => Returned libraryItems |}.

(** The definition file cannot be read. *)
Definition failingEnv : Env :=
  {| baseFiles := fun _ => [(overdueBase, "Overdue")];
     readBaseConfig := fun _ _ => Threw "EACCES: permission denied";
     isFile := fun _ _ => true;
     liveView := fun _ _ => Returned None;
     evaluateSourceFilter := fun _ _ => Returned libraryItems |}.

Definition overdueEntry (snoozed : Z) : MonitoredBase :=
  {| path := overdueBase; name := "Overdue reviews"; snoozedUntil := snoozed;
     lastResultCount := 1; cachedPaths := {[ policyNote ]} |}.

(** The query is registered with one cached path and is pending. *)
Definition pendingWorld (snoozed : Z) : World :=
  {| self := withPending [overdueBase]
               (withBases [(overdueBase, overdueEntry snoozed)] newWatcher);
     timers := []; listeners := []; nextHandle := 1%positive;
     openedModals := []; passLog := [] |}.

(** C5, as stated, fails: the fallback evaluation of the query throws (the
    definition cannot be read), yet the cached result-path set is not left
    unchanged: it held the policy note before the pass and is empty after. *)
Lemma failed_fallback_empties_cache :
  readBaseConfig failingEnv 1000 overdueBase = Threw "EACCES: permission denied"
  /\ exists m m',
      mapGet overdueBase (monitoredBases (self (pendingWorld 0))) = Some m
      /\ mapGet overdueBase
           (monitoredBases (self (evaluatePendingBases failingEnv 1000 (pendingWorld 0))))
         = Some m'
      /\ policyNote ∈ cachedPaths m
      /\ cachedPaths m' = ∅.
Proof.
  split; [reflexivity|]. eexists. eexists.
  split; [reflexivity|]. split; [reflexivity|]. split.
  - cbn. set_solver.
  - reflexivity.
Qed.

(** *** Claim C3 *)

(** The watcher is initialised at time 0, its start-up scan runs at 5 s, the
    host reports a changed note at 6 s, and the plugin unloads. *)
Definition policyFile : FileRef :=
  {| filePath := policyNote; fileBasename := "Password-Policy"; extension := "md" |}.

Definition tornDownWorld : World :=
  destroy (dispatch steadyEnv (MetadataChangedEvent policyFile) 6000
             (advanceTo steadyEnv 5000 (initialize 0 newWorld))).

(** C3 fails on the code: [destroy] clears the start-up and debounce
    timers, releases the four subscriptions (no event reaches the watcher
    any more) and empties the registry, but the interval started by
    [startPeriodicScan] stays in the host's timer table; when it fires after
    teardown it registers the query again, runs an evaluation pass and opens
    a notification. *)
Theorem destroy_leaves_periodic_scan :
  monitoredBases (self tornDownWorld) = []
  /\ pendingEvaluations (self tornDownWorld) = []
  /\ listeners tornDownWorld = []
  /\ (forall ev t, dispatch steadyEnv ev t tornDownWorld = tornDownWorld)
  /\ scanTimeout (self tornDownWorld) = None
  /\ evaluationDebounceTimer (self tornDownWorld) = None
  /\ map (fun t => (callback t, due t)) (timers tornDownWorld)
     = [(PeriodicScan, 305000%Z)]
  /\ map fst (passLog (advanceTo steadyEnv 305000 tornDownWorld)) = [305000%Z]
  /\ map (fun n => fst (fst n)) (openedModals (advanceTo steadyEnv 305000 tornDownWorld))
     = [overdueBase].
Proof.
  repeat split; vm_compute; reflexivity.
Qed.

(** *** Debouncing *)

Definition isDebounce (t : Timer) : bool :=
  match callback t with DebouncedEvaluation => true | _ => false end.

(** No timer other than the debounce timer is due up to [tEnd]. *)
Definition Quiet (tEnd : Z) (w : World) : Prop :=
  Forall (fun t => isDebounce t = false -> (tEnd < due t)%Z) (timers w).

(** The debounce timer is either absent, with the field cleared, or it is
    the only debounce timer of the host, held by the field and due at the
    given time. *)
Inductive DebounceState (w : World) : option Z -> Prop :=
| Idle :
    evaluationDebounceTimer (self w) = None ->
    List.filter isDebounce (timers w) = [] ->
    DebounceState w None
| Armed (t : Timer) :
    evaluationDebounceTimer (self w) = Some (timerId t) ->
    List.filter isDebounce (timers w) = [t] ->
    repeatEvery t = None ->
    DebounceState w (Some (due t)).

(** Some registered query is not snoozed at time [t]. *)
Definition Awake (t : Z) (w : World) : Prop :=
  Exists (fun e => (snd e <= t)%Z) (snoozeProfile (monitoredBases (self w))).

Lemma filter_filter_swap {A} (f g : A -> bool) l :
  List.filter f (List.filter g l) = List.filter g (List.filter f l).
Proof.
  induction l as [|a r IH]; [reflexivity|]. cbn [List.filter].
  destruct (g a) eqn:Eg, (f a) eqn:Ef; cbn [List.filter];
    rewrite ?Eg, ?Ef, IH; reflexivity.
Qed.

Lemma filter_narrow {A} (f g : A -> bool) l :
  Forall (fun a => g a = false -> f a = false) l ->
  List.filter f l = List.filter f (List.filter g l).
Proof.
  induction 1 as [|a r Ha Hr IH]; [reflexivity|]. cbn [List.filter].
  destruct (g a) eqn:Eg; cbn [List.filter].
  - destruct (f a); now rewrite IH.
  - now rewrite (Ha eq_refl).
Qed.

Section Debounce.
Variable env : Env.

(** An evaluation of one query touches the registry and the opened
    modals only, and leaves keys and snooze deadlines alone. *)
Lemma evaluateOne_frame now w q :
  let w' := evaluateOne env now w q in
  timers w' = timers w
  /\ evaluationDebounceTimer (self w') = evaluationDebounceTimer (self w)
  /\ pendingEvaluations (self w') = pendingEvaluations (self w)
  /\ passLog w' = passLog w
  /\ snoozeProfile (monitoredBases (self w')) = snoozeProfile (monitoredBases (self w)).
Proof.
  cbv zeta. unfold evaluateOne.
  destruct (mapGet q (monitoredBases (self w))) as [m|]; [|now repeat split].
  destruct (snoozedUntil m >? now)%Z; [now repeat split|].
  destruct (evaluateBaseQuery env now q) as [[[|r rs]|]|msg];
    cbn [showNotification openModal onSelf withSelf self withBases monitoredBases
         timers evaluationDebounceTimer pendingEvaluations passLog];
    rewrite ?snoozeProfile_setCached; now repeat split.
Qed.

Lemma evaluateLoop_frame now qs w :
  let w' := fold_left (evaluateOne env now) qs w in
  timers w' = timers w
  /\ evaluationDebounceTimer (self w') = evaluationDebounceTimer (self w)
  /\ pendingEvaluations (self w') = pendingEvaluations (self w)
  /\ passLog w' = passLog w
  /\ snoozeProfile (monitoredBases (self w')) = snoozeProfile (monitoredBases (self w)).
Proof.
  cbv zeta. revert w. induction qs as [|q rest IH]; intros w; cbn [fold_left].
  - now repeat split.
  - destruct (IH (evaluateOne env now w q)) as (-> & -> & -> & -> & ->).
    apply evaluateOne_frame.
Qed.

Lemma evaluatePendingBases_frame now w :
  let w' := evaluatePendingBases env now w in
  timers w' = timers w
  /\ evaluationDebounceTimer (self w') = evaluationDebounceTimer (self w)
  /\ pendingEvaluations (self w') = []
  /\ passLog w'
     = (passLog w ++ match pendingEvaluations (self w) with
                     | [] => []
                     | snapshot => [(now, snapshot)]
                     end)%list
  /\ snoozeProfile (monitoredBases (self w')) = snoozeProfile (monitoredBases (self w)).
Proof.
  cbv zeta. unfold evaluatePendingBases.
  destruct (pendingEvaluations (self w)) as [|q rest] eqn:Hp.
  - rewrite app_nil_r. now repeat split.
  - destruct (evaluateLoop_frame now (q :: rest)
                (logPass now (q :: rest) (onSelf (withPending []) w)))
      as (-> & -> & -> & -> & ->).
    now repeat split.
Qed.

(** [handlePathChange] leaves exactly one debounce timer, due one
    debounce delay after the change, whatever the state before. *)
Lemma handlePathChange_rearms changed now w d :
  DebounceState w d ->
  DebounceState (handlePathChange changed now w)
                (Some (now + EVALUATION_DEBOUNCE_MS)%Z).
Proof.
  intros Hd. unfold handlePathChange, scheduleEvaluation. cbv zeta.
  cbn [onSelf withSelf self withPending evaluationDebounceTimer].
  destruct Hd as [Hfield Htimers | t Hfield Htimers Hrep]; rewrite Hfield.
  - cbn [addTimer onSelf withSelf self timers nextHandle withDebounceTimer].
    refine (Armed _ {| timerId := _; due := _; callback := _; repeatEvery := _ |}
                  _ _ _);
      cbn [self evaluationDebounceTimer timerId timers repeatEvery onSelf withSelf
           withDebounceTimer];
      try reflexivity.
    rewrite List.filter_app, Htimers. reflexivity.
  - cbn [addTimer clearTimeout onSelf withSelf self timers nextHandle
         withDebounceTimer].
    refine (Armed _ {| timerId := _; due := _; callback := _; repeatEvery := _ |}
                  _ _ _);
      cbn [self evaluationDebounceTimer timerId timers repeatEvery onSelf withSelf
           withDebounceTimer];
      try reflexivity.
    rewrite List.filter_app, filter_filter_swap, Htimers. cbn [List.filter].
    now rewrite Pos.eqb_refl.
Qed.

Lemma handlePathChange_quiet changed now w tEnd :
  Quiet tEnd w -> Quiet tEnd (handlePathChange changed now w).
Proof.
  unfold Quiet. intros Hq.
  assert (Hkeep : forall id,
             Forall (fun t => isDebounce t = false -> (tEnd < due t)%Z)
                    (List.filter (fun t => negb (Pos.eqb (timerId t) id)) (timers w))).
  { intros id. rewrite List.Forall_forall in *. intros t Ht.
    apply filter_In in Ht. now apply Hq. }
  unfold handlePathChange, scheduleEvaluation. cbv zeta.
  cbn [onSelf withSelf self withPending evaluationDebounceTimer].
  destruct (evaluationDebounceTimer (self w)) as [id|];
    cbn [addTimer clearTimeout onSelf withSelf self timers nextHandle];
    apply List.Forall_app; (split; [auto|]);
    constructor; [discriminate|constructor| discriminate|constructor].
Qed.

Lemma handlePathChange_frame changed now w :
  passLog (handlePathChange changed now w) = passLog w
  /\ monitoredBases (self (handlePathChange changed now w))
     = monitoredBases (self w).
Proof.
  unfold handlePathChange, scheduleEvaluation. cbv zeta.
  cbn [onSelf withSelf self withPending evaluationDebounceTimer].
  now destruct (evaluationDebounceTimer (self w)).
Qed.

Lemma due_filter_narrow now tEnd w :
  Quiet tEnd w -> (now <= tEnd)%Z ->
  List.filter (fun t => (due t <=? now)%Z) (timers w)
  = List.filter (fun t => (due t <=? now)%Z) (List.filter isDebounce (timers w)).
Proof.
  intros Hq Hle. apply filter_narrow. unfold Quiet in Hq.
  rewrite List.Forall_forall in *. intros t Ht Hd.
  apply Z.leb_gt. specialize (Hq t Ht Hd). lia.
Qed.

(** Nothing happens in a turn of the timer queue before the debounce
    timer is due. *)
Lemma advanceTo_sleep now tEnd w d :
  DebounceState w d -> Quiet tEnd w -> (now <= tEnd)%Z ->
  (forall x, d = Some x -> (now < x)%Z) ->
  advanceTo env now w = w.
Proof.
  intros Hd Hq Hle Hlt. unfold advanceTo, dueTimers.
  rewrite (due_filter_narrow now tEnd w Hq Hle).
  destruct Hd as [Hfield Htimers | t Hfield Htimers Hrep]; rewrite Htimers.
  - reflexivity.
  - cbn [List.filter].
    assert (E : (due t <=? now)%Z = false)
      by (apply Z.leb_gt; now apply Hlt).
    now rewrite E.
Qed.

(** When the debounce timer is due, the turn runs one call of
    [evaluatePendingBases] and leaves no debounce timer behind. *)
Lemma advanceTo_fire now tEnd w x :
  DebounceState w (Some x) -> Quiet tEnd w -> (now <= tEnd)%Z -> (x <= now)%Z ->
  let w' := advanceTo env now w in
  DebounceState w' None
  /\ Quiet tEnd w'
  /\ pendingEvaluations (self w') = []
  /\ passLog w'
     = (passLog w ++ match pendingEvaluations (self w) with
                     | [] => []
                     | snapshot => [(x, snapshot)]
                     end)%list
  /\ snoozeProfile (monitoredBases (self w')) = snoozeProfile (monitoredBases (self w)).
Proof.
  intros Hd Hq Hle Hdue. cbv zeta.
  inversion Hd as [|t Hfield Htimers Hrep Hx]. subst x.
  unfold advanceTo, dueTimers.
  rewrite (due_filter_narrow now tEnd w Hq Hle), Htimers. cbn [List.filter].
  assert (E : (due t <=? now)%Z = true) by now apply Z.leb_le.
  rewrite E. cbn [fold_left insertByDue]. unfold fireTimer.
  assert (Hin : In t (timers w) /\ isDebounce t = true).
  { apply filter_In. rewrite Htimers. now left. }
  destruct Hin as [Hin Hdeb].
  assert (Hex : existsb (fun u => Pos.eqb (timerId u) (timerId t)) (timers w) = true).
  { apply existsb_exists. exists t. split; [exact Hin|apply Pos.eqb_refl]. }
  rewrite Hex. unfold rearm. rewrite Hrep.
  assert (Hcb : callback t = DebouncedEvaluation).
  { unfold isDebounce in Hdeb. now destruct (callback t). }
  rewrite Hcb. cbn [runCallback]. unfold debouncedEvaluation.
  set (w0 := onSelf (withDebounceTimer None) _).
  destruct (evaluatePendingBases_frame (due t) w0) as (Ht & Hf & Hp & Hl & Hs).
  assert (Htimers0 : List.filter isDebounce (timers w0) = []).
  { subst w0. cbn [onSelf withSelf timers].
    rewrite filter_filter_swap, Htimers. cbn [List.filter].
    now rewrite Pos.eqb_refl. }
  split; [|split; [|split; [exact Hp|split; [exact Hl|exact Hs]]]].
  - apply Idle; [now rewrite Hf|now rewrite Ht].
  - unfold Quiet in *. rewrite Ht. subst w0. cbn [onSelf withSelf timers].
    rewrite List.Forall_forall in *. intros u Hu.
    apply filter_In in Hu. now apply Hq.
Qed.

Lemma Awake_later t t' w : Awake t w -> (t <= t')%Z -> Awake t' w.
Proof.
  unfold Awake. intros H Hle. rewrite List.Exists_exists in *.
  destruct H as (e & Hin & He). exists e. split; [exact Hin|lia].
Qed.

Lemma markNotSnoozed_nonempty t reg pending :
  Exists (fun e => (snd e <= t)%Z) (snoozeProfile reg) ->
  markNotSnoozed t reg pending <> [].
Proof.
  revert pending. induction reg as [|e r IH]; intros pending H;
    cbn [snoozeProfile map] in H; inversion H as [? ? Hhead|? ? Htail]; subst.
  - cbn [snd] in Hhead. unfold markNotSnoozed. cbn [fold_left].
    apply Z.leb_le in Hhead. rewrite Hhead.
    pose proof (markNotSnoozed_keeps t r _ _ (setAdd_In (fst e) pending)) as Hk.
    unfold markNotSnoozed in Hk. intros Hnil. rewrite Hnil in Hk. destruct Hk.
  - unfold markNotSnoozed in *. cbn [fold_left]. now apply IH.
Qed.

Lemma handlePathChange_marks changed now w :
  Awake now w -> pendingEvaluations (self (handlePathChange changed now w)) <> [].
Proof.
  intros H. rewrite handlePathChange_pending. now apply markNotSnoozed_nonempty.
Qed.

(** Consecutive events, each related to the one before by [R]. *)
Fixpoint chain (R : Z -> Z -> Prop) (prev : Z) (events : list (Z * string)) : Prop :=
  match events with
  | [] => True
  | e :: rest => R prev (fst e) /\ chain R (fst e) rest
  end.

Fixpoint lastTime (prev : Z) (events : list (Z * string)) : Z :=
  match events with
  | [] => prev
  | e :: rest => lastTime (fst e) rest
  end.

(** The next event arrives before the debounce timer of the previous
    one is due. *)
Definition withinWindow (prev t : Z) : Prop :=
  (prev <= t < prev + EVALUATION_DEBOUNCE_MS)%Z.

(** The next event arrives after the debounce timer of the previous one
    was due. *)
Definition apart (prev t : Z) : Prop :=
  (prev + EVALUATION_DEBOUNCE_MS < t)%Z.

Lemma lastTime_ge (R : Z -> Z -> Prop) prev events :
  (forall a b, R a b -> (a <= b)%Z) ->
  chain R prev events -> (prev <= lastTime prev events)%Z.
Proof.
  intros HR. revert prev. induction events as [|e rest IH]; intros prev H;
    cbn [lastTime chain] in *; [lia|].
  destruct H as [H1 H2]. specialize (IH _ H2). specialize (HR _ _ H1). lia.
Qed.

Lemma deliver_cons e rest w :
  deliver env (e :: rest) w
  = deliver env rest (handlePathChange (snd e) (fst e) (advanceTo env (fst e) w)).
Proof. reflexivity. Qed.

Lemma burst_coalesces tEnd rest w t0 :
  DebounceState w (Some (t0 + EVALUATION_DEBOUNCE_MS)%Z) ->
  Quiet tEnd w ->
  pendingEvaluations (self w) <> [] ->
  chain withinWindow t0 rest ->
  (lastTime t0 rest + EVALUATION_DEBOUNCE_MS <= tEnd)%Z ->
  let w' := deliver env rest w in
  DebounceState w' (Some (lastTime t0 rest + EVALUATION_DEBOUNCE_MS)%Z)
  /\ Quiet tEnd w'
  /\ pendingEvaluations (self w') <> []
  /\ passLog w' = passLog w.
Proof.
  cbv zeta. revert w t0.
  induction rest as [|[t p] rest IH]; intros w t0 Hd Hq Hp Hc Hend.
  - now repeat split.
  - cbn [chain lastTime fst] in Hc, Hend |- *. destruct Hc as [[Hlo Hhi] Hc].
    rewrite deliver_cons. cbn [fst snd].
    assert (Hmono : (t <= lastTime t rest)%Z).
    { apply (lastTime_ge withinWindow); [unfold withinWindow; intros; lia|exact Hc]. }
    assert (HD : (0 < EVALUATION_DEBOUNCE_MS)%Z) by reflexivity.
    rewrite (advanceTo_sleep t tEnd w _ Hd Hq); [|lia|intros x [= <-]; exact Hhi].
    destruct (handlePathChange_frame p t w) as [Hlog Hreg].
    destruct (IH (handlePathChange p t w) t) as (H1 & H2 & H3 & H4);
      try assumption.
    + now apply (handlePathChange_rearms p t w _ Hd).
    + now apply handlePathChange_quiet.
    + rewrite handlePathChange_pending. intros Hnil.
      destruct (pendingEvaluations (self w)) as [|y ys] eqn:E; [now apply Hp|].
      assert (Hy : In y (markNotSnoozed t (monitoredBases (self w))
                           (markCached p (monitoredBases (self w)) (y :: ys)))).
      { apply markNotSnoozed_keeps, markCached_keeps. now left. }
      rewrite Hnil in Hy. destruct Hy.
    + repeat split; try assumption. now rewrite H4.
Qed.

Lemma separated_events_each_pass tEnd rest w t0 :
  DebounceState w (Some (t0 + EVALUATION_DEBOUNCE_MS)%Z) ->
  Quiet tEnd w ->
  pendingEvaluations (self w) <> [] ->
  Awake t0 w ->
  chain apart t0 rest ->
  (lastTime t0 rest + EVALUATION_DEBOUNCE_MS <= tEnd)%Z ->
  let w' := deliver env rest w in
  DebounceState w' (Some (lastTime t0 rest + EVALUATION_DEBOUNCE_MS)%Z)
  /\ Quiet tEnd w'
  /\ pendingEvaluations (self w') <> []
  /\ List.length (passLog w') = List.length (passLog w) + List.length rest.
Proof.
  cbv zeta. revert w t0.
  induction rest as [|[t p] rest IH]; intros w t0 Hd Hq Hp Ha Hc Hend.
  - cbn [deliver fold_left lastTime List.length]. repeat split; try assumption. lia.
  - cbn [chain lastTime fst] in Hc, Hend |- *. destruct Hc as [Hgap Hc].
    unfold apart in Hgap. rewrite deliver_cons. cbn [fst snd].
    assert (Hmono : (t <= lastTime t rest)%Z).
    { apply (lastTime_ge apart); [unfold apart; intros a b; 
        assert (0 < EVALUATION_DEBOUNCE_MS)%Z by reflexivity; lia|exact Hc]. }
    assert (HD : (0 < EVALUATION_DEBOUNCE_MS)%Z) by reflexivity.
    destruct (advanceTo_fire t tEnd w _ Hd Hq) as (Hd1 & Hq1 & Hp1 & Hl1 & Hs1);
      [lia|lia|].
    set (w1 := advanceTo env t w) in *.
    assert (Ha1 : Awake t w1).
    { unfold Awake. rewrite Hs1. apply (Awake_later t0); [exact Ha|lia]. }
    destruct (handlePathChange_frame p t w1) as [Hlog Hreg].
    destruct (IH (handlePathChange p t w1) t) as (H1 & H2 & H3 & H4);
      try assumption.
    + now apply (handlePathChange_rearms p t w1 _ Hd1).
    + now apply handlePathChange_quiet.
    + now apply handlePathChange_marks.
    + unfold Awake. now rewrite Hreg.
    + repeat split; try assumption. rewrite H4, Hlog, Hl1.
      destruct (pendingEvaluations (self w)); [now destruct Hp|].
      rewrite length_app. cbn [List.length]. lia.
Qed.

(** *** Claim C6 *)

(** C6: a change event leaves exactly one debounce timer, restarted from
    the time of the event, whatever timer was pending before.  Hence,
    when some registered query is not snoozed (so every event marks one
    pending) and no other timer of the host falls due in between: change
    events each arriving before the timer of the previous one is due are
    followed by exactly one evaluation pass, and events each arriving
    after the previous timer was due are followed by one pass per
    event. *)
Theorem debounce_coalesces
        (w : World) (tEnd t1 : Z) (p1 : string) (rest : list (Z * string)) :
  DebounceState w None ->
  Quiet tEnd w ->
  Awake t1 w ->
  (lastTime t1 rest + EVALUATION_DEBOUNCE_MS <= tEnd)%Z ->
  (forall w0 d changed t,
      DebounceState w0 d ->
      DebounceState (handlePathChange changed t w0)
                    (Some (t + EVALUATION_DEBOUNCE_MS)%Z))
  /\ (chain withinWindow t1 rest ->
      List.length (passLog (advanceTo env tEnd (deliver env ((t1, p1) :: rest) w)))
      = List.length (passLog w) + 1)
  /\ (chain apart t1 rest ->
      List.length (passLog (advanceTo env tEnd (deliver env ((t1, p1) :: rest) w)))
      = List.length (passLog w) + List.length ((t1, p1) :: rest)).
Proof.
  intros Hd Hq Ha Hend.
  assert (HD : (0 < EVALUATION_DEBOUNCE_MS)%Z) by reflexivity.
  split; [intros w0 d changed t; apply handlePathChange_rearms|].
  assert (Hfirst : forall R, (forall a b, R a b -> (a <= b)%Z) -> chain R t1 rest ->
            advanceTo env t1 w = w).
  { intros R HR Hc. pose proof (lastTime_ge R t1 rest HR Hc).
    apply (advanceTo_sleep t1 tEnd w None Hd Hq); [lia|discriminate]. }
  destruct (handlePathChange_frame p1 t1 w) as [Hlog Hreg].
  pose proof (handlePathChange_rearms p1 t1 w _ Hd) as Hd1.
  pose proof (handlePathChange_quiet p1 t1 w tEnd Hq) as Hq1.
  pose proof (handlePathChange_marks p1 t1 w Ha) as Hp1.
  split; intros Hc; rewrite deliver_cons; cbn [fst snd].
  - rewrite (Hfirst withinWindow); [|unfold withinWindow; intros; lia|exact Hc].
    destruct (burst_coalesces tEnd rest _ t1 Hd1 Hq1 Hp1 Hc Hend)
      as (H1 & H2 & H3 & H4).
    destruct (advanceTo_fire tEnd tEnd _ _ H1 H2) as (_ & _ & _ & Hl & _);
      [lia|lia|].
    rewrite Hl, H4, Hlog.
    destruct (pendingEvaluations (self (deliver env rest _))); [now destruct H3|].
    rewrite length_app. reflexivity.
  - rewrite (Hfirst apart); [|unfold apart; intros; lia|exact Hc].
    assert (Ha1 : Awake t1 (handlePathChange p1 t1 w))
      by (unfold Awake; now rewrite Hreg).
    destruct (separated_events_each_pass tEnd rest _ t1 Hd1 Hq1 Hp1 Ha1 Hc Hend)
      as (H1 & H2 & H3 & H4).
    destruct (advanceTo_fire tEnd tEnd _ _ H1 H2) as (_ & _ & _ & Hl & _);
      [lia|lia|].
    rewrite Hl.
    destruct (pendingEvaluations (self (deliver env rest _))); [now destruct H3|].
    rewrite length_app, H4, Hlog. cbn [List.length]. lia.
Qed.

End Debounce.

(** The watcher five seconds after [initialize]: the query is registered,
    the listeners are set up and the periodic scan is armed. *)
Definition startedWorld : World :=
  advanceTo steadyEnv 5000 (initialize 0 newWorld).

Lemma debounce_coalesces_witness :
  List.length
    (passLog (advanceTo steadyEnv 10000
                (deliver steadyEnv
                         [(6000, policyNote); (6200, backupNote); (6400, policyNote)]%Z
                         startedWorld))) = 1
  /\ List.length
       (passLog (advanceTo steadyEnv 12000
                   (deliver steadyEnv
                            [(6000, policyNote); (8000, backupNote); (10000, policyNote)]%Z
                            startedWorld))) = 3.
Proof.
  assert (Hidle : DebounceState startedWorld None)
    by (apply Idle; vm_compute; reflexivity).
  assert (Hquiet : forall tEnd, (tEnd < 305000)%Z -> Quiet tEnd startedWorld).
  { intros tEnd H. unfold Quiet.
    replace (timers startedWorld)
      with [{| timerId := 6%positive; due := 305000%Z; callback := PeriodicScan;
               repeatEvery := Some 300000%Z |}] by (vm_compute; reflexivity).
    constructor; [intros _; exact H|constructor]. }
  assert (Hawake : Awake 6000 startedWorld).
  { unfold Awake.
    replace (snoozeProfile (monitoredBases (self startedWorld)))
      with [(overdueBase, 0%Z)] by (vm_compute; reflexivity).
    constructor. cbn. lia. }
  split.
  - destruct (debounce_coalesces steadyEnv startedWorld 10000 6000 policyNote
                [(6200, backupNote); (6400, policyNote)]%Z
                Hidle (Hquiet 10000%Z eq_refl) Hawake) as (_ & Hburst & _).
    + cbn. unfold EVALUATION_DEBOUNCE_MS. lia.
    + apply Hburst. cbn. unfold withinWindow, EVALUATION_DEBOUNCE_MS. lia.
  - destruct (debounce_coalesces steadyEnv startedWorld 12000 6000 policyNote
                [(8000, backupNote); (10000, policyNote)]%Z
                Hidle (Hquiet 12000%Z eq_refl) Hawake) as (_ & _ & Hapart).
    + cbn. unfold EVALUATION_DEBOUNCE_MS. lia.
    + apply Hapart. cbn. unfold apart, EVALUATION_DEBOUNCE_MS. lia.
Defined.


(** *** The registry stays well keyed *)

(** What can happen to a watcher: its public methods, an event from the
    host, and a turn of the timer queue. *)
Inductive Action :=
| Initialize
| Destroy
| Advance
| Dispatch (ev : HostEvent)
| SnoozeBase (basePath : string) (durationMinutes : Z)
| TriggerEvaluation (basePath : string)
| ShowNotificationFromView (basePath baseName : string) (items : list NotificationItem).

Definition act (env : Env) (w : World) (step : Z * Action) : World :=
  let now := fst step in
  match snd step with
  | Initialize => initialize now w
  | Destroy => destroy w
  | Advance => advanceTo env now w
  | Dispatch ev => dispatch env ev now w
  | SnoozeBase basePath durationMinutes => snoozeBase basePath durationMinutes now w
  | TriggerEvaluation basePath => triggerEvaluation env basePath now w
  | ShowNotificationFromView basePath baseName items =>
      showNotificationFromView basePath baseName items now w
  end.

(** The world after a history of timed actions on a new watcher. *)
Definition run (env : Env) (history : list (Z * Action)) : World :=
  fold_left (act env) history newWorld.

Definition WellKeyedWorld (w : World) : Prop := WellKeyed (monitoredBases (self w)).

Lemma WellKeyed_mapAlter (f : MonitoredBase -> MonitoredBase) k reg :
  (forall m, path (f m) = path m) ->
  WellKeyed reg -> WellKeyed (mapAlter f k reg).
Proof.
  intros Hf. unfold WellKeyed, mapAlter.
  induction 1 as [|[k0 m] r Hp Hr IH]; cbn [map]; constructor; [|exact IH].
  cbn [fst snd] in *. destruct (String.eqb k0 k); cbn [fst snd]; [now rewrite Hf|exact Hp].
Qed.

Lemma WellKeyed_mapDelete k reg : WellKeyed reg -> WellKeyed (mapDelete k reg).
Proof.
  unfold WellKeyed, mapDelete. rewrite !List.Forall_forall. intros H e He.
  apply filter_In in He. now apply H.
Qed.

Lemma WellKeyed_mapSet k v reg :
  path v = k -> WellKeyed reg -> WellKeyed (mapSet k v reg).
Proof.
  intros Hv Hreg. unfold mapSet. destruct (mapHas k reg).
  - unfold WellKeyed, mapAlter in *.
    induction Hreg as [|[k0 m] r Hp Hr IH]; cbn [map]; constructor; [|exact IH].
    cbn [fst snd] in *. destruct (String.eqb_spec k0 k); cbn [fst snd]; congruence.
  - apply List.Forall_app. split; [exact Hreg|]. constructor; [exact Hv|constructor].
Qed.

Section Invariant.
Variable env : Env.

Lemma WellKeyed_checkAndRegisterBase now file reg :
  WellKeyed reg -> WellKeyed (checkAndRegisterBase env now file reg).
Proof.
  intros H. unfold checkAndRegisterBase. destruct file as [p b].
  destruct (readBaseConfig env now p) as [config|msg]; [|exact H].
  destruct (notify config); [now apply WellKeyed_mapSet|now apply WellKeyed_mapDelete].
Qed.

Lemma WellKeyed_scan now w :
  WellKeyedWorld w -> WellKeyedWorld (scanForMonitoredBases env now w).
Proof.
  unfold WellKeyedWorld, scanForMonitoredBases.
  cbn [onSelf withSelf self withBases monitoredBases].
  generalize (monitoredBases (self w)).
  induction (baseFiles env now) as [|f r IH]; intros reg H; cbn [fold_left]; [exact H|].
  apply IH. now apply WellKeyed_checkAndRegisterBase.
Qed.

Lemma WellKeyed_evaluateOne now w q :
  WellKeyedWorld w -> WellKeyedWorld (evaluateOne env now w q).
Proof.
  unfold WellKeyedWorld, evaluateOne. intros H.
  destruct (mapGet q (monitoredBases (self w))) as [m|]; [|exact H].
  destruct (snoozedUntil m >? now)%Z; [exact H|].
  destruct (evaluateBaseQuery env now q) as [[[|r rs]|]|msg];
    cbn [showNotification openModal onSelf withSelf self withBases monitoredBases];
    try exact H; now apply WellKeyed_setCached.
Qed.

Lemma WellKeyed_evaluatePendingBases now w :
  WellKeyedWorld w -> WellKeyedWorld (evaluatePendingBases env now w).
Proof.
  intros H. unfold evaluatePendingBases.
  destruct (pendingEvaluations (self w)) as [|q rest]; [exact H|].
  assert (H0 : WellKeyedWorld (logPass now (q :: rest) (onSelf (withPending []) w)))
    by exact H.
  revert H0. generalize (logPass now (q :: rest) (onSelf (withPending []) w)).
  induction (q :: rest) as [|q0 r IH]; intros w0 H0; cbn [fold_left]; [exact H0|].
  apply IH. now apply WellKeyed_evaluateOne.
Qed.

Lemma WellKeyed_handlePathChange changed now w :
  WellKeyedWorld w -> WellKeyedWorld (handlePathChange changed now w).
Proof.
  unfold WellKeyedWorld. now rewrite (proj2 (handlePathChange_frame changed now w)).
Qed.

Lemma WellKeyed_fireTimer now w t :
  WellKeyedWorld w -> WellKeyedWorld (fireTimer env now w t).
Proof.
  intros H. unfold fireTimer. destruct (existsb _ (timers w)); [|exact H].
  set (w0 := {| self := self w; timers := _ |}).
  assert (H0 : WellKeyedWorld w0) by exact H. clearbody w0.
  destruct (callback t); cbn [runCallback].
  - unfold startupScan, startPeriodicScan, setupEventListeners.
    apply (WellKeyed_scan now) in H0. exact H0.
  - unfold debouncedEvaluation. now apply WellKeyed_evaluatePendingBases.
  - unfold periodicScan. cbv zeta. apply (WellKeyed_scan now) in H0.
    destruct (0 <? _)%nat; [apply WellKeyed_evaluatePendingBases|]; exact H0.
Qed.

Lemma WellKeyed_advanceTo now w :
  WellKeyedWorld w -> WellKeyedWorld (advanceTo env now w).
Proof.
  unfold advanceTo. generalize (dueTimers now (timers w)). intros ts. revert w.
  induction ts as [|t r IH]; intros w H; cbn [fold_left]; [exact H|].
  apply IH. now apply WellKeyed_fireTimer.
Qed.

Lemma WellKeyed_destroy w : WellKeyedWorld (destroy w).
Proof.
  unfold WellKeyedWorld, destroy, release. cbv zeta.
  repeat match goal with
         | |- context [match ?o with Some _ => _ | None => _ end] => destruct o
         end; constructor.
Qed.

Lemma WellKeyed_handleEvent ev now w :
  WellKeyedWorld w -> WellKeyedWorld (handleEvent env ev now w).
Proof.
  intros H. destruct ev as [taskPath|file|file|file oldPath]; cbn [handleEvent].
  - destruct (truthy _); [now apply WellKeyed_handlePathChange|exact H].
  - destruct (String.eqb (extension file) "base").
    + now apply WellKeyed_checkAndRegisterBase.
    + destruct (String.eqb (extension file) "md");
        [now apply WellKeyed_handlePathChange|exact H].
  - destruct (String.eqb (extension file) "base").
    + now apply WellKeyed_mapDelete.
    + now apply WellKeyed_handlePathChange.
  - destruct (String.eqb (extension file) "base").
    + destruct (mapGet oldPath (monitoredBases (self w))); [|exact H].
      apply WellKeyed_mapSet; [reflexivity|now apply WellKeyed_mapDelete].
    + now do 2 apply WellKeyed_handlePathChange.
Qed.

(** Every entry of the registry is filed under its own path, whatever the
    history of the watcher. *)
Lemma run_WellKeyed history : WellKeyedWorld (run env history).
Proof.
  unfold run. assert (H : WellKeyedWorld newWorld) by constructor.
  revert H. generalize newWorld.
  induction history as [|[now a] rest IH]; intros w H; cbn [fold_left]; [exact H|].
  apply IH. unfold act. cbn [fst snd]. destruct a.
  - unfold initialize. destruct (initialized (self w)); exact H.
  - apply WellKeyed_destroy.
  - now apply WellKeyed_advanceTo.
  - unfold dispatch. destruct (existsb _ _); [now apply WellKeyed_handleEvent|exact H].
  - unfold snoozeBase. destruct (mapGet _ _); [|exact H].
    now apply WellKeyed_mapAlter.
  - unfold triggerEvaluation. now apply WellKeyed_evaluatePendingBases.
  - unfold showNotificationFromView. destruct items as [|i r]; [exact H|].
    match goal with |- context [if ?c then _ else _] => destruct c end.
    + destruct (mapGet _ (monitoredBases (self w))); [exact H|].
      now apply WellKeyed_mapSet.
    + cbn [showNotification openModal onSelf withSelf self withBases monitoredBases].
      apply WellKeyed_setCached.
      destruct (mapGet _ (monitoredBases (self w))); [exact H|].
      now apply WellKeyed_mapSet.
Qed.

End Invariant.

End WatcherProofs.


(** * Further properties of the reference resolver *)

Module ReferenceExtras.
Import JsString DuplicateDetector ReferenceProofs.

(** [hasExistingTask] *)
Definition hasExistingTask (allTasks : list TaskInfo) (sourcePath : string) : bool :=
  bool_decide (sourcePath ∈ existingTaskPaths (checkForDuplicates allTasks [sourcePath])).

(** A path made of an optional folder and a name. *)
Definition joinPath (dir : option string) (name : string) : string :=
  match dir with
  | Some d => d ++ ("/" ++ name)
  | None => name
  end.

Definition noSlash (s : string) : bool :=
  allChars (fun c => negb (Ascii.eqb c "/")) s.

Lemma toLowerCase_append a b :
  toLowerCase (a ++ b) = toLowerCase a ++ toLowerCase b.
Proof.
  induction a as [|c r IH]; [reflexivity|].
  rewrite append_cons. cbn [toLowerCase]. now rewrite IH, append_cons.
Qed.

Lemma toLowerChar_slash c : Ascii.eqb (toLowerChar c) "/" = Ascii.eqb c "/".
Proof. destruct c as [[] [] [] [] [] [] [] []]; reflexivity. Qed.

Lemma noSlash_toLowerCase s : noSlash (toLowerCase s) = noSlash s.
Proof.
  unfold noSlash. induction s as [|c r IH]; [reflexivity|].
  cbn [toLowerCase allChars]. now rewrite toLowerChar_slash, IH.
Qed.

Lemma append_length a b : String.length (a ++ b) = String.length a + String.length b.
Proof.
  induction a as [|c r IH]; [reflexivity|]. rewrite append_cons. cbn [String.length].
  now rewrite IH.
Qed.

Lemma append_assoc a b c : (a ++ b) ++ c = a ++ (b ++ c).
Proof.
  induction a as [|x r IH]; [reflexivity|]. rewrite !append_cons. now rewrite IH.
Qed.

(** The expression [/\.md$/i] removes a trailing extension whole. *)
Lemma stripMd_append_ext p ext : isDotMd ext = true -> stripMd (p ++ ext) = p.
Proof.
  intros Hext. induction p as [|c r IH].
  - rewrite append_nil. destruct ext as [|e0 er]; [discriminate|].
    cbn [stripMd]. now rewrite Hext.
  - rewrite append_cons. cbn [stripMd].
    destruct (isDotMd (String c (r ++ ext))) eqn:E.
    + apply isDotMd_length in E. apply isDotMd_length in Hext.
      cbn [String.length] in E. rewrite append_length in E. lia.
    + now rewrite IH.
Qed.

(** *** The extension does not matter to [normalizePath] *)

(** A path with the extension (in any letter case) normalises to the
    lower-cased path without it, and so to the same string as the path
    without the extension, whatever lower-casing does to the path. *)
Theorem normalizePath_extension_optional (p ext : string) :
  isDotMd ext = true ->
  normalizePath (p ++ ext) = toLowerCase p
  /\ (hasMdSuffix p = false -> normalizePath (p ++ ext) = normalizePath p).
Proof.
  intros Hext. unfold normalizePath. split.
  - now rewrite stripMd_append_ext.
  - intros Hp. now rewrite stripMd_append_ext, (stripMd_id p Hp).
Qed.

Lemma normalizePath_extension_optional_witness :
  normalizePath "Docs/Report.MD" = normalizePath "Docs/Report".
Proof.
  change "Docs/Report.MD" with ("Docs/Report" ++ ".MD").
  exact (proj2 (normalizePath_extension_optional "Docs/Report" ".MD" eq_refl) eq_refl).
Defined.

(** *** Folders do not matter to the matching rule *)

Definition hasSlash (s : string) : bool :=
  existsb (Ascii.eqb "/") (list_ascii_of_string s).

Lemma noSlash_hasSlash s : noSlash s = negb (hasSlash s).
Proof.
  unfold noSlash, hasSlash. induction s as [|c r IH]; [reflexivity|].
  cbn [allChars list_ascii_of_string existsb]. rewrite IH, negb_orb.
  now rewrite (Ascii.eqb_sym "/" c).
Qed.

Lemma noSlash_append a b : noSlash (a ++ b) = noSlash a && noSlash b.
Proof.
  unfold noSlash. induction a as [|c r IH]; [reflexivity|].
  rewrite append_cons. cbn [allChars]. now rewrite IH, andb_assoc.
Qed.

Lemma noSlash_join d n : noSlash (d ++ ("/" ++ n)) = false.
Proof. rewrite noSlash_append. cbn. apply andb_false_r. Qed.

Lemma isDotMd_noSlash s : isDotMd s = true -> noSlash s = true.
Proof.
  destruct s as [|a [|b [|c [|d r]]]]; try discriminate. cbn [isDotMd].
  intros H. apply andb_true_iff in H as [H Hd]. apply andb_true_iff in H as [Ha Hb].
  apply Ascii.eqb_eq in Ha. subst a.
  apply orb_true_iff in Hb, Hd.
  destruct Hb as [Hb|Hb], Hd as [Hd|Hd]; apply Ascii.eqb_eq in Hb, Hd; subst;
    reflexivity.
Qed.

Lemma lastSegment_noSlash n : noSlash n = true -> lastSegment n = n.
Proof.
  destruct n as [|c r]; [reflexivity|]. intros H.
  change (noSlash (String c r)) with (negb (Ascii.eqb c "/") && noSlash r) in H.
  apply andb_true_iff in H as [Hc Hr]. rewrite noSlash_hasSlash in Hr.
  apply negb_true_iff in Hc, Hr. cbn [lastSegment]. fold (hasSlash r).
  now rewrite Hr, Hc.
Qed.

Lemma lastSegment_join d n : noSlash n = true -> lastSegment (d ++ ("/" ++ n)) = n.
Proof.
  intros Hn. induction d as [|c r IH].
  - rewrite append_nil, append_cons, append_nil. cbn [lastSegment]. fold (hasSlash n).
    rewrite noSlash_hasSlash in Hn. apply negb_true_iff in Hn. now rewrite Hn.
  - rewrite append_cons. cbn [lastSegment]. fold (hasSlash (r ++ ("/" ++ n))).
    assert (H : hasSlash (r ++ ("/" ++ n)) = true).
    { pose proof (noSlash_join r n) as H. rewrite noSlash_hasSlash in H.
      now apply negb_false_iff in H. }
    now rewrite H.
Qed.

Lemma hasMdSuffix_join d n : hasMdSuffix (d ++ ("/" ++ n)) = hasMdSuffix n.
Proof.
  assert (Hnot : forall s, noSlash s = false -> isDotMd s = false).
  { intros s Hs. destruct (isDotMd s) eqn:E; [|reflexivity].
    apply isDotMd_noSlash in E. congruence. }
  induction d as [|c r IH].
  - rewrite append_nil, append_cons, append_nil. cbn [hasMdSuffix].
    now rewrite (Hnot (String "/" n)) by reflexivity.
  - rewrite append_cons. cbn [hasMdSuffix].
    rewrite (Hnot (String c (r ++ ("/" ++ n)))); [exact IH|].
    change (String c (r ++ ("/" ++ n))) with (String c r ++ ("/" ++ n)).
    apply noSlash_join.
Qed.

Lemma toLowerCase_nonempty s : s <> "" -> toLowerCase s <> "".
Proof. destruct s; [congruence|discriminate]. Qed.

Lemma orElse_nonempty a b : a <> "" -> orElse a b = a.
Proof.
  intros H. unfold orElse, truthy. destruct (String.eqb_spec a ""); [contradiction|reflexivity].
Qed.

(** The basename of a normalised path is the lower-cased name, whatever the
    folder. *)
Lemma basename_joinPath dir name :
  name <> "" -> noSlash name = true ->
  basename (toLowerCase (joinPath dir name)) = toLowerCase name.
Proof.
  intros Hne Hns. unfold basename. destruct dir as [d|]; cbn [joinPath].
  - rewrite !toLowerCase_append. change (toLowerCase "/") with "/".
    rewrite lastSegment_join by now rewrite noSlash_toLowerCase.
    now apply orElse_nonempty, toLowerCase_nonempty.
  - rewrite lastSegment_noSlash by now rewrite noSlash_toLowerCase.
    now apply orElse_nonempty, toLowerCase_nonempty.
Qed.

Lemma hasMdSuffix_joinPath dir name : hasMdSuffix (joinPath dir name) = hasMdSuffix name.
Proof. destruct dir; [apply hasMdSuffix_join|reflexivity]. Qed.

Lemma joinPath_append dir name ext : joinPath dir (name ++ ext) = joinPath dir name ++ ext.
Proof.
  destruct dir as [d|]; cbn [joinPath]; [|reflexivity].
  now rewrite !append_assoc.
Qed.

(** An extension, or nothing. *)
Definition optionalExt (ext : string) : bool := isDotMd ext || String.eqb ext "".

Lemma normalizePath_joinPath dir name ext :
  hasMdSuffix name = false -> optionalExt ext = true ->
  normalizePath (joinPath dir (name ++ ext)) = toLowerCase (joinPath dir name).
Proof.
  intros Hn Hext. unfold normalizePath. rewrite joinPath_append.
  apply orb_true_iff in Hext as [Hext|Hext].
  - now rewrite stripMd_append_ext.
  - apply String.eqb_eq in Hext. subst ext. rewrite append_nil_r.
    rewrite stripMd_id; [reflexivity|]. now rewrite hasMdSuffix_joinPath.
Qed.

Lemma linked_by_basename taskPath r source b :
  basename (normalizePath (extractPathFromLink r)) = b ->
  basename (normalizePath source) = b ->
  taskLinksToSource {| path := taskPath; projects := Some [r] |} source = true.
Proof.
  intros Hr Hs. unfold taskLinksToSource. cbn [projects anyProject].
  unfold projectMatches. cbv zeta. rewrite Hr, Hs, String.eqb_refl.
  now rewrite orb_true_r.
Qed.

Lemma extract_wiki target :
  wikiTargetOk target = true -> trim target = target ->
  extractPathFromLink ("[[" ++ (target ++ "]]")) = target.
Proof.
  intros Hok Htrim. unfold extractPathFromLink.
  rewrite (wikiMatch_plain _ Hok). rewrite !append_cons. cbn. exact Htrim.
Qed.

Lemma extract_wiki_alias target alias :
  wikiTargetOk target = true -> aliasOk alias = true -> trim target = target ->
  extractPathFromLink ("[[" ++ (target ++ ("|" ++ (alias ++ "]]")))) = target.
Proof.
  intros Hok Ha Htrim. unfold extractPathFromLink.
  rewrite (wikiMatch_alias _ _ Hok Ha). rewrite !append_cons. cbn. exact Htrim.
Qed.

Lemma extract_markdown label target :
  labelOk label = true -> mdTargetOk target = true -> trim target = target ->
  extractPathFromLink ("[" ++ (label ++ ("](" ++ (target ++ ")")))) = target.
Proof.
  intros Hl Ht Htrim. unfold extractPathFromLink.
  rewrite wikiMatch_md_none. unfold mdMatch.
  pose proof (mdScan_label _ _ Hl Ht) as Hscan.
  rewrite !append_cons, !append_nil in *. cbn [truthy String.eqb negb Ascii.eqb Bool.eqb andb].
  now rewrite Hscan.
Qed.

(** Whatever folder a reference names, and whether it is a wiki link, a
    wiki link with an alias or a markdown link, it links a task to every
    source note of the same name, with or without the extension, in any
    folder. *)
Theorem links_ignore_folders
        (dirLink dirSource : option string) (name ext extLink alias label taskPath : string) :
  name <> "" ->
  noSlash name = true ->
  hasMdSuffix name = false ->
  optionalExt ext = true ->
  optionalExt extLink = true ->
  let source := joinPath dirSource (name ++ ext) in
  let target := joinPath dirLink (name ++ extLink) in
  (wikiTargetOk target = true -> trim target = target ->
   taskLinksToSource {| path := taskPath; projects := Some ["[[" ++ (target ++ "]]")] |}
                     source = true)
  /\ (wikiTargetOk target = true -> aliasOk alias = true -> trim target = target ->
      taskLinksToSource
        {| path := taskPath;
           projects := Some ["[[" ++ (target ++ ("|" ++ (alias ++ "]]")))] |}
        source = true)
  /\ (labelOk label = true -> mdTargetOk target = true -> trim target = target ->
      taskLinksToSource
        {| path := taskPath;
           projects := Some ["[" ++ (label ++ ("](" ++ (target ++ ")")))] |}
        source = true).
Proof.
  intros Hne Hns Hmd Hext HextL source target.
  assert (Hs : basename (normalizePath source) = toLowerCase name).
  { subst source. rewrite normalizePath_joinPath by assumption.
    now apply basename_joinPath. }
  assert (Ht : basename (normalizePath target) = toLowerCase name).
  { subst target. rewrite normalizePath_joinPath by assumption.
    now apply basename_joinPath. }
  split; [|split].
  - intros Hok Htrim. apply (linked_by_basename _ _ _ (toLowerCase name)); [|exact Hs].
    now rewrite extract_wiki.
  - intros Hok Ha Htrim. apply (linked_by_basename _ _ _ (toLowerCase name)); [|exact Hs].
    now rewrite extract_wiki_alias.
  - intros Hl Hok Htrim. apply (linked_by_basename _ _ _ (toLowerCase name)); [|exact Hs].
    now rewrite extract_markdown.
Qed.

Lemma links_ignore_folders_witness :
  taskLinksToSource {| path := "TaskNotes/Tasks/Review.md";
                       projects := Some ["[[Archive/Password Policy]]"] |}
                    "Library/Password Policy.md" = true
  /\ taskLinksToSource {| path := "TaskNotes/Tasks/Review.md";
                          projects := Some ["[Policy](Archive/Password Policy.md)"] |}
                       "Library/Password Policy.md" = true.
Proof.
  assert (Hne : "Password Policy" <> "") by discriminate.
  split.
  - exact (proj1 (links_ignore_folders (Some "Archive") (Some "Library")
                    "Password Policy" ".md" "" "x" "Policy" "TaskNotes/Tasks/Review.md"
                    Hne eq_refl eq_refl eq_refl eq_refl) eq_refl eq_refl).
  - exact (proj2 (proj2 (links_ignore_folders (Some "Archive") (Some "Library")
                    "Password Policy" ".md" ".md" "x" "Policy" "TaskNotes/Tasks/Review.md"
                    Hne eq_refl eq_refl eq_refl eq_refl)) eq_refl eq_refl eq_refl).
Defined.

(** *** What the duplicate check reports *)

(** Does some task of the cache link to [x]? *)
Definition linkedb (allTasks : list TaskInfo) (x : string) : bool :=
  (0 <? List.length (linkedTasksOf allTasks x))%nat.

Lemma linkedb_spec allTasks x :
  linkedb allTasks x = true
  <-> exists t, In t allTasks /\ taskLinksToSource t x = true.
Proof.
  unfold linkedb, linkedTasksOf. rewrite length_map. split.
  - intros H. apply Nat.ltb_lt in H.
    destruct (List.filter _ allTasks) as [|t r] eqn:E; [cbn in H; lia|].
    assert (Hin : In t (List.filter (fun t => taskLinksToSource t x) allTasks))
      by (rewrite E; now left).
    apply filter_In in Hin. now exists t.
  - intros (t & Hin & Hl). apply Nat.ltb_lt.
    assert (Hf : In t (List.filter (fun t => taskLinksToSource t x) allTasks))
      by now apply filter_In.
    destruct (List.filter _ allTasks); [destruct Hf|cbn; lia].
Qed.

Lemma checkLoop_existing allTasks sourcePaths acc x :
  x ∈ existingTaskPaths (checkLoop allTasks sourcePaths acc)
  <-> x ∈ existingTaskPaths acc \/ (In x sourcePaths /\ linkedb allTasks x = true).
Proof.
  revert acc. induction sourcePaths as [|p rest IH]; intros acc; cbn [checkLoop].
  - split; [now left|]. intros [H|[[] _]]. exact H.
  - fold (linkedb allTasks p). destruct (linkedb allTasks p) eqn:E; rewrite IH.
    + cbn [existingTaskPaths]. rewrite elem_of_union, elem_of_singleton. split.
      * intros [[->|H]|[Hin Hl]]; [right; split; [now left|exact E]|now left|].
        right. split; [now right|exact Hl].
      * intros [H|[[->|Hin] Hl]]; [left; now right|left; now left|right; now split].
    + split.
      * intros [H|[Hin Hl]]; [now left|right; split; [now right|exact Hl]].
      * intros [H|[[->|Hin] Hl]]; [now left|congruence|right; now split].
Qed.

Lemma checkLoop_map allTasks sourcePaths acc x :
  sourceToTaskMap (checkLoop allTasks sourcePaths acc) !! x
  = if existsb (String.eqb x) sourcePaths && linkedb allTasks x
    then Some (linkedTasksOf allTasks x)
    else sourceToTaskMap acc !! x.
Proof.
  revert acc. induction sourcePaths as [|p rest IH]; intros acc; cbn [checkLoop existsb].
  - reflexivity.
  - fold (linkedb allTasks p).
    destruct (linkedb allTasks p) eqn:El; rewrite IH; cbn [sourceToTaskMap];
      destruct (String.eqb_spec x p) as [->|Hne]; cbn [orb].
    + rewrite El. destruct (existsb (String.eqb p) rest); cbn [andb];
        [reflexivity|apply lookup_insert_eq].
    + destruct (existsb (String.eqb x) rest && linkedb allTasks x); [reflexivity|].
      now rewrite lookup_insert_ne.
    + rewrite El, !andb_false_r. reflexivity.
    + reflexivity.
Qed.

(** A source path is reported as having a task exactly when it was asked
    about and some task of the cache links to it; the map then holds, for
    that path, the paths of all linking tasks in cache order, and holds
    nothing for any other path. *)
Theorem checkForDuplicates_spec (allTasks : list TaskInfo)
        (sourcePaths : list string) (x : string) :
  let found := checkForDuplicates allTasks sourcePaths in
  (x ∈ existingTaskPaths found
   <-> In x sourcePaths /\ exists t, In t allTasks /\ taskLinksToSource t x = true)
  /\ sourceToTaskMap found !! x
     = (if bool_decide (x ∈ existingTaskPaths found)
        then Some (map path (List.filter (fun t => taskLinksToSource t x) allTasks))
        else None)
  /\ (hasExistingTask allTasks x = true
      <-> exists t, In t allTasks /\ taskLinksToSource t x = true).
Proof.
  cbv zeta. unfold checkForDuplicates.
  assert (Hex : forall ps,
             x ∈ existingTaskPaths
                   (checkLoop allTasks ps {| existingTaskPaths := ∅; sourceToTaskMap := ∅ |})
             <-> In x ps /\ linkedb allTasks x = true).
  { intros ps. rewrite checkLoop_existing. cbn [existingTaskPaths]. split.
    - intros [H|H]; [now apply not_elem_of_empty in H|exact H].
    - now right. }
  split; [|split].
  - rewrite Hex, linkedb_spec. reflexivity.
  - rewrite checkLoop_map. cbn [sourceToTaskMap]. rewrite lookup_empty.
    destruct (existsb (String.eqb x) sourcePaths && linkedb allTasks x) eqn:E.
    + rewrite bool_decide_eq_true_2; [reflexivity|].
      apply Hex. apply andb_true_iff in E as [Hin Hl]. split; [|exact Hl].
      apply existsb_exists in Hin as (y & Hy & Heq). apply String.eqb_eq in Heq.
      now subst.
    + rewrite bool_decide_eq_false_2; [reflexivity|]. intros H.
      apply Hex in H as [Hin Hl]. rewrite Hl, andb_true_r in E.
      assert (existsb (String.eqb x) sourcePaths = true); [|congruence].
      apply existsb_exists. exists x. split; [exact Hin|apply String.eqb_refl].
  - unfold hasExistingTask, checkForDuplicates. rewrite bool_decide_eq_true, Hex.
    rewrite linkedb_spec. split; [now intros [_ H]|]. intros H. split; [now left|exact H].
Qed.

End ReferenceExtras.

(** * Further properties of bulk generation *)

Module GenerationExtras.
Import JsString Host DuplicateDetector BulkTaskEngine.
Import ReferenceProofs ReferenceExtras BulkProofs.

Lemma truthy_nonempty s : truthy s = true <-> s <> "".
Proof.
  unfold truthy. destruct (String.eqb_spec s ""); split; cbn; congruence.
Qed.

Lemma stripMd_empty s : stripMd s = "" -> s = "" \/ isDotMd s = true.
Proof.
  destruct s as [|c r]; [now left|]. cbn [stripMd].
  destruct (isDotMd (String c r)); [now right|discriminate].
Qed.

Lemma basename_nonempty p : p <> "" -> basename p <> "".
Proof.
  intros Hp. unfold basename, orElse.
  destruct (truthy (lastSegment p)) eqn:E; [now apply truthy_nonempty|exact Hp].
Qed.

(** An item that carries nothing but a path. *)
Definition pathOnly (p : string) : BasesDataItem :=
  {| itemPath := Some p; itemName := None; fileBasename := None; properties := None |}.

(** *** The title of a generated task *)

(** The title is empty only when it has to come from the path and the
    file name is a bare extension; in that case it is empty, and the
    "Untitled task" fallback does not apply. *)
Theorem extractTitle_nonempty (item : BasesDataItem) (p : string) :
  (isDotMd (basename (default "" (itemPath item))) = false -> extractTitle item <> "")
  /\ (p <> "" -> (extractTitle (pathOnly p) = "" <-> isDotMd (basename p) = true)).
Proof.
  assert (Hfall : forall i, isDotMd (basename (default "" (itemPath i))) = false ->
                            fallbackTitle i <> "").
  { intros i Hd. unfold fallbackTitle.
    destruct (truthy (default "" (fileBasename i))) eqn:E1; [now apply truthy_nonempty|].
    destruct (truthy (default "" (itemName i))) eqn:E2; [now apply truthy_nonempty|].
    destruct (truthy (default "" (itemPath i))) eqn:E3; [|discriminate].
    intros H. apply stripMd_empty in H as [H|H]; [|congruence].
    apply truthy_nonempty in E3. now apply basename_nonempty in E3. }
  split.
  - intros Hd. unfold extractTitle.
    destruct (props item !! "title") as [[| | |t|]|]; try now apply Hfall.
    destruct (truthy t) eqn:E; [now apply truthy_nonempty|now apply Hfall].
  - intros Hp. unfold extractTitle, props, pathOnly. cbn [properties default].
    rewrite lookup_empty. unfold fallbackTitle. cbn [fileBasename itemName itemPath default].
    change (truthy "") with false. cbv iota. unfold id.
    apply truthy_nonempty in Hp as Ht. rewrite Ht. split.
    + intros H. apply stripMd_empty in H as [H|H]; [|exact H].
      now apply basename_nonempty in Hp.
    + intros H. destruct (basename p) as [|c r] eqn:E; [discriminate|].
      cbn [stripMd]. now rewrite H.
Qed.

Lemma extractTitle_nonempty_witness :
  extractTitle (pathOnly "Library/Password-Policy.md") <> ""
  /\ extractTitle (pathOnly "Library/.md") = "".
Proof.
  destruct (extractTitle_nonempty (pathOnly "Library/Password-Policy.md") "Library/.md")
    as [Hne Hempty].
  split; [exact (Hne eq_refl)|].
  apply Hempty; [discriminate|reflexivity].
Defined.

(** *** The dry run and the run *)

Lemma filter_length_map {A B} (g : A -> B) (f : B -> bool) (l : list A) :
  List.length (List.filter (fun a => f (g a)) l) = List.length (List.filter f (map g l)).
Proof.
  induction l as [|a r IH]; [reflexivity|]. cbn [map List.filter].
  destruct (f (g a)); cbn [List.length]; now rewrite IH.
Qed.

(** The size of a set whose elements all occur in a list. *)
Lemma size_le_filter (E : gset string) (l : list string) :
  (forall x, x ∈ E -> In x l) ->
  size E <= List.length (List.filter (fun x => bool_decide (x ∈ E)) l).
Proof.
  intros Hsub. unfold size, set_size. cbn.
  apply submseteq_length, NoDup_submseteq; [apply NoDup_elements|].
  intros x Hx. apply elem_of_elements in Hx. apply list_elem_of_In, filter_In.
  split; [now apply Hsub|now apply bool_decide_eq_true].
Qed.

Lemma size_eq_filter (E : gset string) (l : list string) :
  (forall x, x ∈ E -> In x l) -> List.NoDup l ->
  size E = List.length (List.filter (fun x => bool_decide (x ∈ E)) l).
Proof.
  intros Hsub Hnd. unfold size, set_size. cbn.
  apply Permutation_length, NoDup_Permutation;
    [apply NoDup_elements|now apply NoDup_ListNoDup, List.NoDup_filter|].
  intros x. rewrite elem_of_elements, list_elem_of_In, filter_In, bool_decide_eq_true.
  split; [intros H; split; [now apply Hsub|exact H]|now intros [_ H]].
Qed.

Section Runs.
Variable host : Collaborators.
Variable vault : Vault.

Lemma createLoop_skipped options dup items st :
  skipped (result (fold_left (fun st item => createStep host vault options dup item st)
                             items st))
  = skipped (result st)
    + List.length (List.filter (fun i => isSkipped options dup (sourcePathOf i)) items).
Proof.
  revert st. induction items as [|i rest IH]; intros st; cbn [fold_left List.filter].
  - cbn. lia.
  - rewrite IH. destruct (isSkipped options dup (sourcePathOf i)) eqn:E.
    + unfold createStep. cbv zeta. rewrite E. cbn. lia.
    + destruct (createStep_not_skipped host vault options dup i st E) as [-> _]. lia.
Qed.

Lemma createTasks_skipped allTasks items options :
  skipped (createTasks host vault allTasks items options)
  = List.length (List.filter
                   (fun i => isSkipped options (duplicateCheckFor allTasks items options)
                                       (sourcePathOf i)) items).
Proof.
  unfold createTasks, createTasksLoop. destruct items as [|i rest]; [reflexivity|].
  now rewrite createLoop_skipped.
Qed.

Lemma existing_checked allTasks items x :
  x ∈ existingTaskPaths (checkForDuplicates allTasks (checkedSourcePaths items)) ->
  In x (checkedSourcePaths items).
Proof. apply checkForDuplicates_subset. Qed.

Lemma skipped_count allTasks items options :
  skipExisting options = true ->
  skipped (createTasks host vault allTasks items options)
  = List.length
      (List.filter
         (fun x => bool_decide
                     (x ∈ existingTaskPaths
                            (checkForDuplicates allTasks (checkedSourcePaths items))))
         (checkedSourcePaths items)).
Proof.
  intros Hskip. rewrite createTasks_skipped.
  unfold isSkipped, duplicateCheckFor. rewrite Hskip. cbn [andb].
  etransitivity;
    [exact (filter_length_map sourcePathOf
              (fun x => bool_decide
                          (x ∈ existingTaskPaths
                                 (checkForDuplicates allTasks (checkedSourcePaths items))))
              items)|].
  unfold checkedSourcePaths at 3. f_equal.
  apply WatcherProofs.filter_narrow. apply List.Forall_forall. intros x _ Hx.
  apply bool_decide_eq_false. intros Hin.
  apply existing_checked, checkedSourcePaths_truthy in Hin. congruence.
Qed.

(** The dry run never announces more skips than the run makes; its two
    counts always add up to the batch size; and when the non-empty paths of
    the batch are pairwise distinct, the run skips exactly the announced
    number and attempts exactly the announced number of creations. *)
Theorem preCheck_agrees_with_createTasks
        (allTasks : list TaskInfo) (items : list BasesDataItem)
        (options : BulkCreationOptions) :
  let announced := preCheck allTasks items (skipExisting options) in
  let toCreate := fst (fst announced) in
  let toSkip := snd (fst announced) in
  let r := createTasks host vault allTasks items options in
  toCreate + toSkip = List.length items
  /\ toSkip <= skipped r
  /\ (List.NoDup (checkedSourcePaths items) ->
      skipped r = toSkip /\ created r + failed r = toCreate).
Proof.
  cbv zeta.
  pose proof (create_total _ _ _ _ _ _ (createTasks_progress host vault allTasks items options))
    as Htotal.
  fold (createTasks host vault allTasks items options) in Htotal.
  unfold preCheck. destruct (skipExisting options) eqn:Hskip; cbn [negb fst snd].
  - pose proof (skipped_count allTasks items options Hskip) as Hcount.
    pose proof (size_le_filter _ _ (existing_checked allTasks items)) as Hle.
    rewrite <- Hcount in Hle.
    split; [lia|]. split; [exact Hle|]. intros Hnd.
    pose proof (size_eq_filter _ _ (existing_checked allTasks items) Hnd) as Heq.
    rewrite <- Hcount in Heq. lia.
  - assert (Hzero : skipped (createTasks host vault allTasks items options) = 0).
    { rewrite createTasks_skipped. unfold isSkipped. rewrite Hskip. cbn [andb].
      clear Htotal. induction items as [|i rest IH]; [reflexivity|].
      cbn [List.filter]. exact IH. }
    lia.
Qed.

End Runs.

(** Two notes of one folder; the first already has a task that names it as
    its project. *)
Definition twoNotes : list BasesDataItem :=
  [pathOnly "Library/Password-Policy.md"; pathOnly "Library/Backup.md"].

Definition policyTask : TaskInfo :=
  {| path := "TaskNotes/Tasks/Review policy.md";
     projects := Some ["[[Password-Policy]]"] |}.

Lemma twoNotes_distinct : List.NoDup (checkedSourcePaths twoNotes).
Proof.
  cbv [twoNotes checkedSourcePaths map sourcePathOf pathOnly itemPath default orElse].
  cbn. constructor; [intros [H|[]]; discriminate|].
  constructor; [intros []|constructor].
Defined.

Lemma preCheck_agrees_with_createTasks_witness :
  skipped (createTasks obligingService ∅ [policyTask] twoNotes skipExistingOptions) = 1
  /\ created (createTasks obligingService ∅ [policyTask] twoNotes skipExistingOptions)
     + failed (createTasks obligingService ∅ [policyTask] twoNotes skipExistingOptions) = 1.
Proof.
  exact (proj2 (proj2 (preCheck_agrees_with_createTasks obligingService ∅ [policyTask]
                         twoNotes skipExistingOptions))
               twoNotes_distinct).
Defined.

(** *** Which items reach the task service *)

Lemma hasExistingTask_linkedb allTasks x :
  hasExistingTask allTasks x = linkedb allTasks x.
Proof.
  unfold hasExistingTask, checkForDuplicates.
  destruct (linkedb allTasks x) eqn:E.
  - apply bool_decide_eq_true. apply checkLoop_existing. right. split; [now left|exact E].
  - apply bool_decide_eq_false. intros H. apply checkLoop_existing in H.
    destruct H as [H|[_ H]]; [now apply not_elem_of_empty in H|congruence].
Qed.

(** The paths the service returned for the calls it answered with a path. *)
Definition answeredPaths (host : Collaborators) (calls : list TaskCreationData)
  : list string :=
  omap (fun data => match createTask host data with
                    | Returned (Some taskFilePath) => Some taskFilePath
                    | _ => None
                    end) calls.

Section Attempts.
Variable host : Collaborators.
Variable vault : Vault.

Lemma isSkipped_hasExistingTask allTasks items options item :
  In item items ->
  isSkipped options (duplicateCheckFor allTasks items options) (sourcePathOf item)
  = skipExisting options && truthy (sourcePathOf item)
    && hasExistingTask allTasks (sourcePathOf item).
Proof.
  intros Hin. unfold isSkipped, duplicateCheckFor.
  destruct (skipExisting options); [|reflexivity]. cbn [andb].
  rewrite hasExistingTask_linkedb.
  destruct (truthy (sourcePathOf item) && linkedb allTasks (sourcePathOf item)) eqn:E.
  - apply andb_true_iff in E as [Ht Hl]. apply bool_decide_eq_true.
    unfold checkForDuplicates. apply checkLoop_existing. right. split; [|exact Hl].
    unfold checkedSourcePaths. apply filter_In. split; [|exact Ht].
    apply in_map_iff. now exists item.
  - apply bool_decide_eq_false. intros H. unfold checkForDuplicates in H.
    apply checkLoop_existing in H. destruct H as [H|[Hc Hl]];
      [now apply not_elem_of_empty in H|].
    apply checkedSourcePaths_truthy in Hc. rewrite Hc, Hl in E. discriminate.
Qed.

Lemma createStep_paths options dup item st :
  createdPaths (result (createStep host vault options dup item st))
  = (createdPaths (result st)
     ++ (if isSkipped options dup (sourcePathOf item) then []
         else answeredPaths host [taskDataFor host vault item options]))%list.
Proof.
  unfold createStep, answeredPaths, createTaskForItem. cbv zeta.
  destruct (isSkipped options dup (sourcePathOf item)); cbn [omap].
  - cbn [createdPaths result]. now rewrite app_nil_r.
  - destruct (createTask host (taskDataFor host vault item options)) as [[q|]|msg] eqn:E;
      simpl; rewrite E; simpl; now rewrite ?app_nil_r.
Qed.

Lemma answeredPaths_app calls more :
  answeredPaths host (calls ++ more) = (answeredPaths host calls ++ answeredPaths host more)%list.
Proof. unfold answeredPaths. apply omap_app. Qed.

Lemma createLoop_paths options dup items st :
  createdPaths (result (fold_left (fun st item => createStep host vault options dup item st)
                                  items st))
  = (createdPaths (result st) ++ answeredPaths host (attempted host vault options dup items))%list.
Proof.
  revert st. induction items as [|i rest IH]; intros st; cbn [fold_left].
  - unfold attempted. cbn. now rewrite app_nil_r.
  - rewrite IH, createStep_paths, <- app_assoc. f_equal.
    unfold attempted. cbn [List.filter].
    destruct (isSkipped options dup (sourcePathOf i)); cbn [negb map]; [reflexivity|].
    now rewrite <- answeredPaths_app.
Qed.

(** The task service is called, in batch order, for exactly the items that
    are not skipped, and an item is skipped exactly when skipping is
    requested, its path is non-empty and the single-path check
    [hasExistingTask] finds a task for it.  The created paths are the paths
    the service returned for those calls, in the same order. *)
Theorem createTasks_attempts
        (allTasks : list TaskInfo) (items : list BasesDataItem)
        (options : BulkCreationOptions) :
  let wanted item :=
    negb (skipExisting options && truthy (sourcePathOf item)
          && hasExistingTask allTasks (sourcePathOf item)) in
  let calls := map (fun item => taskDataFor host vault item options)
                   (List.filter wanted items) in
  serviceCalls (createTasksLoop host vault allTasks items options) = calls
  /\ createdPaths (createTasks host vault allTasks items options)
     = answeredPaths host calls.
Proof.
  cbv zeta.
  assert (Ha : attempted host vault options (duplicateCheckFor allTasks items options) items
               = map (fun item => taskDataFor host vault item options)
                   (List.filter
                      (fun item =>
                         negb (skipExisting options && truthy (sourcePathOf item)
                               && hasExistingTask allTasks (sourcePathOf item))) items)).
  { unfold attempted. f_equal. apply List.filter_ext_in. intros i Hi.
    now rewrite isSkipped_hasExistingTask. }
  unfold createTasks, createTasksLoop. destruct items as [|i rest]; [split; reflexivity|].
  rewrite createLoop_calls_exact, createLoop_paths, Ha. cbn [serviceCalls result
    createdPaths emptyResult app]. split; reflexivity.
Qed.

End Attempts.

(** *** The project link written for a source that is not a file *)

Lemma joinPath_nonempty dir name : name <> "" -> joinPath dir name <> "".
Proof.
  intros Hn. destruct dir as [d|]; cbn [joinPath]; [|exact Hn].
  destruct d; [rewrite append_nil, append_cons|rewrite append_cons]; discriminate.
Qed.

Lemma noSlash_optionalExt name ext :
  noSlash name = true -> optionalExt ext = true -> noSlash (name ++ ext) = true.
Proof.
  intros Hn Hext. rewrite noSlash_append, Hn. cbn [andb].
  apply orb_true_iff in Hext as [Hext|Hext]; [now apply isDotMd_noSlash|].
  apply String.eqb_eq in Hext. now subst ext.
Qed.

Lemma stripMd_optionalExt name ext :
  hasMdSuffix name = false -> optionalExt ext = true -> stripMd (name ++ ext) = name.
Proof.
  intros Hn Hext. apply orb_true_iff in Hext as [Hext|Hext].
  - now apply stripMd_append_ext.
  - apply String.eqb_eq in Hext. subst ext. rewrite append_nil_r. now apply stripMd_id.
Qed.

Lemma lastSegment_joinPath dir n :
  noSlash n = true -> lastSegment (joinPath dir n) = n.
Proof.
  intros Hn. destruct dir as [d|]; cbn [joinPath];
    [now apply lastSegment_join|now apply lastSegment_noSlash].
Qed.

Section Fallback.
Variable host : Collaborators.
Variable vault : Vault.

Lemma generateProjectLink_fallback dir name ext :
  name <> "" -> noSlash name = true -> hasMdSuffix name = false ->
  optionalExt ext = true ->
  isTFile vault (joinPath dir (name ++ ext)) = false ->
  generateProjectLink host vault (joinPath dir (name ++ ext)) = "[[" ++ (name ++ "]]").
Proof.
  intros Hne Hns Hmd Hext Hfile. unfold generateProjectLink. rewrite Hfile.
  rewrite lastSegment_joinPath by now apply noSlash_optionalExt.
  rewrite stripMd_optionalExt by assumption.
  now rewrite orElse_nonempty.
Qed.

(** When the source of an item is not a file of the vault, the project
    reference handed to the task service is the wiki link of the bare note
    name, and a task that carries exactly these projects is found by the
    duplicate check for that source: creating again skips the item. *)
Theorem fallback_project_link_round_trip
        (dir : option string) (name ext : string) (item : BasesDataItem)
        (options : BulkCreationOptions) (allTasks : list TaskInfo) (t : TaskInfo) :
  name <> "" -> noSlash name = true -> hasMdSuffix name = false ->
  optionalExt ext = true -> wikiTargetOk name = true -> trim name = name ->
  let source := joinPath dir (name ++ ext) in
  itemPath item = Some source ->
  isTFile vault source = false ->
  useParentAsProject options = true ->
  taskProjects (taskDataFor host vault item options) = Some ["[[" ++ (name ++ "]]")]
  /\ (In t allTasks ->
      projects t = taskProjects (taskDataFor host vault item options) ->
      hasExistingTask allTasks source = true).
Proof.
  intros Hne Hns Hmd Hext Hok Htrim source Hpath Hfile Hparent.
  assert (Hsrc : source <> "").
  { subst source. rewrite joinPath_append. intros H.
    pose proof (joinPath_nonempty dir name Hne) as Hj.
    destruct (joinPath dir name); [congruence|].
    rewrite append_cons in H. discriminate. }
  assert (Hsp : sourcePathOf item = source).
  { unfold sourcePathOf. rewrite Hpath. cbn [default]. now apply orElse_nonempty. }
  assert (Hprojects :
            taskProjects (taskDataFor host vault item options)
            = Some ["[[" ++ (name ++ "]]")]).
  { unfold taskDataFor. cbv zeta. cbn [taskProjects]. rewrite Hsp, Hparent.
    apply truthy_nonempty in Hsrc. rewrite Hsrc. cbn [andb].
    subst source. now rewrite generateProjectLink_fallback. }
  split; [exact Hprojects|].
  intros Hin Hp. rewrite hasExistingTask_linkedb. apply linkedb_spec.
  exists t. split; [exact Hin|].
  destruct t as [tp tprojects]. cbn [projects] in Hp. subst tprojects. rewrite Hprojects.
  apply (linked_by_basename tp _ source (toLowerCase name)).
  - rewrite extract_wiki by assumption.
    unfold normalizePath. rewrite stripMd_id by assumption.
    now apply (basename_joinPath None).
  - subst source. rewrite normalizePath_joinPath by assumption.
    now apply basename_joinPath.
Qed.

End Fallback.

Definition parentOptions : BulkCreationOptions :=
  {| skipExisting := true; useParentAsProject := true |}.

Definition policyTaskFrom (host : Collaborators) : TaskInfo :=
  {| path := "TaskNotes/Tasks/Password-Policy.md";
     projects := taskProjects (taskDataFor host ∅ (pathOnly "Library/Password-Policy.md")
                                           parentOptions) |}.

Lemma fallback_project_link_round_trip_witness :
  hasExistingTask [policyTaskFrom obligingService] "Library/Password-Policy.md" = true.
Proof.
  refine (proj2 (fallback_project_link_round_trip obligingService ∅
                   (Some "Library") "Password-Policy" ".md"
                   (pathOnly "Library/Password-Policy.md") parentOptions
                   [policyTaskFrom obligingService] (policyTaskFrom obligingService)
                   _ eq_refl eq_refl eq_refl eq_refl eq_refl eq_refl eq_refl eq_refl)
                (or_introl eq_refl) eq_refl).
  discriminate.
Defined.

End GenerationExtras.

(** ** Further properties of the conversion engine *)

Module ConversionExtras.
Import JsString Host BulkConvertEngine.

(** *** What one conversion does to one key *)

(** A step that rewrites the value under key [k] by [H] and nothing else,
    said of the key [j] one looks at. *)
Definition atKey (j k : string) (H : option value -> option value)
           (o : option value) : option value :=
  if decide (j = k) then H o else o.

Lemma atKey_ne j k H o : j <> k -> atKey j k H o = o.
Proof. intros Hne. unfold atKey. now destruct (decide (j = k)). Qed.

Definition whenUndefined (v : value) (o : option value) : option value :=
  if isUndefined o then Some v else o.

Definition appendMissing (s : string) (o : option value) : option value :=
  match o with
  | Some (VList l) => if negb (includesStr l s) then Some (VList (l ++ [VStr s])) else o
  | _ => o
  end.

Definition tagValue (tag : string) (o : option value) : option value :=
  appendMissing tag (if negb (isArray o) then Some (VList []) else o).

Definition propertyValue (propName propValue : string) (o : option value)
  : option value :=
  if truthy propName && isUndefined o then
    Some (if String.eqb propValue "true" then VBool true
          else if String.eqb propValue "false" then VBool false
          else VStr propValue)
  else o.

Definition linkValue (link : option string) (o : option value) : option value :=
  match link with
  | Some l => match o with
              | None => Some (VList [VStr l])
              | _ => appendMissing l o
              end
  | None => o
  end.

Section Pointwise.
Variable settings : Settings.
Variable fieldMapper : FieldMapper.
Variable host : Collaborators.

Lemma setIfUndefined_lookup key v (fm : Frontmatter) j :
  setIfUndefined key v fm !! j = atKey j key (whenUndefined v) (fm !! j).
Proof.
  unfold setIfUndefined, atKey, whenUndefined.
  destruct (decide (j = key)) as [->|Hne].
  - destruct (fm !! key) eqn:E; cbn [isUndefined]; [exact E|apply lookup_insert_eq].
  - destruct (isUndefined (fm !! key)); [now rewrite lookup_insert_ne|reflexivity].
Qed.

Lemma identifyByProperty_lookup (fm : Frontmatter) j :
  identifyByProperty settings fm !! j
  = atKey j (taskPropertyName settings)
          (propertyValue (taskPropertyName settings) (taskPropertyValue settings))
          (fm !! j).
Proof.
  unfold identifyByProperty, atKey, propertyValue. cbv zeta.
  destruct (decide (j = taskPropertyName settings)) as [->|Hne].
  - destruct (truthy (taskPropertyName settings) && isUndefined (fm !! taskPropertyName settings));
      [|reflexivity].
    destruct (String.eqb (taskPropertyValue settings) "true");
      [apply lookup_insert_eq|].
    destruct (String.eqb (taskPropertyValue settings) "false"); apply lookup_insert_eq.
  - destruct (truthy (taskPropertyName settings) && isUndefined (fm !! taskPropertyName settings));
      [|reflexivity].
    destruct (String.eqb (taskPropertyValue settings) "true");
      [now rewrite lookup_insert_ne|].
    destruct (String.eqb (taskPropertyValue settings) "false"); now rewrite lookup_insert_ne.
Qed.

Lemma identifyByTag_lookup (fm : Frontmatter) j :
  identifyByTag settings fm !! j
  = atKey j "tags" (tagValue (orElse (taskTag settings) "task")) (fm !! j).
Proof.
  unfold identifyByTag, atKey, tagValue, appendMissing. cbv zeta.
  destruct (decide (j = "tags")) as [->|Hne].
  - destruct (fm !! "tags") as [[| | | |l]|] eqn:E; cbn [isArray negb];
      rewrite ?lookup_insert_eq, ?E;
      try (cbn [includesStr existsb negb app]; now rewrite !lookup_insert_eq).
    destruct (negb (includesStr l _)); [apply lookup_insert_eq|exact E].
  - destruct (fm !! "tags") as [[| | | |l]|] eqn:E; cbn [isArray negb];
      rewrite ?lookup_insert_eq, ?E;
      try (cbn [includesStr existsb negb app]; now rewrite !lookup_insert_ne).
    destruct (negb (includesStr l _)); [now rewrite lookup_insert_ne|reflexivity].
Qed.

Definition identifyKey : string :=
  match taskIdentificationMethod settings with
  | PropertyMethod => taskPropertyName settings
  | TagMethod => "tags"
  end.

Definition identifyValue : option value -> option value :=
  match taskIdentificationMethod settings with
  | PropertyMethod =>
      propertyValue (taskPropertyName settings) (taskPropertyValue settings)
  | TagMethod => tagValue (orElse (taskTag settings) "task")
  end.

Lemma identify_lookup (fm : Frontmatter) j :
  identify settings fm !! j = atKey j identifyKey identifyValue (fm !! j).
Proof.
  unfold identify, identifyKey, identifyValue.
  destruct (taskIdentificationMethod settings);
    [apply identifyByTag_lookup|apply identifyByProperty_lookup].
Qed.

(** The link that step 2.5 adds for the note at [filePath], if any. *)
Definition linkFor (vault : Vault) (options : BulkConvertOptions) (filePath : string)
  : option string :=
  (fun base => generateMarkdownLink host base filePath) <$> linkTarget vault options.

Lemma linkToBaseView_lookup vault options filePath (fm : Frontmatter) j :
  linkToBaseView fieldMapper host vault options filePath fm !! j
  = atKey j (projectsField fieldMapper) (linkValue (linkFor vault options filePath))
          (fm !! j).
Proof.
  unfold linkToBaseView, linkFor, atKey, linkValue, appendMissing.
  destruct (linkTarget vault options) as [base|]; cbn [fmap option_fmap option_map];
    [|now destruct (decide _)].
  destruct (decide (j = projectsField fieldMapper)) as [->|Hne].
  - destruct (fm !! projectsField fieldMapper) as [[| | | |l]|] eqn:E;
      rewrite ?lookup_insert_eq, ?E; try reflexivity.
    destruct (negb (includesStr l _)); [apply lookup_insert_eq|exact E].
  - destruct (fm !! projectsField fieldMapper) as [[| | | |l]|] eqn:E;
      rewrite ?lookup_insert_ne by congruence; try reflexivity.
    destruct (negb (includesStr l _)); [now rewrite lookup_insert_ne|reflexivity].
Qed.

(** The steps before the modification stamp, as they act on the value
    under the key [j]. *)
Definition defaultsAt (j : string) (created : string) (o : option value)
  : option value :=
  atKey j (dateCreatedField fieldMapper) (whenUndefined (VStr created))
    (atKey j (priorityField fieldMapper)
       (whenUndefined (VStr (orElse (defaultTaskPriority settings) "normal")))
       (atKey j (statusField fieldMapper)
          (whenUndefined (VStr (orElse (defaultTaskStatus settings) "open"))) o)).

Definition beforeStampAt (vault : Vault) (options : BulkConvertOptions)
           (filePath j : string) (created : string) (o : option value) : option value :=
  atKey j (projectsField fieldMapper) (linkValue (linkFor vault options filePath))
    ((if applyDefaults options then defaultsAt j created else id)
       (atKey j identifyKey identifyValue o)).

Lemma convertFrontmatter_lookup vault options filePath (fm : Frontmatter) j :
  convertFrontmatter settings fieldMapper host vault options filePath fm !! j
  = atKey j (dateModifiedField fieldMapper)
          (fun _ => Some (VStr (timestampModified host filePath)))
          (beforeStampAt vault options filePath j (timestampCreated host filePath)
                         (fm !! j)).
Proof.
  unfold convertFrontmatter, beforeStampAt. cbv zeta.
  unfold atKey at 1. destruct (decide (j = dateModifiedField fieldMapper)) as [->|Hne];
    [apply lookup_insert_eq|].
  rewrite lookup_insert_ne by congruence.
  rewrite linkToBaseView_lookup. f_equal.
  destruct (applyDefaults options).
  - unfold applyDefaultFields, defaultsAt. cbv zeta.
    now rewrite !setIfUndefined_lookup, identify_lookup.
  - apply identify_lookup.
Qed.

End Pointwise.

(** *** Converting a converted note *)

(** A value grows when it becomes defined or when a list is extended. *)
Definition grows (o o' : option value) : Prop :=
  o = None \/ o' = o \/ exists l l', o = Some (VList l) /\ o' = Some (VList (l ++ l')).

Lemma grows_refl o : grows o o.
Proof. right. now left. Qed.



Definition Grows (H : option value -> option value) : Prop :=
  forall o, grows o (H o).

Lemma includesStr_app l l' s : includesStr (l ++ l') s = includesStr l s || includesStr l' s.
Proof. unfold includesStr. apply existsb_app. Qed.

Lemma includesStr_last l s : includesStr (l ++ [VStr s]) s = true.
Proof.
  rewrite includesStr_app. cbn [includesStr existsb]. rewrite String.eqb_refl.
  now rewrite orb_true_r.
Qed.











Lemma propertyValue_Grows n pv : Grows (propertyValue n pv).
Proof.
  intros o. unfold propertyValue.
  destruct (truthy n && isUndefined o) eqn:E; [|apply grows_refl].
  apply andb_true_iff in E as [_ E]. destruct o; [discriminate|now left].
Qed.











Section Reconversion.
Variable settings : Settings.
Variable fieldMapper : FieldMapper.









Lemma isTFile_insert (vault : Vault) p fm q :
  isTFile vault p = true -> isTFile (<[p := Some fm]> vault) q = isTFile vault q.
Proof.
  unfold isTFile. intros Hp. destruct (decide (q = p)) as [->|Hne].
  - rewrite lookup_insert_eq. now destruct (vault !! p).
  - now rewrite lookup_insert_ne.
Qed.



End Reconversion.




(** *** The paths of a batch *)

(** [item.path || ""] *)
Definition sourcePathOf (p : option string) : string := orElse (default "" p) "".

(** *** The dry run of a conversion and the conversion *)

Lemma sourcePathOf_Some x : x <> "" -> sourcePathOf (Some x) = x.
Proof.
  intros Hx. unfold sourcePathOf. cbn [default]. unfold id.
  now apply ReferenceExtras.orElse_nonempty.
Qed.

Lemma sourcePathOf_inv p x : sourcePathOf p = x -> x <> "" -> p = Some x.
Proof.
  unfold sourcePathOf, orElse. destruct p as [y|]; cbn [default]; unfold id.
  - destruct (truthy y); intros <-; congruence.
  - cbn. congruence.
Qed.

Lemma sourcePathOf_truthy p : truthy (sourcePathOf p) = true <-> sourcePathOf p <> "".
Proof.
  unfold truthy. destruct (String.eqb_spec (sourcePathOf p) ""); cbn; split; congruence.
Qed.

Section DryRun.
Variable settings : Settings.
Variable fieldMapper : FieldMapper.
Variable host : Collaborators.

(** The note at [x] is a file whose cached frontmatter the classifier
    takes for a task. *)
Definition isTaskNote (vault : Vault) (x : string) : Prop :=
  exists fm, vault !! x = Some (Some fm) /\ isTaskFile host fm = true.

Lemma alreadyTaskLoop_spec vault paths acc x :
  x ∈ alreadyTaskLoop host vault paths acc
  <-> x ∈ acc \/ (x <> "" /\ In (Some x) paths /\ isTaskNote vault x).
Proof.
  revert acc. induction paths as [|p rest IH]; intros acc; cbn [alreadyTaskLoop].
  - split; [now left|]. now intros [H|(_ & [] & _)].
  - fold (sourcePathOf p).
    assert (Hskip : ~ (sourcePathOf p <> "" /\ isTaskNote vault (sourcePathOf p)) ->
                    (x ∈ acc \/ (x <> "" /\ In (Some x) rest /\ isTaskNote vault x))
                    <-> (x ∈ acc \/ (x <> "" /\ In (Some x) (p :: rest)
                                     /\ isTaskNote vault x))).
    { intros Hno. split; intros [H|(Hx & Hin & Ht)]; try (now left).
      - right. repeat split; [exact Hx|now right|exact Ht].
      - destruct Hin as [->|Hin]; [|right; now repeat split].
        rewrite sourcePathOf_Some in Hno by exact Hx. tauto. }
    destruct (truthy (sourcePathOf p)) eqn:Htruthy; cbn [negb].
    2:{ rewrite IH. apply Hskip. intros [Hne _]. apply sourcePathOf_truthy in Hne.
        congruence. }
    apply sourcePathOf_truthy in Htruthy.
    destruct (isTFile vault (sourcePathOf p)) eqn:Hfile; cbn [negb].
    2:{ rewrite IH. apply Hskip. intros [_ (fm & Hfm & _)]. unfold isTFile in Hfile.
        now rewrite Hfm in Hfile. }
    unfold frontmatterOf.
    destruct (vault !! sourcePathOf p) as [[fm|]|] eqn:Hlook.
    + destruct (isTaskFile host fm) eqn:Htask.
      * rewrite IH, elem_of_union, elem_of_singleton. split.
        -- intros [[->|H]|(Hx & Hin & Ht)];
             [|now left|right; split; [exact Hx|split; [now right|exact Ht]]].
           right. split; [exact Htruthy|]. split; [|now exists fm].
           left. now apply sourcePathOf_inv.
        -- intros [H|(Hx & [->|Hin] & Ht)]; [left; now right| |right; now repeat split].
           left. left. symmetry. now apply sourcePathOf_Some.
      * rewrite IH. apply Hskip. intros [_ (fm' & Hfm & Ht)]. congruence.
    + rewrite IH. apply Hskip. intros [_ (fm' & Hfm & _)]. congruence.
    + rewrite IH. apply Hskip. intros [_ (fm' & Hfm & _)]. congruence.
Qed.

Lemma convertLoop_skipped pre options paths st :
  skipped (snd (fold_left
                  (fun st p => convertStep settings fieldMapper host pre options p st)
                  paths st))
  = skipped (snd st)
    + List.length (List.filter
                     (fun p => bool_decide (sourcePathOf p ∈ alreadyTaskPaths pre)) paths).
Proof.
  revert st. induction paths as [|p rest IH]; intros st; cbn [fold_left List.filter].
  - cbn. lia.
  - rewrite IH. destruct st as [vault r]. unfold convertStep. cbv zeta.
    fold (sourcePathOf p).
    destruct (decide (sourcePathOf p ∈ alreadyTaskPaths pre)) as [Hpre|Hpre].
    + rewrite bool_decide_eq_true_2 by exact Hpre. cbn. lia.
    + rewrite bool_decide_eq_false_2 by exact Hpre.
      destruct (isTFile vault (sourcePathOf p)); cbn [negb]; [|reflexivity].
      now destruct (convertSingleNote _ _ _ _ _ _).
Qed.

(** The non-empty source paths of a batch. *)
Definition checkedPaths (paths : list (option string)) : list string :=
  List.filter truthy (map sourcePathOf paths).

Lemma already_checked vault paths x :
  x ∈ alreadyTaskPaths (preCheck host vault paths) -> In x (checkedPaths paths).
Proof.
  unfold preCheck. cbn [alreadyTaskPaths]. rewrite alreadyTaskLoop_spec.
  intros [H|(Hx & Hin & _)]; [now apply not_elem_of_empty in H|].
  unfold checkedPaths. apply filter_In. split.
  - apply in_map_iff. exists (Some x). split; [now apply sourcePathOf_Some|exact Hin].
  - unfold truthy. now destruct (String.eqb_spec x "").
Qed.

Lemma convertNotes_skipped vault paths options :
  skipped (snd (convertNotes settings fieldMapper host vault paths options))
  = List.length
      (List.filter
         (fun x => bool_decide (x ∈ alreadyTaskPaths (preCheck host vault paths)))
         (checkedPaths paths)).
Proof.
  transitivity
    (List.length
       (List.filter
          (fun p => bool_decide
                      (sourcePathOf p ∈ alreadyTaskPaths (preCheck host vault paths)))
          paths)).
  - unfold convertNotes. destruct paths as [|p rest]; [reflexivity|].
    now rewrite convertLoop_skipped.
  - etransitivity;
      [exact (GenerationExtras.filter_length_map sourcePathOf
                (fun x => bool_decide
                            (x ∈ alreadyTaskPaths (preCheck host vault paths))) paths)|].
    unfold checkedPaths. f_equal. apply WatcherProofs.filter_narrow.
    apply List.Forall_forall. intros x _ Hx. apply bool_decide_eq_false. intros Hin.
    apply already_checked in Hin. unfold checkedPaths in Hin.
    apply filter_In in Hin. destruct Hin as [_ Hin]. congruence.
Qed.

(** The dry run reports a path as already a task exactly when it is the
    non-empty path of an item, a file, and classified as a task from its
    cached frontmatter.  Its two counts add up to the batch size, it never
    announces more skips than the conversion makes, and when the non-empty
    paths of the batch are pairwise distinct the conversion skips exactly
    the announced number and attempts the announced number of notes. *)
Theorem convert_preCheck_agrees_with_convertNotes
        (vault : Vault) (paths : list (option string)) (options : BulkConvertOptions)
        (x : string) :
  let pre := preCheck host vault paths in
  let r := snd (convertNotes settings fieldMapper host vault paths options) in
  (x ∈ alreadyTaskPaths pre <-> x <> "" /\ In (Some x) paths /\ isTaskNote vault x)
  /\ toConvert pre + alreadyTasks pre = List.length paths
  /\ alreadyTasks pre <= skipped r
  /\ (List.NoDup (checkedPaths paths) ->
      skipped r = alreadyTasks pre /\ converted r + failed r = toConvert pre).
Proof.
  cbv zeta.
  pose proof (BulkProofs.convert_total _ _ _ _ _
                (BulkProofs.convertNotes_progress settings fieldMapper host vault paths
                                                  options)) as Htotal.
  pose proof (convertNotes_skipped vault paths options) as Hcount.
  pose proof (GenerationExtras.size_le_filter _ _ (already_checked vault paths)) as Hle.
  rewrite <- Hcount in Hle.
  change (size (alreadyTaskPaths (preCheck host vault paths)))
    with (alreadyTasks (preCheck host vault paths)) in Hle.
  assert (Hto : toConvert (preCheck host vault paths)
                = List.length paths - alreadyTasks (preCheck host vault paths))
    by reflexivity.
  split.
  { unfold preCheck. cbn [alreadyTaskPaths]. rewrite alreadyTaskLoop_spec. split.
    - intros [H|H]; [now apply not_elem_of_empty in H|exact H].
    - now right. }
  split; [lia|]. split; [exact Hle|]. intros Hnd.
  pose proof (GenerationExtras.size_eq_filter _ _ (already_checked vault paths) Hnd) as Heq.
  rewrite <- Hcount in Heq.
  change (size (alreadyTaskPaths (preCheck host vault paths)))
    with (alreadyTasks (preCheck host vault paths)) in Heq.
  lia.
Qed.

End DryRun.

(** A host that takes a note for a task when its tag list holds [task],
    and a vault of two notes of which the second is such a task. *)
Definition taggingHost : Collaborators :=
  {| generateMarkdownLink := generateMarkdownLink ConvertProofs.quietHost;
     isTaskFile := fun fm => match fm !! "tags" with
                             | Some (VList tags) => includesStr tags "task"
                             | _ => false
                             end;
     timestampCreated := timestampCreated ConvertProofs.quietHost;
     timestampModified := timestampModified ConvertProofs.quietHost;
     processFrontMatterFails := fun _ => None |}.

Definition reviewTask : Frontmatter :=
  {[ "tags" := VList [VStr "task"]; "status" := VStr "open" ]}.

Definition twoNoteVault : Vault :=
  {[ "Library/Password-Policy.md" := Some ConvertProofs.taggedNote;
     "Library/Review.md" := Some reviewTask ]}.

Definition twoPaths : list (option string) :=
  [Some "Library/Password-Policy.md"; Some "Library/Review.md"].

Lemma twoPaths_distinct : List.NoDup (checkedPaths twoPaths).
Proof.
  cbv [twoPaths checkedPaths map sourcePathOf default orElse]. cbn.
  constructor; [intros [H|[]]; discriminate|].
  constructor; [intros []|constructor].
Defined.

Lemma convert_preCheck_agrees_with_convertNotes_witness :
  skipped (snd (convertNotes ConvertProofs.tagSettings ConvertProofs.plainMapper
                             taggingHost twoNoteVault twoPaths ConvertProofs.noExtras))
  = alreadyTasks (preCheck taggingHost twoNoteVault twoPaths)
  /\ converted (snd (convertNotes ConvertProofs.tagSettings ConvertProofs.plainMapper
                                  taggingHost twoNoteVault twoPaths ConvertProofs.noExtras))
     + failed (snd (convertNotes ConvertProofs.tagSettings ConvertProofs.plainMapper
                                 taggingHost twoNoteVault twoPaths ConvertProofs.noExtras))
     = toConvert (preCheck taggingHost twoNoteVault twoPaths).
Proof.
  exact (proj2 (proj2 (proj2 (convert_preCheck_agrees_with_convertNotes
                                ConvertProofs.tagSettings ConvertProofs.plainMapper
                                taggingHost twoNoteVault twoPaths ConvertProofs.noExtras
                                "Library/Review.md")))
               twoPaths_distinct).
Defined.

End ConversionExtras.

(** ** Further properties of the query watcher *)

Module WatcherExtras.
Import JsString Host BasesQueryWatcher WatcherProofs.

(** *** The registry and the pending set as a map and a set *)

Lemma mapHas_mapGet {A} k (m : list (string * A)) :
  mapHas k m = match mapGet k m with Some _ => true | None => false end.
Proof.
  unfold mapHas, mapGet. induction m as [|[k0 a] r IH]; [reflexivity|].
  cbn [existsb List.find fst]. now destruct (String.eqb k0 k).
Qed.

Lemma mapGet_app {A} k (m m' : list (string * A)) :
  mapGet k (m ++ m') = match mapGet k m with Some a => Some a | None => mapGet k m' end.
Proof.
  unfold mapGet. induction m as [|[k0 a] r IH]; [reflexivity|].
  cbn [app List.find fst]. now destruct (String.eqb k0 k).
Qed.

Lemma mapGet_mapSet_eq {A} k (v : A) m : mapGet k (mapSet k v m) = Some v.
Proof.
  unfold mapSet. rewrite mapHas_mapGet. destruct (mapGet k m) eqn:E.
  - now rewrite mapGet_mapAlter_eq, E.
  - rewrite mapGet_app, E. unfold mapGet. cbn. now rewrite String.eqb_refl.
Qed.

Lemma mapGet_mapSet_ne {A} k k' (v : A) m :
  k <> k' -> mapGet k' (mapSet k v m) = mapGet k' m.
Proof.
  intros Hne. unfold mapSet. destruct (mapHas k m).
  - now apply mapGet_mapAlter_ne.
  - rewrite mapGet_app. destruct (mapGet k' m); [reflexivity|].
    unfold mapGet. cbn. now destruct (String.eqb_spec k k').
Qed.

Lemma mapGet_mapDelete_eq {A} k (m : list (string * A)) : mapGet k (mapDelete k m) = None.
Proof.
  unfold mapGet, mapDelete. induction m as [|[k0 a] r IH]; [reflexivity|].
  cbn [List.filter fst]. destruct (String.eqb k0 k) eqn:E; cbn [negb]; [exact IH|].
  cbn [List.find fst]. now rewrite E.
Qed.

Lemma mapGet_mapDelete_ne {A} k k' (m : list (string * A)) :
  k <> k' -> mapGet k' (mapDelete k m) = mapGet k' m.
Proof.
  intros Hne. unfold mapGet, mapDelete. induction m as [|[k0 a] r IH]; [reflexivity|].
  cbn [List.filter List.find fst]. destruct (String.eqb_spec k0 k) as [->|Hk]; cbn [negb].
  - destruct (String.eqb_spec k k'); [contradiction|exact IH].
  - cbn [List.find fst]. now destruct (String.eqb k0 k').
Qed.

Lemma setAdd_iff x y s : In y (setAdd x s) <-> y = x \/ In y s.
Proof.
  split.
  - unfold setAdd. destruct (existsb _ s); [now right|].
    intros H. apply in_app_iff in H as [H|[->|[]]]; [now right|now left].
  - intros [->|H]; [apply setAdd_In|now apply setAdd_keeps].
Qed.

Lemma markCached_iff changed reg pending b :
  In b (markCached changed reg pending)
  <-> In b pending \/ exists m, In (b, m) reg /\ changed ∈ cachedPaths m.
Proof.
  unfold markCached. revert pending.
  induction reg as [|[k m] r IH]; intros pending; cbn [fold_left fst snd].
  - split; [now left|]. now intros [H|(m & [] & _)].
  - rewrite IH. destruct (bool_decide_reflect (changed ∈ cachedPaths m)) as [Hc|Hc].
    + rewrite setAdd_iff. split.
      * intros [[->|H]|(m' & Hin & Hm)]; [right; exists m; split; [now left|exact Hc]
                                          |now left|].
        right. exists m'. split; [now right|exact Hm].
      * intros [H|(m' & [[= -> ->]|Hin] & Hm)]; [left; now right|left; now left|].
        right. now exists m'.
    + split.
      * intros [H|(m' & Hin & Hm)]; [now left|]. right. exists m'. split; [now right|exact Hm].
      * intros [H|(m' & [[= -> ->]|Hin] & Hm)]; [now left|contradiction|].
        right. now exists m'.
Qed.

Lemma markNotSnoozed_iff now reg pending b :
  In b (markNotSnoozed now reg pending)
  <-> In b pending \/ exists m, In (b, m) reg /\ (snoozedUntil m <= now)%Z.
Proof.
  unfold markNotSnoozed. revert pending.
  induction reg as [|[k m] r IH]; intros pending; cbn [fold_left fst snd].
  - split; [now left|]. now intros [H|(m & [] & _)].
  - rewrite IH. destruct (Z.leb_spec (snoozedUntil m) now) as [Hc|Hc].
    + rewrite setAdd_iff. split.
      * intros [[->|H]|(m' & Hin & Hm)]; [right; exists m; split; [now left|exact Hc]
                                          |now left|].
        right. exists m'. split; [now right|exact Hm].
      * intros [H|(m' & [[= -> ->]|Hin] & Hm)]; [left; now right|left; now left|].
        right. now exists m'.
    + split.
      * intros [H|(m' & Hin & Hm)]; [now left|]. right. exists m'. split; [now right|exact Hm].
      * intros [H|(m' & [[= -> ->]|Hin] & Hm)]; [now left|lia|].
        right. now exists m'.
Qed.

(** *** A change to a note *)

(** The timer that [scheduleEvaluation] arms at time [now] in world [w]. *)
Definition debounceTimerOf (now : Z) (w : World) : Timer :=
  {| timerId := nextHandle w; due := now + EVALUATION_DEBOUNCE_MS;
     callback := DebouncedEvaluation; repeatEvery := None |}.

(** After a change to [changed], a query is pending exactly when it was
    pending before, or its cached results contain the changed path, or its
    snooze has run out (a snoozed query whose cache holds the path is
    marked all the same).  The registry, the listeners and the modals stay
    as they were; the timer recorded before is cancelled and one new
    one-shot timer, due one debounce delay later, is recorded. *)
Theorem handlePathChange_marks_exactly (changed : string) (now : Z) (w : World)
        (b : string) :
  let w' := handlePathChange changed now w in
  (In b (pendingEvaluations (self w'))
   <-> In b (pendingEvaluations (self w))
       \/ exists m, In (b, m) (monitoredBases (self w))
                    /\ (changed ∈ cachedPaths m \/ (snoozedUntil m <= now)%Z))
  /\ monitoredBases (self w') = monitoredBases (self w)
  /\ listeners w' = listeners w
  /\ openedModals w' = openedModals w
  /\ evaluationDebounceTimer (self w') = Some (nextHandle w)
  /\ timers w'
     = (match evaluationDebounceTimer (self w) with
        | Some id => List.filter (fun t => negb (Pos.eqb (timerId t) id)) (timers w)
        | None => timers w
        end ++ [debounceTimerOf now w])%list.
Proof.
  cbv zeta. split.
  - rewrite handlePathChange_pending, markNotSnoozed_iff, markCached_iff. split.
    + intros [[H|(m & Hin & Hm)]|(m & Hin & Hm)]; [now left| |]; right; exists m; tauto.
    + intros [H|(m & Hin & [Hm|Hm])]; [left; now left|left; right; now exists m|].
      right. now exists m.
  - unfold handlePathChange, scheduleEvaluation, debounceTimerOf. cbv zeta.
    cbn [onSelf withSelf self withPending evaluationDebounceTimer].
    now destruct (evaluationDebounceTimer (self w)).
Qed.

(** *** Scanning the vault for monitored queries *)

Section Rescan.
Variable env : Env.

(** The entry that [checkAndRegisterBase] files for a query that asks for
    notifications. *)
Definition registered (filePath name : string) (existing : option MonitoredBase)
  : MonitoredBase :=
  {| path := filePath; name := name;
     snoozedUntil := default 0%Z (snoozedUntil <$> existing);
     lastResultCount := default 0 (lastResultCount <$> existing);
     cachedPaths := default ∅ (cachedPaths <$> existing) |}.

Lemma checkAndRegisterBase_lookup now fp bn reg q :
  mapGet q (checkAndRegisterBase env now (fp, bn) reg)
  = if String.eqb fp q then
      match readBaseConfig env now fp with
      | Returned c =>
          if notify c
          then Some (registered fp (orElse (default "" (configName c)) bn) (mapGet fp reg))
          else None
      | Threw _ => mapGet fp reg
      end
    else mapGet q reg.
Proof.
  unfold checkAndRegisterBase, registered.
  destruct (String.eqb_spec fp q) as [->|Hne].
  - destruct (readBaseConfig env now q) as [c|msg]; [|reflexivity].
    destruct (notify c); [apply mapGet_mapSet_eq|apply mapGet_mapDelete_eq].
  - destruct (readBaseConfig env now fp) as [c|msg]; [|reflexivity].
    destruct (notify c); [now apply mapGet_mapSet_ne|now apply mapGet_mapDelete_ne].
Qed.

(** What a scan of [files] leaves under the key [q]. *)
Definition rescanned (now : Z) (q : string) (files : list (string * string))
           (before after : option MonitoredBase) : Prop :=
  if existsb (fun f => String.eqb (fst f) q) files then
    match readBaseConfig env now q with
    | Returned c =>
        if notify c then
          exists bn, In (q, bn) files
                     /\ after = Some (registered q (orElse (default "" (configName c)) bn)
                                                 before)
        else after = None
    | Threw _ => after = before
    end
  else after = before.

Lemma registered_again fp nm nm' existing :
  registered fp nm' (Some (registered fp nm existing)) = registered fp nm' existing.
Proof. reflexivity. Qed.

Lemma scan_rescanned now q files reg :
  rescanned now q files (mapGet q reg)
            (mapGet q (fold_left (fun reg file => checkAndRegisterBase env now file reg)
                                 files reg)).
Proof.
  induction files as [|[fp bn] l IH] using rev_ind; [reflexivity|].
  rewrite fold_left_app. cbn [fold_left]. rewrite checkAndRegisterBase_lookup.
  unfold rescanned in *. rewrite existsb_app. cbn [existsb fst]. rewrite orb_false_r.
  destruct (String.eqb_spec fp q) as [->|Hne].
  - rewrite orb_true_r.
    destruct (readBaseConfig env now q) as [c|msg].
    + destruct (notify c); [|reflexivity].
      exists bn. split; [apply in_or_app; right; now left|].
      destruct (existsb _ l); [|now rewrite IH].
      destruct IH as (bn0 & _ & ->). now rewrite registered_again.
    + now destruct (existsb _ l).
  - rewrite orb_false_r. destruct (existsb _ l); [|exact IH].
    destruct (readBaseConfig env now q) as [c|msg]; [|exact IH].
    destruct (notify c); [|exact IH].
    destruct IH as (bn0 & Hin & ->). exists bn0. split; [|reflexivity].
    apply in_or_app. now left.
Qed.

(** A scan keeps, for every listed query that asks for notifications, the
    snooze deadline, the result count and the cached paths it had (or
    starts them at zero and empty), names it after its configuration or
    else after a listed file, removes a listed query that no longer asks,
    keeps a listed query whose file cannot be read, and never touches
    the entry of a path that is not listed.  Nothing else of the watcher or
    of the host changes. *)
Theorem rescan_keeps_snooze_and_cache (now : Z) (w : World) (q : string) :
  let before := mapGet q (monitoredBases (self w)) in
  let w' := scanForMonitoredBases env now w in
  let after := mapGet q (monitoredBases (self w')) in
  (if existsb (fun f => String.eqb (fst f) q) (baseFiles env now) then
     match readBaseConfig env now q with
     | Returned c =>
         if notify c then
           exists bn, In (q, bn) (baseFiles env now)
                      /\ after = Some {| path := q;
                                        name := orElse (default "" (configName c)) bn;
                                        snoozedUntil := default 0%Z (snoozedUntil <$> before);
                                        lastResultCount :=
                                          default 0 (lastResultCount <$> before);
                                        cachedPaths := default ∅ (cachedPaths <$> before) |}
         else after = None
     | Threw _ => after = before
     end
   else after = before)
  /\ pendingEvaluations (self w') = pendingEvaluations (self w)
  /\ timers w' = timers w
  /\ listeners w' = listeners w
  /\ openedModals w' = openedModals w.
Proof.
  cbv zeta. split; [|now repeat split].
  exact (scan_rescanned now q (baseFiles env now) (monitoredBases (self w))).
Qed.

End Rescan.

(** *** Deleting and renaming query files *)

Section Files.
Variable env : Env.

(** When a [.base] file is deleted, its query leaves the registry; when it
    is renamed, the entry of the old path moves to the new path with its
    snooze deadline, result count and cache, and its stored path follows.
    Other entries stay, and neither event marks anything pending, touches
    a timer or opens a modal. *)
Theorem registry_follows_base_files (file : FileRef) (oldPath : string) (now : Z)
        (w : World) (q : string) :
  extension file = "base" ->
  let reg := monitoredBases (self w) in
  let deleted := handleEvent env (FileDeletedEvent file) now w in
  let renamed := handleEvent env (FileRenamedEvent file oldPath) now w in
  mapGet q (monitoredBases (self deleted))
  = (if String.eqb (filePath file) q then None else mapGet q reg)
  /\ mapGet q (monitoredBases (self renamed))
     = match mapGet oldPath reg with
       | Some existing =>
           if String.eqb (filePath file) q
           then Some {| path := filePath file; name := name existing;
                        snoozedUntil := snoozedUntil existing;
                        lastResultCount := lastResultCount existing;
                        cachedPaths := cachedPaths existing |}
           else if String.eqb oldPath q then None else mapGet q reg
       | None => mapGet q reg
       end
  /\ (forall w', w' = deleted \/ w' = renamed ->
                 pendingEvaluations (self w') = pendingEvaluations (self w)
                 /\ timers w' = timers w
                 /\ listeners w' = listeners w
                 /\ openedModals w' = openedModals w).
Proof.
  intros Hext. cbv zeta. unfold handleEvent. rewrite Hext. cbn [String.eqb Ascii.eqb Bool.eqb].
  change (String.eqb "base" "base") with true. cbv iota.
  split; [|split].
  - cbn [onRegistry onSelf withSelf self withBases monitoredBases].
    destruct (String.eqb_spec (filePath file) q) as [->|Hne];
      [apply mapGet_mapDelete_eq|now apply mapGet_mapDelete_ne].
  - destruct (mapGet oldPath (monitoredBases (self w))) as [existing|] eqn:Hold;
      [|reflexivity].
    cbn [onRegistry onSelf withSelf self withBases monitoredBases].
    destruct (String.eqb_spec (filePath file) q) as [->|Hne].
    + now rewrite mapGet_mapSet_eq.
    + rewrite mapGet_mapSet_ne by exact Hne.
      destruct (String.eqb_spec oldPath q) as [->|Hne'];
        [apply mapGet_mapDelete_eq|now apply mapGet_mapDelete_ne].
  - intros w' [->| ->]; [now repeat split|].
    now destruct (mapGet oldPath (monitoredBases (self w))).
Qed.

End Files.

Definition overdueFile : FileRef :=
  {| filePath := "Queries/Late.base"; fileBasename := "Late"; extension := "base" |}.

Lemma registry_follows_base_files_witness :
  mapGet "Queries/Late.base"
         (monitoredBases
            (self (handleEvent steadyEnv (FileRenamedEvent overdueFile overdueBase) 0
                               (pendingWorld 900000))))
  = Some {| path := "Queries/Late.base"; name := name (overdueEntry 900000);
            snoozedUntil := 900000; lastResultCount := lastResultCount (overdueEntry 900000);
            cachedPaths := cachedPaths (overdueEntry 900000) |}.
Proof.
  exact (proj1 (proj2 (registry_follows_base_files steadyEnv overdueFile overdueBase 0
                         (pendingWorld 900000) "Queries/Late.base" eq_refl))).
Defined.

(** *** The notifications of an evaluation pass *)

Section Notifications.
Variable env : Env.
Variable now : Z.

(** The modal that a pass opens for the pending path [b], judged on the
    registry [reg]: none when the path is not registered, when the query is
    snoozed, when its evaluation throws, or when it has no result. *)
Definition notificationFor (reg : list (string * MonitoredBase)) (b : string)
  : option (string * string * list NotificationItem) :=
  match mapGet b reg with
  | Some m =>
      if (snoozedUntil m >? now)%Z then None
      else match evaluateBaseQuery env now b with
           | Returned (Some (r :: rs)) => Some (path m, name m, r :: rs)
           | _ => None
           end
  | None => None
  end.

(** Key, stored path, name and snooze deadline of every entry, in order. *)
Definition identities (reg : list (string * MonitoredBase))
  : list (string * string * string * Z) :=
  map (fun e => (fst e, path (snd e), name (snd e), snoozedUntil (snd e))) reg.

Lemma identities_setCached ps n k reg :
  identities (mapAlter (setCached ps n) k reg) = identities reg.
Proof.
  unfold identities, mapAlter. rewrite map_map. apply map_ext.
  intros [k0 m]. cbn [fst snd]. now destruct (String.eqb k0 k).
Qed.

Lemma notificationFor_identities reg reg' b :
  identities reg = identities reg' -> notificationFor reg b = notificationFor reg' b.
Proof.
  unfold notificationFor, mapGet, identities. revert reg'.
  induction reg as [|[k m] r IH]; intros [|[k' m'] r'] H; try discriminate; [reflexivity|].
  cbn [map fst snd] in H. injection H as -> Hp Hn Hs Hr.
  cbn [List.find fst]. destruct (String.eqb k' b).
  - cbn [fmap option_fmap option_map snd]. now rewrite Hp, Hn, Hs.
  - now apply IH.
Qed.

Lemma omap_pointwise {A B} (f g : A -> option B) (l : list A) :
  (forall x, f x = g x) -> omap f l = omap g l.
Proof.
  intros H. induction l as [|x r IH]; [reflexivity|].
  cbn [omap list_omap]. fold (omap f r). fold (omap g r). now rewrite H, IH.
Qed.

Lemma evaluateOne_notifies w b :
  openedModals (evaluateOne env now w b)
  = (openedModals w ++ option_list (notificationFor (monitoredBases (self w)) b))%list
  /\ identities (monitoredBases (self (evaluateOne env now w b)))
     = identities (monitoredBases (self w))
  /\ listeners (evaluateOne env now w b) = listeners w.
Proof.
  unfold evaluateOne, notificationFor.
  destruct (mapGet b (monitoredBases (self w))) as [m|];
    [|cbn; now rewrite app_nil_r].
  destruct (snoozedUntil m >? now)%Z; [cbn; now rewrite app_nil_r|].
  destruct (evaluateBaseQuery env now b) as [[[|r rs]|]|msg];
    cbn [showNotification openModal onSelf withSelf self withBases monitoredBases
         openedModals option_list setCached path name listeners];
    rewrite ?identities_setCached, ?app_nil_r; now repeat split.
Qed.

Lemma evaluateLoop_notifies bs w :
  openedModals (fold_left (evaluateOne env now) bs w)
  = (openedModals w ++ omap (notificationFor (monitoredBases (self w))) bs)%list
  /\ identities (monitoredBases (self (fold_left (evaluateOne env now) bs w)))
     = identities (monitoredBases (self w))
  /\ listeners (fold_left (evaluateOne env now) bs w) = listeners w.
Proof.
  revert w. induction bs as [|b rest IH]; intros w; cbn [fold_left].
  - cbn. now rewrite app_nil_r.
  - destruct (IH (evaluateOne env now w b)) as (Hm & Hi & Hl).
    destruct (evaluateOne_notifies w b) as (Hm1 & Hi1 & Hl1).
    rewrite Hm, Hi, Hl, Hm1, Hi1, Hl1. split; [|now split].
    rewrite <- app_assoc. f_equal.
    rewrite (omap_pointwise
               (notificationFor (monitoredBases (self (evaluateOne env now w b))))
               (notificationFor (monitoredBases (self w))))
      by (intros x; now apply notificationFor_identities).
    cbn [omap list_omap]. now destruct (notificationFor (monitoredBases (self w)) b).
Qed.

(** An evaluation pass opens, in the order of the pending set, one modal
    for every pending query that is registered, not snoozed and evaluates
    to at least one result, showing all its results, and no other modal.
    It empties the pending set, and changes no key, stored path, name or
    snooze deadline of the registry, no timer and no subscription. *)
Theorem evaluation_pass_notifies (w : World) :
  let w' := evaluatePendingBases env now w in
  openedModals w'
  = (openedModals w
     ++ omap (notificationFor (monitoredBases (self w))) (pendingEvaluations (self w)))%list
  /\ pendingEvaluations (self w') = []
  /\ identities (monitoredBases (self w')) = identities (monitoredBases (self w))
  /\ timers w' = timers w
  /\ listeners w' = listeners w.
Proof.
  cbv zeta.
  destruct (evaluatePendingBases_frame env now w) as (Ht & _ & Hp & _ & _).
  unfold evaluatePendingBases in *.
  destruct (pendingEvaluations (self w)) as [|b rest] eqn:Hpending.
  - cbn. rewrite app_nil_r. now repeat split.
  - destruct (evaluateLoop_notifies (b :: rest)
                (logPass now (b :: rest) (onSelf (withPending []) w))) as (Hm & Hi & Hl).
    split; [exact Hm|]. split; [exact Hp|]. split; [exact Hi|]. split; [exact Ht|].
    exact Hl.
Qed.

End Notifications.

(** *** Results pushed by an open view *)

(** The entry created for a query that is not registered yet. *)
Definition freshEntry (basePath baseName : string) : MonitoredBase :=
  {| path := basePath; name := baseName; snoozedUntil := 0;
     lastResultCount := 0; cachedPaths := ∅ |}.

(** A view that pushes no item changes nothing.  A view that pushes items
    registers its query if it is unknown (under the name it passes; a known
    query keeps its name), leaves other queries alone, and, unless the
    query is snoozed, replaces the cache by the pushed paths and opens one
    modal with all pushed items. *)
Theorem showNotificationFromView_spec (basePath baseName : string)
        (items : list NotificationItem) (now : Z) (w : World) (q : string) :
  let reg := monitoredBases (self w) in
  let monitored := default (freshEntry basePath baseName) (mapGet basePath reg) in
  let w' := showNotificationFromView basePath baseName items now w in
  let snoozed := (snoozedUntil monitored >? now)%Z in
  match items with
  | [] => w' = w
  | _ :: _ =>
      mapGet q (monitoredBases (self w'))
      = (if String.eqb basePath q
         then Some (if snoozed then monitored
                    else setCached (pathSet items) (List.length items) monitored)
         else mapGet q reg)
      /\ openedModals w'
         = (openedModals w
            ++ (if snoozed then [] else [(path monitored, name monitored, items)]))%list
      /\ pendingEvaluations (self w') = pendingEvaluations (self w)
      /\ timers w' = timers w
  end.
Proof.
  cbv zeta. destruct items as [|i rest]; [reflexivity|].
  unfold showNotificationFromView. fold (freshEntry basePath baseName).
  set (items := i :: rest).
  destruct (mapGet basePath (monitoredBases (self w))) as [m|] eqn:Hget.
  - rewrite Hget. cbn [default]. unfold id.
    destruct (snoozedUntil m >? now)%Z.
    + rewrite app_nil_r. split; [|now repeat split].
      destruct (String.eqb_spec basePath q) as [<-|Hne]; [exact Hget|reflexivity].
    + cbn [showNotification openModal onSelf withSelf self withBases monitoredBases
           openedModals pendingEvaluations timers setCached path name].
      split; [|now repeat split].
      destruct (String.eqb_spec basePath q) as [<-|Hne].
      * now rewrite mapGet_mapAlter_eq, Hget.
      * now apply mapGet_mapAlter_ne.
  - cbn [onSelf withSelf self withBases monitoredBases default].
    rewrite mapGet_mapSet_eq. cbn [default]. unfold id.
    destruct (snoozedUntil (freshEntry basePath baseName) >? now)%Z.
    + cbn [onSelf withSelf self withBases monitoredBases openedModals pendingEvaluations
           timers].
      rewrite app_nil_r. split; [|now repeat split].
      destruct (String.eqb_spec basePath q) as [<-|Hne];
        [apply mapGet_mapSet_eq|now apply mapGet_mapSet_ne].
    + cbn [showNotification openModal onSelf withSelf self withBases monitoredBases
           openedModals pendingEvaluations timers setCached path name].
      split; [|now repeat split].
      destruct (String.eqb_spec basePath q) as [<-|Hne].
      * now rewrite mapGet_mapAlter_eq, mapGet_mapSet_eq.
      * rewrite mapGet_mapAlter_ne by exact Hne. now apply mapGet_mapSet_ne.
Qed.

(** *** Snoozing and the list shown in the settings *)

(** [getMonitoredBases]: path, name and whether the query is snoozed. *)
Definition getMonitoredBases (now : Z) (w : World) : list (string * string * bool) :=
  map (fun e => (path (snd e), name (snd e), (snoozedUntil (snd e) >? now)%Z))
      (monitoredBases (self w)).

Lemma mapGet_None {A} k (m : list (string * A)) e :
  mapGet k m = None -> In e m -> String.eqb (fst e) k = false.
Proof.
  unfold mapGet. induction m as [|[k0 a] r IH]; [easy|].
  cbn [List.find fst]. destruct (String.eqb k0 k) eqn:E; [discriminate|].
  intros H [<-|Hin]; [exact E|now apply IH].
Qed.

(** After [snoozeBase] for [d] minutes at time [now], the list for the
    settings shows the snoozed query as snoozed at every time before
    [now + d * 60000] and as not snoozed from then on, and shows every
    other query as before; paths, names and order do not change.  Snoozing
    a path that is not registered changes nothing.  No evaluation is
    scheduled and nothing pending is dropped. *)
Theorem snooze_is_reported (basePath : string) (durationMinutes now t : Z) (w : World) :
  let w' := snoozeBase basePath durationMinutes now w in
  getMonitoredBases t w'
  = map (fun e => (path (snd e), name (snd e),
                   if String.eqb (fst e) basePath
                   then (t <? now + durationMinutes * 60 * 1000)%Z
                   else (snoozedUntil (snd e) >? t)%Z))
        (monitoredBases (self w))
  /\ (mapGet basePath (monitoredBases (self w)) = None -> w' = w)
  /\ pendingEvaluations (self w') = pendingEvaluations (self w)
  /\ timers w' = timers w
  /\ openedModals w' = openedModals w.
Proof.
  cbv zeta. unfold snoozeBase, getMonitoredBases.
  destruct (mapGet basePath (monitoredBases (self w))) as [m|] eqn:Hget.
  - cbn [onSelf withSelf self withBases monitoredBases pendingEvaluations timers
         openedModals].
    split; [|split; [discriminate|now repeat split]].
    unfold mapAlter. rewrite map_map. apply map_ext. intros [k e]. cbn [fst snd].
    destruct (String.eqb k basePath); cbn [fst snd setSnoozedUntil path name snoozedUntil];
      [|reflexivity].
    now rewrite Z.gtb_ltb.
  - split; [|now repeat split].
    apply map_ext_in. intros e Hin. now rewrite (mapGet_None _ _ _ Hget Hin).
Qed.

(** *** Starting and stopping *)

(** [destroy] resets every field of the watcher, so a second [destroy]
    changes nothing and the watcher can be initialized again; a second
    [initialize] without a [destroy] in between changes nothing either. *)
Theorem destroy_resets_watcher (now later : Z) (w : World) :
  self (destroy w) = newWatcher
  /\ destroy (destroy w) = destroy w
  /\ initialize later (initialize now w) = initialize now w
  /\ initialized (self (initialize later (destroy w))) = true
  /\ scanTimeout (self (initialize later (destroy w))) = Some (nextHandle w).
Proof.
  assert (Hself : forall w0, self (destroy w0) = newWatcher).
  { intros [[mb a b c d st pe dt ini] tm ls nh om pl].
    destruct st, dt, a, b, c, d; reflexivity. }
  assert (Hhandle : forall w0, nextHandle (destroy w0) = nextHandle w0).
  { intros [[mb a b c d st pe dt ini] tm ls nh om pl].
    destruct st, dt, a, b, c, d; reflexivity. }
  split; [apply Hself|]. split; [|split; [|split]].
  - generalize (Hself w). generalize (destroy w). intros [s tm ls nh om pl].
    cbn [self]. intros ->. reflexivity.
  - destruct (initialized (self w)) eqn:Hinit.
    + unfold initialize. now rewrite !Hinit.
    + assert (H : initialized (self (initialize now w)) = true)
        by (unfold initialize; now rewrite Hinit).
      unfold initialize at 1. now rewrite H.
  - unfold initialize. rewrite Hself. reflexivity.
  - unfold initialize. rewrite Hself.
    cbn [newWatcher initialized addTimer onSelf withSelf self withScanTimeout scanTimeout
         nextHandle withInitialized].
    now rewrite Hhandle.
Qed.

(** A watcher that is destroyed before its start-up delay has passed never
    scans and installs no listener: with handles that are fresh, the host
    is left with the timers and subscriptions it had. *)
Theorem destroy_cancels_pending_startup (now : Z) (w : World) :
  self w = newWatcher ->
  Forall (fun t => timerId t <> nextHandle w) (timers w) ->
  destroy (initialize now w)
  = {| self := newWatcher; timers := timers w; listeners := listeners w;
       nextHandle := Pos.succ (nextHandle w); openedModals := openedModals w;
       passLog := passLog w |}.
Proof.
  destruct w as [s tm ls nh om pl]. cbn [self timers nextHandle]. intros -> Hfresh.
  assert (Hf : forall t0,
             timerId t0 = nh ->
             List.filter (fun t => negb (Pos.eqb (timerId t) nh)) (tm ++ [t0]) = tm).
  { intros t0 Ht0. rewrite List.filter_app. cbn [List.filter]. rewrite Ht0.
    rewrite Pos.eqb_refl. cbn [negb]. rewrite app_nil_r.
    induction Hfresh as [|t r Ht _ IH]; [reflexivity|].
    cbn [List.filter]. apply Pos.eqb_neq in Ht. rewrite Ht. cbn [negb]. now rewrite IH. }
  unfold initialize, destroy. simpl. unfold clearTimeout, onSelf, withSelf. simpl.
  now rewrite Hf.
Qed.

Lemma destroy_cancels_pending_startup_witness :
  destroy (initialize 0 newWorld)
  = {| self := newWatcher; timers := []; listeners := []; nextHandle := 2%positive;
       openedModals := []; passLog := [] |}.
Proof.
  exact (destroy_cancels_pending_startup 0 newWorld eq_refl (List.Forall_nil _)).
Defined.

(** *** The periodic tick *)

Section Periodic.
Variable env : Env.

Lemma omap_In {A B} (f : A -> option B) (l : list A) x y :
  In x l -> f x = Some y -> In y (omap f l).
Proof.
  intros Hin Hf. induction l as [|a r IH]; [destruct Hin|].
  cbn [omap list_omap]. fold (omap f r). destruct Hin as [->|Hin].
  - rewrite Hf. now left.
  - destruct (f a); [right|]; now apply IH.
Qed.

(** A periodic tick notifies again, without any change having happened and
    without waiting for the debounce delay: for every query that is
    registered once the tick has rescanned the vault, is not snoozed and
    evaluates to at least one result, the tick opens a modal with all its
    results. *)
Theorem periodic_tick_renotifies (now : Z) (w : World) (b : string) (m : MonitoredBase)
        (r : NotificationItem) (rs : list NotificationItem) :
  mapGet b (monitoredBases (self (scanForMonitoredBases env now w))) = Some m ->
  (snoozedUntil m <= now)%Z ->
  evaluateBaseQuery env now b = Returned (Some (r :: rs)) ->
  exists earlier later,
    openedModals (periodicScan env now w)
    = (openedModals w ++ earlier ++ [(path m, name m, r :: rs)] ++ later)%list.
Proof.
  intros Hget Hsnz Heval. unfold periodicScan. cbv zeta.
  set (w1 := scanForMonitoredBases env now w) in *.
  set (w2 := onSelf _ w1).
  assert (Hreg : monitoredBases (self w2) = monitoredBases (self w1)) by reflexivity.
  assert (Hmod : openedModals w2 = openedModals w) by reflexivity.
  assert (Hpending : In b (pendingEvaluations (self w2))).
  { subst w2. cbn [onSelf withSelf self withPending pendingEvaluations].
    apply markNotSnoozed_iff. right. exists m. split; [now apply mapGet_In|exact Hsnz]. }
  assert (Hlen : (0 <? List.length (pendingEvaluations (self w2)))%nat = true).
  { apply Nat.ltb_lt. destruct (pendingEvaluations (self w2)); [destruct Hpending|cbn; lia]. }
  rewrite Hlen.
  assert (Hnote : notificationFor env now (monitoredBases (self w2)) b
                  = Some (path m, name m, r :: rs)).
  { unfold notificationFor. rewrite Hreg, Hget, Heval.
    assert (E : (snoozedUntil m >? now)%Z = false)
      by (rewrite Z.gtb_ltb; now apply Z.ltb_ge).
    now rewrite E. }
  assert (Hin := omap_In _ _ _ _ Hpending Hnote).
  apply in_split in Hin as (earlier & later & Hsplit).
  exists earlier, later.
  unfold evaluatePendingBases.
  destruct (pendingEvaluations (self w2)) as [|b0 rest] eqn:Hp; [destruct Hpending|].
  destruct (evaluateLoop_notifies env now (b0 :: rest)
              (logPass now (b0 :: rest) (onSelf (withPending []) w2))) as (Hopened & _ & _).
  rewrite Hopened.
  cbn [logPass onSelf withSelf self withPending monitoredBases openedModals].
  now rewrite Hmod, Hsplit.
Qed.

End Periodic.

Lemma periodic_tick_renotifies_witness :
  exists earlier later,
    openedModals (periodicScan steadyEnv 600000 (pendingWorld 0))
    = (earlier ++ [(overdueBase, "Overdue reviews", libraryItems)] ++ later)%list.
Proof.
  destruct (periodic_tick_renotifies steadyEnv 600000 (pendingWorld 0) overdueBase
              {| path := overdueBase; name := "Overdue reviews"; snoozedUntil := 0;
                 lastResultCount := 1; cachedPaths := {[ policyNote ]} |}
              {| itemPath := policyNote; title := "Password Policy";
                 isTask := Some false; status := None |}
              [{| itemPath := backupNote; title := "Backup Recovery Procedure";
                  isTask := Some false; status := None |}])
    as (earlier & later & H).
  - reflexivity.
  - cbn. lia.
  - reflexivity.
  - exists earlier, later. exact H.
Defined.

(** *** The start-up delay *)

Section Startup.
Variable env : Env.

(** A freshly constructed watcher does nothing when initialized until the
    start-up delay has passed.  When the host then serves its timers the
    watcher scans the vault as it is at that moment, subscribes to the four
    event sources, in the order task updates, metadata changes, deletions,
    renames, and arms the periodic scan one period later. *)
Theorem startup_waits_for_delay (now t : Z) (w : World) :
  self w = newWatcher ->
  timers w = [] ->
  let started := (now + STARTUP_SCAN_DELAY_MS)%Z in
  let h := nextHandle w in
  let w' := advanceTo env t (initialize now w) in
  ((t < started)%Z -> w' = initialize now w)
  /\ ((started <= t)%Z ->
      monitoredBases (self w')
      = fold_left (fun reg file => checkAndRegisterBase env started file reg)
                  (baseFiles env started) []
      /\ listeners w'
         = (listeners w
            ++ [(Pos.succ h, TaskUpdated); (Pos.succ (Pos.succ h), MetadataChanged);
                (Pos.succ (Pos.succ (Pos.succ h)), VaultDelete);
                (Pos.succ (Pos.succ (Pos.succ (Pos.succ h))), VaultRename)])%list
      /\ timers w'
         = [{| timerId := Pos.succ (Pos.succ (Pos.succ (Pos.succ (Pos.succ h))));
               due := (started + PERIODIC_SCAN_INTERVAL_MS)%Z;
               callback := PeriodicScan;
               repeatEvery := Some PERIODIC_SCAN_INTERVAL_MS |}]
      /\ openedModals w' = openedModals w
      /\ pendingEvaluations (self w') = []).
Proof.
  destruct w as [s tm ls nh om pl]. cbn [self timers nextHandle]. intros -> ->.
  cbv zeta.
  set (startup := {| timerId := nh; due := (now + STARTUP_SCAN_DELAY_MS)%Z;
                     callback := StartupScan; repeatEvery := None |}).
  set (initial := {| self := newWatcher; timers := []; listeners := ls; nextHandle := nh;
                     openedModals := om; passLog := pl |}).
  set (waiting := {| self := withScanTimeout (Some nh) (withInitialized true newWatcher);
                     timers := [startup]; listeners := ls; nextHandle := Pos.succ nh;
                     openedModals := om; passLog := pl |}).
  change (initialize now initial) with waiting.
  assert (Hdue : dueTimers t (timers waiting)
                 = if (now + STARTUP_SCAN_DELAY_MS <=? t)%Z then [startup] else []).
  { unfold dueTimers. cbn [waiting timers List.filter startup due].
    now destruct (now + STARTUP_SCAN_DELAY_MS <=? t)%Z. }
  unfold advanceTo. rewrite Hdue. split.
  - intros Hlt. apply Z.leb_gt in Hlt. now rewrite Hlt.
  - intros Hge. apply Z.leb_le in Hge. rewrite Hge. cbn [fold_left].
    assert (Hfire : fireTimer env (due startup) waiting startup
                    = startupScan env (now + STARTUP_SCAN_DELAY_MS)
                        {| self := self waiting; timers := []; listeners := ls;
                           nextHandle := Pos.succ nh; openedModals := om;
                           passLog := pl |}).
    { unfold fireTimer, rearm.
      cbn [waiting timers existsb startup timerId repeatEvery List.filter callback
           runCallback due listeners nextHandle openedModals passLog self].
      rewrite Pos.eqb_refl. cbn [orb negb]. reflexivity. }
    rewrite Hfire. split; [reflexivity|]. split; [|now repeat split].
    unfold startupScan, startPeriodicScan, setupEventListeners, scanForMonitoredBases.
    cbn [subscribe addTimer onSelf withSelf listeners nextHandle snd initial].
    now rewrite <- !app_assoc.
Qed.

End Startup.

Lemma startup_waits_for_delay_witness :
  advanceTo steadyEnv 4999 (initialize 0 newWorld) = initialize 0 newWorld
  /\ monitoredBases (self (advanceTo steadyEnv 5000 (initialize 0 newWorld)))
     = [(overdueBase, {| path := overdueBase; name := "Overdue reviews"; snoozedUntil := 0;
                         lastResultCount := 0; cachedPaths := ∅ |})].
Proof.
  destruct (startup_waits_for_delay steadyEnv 0 4999 newWorld eq_refl eq_refl)
    as [Hbefore _].
  destruct (startup_waits_for_delay steadyEnv 0 5000 newWorld eq_refl eq_refl)
    as [_ Hafter].
  split; [apply Hbefore; reflexivity|].
  destruct Hafter as [Hreg _]; [discriminate|]. exact Hreg.
Defined.

End WatcherExtras.

(** ** modals/BasesNotificationModal.ts *)

Module NotificationModal.
Import JsString Host BasesQueryWatcher.

(** The options the item list reads; [maxDisplayItems] is an integer when
    it is given. *)
Record Options := {
  items : list NotificationItem;
  maxDisplayItems : option Z
}.

(** [this.options.maxDisplayItems || 5] *)
Definition maxDisplayOf (options : Options) : Z :=
  match maxDisplayItems options with
  | Some n => if (n =? 0)%Z then 5%Z else n
  | None => 5%Z
  end.

(** [arr.slice(0, e)]: a negative end counts from the end of the array. *)
Definition slice0 {A} (e : Z) (l : list A) : list A :=
  if (e <? 0)%Z then firstn (Z.to_nat (Z.max (Z.of_nat (List.length l) + e) 0)) l
  else firstn (Z.to_nat e) l.

(** What [renderItems] puts into the container: one row per shown item,
    then the line with the number of further items, if it is written. *)
Record Rendered := {
  rows : list NotificationItem;
  moreLine : option Z
}.

Definition renderItems (options : Options) : Rendered :=
  let maxDisplay := maxDisplayOf options in
  let itemsToShow := slice0 maxDisplay (items options) in
  let remainingCount := (Z.of_nat (List.length (items options)) - maxDisplay)%Z in
  {| rows := itemsToShow;
     moreLine := if (remainingCount >? 0)%Z then Some remainingCount else None |}.

(** The options with which the watcher opens the modal. *)
Definition watcherOptions (results : list NotificationItem) : Options :=
  {| items := results; maxDisplayItems := Some 5%Z |}.

End NotificationModal.

Module ModalExtras.
Import JsString Host BasesQueryWatcher NotificationModal.

(** The rows and the number on the line below them together account for
    every item exactly when the display limit in force is positive; the
    limit in force is never zero, because a limit of zero counts as
    absent.  With a positive limit the rows are the first items, at most
    the limit, and the line is written exactly when items are left over.
    The watcher always asks for five. *)
Theorem renderItems_accounts_for_items (options : Options) :
  let n := Z.of_nat (List.length (items options)) in
  let shown := Z.of_nat (List.length (rows (renderItems options))) in
  let more := default 0%Z (moreLine (renderItems options)) in
  maxDisplayOf options <> 0%Z
  /\ (exists rest, items options = (rows (renderItems options) ++ rest)%list)
  /\ ((shown + more = n)%Z <-> (0 < maxDisplayOf options)%Z)
  /\ ((0 < maxDisplayOf options)%Z ->
      shown = Z.min n (maxDisplayOf options)
      /\ (moreLine (renderItems options) = None <-> (n <= maxDisplayOf options)%Z))
  /\ (forall results, maxDisplayOf (watcherOptions results) = 5%Z).
Proof.
  cbv zeta. unfold renderItems. cbv zeta. cbn [rows moreLine].
  set (n := List.length (items options)).
  set (e := maxDisplayOf options).
  assert (He : e <> 0%Z).
  { subst e. unfold maxDisplayOf. destruct (maxDisplayItems options) as [k|]; [|discriminate].
    destruct (Z.eqb_spec k 0); [discriminate|assumption]. }
  assert (Hlen : List.length (slice0 e (items options))
                 = if (e <? 0)%Z then Z.to_nat (Z.max (Z.of_nat n + e) 0)
                   else Nat.min (Z.to_nat e) n).
  { unfold slice0. fold n. destruct (e <? 0)%Z eqn:E; rewrite length_firstn; fold n;
      [|reflexivity].
    apply Z.ltb_lt in E. lia. }
  split; [exact He|]. split.
  { unfold slice0. destruct (e <? 0)%Z; eexists; symmetry; apply firstn_skipn. }
  split; [|split].
  - rewrite Hlen. destruct (Z.ltb_spec e 0) as [Hneg|Hpos].
    + destruct (Z.gtb_spec (Z.of_nat n - e) 0) as [Hmore|Hmore]; cbn [default];
        unfold id; lia.
    + destruct (Z.gtb_spec (Z.of_nat n - e) 0) as [Hmore|Hmore]; cbn [default];
        unfold id; lia.
  - intros Hpos. rewrite Hlen.
    destruct (Z.ltb_spec e 0) as [Hneg|_]; [lia|]. split; [lia|].
    destruct (Z.gtb_spec (Z.of_nat n - e) 0) as [Hmore|Hmore]; split; try easy; lia.
  - reflexivity.
Qed.

End ModalExtras.

(** ** Further properties of link matching *)

Module MatchingExtras.
Import JsString DuplicateDetector ReferenceProofs ReferenceExtras.

Lemma lastSegment_has_no_slash s : noSlash (lastSegment s) = true.
Proof.
  induction s as [|c r IH]; [reflexivity|].
  cbn [lastSegment]. fold (hasSlash r). destruct (hasSlash r) eqn:Hr; [exact IH|].
  assert (Hn : noSlash r = true) by now rewrite noSlash_hasSlash, Hr.
  destruct (Ascii.eqb c "/") eqn:Hc; [exact Hn|].
  change (noSlash (String c r)) with (negb (Ascii.eqb c "/") && noSlash r).
  now rewrite Hc, Hn.
Qed.

Lemma basename_of_suffix p b :
  b <> "" -> noSlash b = true -> EndsWith p ("/" ++ b) -> basename p = b.
Proof.
  intros Hb Hn [pre ->]. unfold basename. rewrite lastSegment_join by exact Hn.
  now apply orElse_nonempty.
Qed.

Lemma Matches_basenames S r :
  lastSegment S <> "" ->
  lastSegment (normalizePath (extractPathFromLink r)) <> "" ->
  Matches S (basename S) r
  <-> lastSegment (normalizePath (extractPathFromLink r)) = lastSegment S.
Proof.
  intros HS HP. unfold Matches. cbv zeta.
  set (P := normalizePath (extractPathFromLink r)) in *.
  assert (HbS : basename S = lastSegment S) by now apply orElse_nonempty.
  assert (HbP : basename P = lastSegment P) by now apply orElse_nonempty.
  rewrite HbS, HbP. split.
  - intros [->|[H|[H|H]]]; [reflexivity|exact H| |].
    + rewrite <- HbP. apply basename_of_suffix;
        [exact HS|apply lastSegment_has_no_slash|exact H].
    + symmetry. rewrite <- HbS. apply basename_of_suffix;
        [exact HP|apply lastSegment_has_no_slash|exact H].
  - intros H. right. now left.
Qed.

(** Matching looks at names only.  When neither the normalized source path
    nor any normalized reference target is empty or ends in a slash, a task
    links to the source exactly when the last path segment of one of its
    references, normalized, equals that of the source: equality of the
    whole paths and the two suffix tests add nothing, and folders never
    tell two notes of the same name apart. *)
Theorem links_compare_names_only (task : TaskInfo) (sourcePath : string)
        (references : list string) :
  projects task = Some references ->
  lastSegment (normalizePath sourcePath) <> "" ->
  Forall (fun r => lastSegment (normalizePath (extractPathFromLink r)) <> "") references ->
  (taskLinksToSource task sourcePath = true
   <-> exists r, In r references
                 /\ lastSegment (normalizePath (extractPathFromLink r))
                    = lastSegment (normalizePath sourcePath)).
Proof.
  intros Hp HS Hall. unfold taskLinksToSource. rewrite Hp.
  destruct references as [|r0 rest].
  - split; [discriminate|]. now intros (r & [] & _).
  - cbv zeta. rewrite anyProject_spec. rewrite List.Forall_forall in Hall.
    split; intros (r & Hin & Hm); exists r; (split; [exact Hin|]).
    + apply Matches_basenames in Hm; [exact Hm|exact HS|now apply Hall].
    + apply Matches_basenames; [exact HS|now apply Hall|exact Hm].
Qed.

Lemma links_compare_names_only_witness :
  taskLinksToSource {| path := "TaskNotes/Tasks/Review.md";
                       projects := Some ["[[Archive/2019/Report]]"] |}
                    "Drafts/Report.md" = true.
Proof.
  apply (links_compare_names_only
           {| path := "TaskNotes/Tasks/Review.md";
              projects := Some ["[[Archive/2019/Report]]"] |}
           "Drafts/Report.md" ["[[Archive/2019/Report]]"] eq_refl).
  - discriminate.
  - constructor; [discriminate|constructor].
  - exists "[[Archive/2019/Report]]". split; [now left|reflexivity].
Defined.

End MatchingExtras.

(** ** The bulk modal (BulkTaskCreationModal) *)

Module BulkTaskCreationModal.
Import JsString Host DuplicateDetector.

(** The modal's own [extractTitle]. *)
Definition previewFallback (item : BulkTaskEngine.BasesDataItem) : string :=
  if truthy (default "" (BulkTaskEngine.fileBasename item))
  then default "" (BulkTaskEngine.fileBasename item)
  else if truthy (default "" (BulkTaskEngine.itemName item))
       then default "" (BulkTaskEngine.itemName item)
       else if truthy (default "" (BulkTaskEngine.itemPath item))
            then stripMd (basename (default "" (BulkTaskEngine.itemPath item)))
            else "Untitled".

Definition extractTitle (item : BulkTaskEngine.BasesDataItem) : string :=
  match BulkTaskEngine.props item !! "title" with
  | Some (VStr t) => if truthy t then t else previewFallback item
  | _ => previewFallback item
  end.

(** [updatePreview]: the titles listed and the number on the line that
    follows them, if it is written. *)
Definition maxPreview (n : nat) : nat := if (5 <? n)%nat then 3 else 5.

Record Preview := {
  previewTitles : list string;
  previewMore : option nat
}.

Definition updatePreview (items : list BulkTaskEngine.BasesDataItem) : Preview :=
  let n := List.length items in
  {| previewTitles := map extractTitle (firstn (maxPreview n) items);
     previewMore := if (maxPreview n <? n)%nat then Some (n - maxPreview n) else None |}.

(** The convert-mode state of the modal that the dry run and the run read. *)
Record ConvertMode := {
  skipAlreadyTasks : bool;
  applyDefaults : bool;
  linkToBase : bool;
  baseFilePath : option string
}.

(** What [runConvertPreCheck] shows: the number of notes it announces to
    convert, the number it announces to skip (when it says so), the paths
    that get a badge, and whether the action button is disabled. *)
Record ConvertStatus := {
  willConvert : nat;
  willSkip : option nat;
  badges : gset string;
  actionDisabled : bool
}.

Definition runConvertPreCheck (mode : ConvertMode) (itemCount : nat)
           (preCheck : BulkConvertEngine.ConvertPreCheckResult) : ConvertStatus :=
  let announceSkip :=
    (0 <? BulkConvertEngine.alreadyTasks preCheck)%nat && skipAlreadyTasks mode in
  let count := if skipAlreadyTasks mode then BulkConvertEngine.toConvert preCheck
               else itemCount in
  {| willConvert := if announceSkip then BulkConvertEngine.toConvert preCheck else count;
     willSkip := if announceSkip then Some (BulkConvertEngine.alreadyTasks preCheck)
                 else None;
     badges := if skipAlreadyTasks mode then BulkConvertEngine.alreadyTaskPaths preCheck
               else ∅;
     actionDisabled := (count =? 0)%nat |}.

(** The options [executeConversion] hands to the engine. *)
Definition conversionOptions (mode : ConvertMode) : BulkConvertEngine.BulkConvertOptions :=
  {| BulkConvertEngine.applyDefaults := applyDefaults mode;
     BulkConvertEngine.linkToBase :=
       Some (linkToBase mode && truthy (default "" (baseFilePath mode)));
     BulkConvertEngine.baseFilePath := baseFilePath mode |}.

Definition executeConversion (settings : BulkConvertEngine.Settings)
           (fieldMapper : BulkConvertEngine.FieldMapper)
           (host : BulkConvertEngine.Collaborators) (vault : Vault)
           (paths : list (option string)) (mode : ConvertMode)
  : Vault * BulkConvertEngine.BulkConvertResult :=
  BulkConvertEngine.convertNotes settings fieldMapper host vault paths
                                 (conversionOptions mode).

End BulkTaskCreationModal.

Module BulkModalExtras.
Import JsString Host DuplicateDetector BulkTaskCreationModal.

(** An item that offers no title at all. *)
Definition untitled (item : BulkTaskEngine.BasesDataItem) : bool :=
  negb match BulkTaskEngine.props item !! "title" with
       | Some (VStr t) => truthy t
       | _ => false
       end
  && negb (truthy (default "" (BulkTaskEngine.fileBasename item)))
  && negb (truthy (default "" (BulkTaskEngine.itemName item)))
  && negb (truthy (default "" (BulkTaskEngine.itemPath item))).

(** The title previewed for an item is the title its task is created
    with, except for an item that offers no title property, basename, name
    or path: the preview then reads [Untitled] and the task is titled
    [Untitled task].  The preview lists the first five items of a batch of
    up to five and the first three of a larger one, and the line below
    counts the others. *)
Theorem preview_title_is_task_title (item : BulkTaskEngine.BasesDataItem)
        (items : list BulkTaskEngine.BasesDataItem) :
  extractTitle item
  = (if untitled item then "Untitled" else BulkTaskEngine.extractTitle item)
  /\ (if untitled item then BulkTaskEngine.extractTitle item = "Untitled task"
      else extractTitle item = BulkTaskEngine.extractTitle item)
  /\ List.length (previewTitles (updatePreview items))
     + default 0 (previewMore (updatePreview items)) = List.length items
  /\ List.length (previewTitles (updatePreview items))
     = (if (5 <? List.length items)%nat then 3 else List.length items).
Proof.
  assert (Hfb : previewFallback item
                = if negb (truthy (default "" (BulkTaskEngine.fileBasename item)))
                     && negb (truthy (default "" (BulkTaskEngine.itemName item)))
                     && negb (truthy (default "" (BulkTaskEngine.itemPath item)))
                  then "Untitled" else BulkTaskEngine.fallbackTitle item).
  { unfold previewFallback, BulkTaskEngine.fallbackTitle.
    destruct (truthy (default "" (BulkTaskEngine.fileBasename item))); [reflexivity|].
    destruct (truthy (default "" (BulkTaskEngine.itemName item))); [reflexivity|].
    now destruct (truthy (default "" (BulkTaskEngine.itemPath item))). }
  assert (Hfe : negb (truthy (default "" (BulkTaskEngine.fileBasename item)))
                && negb (truthy (default "" (BulkTaskEngine.itemName item)))
                && negb (truthy (default "" (BulkTaskEngine.itemPath item))) = true ->
                BulkTaskEngine.fallbackTitle item = "Untitled task").
  { unfold BulkTaskEngine.fallbackTitle.
    destruct (truthy (default "" (BulkTaskEngine.fileBasename item))); [discriminate|].
    destruct (truthy (default "" (BulkTaskEngine.itemName item))); [discriminate|].
    now destruct (truthy (default "" (BulkTaskEngine.itemPath item))). }
  assert (Htitle : extractTitle item
                   = if untitled item then "Untitled"
                     else BulkTaskEngine.extractTitle item).
  { unfold extractTitle, BulkTaskEngine.extractTitle, untitled. rewrite Hfb.
    destruct (BulkTaskEngine.props item !! "title") as [[| | |t|]|]; cbn [negb andb];
      try reflexivity.
    now destruct (truthy t). }
  split; [exact Htitle|]. split.
  - destruct (untitled item) eqn:Hu; [|exact Htitle].
    unfold untitled in Hu. unfold BulkTaskEngine.extractTitle.
    destruct (BulkTaskEngine.props item !! "title") as [[| | |t|]|]; cbn [negb andb] in Hu;
      try (now apply Hfe).
    destruct (truthy t); [discriminate|now apply Hfe].
  - unfold updatePreview, maxPreview. cbv zeta. cbn [previewTitles previewMore].
    rewrite length_map, length_firstn.
    destruct (Nat.ltb_spec 5 (List.length items)) as [Hbig|Hsmall].
    + replace (3 <? List.length items)%nat with true by (symmetry; apply Nat.ltb_lt; lia).
      cbn [default]. unfold id. split; lia.
    + destruct (Nat.ltb_spec 5 (List.length items)) as [Hlt|_]; [lia|].
      cbn [default]. split; lia.
Qed.

Section Announcement.
Variable settings : BulkConvertEngine.Settings.
Variable fieldMapper : BulkConvertEngine.FieldMapper.
Variable host : BulkConvertEngine.Collaborators.

(** The engine is not told about the modal's "skip notes that are already
    tasks" switch and always skips them.  So, for a batch whose non-empty
    paths are pairwise distinct, the number of notes the dry run announces
    to convert is the number the conversion attempts exactly when the
    switch is on or no note of the batch is a task already; the conversion
    skips the notes that are tasks in either case; and when the action
    button is disabled nothing would have been attempted. *)
Theorem convert_announcement_matches_conversion
        (vault : Vault) (paths : list (option string)) (mode : ConvertMode) :
  List.NoDup (ConversionExtras.checkedPaths paths) ->
  let pre := BulkConvertEngine.preCheck host vault paths in
  let status := runConvertPreCheck mode (List.length paths) pre in
  let r := snd (executeConversion settings fieldMapper host vault paths mode) in
  (willConvert status = BulkConvertEngine.converted r + BulkConvertEngine.failed r
   <-> skipAlreadyTasks mode = true \/ BulkConvertEngine.alreadyTasks pre = 0)
  /\ BulkConvertEngine.skipped r = BulkConvertEngine.alreadyTasks pre
  /\ (actionDisabled status = true ->
      BulkConvertEngine.converted r + BulkConvertEngine.failed r = 0).
Proof.
  intros Hnd. cbv zeta. unfold executeConversion.
  pose proof (BulkProofs.convert_total _ _ _ _ _
                (BulkProofs.convertNotes_progress settings fieldMapper host vault paths
                                                  (conversionOptions mode))) as Htotal.
  pose proof (ConversionExtras.convertNotes_skipped settings fieldMapper host vault paths
                (conversionOptions mode)) as Hcount.
  pose proof (GenerationExtras.size_eq_filter _ _
                (ConversionExtras.already_checked host vault paths) Hnd) as Heq.
  rewrite <- Hcount in Heq.
  change (size (BulkConvertEngine.alreadyTaskPaths (BulkConvertEngine.preCheck host vault paths)))
    with (BulkConvertEngine.alreadyTasks (BulkConvertEngine.preCheck host vault paths)) in Heq.
  assert (Hto : BulkConvertEngine.toConvert (BulkConvertEngine.preCheck host vault paths)
                = List.length paths
                  - BulkConvertEngine.alreadyTasks (BulkConvertEngine.preCheck host vault paths))
    by reflexivity.
  unfold runConvertPreCheck. cbv zeta. cbn [willConvert actionDisabled].
  set (r := snd (BulkConvertEngine.convertNotes settings fieldMapper host vault paths
                   (conversionOptions mode))) in *.
  set (pre := BulkConvertEngine.preCheck host vault paths) in *.
  split; [|split; [lia|]].
  - destruct (skipAlreadyTasks mode);
      destruct (Nat.ltb_spec 0 (BulkConvertEngine.alreadyTasks pre)) as [Hsome|Hnone];
      cbn [andb]; split; intros Hw; try (left; reflexivity); lia.
  - destruct (skipAlreadyTasks mode); intros Hd; apply Nat.eqb_eq in Hd; lia.
Qed.

End Announcement.

(** With the switch off and one of two notes a task already, the dry run
    announces two conversions and the run attempts one. *)
Definition convertEverything : ConvertMode :=
  {| skipAlreadyTasks := false; applyDefaults := false; linkToBase := false;
     baseFilePath := None |}.

Lemma convert_announcement_matches_conversion_witness :
  willConvert (runConvertPreCheck convertEverything 2
                 (BulkConvertEngine.preCheck ConversionExtras.taggingHost
                    ConversionExtras.twoNoteVault ConversionExtras.twoPaths)) = 2
  /\ BulkConvertEngine.skipped
       (snd (executeConversion ConvertProofs.tagSettings ConvertProofs.plainMapper
               ConversionExtras.taggingHost ConversionExtras.twoNoteVault
               ConversionExtras.twoPaths convertEverything)) = 1.
Proof.
  split; [reflexivity|].
  exact (proj1 (proj2 (convert_announcement_matches_conversion
                         ConvertProofs.tagSettings ConvertProofs.plainMapper
                         ConversionExtras.taggingHost ConversionExtras.twoNoteVault
                         ConversionExtras.twoPaths convertEverything
                         ConversionExtras.twoPaths_distinct))).
Defined.

End BulkModalExtras.

(** ** The debounce timer in every reachable state *)

Module TimerExtras.
Import JsString Host BasesQueryWatcher WatcherProofs.

(** What the timer discipline depends on: the host's timer table, its
    next handle, and the handle the watcher has recorded. *)
Definition timerView (w : World) : list Timer * positive * option positive :=
  (timers w, nextHandle w, evaluationDebounceTimer (self w)).

Definition Fresh (tbl : list Timer) (next : positive) : Prop :=
  Forall (fun t => (timerId t < next)%positive) tbl.

(** The recorded handle names the one live debounce timer, a one-shot
    timer; without a recorded handle no debounce timer is live. *)
Definition Recorded (tbl : list Timer) (field : option positive) : Prop :=
  match field with
  | None => List.filter isDebounce tbl = []
  | Some id => exists t, List.filter isDebounce tbl = [t]
                         /\ timerId t = id /\ repeatEvery t = None
  end.

Definition ViewOk (v : list Timer * positive * option positive) : Prop :=
  let '(tbl, next, field) := v in
  Fresh tbl next /\ List.NoDup (map timerId tbl) /\ Recorded tbl field.

Definition TimersOk (w : World) : Prop := ViewOk (timerView w).

Definition keepOthers (id : positive) (tbl : list Timer) : list Timer :=
  List.filter (fun t => negb (Pos.eqb (timerId t) id)) tbl.

Lemma keepOthers_In id tbl t : In t (keepOthers id tbl) -> In t tbl /\ timerId t <> id.
Proof.
  unfold keepOthers. intros H. apply filter_In in H as [Hin Hne]. split; [exact Hin|].
  apply negb_true_iff, Pos.eqb_neq in Hne. exact Hne.
Qed.

Lemma Fresh_keepOthers id tbl next : Fresh tbl next -> Fresh (keepOthers id tbl) next.
Proof.
  unfold Fresh. rewrite !List.Forall_forall. intros H t Ht.
  apply keepOthers_In in Ht as [Ht _]. now apply H.
Qed.

Lemma Fresh_later tbl next next' :
  (next <= next')%positive -> Fresh tbl next -> Fresh tbl next'.
Proof.
  unfold Fresh. rewrite !List.Forall_forall. intros Hle H t Ht.
  specialize (H t Ht). lia.
Qed.

Lemma Fresh_add tbl next t :
  Fresh tbl next -> timerId t = next -> Fresh (tbl ++ [t]) (Pos.succ next).
Proof.
  intros H Ht. apply List.Forall_app. split.
  - apply (Fresh_later _ next); [lia|exact H].
  - constructor; [lia|constructor].
Qed.

Lemma Fresh_not_In tbl next t : Fresh tbl next -> In t tbl -> timerId t <> next.
Proof.
  unfold Fresh. rewrite List.Forall_forall. intros H Hin. specialize (H t Hin). lia.
Qed.

Lemma NoDup_keepOthers id tbl :
  List.NoDup (map timerId tbl) -> List.NoDup (map timerId (keepOthers id tbl)).
Proof.
  unfold keepOthers. induction tbl as [|t r IH]; cbn [map List.filter]; [easy|].
  intros H. apply List.NoDup_cons_iff in H as [Hnot Hr].
  destruct (negb (Pos.eqb (timerId t) id)); [|now apply IH].
  cbn [map]. constructor; [|now apply IH].
  intros Hin. apply Hnot. apply in_map_iff in Hin as (u & Hu & Hin).
  apply filter_In in Hin as [Hin _]. apply in_map_iff. now exists u.
Qed.

Lemma NoDup_add tbl next t :
  Fresh tbl next -> timerId t = next ->
  List.NoDup (map timerId tbl) -> List.NoDup (map timerId (tbl ++ [t])).
Proof.
  intros HF Ht Hnd. rewrite map_app. cbn [map].
  apply List.NoDup_app; [exact Hnd|constructor; [intros []|constructor]|].
  intros x Hx [<-|[]]. apply in_map_iff in Hx as (u & Hu & Hin).
  apply (Fresh_not_In _ _ _ HF) in Hin. congruence.
Qed.

(** Timers with the same handle are the same timer. *)
Lemma NoDup_same_id tbl u v :
  List.NoDup (map timerId tbl) -> In u tbl -> In v tbl -> timerId u = timerId v -> u = v.
Proof.
  induction tbl as [|t r IH]; [easy|]. cbn [map]. intros H Hu Hv Hid.
  apply List.NoDup_cons_iff in H as [Hnot Hr].
  destruct Hu as [->|Hu], Hv as [->|Hv]; [reflexivity| | |now apply IH].
  - exfalso. apply Hnot. apply in_map_iff. now exists v.
  - exfalso. apply Hnot. apply in_map_iff. now exists u.
Qed.

Lemma filter_keepOthers_swap id tbl :
  List.filter isDebounce (keepOthers id tbl) = keepOthers id (List.filter isDebounce tbl).
Proof. unfold keepOthers. apply filter_filter_swap. Qed.

Lemma keepOthers_id id tbl :
  (forall t, In t tbl -> timerId t <> id) -> keepOthers id tbl = tbl.
Proof.
  unfold keepOthers. induction tbl as [|t r IH]; [reflexivity|]. intros H.
  cbn [List.filter]. assert (Ht : timerId t <> id) by (apply H; now left).
  apply Pos.eqb_neq in Ht. rewrite Ht. cbn [negb]. f_equal. apply IH.
  intros u Hu. apply H. now right.
Qed.

Lemma Recorded_clear tbl id : Recorded tbl (Some id) -> Recorded (keepOthers id tbl) None.
Proof.
  intros (t & Hf & Hid & _). cbn [Recorded]. rewrite filter_keepOthers_swap, Hf.
  unfold keepOthers. cbn [List.filter]. rewrite Hid, Pos.eqb_refl. reflexivity.
Qed.

Lemma Recorded_add_other tbl field t :
  Recorded tbl field -> isDebounce t = false -> Recorded (tbl ++ [t]) field.
Proof.
  intros H Ht. unfold Recorded in *. rewrite List.filter_app. cbn [List.filter].
  rewrite Ht, app_nil_r. exact H.
Qed.

Lemma Recorded_add_debounce tbl t :
  Recorded tbl None -> isDebounce t = true -> repeatEvery t = None ->
  Recorded (tbl ++ [t]) (Some (timerId t)).
Proof.
  intros H Ht Hr. cbn [Recorded] in *. rewrite List.filter_app, H. cbn [List.filter app].
  rewrite Ht. now exists t.
Qed.

(** Removing a timer that is not a debounce timer. *)
Lemma Recorded_remove_other tbl field id :
  (forall v, In v tbl -> timerId v = id -> isDebounce v = false) ->
  Recorded tbl field -> Recorded (keepOthers id tbl) field.
Proof.
  intros Hother H.
  assert (Hsame : keepOthers id (List.filter isDebounce tbl) = List.filter isDebounce tbl).
  { apply keepOthers_id. intros t Ht Hid. apply filter_In in Ht as [Hin Hd].
    specialize (Hother t Hin Hid). congruence. }
  unfold Recorded in *. now rewrite filter_keepOthers_swap, Hsame.
Qed.

Definition retime (id : positive) (newDue : Z) (tbl : list Timer) : list Timer :=
  map (fun u => if Pos.eqb (timerId u) id
                then {| timerId := timerId u; due := newDue; callback := callback u;
                        repeatEvery := repeatEvery u |}
                else u) tbl.

Lemma retime_ids id d tbl : map timerId (retime id d tbl) = map timerId tbl.
Proof.
  unfold retime. rewrite map_map. apply map_ext. intros u.
  now destruct (Pos.eqb (timerId u) id).
Qed.

Lemma Fresh_retime id d tbl next : Fresh tbl next -> Fresh (retime id d tbl) next.
Proof.
  unfold Fresh, retime. intros H. apply List.Forall_map.
  eapply List.Forall_impl; [|exact H]. intros u Hu. cbv beta.
  now destruct (Pos.eqb (timerId u) id).
Qed.

Lemma filter_retime id d tbl :
  (forall v, In v tbl -> timerId v = id -> isDebounce v = false) ->
  List.filter isDebounce (retime id d tbl) = List.filter isDebounce tbl.
Proof.
  unfold retime. induction tbl as [|t r IH]; [reflexivity|]. intros H.
  cbn [map List.filter]. rewrite IH by (intros v Hv; apply H; now right).
  destruct (Pos.eqb_spec (timerId t) id) as [Hid|Hid]; [|reflexivity].
  assert (Ht : isDebounce t = false) by (apply H; [now left|exact Hid]).
  unfold isDebounce in *. cbn [callback]. now rewrite Ht.
Qed.

Lemma Recorded_retime tbl field id d :
  (forall v, In v tbl -> timerId v = id -> isDebounce v = false) ->
  Recorded tbl field -> Recorded (retime id d tbl) field.
Proof. intros Hother H. unfold Recorded in *. now rewrite filter_retime. Qed.

Lemma ViewOk_same w w' : timerView w' = timerView w -> TimersOk w -> TimersOk w'.
Proof. unfold TimersOk. now intros ->. Qed.

(** The debounce timer armed at time [now] under handle [id]. *)
Definition debounceTimer (id : positive) (now : Z) : Timer :=
  {| timerId := id; due := now + EVALUATION_DEBOUNCE_MS; callback := DebouncedEvaluation;
     repeatEvery := None |}.

Definition cleared (field : option positive) (tbl : list Timer) : list Timer :=
  match field with Some id => keepOthers id tbl | None => tbl end.

Lemma scheduleEvaluation_view now w :
  timerView (scheduleEvaluation now w)
  = ((cleared (evaluationDebounceTimer (self w)) (timers w)
      ++ [debounceTimer (nextHandle w) now])%list,
     Pos.succ (nextHandle w), Some (nextHandle w)).
Proof.
  unfold scheduleEvaluation, timerView, cleared. cbv zeta.
  now destruct (evaluationDebounceTimer (self w)).
Qed.

Lemma ViewOk_schedule tbl next field now :
  ViewOk (tbl, next, field) ->
  ViewOk ((cleared field tbl ++ [debounceTimer next now])%list, Pos.succ next, Some next).
Proof.
  intros (HF & HU & HR). unfold ViewOk.
  assert (HF' : Fresh (cleared field tbl) next)
    by (destruct field; [now apply Fresh_keepOthers|exact HF]).
  assert (HU' : List.NoDup (map timerId (cleared field tbl)))
    by (destruct field; [now apply NoDup_keepOthers|exact HU]).
  assert (HR' : Recorded (cleared field tbl) None)
    by (destruct field; [now apply Recorded_clear|exact HR]).
  split; [now apply Fresh_add|]. split; [now apply (NoDup_add _ next)|].
  now apply (Recorded_add_debounce _ (debounceTimer next now)).
Qed.

Lemma scheduleEvaluation_ok now w : TimersOk w -> TimersOk (scheduleEvaluation now w).
Proof.
  unfold TimersOk. rewrite scheduleEvaluation_view. apply ViewOk_schedule.
Qed.

Lemma handlePathChange_ok changed now w :
  TimersOk w -> TimersOk (handlePathChange changed now w).
Proof.
  intros H. unfold handlePathChange. cbv zeta. apply scheduleEvaluation_ok.
  revert H. now apply ViewOk_same.
Qed.

Section Reachable.
Variable env : Env.

Lemma evaluateOne_view now w q : timerView (evaluateOne env now w q) = timerView w.
Proof.
  unfold evaluateOne. destruct (mapGet q (monitoredBases (self w))) as [m|]; [|reflexivity].
  destruct (snoozedUntil m >? now)%Z; [reflexivity|].
  now destruct (evaluateBaseQuery env now q) as [[[|r rs]|]|msg].
Qed.

Lemma evaluateLoop_view now qs w :
  timerView (fold_left (evaluateOne env now) qs w) = timerView w.
Proof.
  revert w. induction qs as [|q rest IH]; intros w; [reflexivity|].
  cbn [fold_left]. now rewrite IH, evaluateOne_view.
Qed.

Lemma evaluatePendingBases_view now w :
  timerView (evaluatePendingBases env now w) = timerView w.
Proof.
  unfold evaluatePendingBases. destruct (pendingEvaluations (self w)); [reflexivity|].
  now rewrite evaluateLoop_view.
Qed.

Lemma handleEvent_ok ev now w : TimersOk w -> TimersOk (handleEvent env ev now w).
Proof.
  intros H. unfold handleEvent. destruct ev as [taskPath|file|file|file oldPath].
  - destruct (truthy _); [now apply handlePathChange_ok|exact H].
  - destruct (String.eqb (extension file) "base"); [exact H|].
    destruct (String.eqb (extension file) "md"); [now apply handlePathChange_ok|exact H].
  - destruct (String.eqb (extension file) "base"); [exact H|now apply handlePathChange_ok].
  - destruct (String.eqb (extension file) "base").
    + now destruct (mapGet oldPath (monitoredBases (self w))).
    + now apply handlePathChange_ok, handlePathChange_ok.
Qed.

Lemma initialize_ok now w : TimersOk w -> TimersOk (initialize now w).
Proof.
  unfold initialize. destruct (initialized (self w)); [easy|].
  unfold TimersOk, timerView.
  cbn [addTimer onSelf withSelf self timers nextHandle withInitialized withScanTimeout
       evaluationDebounceTimer].
  intros (HF & HU & HR). split; [now apply Fresh_add|].
  split; [now apply (NoDup_add _ (nextHandle w))|]. now apply Recorded_add_other.
Qed.

Lemma destroy_view w :
  timerView (destroy w)
  = (cleared (evaluationDebounceTimer (self w)) (cleared (scanTimeout (self w)) (timers w)),
     nextHandle w, None).
Proof.
  destruct w as [[mb a b c d st pe dt ini] tm ls nh om pl].
  destruct st, dt, a, b, c, d; reflexivity.
Qed.

Lemma destroy_ok w : TimersOk w -> TimersOk (destroy w).
Proof.
  unfold TimersOk. rewrite destroy_view. unfold timerView.
  intros (HF & HU & HR).
  set (tbl := cleared (scanTimeout (self w)) (timers w)).
  assert (HF1 : Fresh tbl (nextHandle w))
    by (subst tbl; destruct (scanTimeout (self w)); [now apply Fresh_keepOthers|exact HF]).
  assert (HU1 : List.NoDup (map timerId tbl))
    by (subst tbl; destruct (scanTimeout (self w)); [now apply NoDup_keepOthers|exact HU]).
  assert (HR1 : Recorded (cleared (evaluationDebounceTimer (self w)) tbl) None).
  { subst tbl. destruct (scanTimeout (self w)) as [sid|]; cbn [cleared];
      [|destruct (evaluationDebounceTimer (self w)); [now apply Recorded_clear|exact HR]].
    destruct (evaluationDebounceTimer (self w)) as [id|]; cbn [cleared Recorded] in *.
    - destruct HR as (t & Hf & Hid & _).
      rewrite !filter_keepOthers_swap, Hf. unfold keepOthers. cbn [List.filter].
      destruct (negb (Pos.eqb (timerId t) sid)); cbn [List.filter]; [|reflexivity].
      now rewrite Hid, Pos.eqb_refl.
    - now rewrite filter_keepOthers_swap, HR. }
  cbv [ViewOk]. split; [|split; [|exact HR1]].
  - destruct (evaluationDebounceTimer (self w)); [now apply Fresh_keepOthers|exact HF1].
  - destruct (evaluationDebounceTimer (self w)); [now apply NoDup_keepOthers|exact HU1].
Qed.

(** A timer taken from the table earlier: its handle is in use, and a
    timer of the table with that handle is armed with the same closure
    and the same period. *)
Definition Known (u : Timer) (w : World) : Prop :=
  (timerId u < nextHandle w)%positive
  /\ forall v, In v (timers w) -> timerId v = timerId u ->
               callback v = callback u /\ repeatEvery v = repeatEvery u.

Lemma rearm_split now t tbl :
  rearm now t tbl = match repeatEvery t with
                    | Some period => retime (timerId t) (now + period) tbl
                    | None => keepOthers (timerId t) tbl
                    end.
Proof. reflexivity. Qed.

Lemma retime_In id d tbl v :
  In v (retime id d tbl) ->
  exists v0, In v0 tbl /\ timerId v0 = timerId v /\ callback v0 = callback v
             /\ repeatEvery v0 = repeatEvery v.
Proof.
  unfold retime. intros H. apply in_map_iff in H as (v0 & <- & Hin).
  exists v0. now destruct (Pos.eqb (timerId v0) id).
Qed.

Lemma rearm_In now t tbl v :
  In v (rearm now t tbl) ->
  exists v0, In v0 tbl /\ timerId v0 = timerId v /\ callback v0 = callback v
             /\ repeatEvery v0 = repeatEvery v.
Proof.
  rewrite rearm_split. destruct (repeatEvery t); [apply retime_In|].
  intros H. apply keepOthers_In in H as [H _]. now exists v.
Qed.

(** The table after the host has taken the fired timer off or re-armed
    it. *)
Lemma rearm_ok now t tbl next field :
  ViewOk (tbl, next, field) ->
  (forall v, In v tbl -> timerId v = timerId t ->
             callback v = callback t /\ repeatEvery v = repeatEvery t) ->
  (exists v, In v tbl /\ timerId v = timerId t) ->
  Fresh (rearm now t tbl) next
  /\ List.NoDup (map timerId (rearm now t tbl))
  /\ (if isDebounce t then Recorded (rearm now t tbl) None
      else Recorded (rearm now t tbl) field).
Proof.
  intros (HF & HU & HR) Hsame (v & Hv & Hid). rewrite rearm_split.
  split; [destruct (repeatEvery t); [now apply Fresh_retime|now apply Fresh_keepOthers]|].
  split; [destruct (repeatEvery t); [now rewrite retime_ids|now apply NoDup_keepOthers]|].
  destruct (Hsame v Hv Hid) as [Hcb Hrep].
  destruct (isDebounce t) eqn:Hdeb.
  - assert (Hvd : isDebounce v = true) by (unfold isDebounce in *; now rewrite Hcb).
    assert (Hvf : In v (List.filter isDebounce tbl)) by (apply filter_In; now split).
    destruct field as [id|]; cbn [Recorded] in HR; [|rewrite HR in Hvf; destruct Hvf].
    destruct HR as (t0 & Hf & Hid0 & Hrep0). rewrite Hf in Hvf.
    destruct Hvf as [<-|[]]. rewrite <- Hrep, Hrep0.
    apply Recorded_clear. exists t0. rewrite <- Hid. now repeat split.
  - assert (Hother : forall u, In u tbl -> timerId u = timerId t -> isDebounce u = false).
    { intros u Hu Hidu. destruct (Hsame u Hu Hidu) as [Hcbu _].
      unfold isDebounce in *. now rewrite Hcbu. }
    destruct (repeatEvery t); [now apply Recorded_retime|now apply Recorded_remove_other].
Qed.

Lemma runCallback_view cb now w :
  timerView (runCallback env cb now w)
  = match cb with
    | StartupScan =>
        ((timers w
          ++ [{| timerId := Pos.succ (Pos.succ (Pos.succ (Pos.succ (nextHandle w))));
                 due := now + PERIODIC_SCAN_INTERVAL_MS; callback := PeriodicScan;
                 repeatEvery := Some PERIODIC_SCAN_INTERVAL_MS |}])%list,
         Pos.succ (Pos.succ (Pos.succ (Pos.succ (Pos.succ (nextHandle w))))),
         evaluationDebounceTimer (self w))
    | DebouncedEvaluation => (timers w, nextHandle w, None)
    | PeriodicScan => timerView w
    end.
Proof.
  destruct cb; cbn [runCallback].
  - reflexivity.
  - unfold debouncedEvaluation. now rewrite evaluatePendingBases_view.
  - unfold periodicScan. cbv zeta.
    destruct (0 <? _)%nat; [now rewrite evaluatePendingBases_view|reflexivity].
Qed.

Lemma fireTimer_ok now w t :
  TimersOk w -> Known t w ->
  TimersOk (fireTimer env now w t)
  /\ forall u, Known u w -> Known u (fireTimer env now w t).
Proof.
  intros Hok [Hlt Hsame]. unfold fireTimer.
  destruct (existsb _ (timers w)) eqn:Hex; [|now split].
  apply existsb_exists in Hex as (v & Hv & Hid). apply Pos.eqb_eq in Hid.
  set (w1 := {| self := self w; timers := rearm now t (timers w);
                listeners := listeners w; nextHandle := nextHandle w;
                openedModals := openedModals w; passLog := passLog w |}).
  destruct (rearm_ok now t (timers w) (nextHandle w) (evaluationDebounceTimer (self w))
              Hok Hsame (ex_intro _ v (conj Hv Hid))) as (HF & HU & HR).
  pose proof (runCallback_view (callback t) now w1) as Hview.
  assert (Hdeb : isDebounce t = match callback t with
                                | DebouncedEvaluation => true | _ => false end)
    by reflexivity.
  split.
  - unfold TimersOk. rewrite Hview. destruct (callback t); rewrite Hdeb in HR;
      cbn [w1 timers nextHandle self timerView].
    + split; [|split].
      * apply Fresh_add; [|reflexivity].
        apply (Fresh_later _ (nextHandle w)); [lia|exact HF].
      * apply (NoDup_add _ (Pos.succ (Pos.succ (Pos.succ (Pos.succ (nextHandle w))))));
          [|reflexivity|exact HU].
        apply (Fresh_later _ (nextHandle w)); [lia|exact HF].
      * now apply Recorded_add_other.
    + now repeat split.
    + now repeat split.
  - intros u [Hult Husame].
    assert (Hnext : (nextHandle w <= nextHandle (runCallback env (callback t) now w1))%positive).
    { assert (Hn : nextHandle (runCallback env (callback t) now w1)
                   = snd (fst (timerView (runCallback env (callback t) now w1))))
        by reflexivity.
      rewrite Hn, Hview. destruct (callback t); cbn [fst snd w1 nextHandle timerView]; lia. }
    split; [lia|]. intros v' Hv' Hid'.
    assert (Htable : In v' (rearm now t (timers w))
                     \/ (nextHandle w <= timerId v')%positive).
    { assert (Ht : timers (runCallback env (callback t) now w1)
                   = fst (fst (timerView (runCallback env (callback t) now w1))))
        by reflexivity.
      rewrite Ht, Hview in Hv'. destruct (callback t);
        cbn [fst snd w1 nextHandle timers timerView] in Hv'; try (now left).
      apply in_app_iff in Hv' as [Hv'|[<-|[]]]; [now left|right]. cbn [timerId]. lia. }
    destruct Htable as [Hin|Hnew]; [|lia].
    apply rearm_In in Hin as (v0 & Hv0 & Hid0 & Hcb0 & Hrep0).
    rewrite <- Hcb0, <- Hrep0. apply Husame; [exact Hv0|congruence].
Qed.

Lemma fireLoop_ok l w :
  TimersOk w -> Forall (fun u => Known u w) l ->
  TimersOk (fold_left (fun w t => fireTimer env (due t) w t) l w).
Proof.
  revert w. induction l as [|t rest IH]; intros w Hok Hknown; [exact Hok|].
  cbn [fold_left]. apply Forall_cons in Hknown as [Ht Hrest].
  destruct (fireTimer_ok (due t) w t Hok Ht) as [Hok' Hkeep].
  apply IH; [exact Hok'|]. rewrite List.Forall_forall in *. intros u Hu.
  apply Hkeep. now apply Hrest.
Qed.

Lemma insertByDue_In t l u : In u (insertByDue t l) -> u = t \/ In u l.
Proof.
  induction l as [|x r IH]; cbn [insertByDue].
  - intros [<-|[]]. now left.
  - destruct (due t <? due x)%Z.
    + intros [<-|H]; [now left|now right].
    + intros [<-|H]; [right; now left|].
      destruct (IH H) as [->|Hr]; [now left|right; now right].
Qed.

Lemma dueTimers_In now tbl u : In u (dueTimers now tbl) -> In u tbl.
Proof.
  unfold dueTimers.
  assert (H : forall l acc, In u (fold_left (fun acc t => insertByDue t acc) l acc) ->
                            In u l \/ In u acc).
  { induction l as [|x r IH]; intros acc Hin; [now right|].
    cbn [fold_left] in Hin. destruct (IH _ Hin) as [Hr|Hacc]; [left; now right|].
    apply insertByDue_In in Hacc as [->|Hacc]; [left; now left|now right]. }
  intros Hin. destruct (H _ _ Hin) as [Hf|[]]. now apply filter_In in Hf.
Qed.

Lemma advanceTo_ok now w : TimersOk w -> TimersOk (advanceTo env now w).
Proof.
  intros Hok. unfold advanceTo. apply fireLoop_ok; [exact Hok|].
  destruct Hok as (HF & HU & _). apply List.Forall_forall. intros u Hu.
  apply dueTimers_In in Hu. split.
  - unfold Fresh in HF. rewrite List.Forall_forall in HF. now apply HF.
  - intros v Hv Hid. now rewrite (NoDup_same_id _ v u HU Hv Hu Hid).
Qed.

Lemma act_ok w step : TimersOk w -> TimersOk (act env w step).
Proof.
  intros Hok. unfold act. cbv zeta. destruct (snd step).
  - now apply initialize_ok.
  - now apply destroy_ok.
  - now apply advanceTo_ok.
  - unfold dispatch. destruct (existsb _ _); [now apply handleEvent_ok|exact Hok].
  - unfold snoozeBase. now destruct (mapGet _ _).
  - unfold triggerEvaluation. revert Hok. apply ViewOk_same.
    now rewrite evaluatePendingBases_view.
  - revert Hok. apply ViewOk_same. unfold showNotificationFromView.
    destruct items as [|i rest]; [reflexivity|].
    destruct (mapGet basePath (monitoredBases (self w))); cbv zeta;
      now destruct (_ >? _)%Z.
Qed.

Lemma run_ok history : TimersOk (run env history).
Proof.
  unfold run.
  assert (H : forall w, TimersOk w -> TimersOk (fold_left (act env) history w)).
  { induction history as [|step rest IH]; intros w Hok; [exact Hok|].
    cbn [fold_left]. now apply IH, act_ok. }
  apply H. repeat split; constructor.
Qed.

(** Whatever has happened to a watcher since it was constructed
    (initializations, teardowns, events, timer turns, snoozes, manual
    triggers, pushed view results, in any order and at any times), the
    host holds at most one debounce timer: none when the watcher has no
    handle recorded, and otherwise exactly one, a one-shot timer, under the
    recorded handle.  Handles are never reused. *)
Theorem one_debounce_timer_at_most (history : list (Z * Action)) :
  let w := run env history in
  match evaluationDebounceTimer (self w) with
  | Some id =>
      exists t, List.filter isDebounce (timers w) = [t]
                /\ timerId t = id /\ repeatEvery t = None
  | None => List.filter isDebounce (timers w) = []
  end
  /\ List.NoDup (map timerId (timers w))
  /\ Forall (fun t => (timerId t < nextHandle w)%positive) (timers w).
Proof.
  cbv zeta. destruct (run_ok history) as (HF & HU & HR).
  split; [exact HR|]. split; [exact HU|exact HF].
Qed.

End Reachable.

End TimerExtras.

(** ** The fallback evaluation of a query's source filter *)

Module SourceFilter.
Import JsString Host.

Definition doubleQuote : ascii := ascii_of_nat 34.
Definition singleQuote : ascii := ascii_of_nat 39.

(** The class of the pattern that holds the double and the single quote,
    and its complement. *)
Definition isQuote (c : ascii) : bool :=
  Ascii.eqb c doubleQuote || Ascii.eqb c singleQuote.

Definition notQuote (c : ascii) : bool := negb (isQuote c).

(** The rest of [s] after the literal [lit], if [s] begins with it. *)
Fixpoint dropPrefix (lit s : string) : option string :=
  match lit with
  | EmptyString => Some s
  | String a lit' =>
      match s with
      | EmptyString => None
      | String b s' => if Ascii.eqb a b then dropPrefix lit' s' else None
      end
  end.

(** One character of the class [p]. *)
Definition expect (p : ascii -> bool) (s : string) : option string :=
  match s with
  | EmptyString => None
  | String c r => if p c then Some r else None
  end.

(** [\s*]: as many white-space characters as there are. *)
Definition skipSpaces (s : string) : string := snd (span isWhiteSpace s).

(** A match, starting at the beginning of [s], of the pattern
    [file\.inFolder \s* \( \s* Q (N+) Q \s* \)] (written here with blanks
    between its parts), where [Q] is the class of the two quote characters
    and [N] its complement; the result is the captured group.  Every
    repetition of the pattern is followed by a character outside its class,
    so the longest repetition is the only one that can lead to a match. *)
Definition matchAt (s : string) : option string :=
  match dropPrefix "file.inFolder" s with
  | None => None
  | Some r1 =>
      match expect (Ascii.eqb "(") (skipSpaces r1) with
      | None => None
      | Some r2 =>
          match expect isQuote (skipSpaces r2) with
          | None => None
          | Some r3 =>
              let '(folder, r4) := span notQuote r3 in
              if String.eqb folder "" then None
              else match expect isQuote r4 with
                   | None => None
                   | Some r5 =>
                       match expect (Ascii.eqb ")") (skipSpaces r5) with
                       | None => None
                       | Some _ => Some folder
                       end
                   end
          end
      end
  end.

(** [source.match(...)]: the leftmost match, [folderMatch[1]]. *)
Fixpoint folderMatch (s : string) : option string :=
  match matchAt s with
  | Some folder => Some folder
  | None => match s with
            | EmptyString => None
            | String _ r => folderMatch r
            end
  end.

(** [s.startsWith(prefix)] *)
Definition startsWith (s prefix : string) : bool :=
  match dropPrefix prefix s with Some _ => true | None => false end.

(** A markdown file as the filter reads it: path, basename, the path of
    its parent folder (if it has a parent) and its cached frontmatter. *)
Record MarkdownFile := {
  mdPath : string;
  mdBasename : string;
  mdParent : option string;
  mdFrontmatter : option Frontmatter
}.

(** An item as the filter builds it; title and status are whatever the
    frontmatter holds. *)
Record FilterItem := {
  fiPath : string;
  fiTitle : value;
  fiIsTask : bool;
  fiStatus : option value
}.

(** [a || b || c] *)
Definition firstTruthy (a b : option value) (c : value) : value :=
  if valueTruthy a then default c a
  else if valueTruthy b then default c b else c.

Definition inFolder (folder : string) (file : MarkdownFile) : bool :=
  startsWith (mdPath file) (folder ++ "/")
  || match mdParent file with
     | Some parent => String.eqb parent folder
     | None => false
     end.

Section Filter.
Variable titleField : string.
Variable isTaskFile : option Frontmatter -> bool.
Variable markdownFiles : list MarkdownFile.

Definition itemOf (file : MarkdownFile) : FilterItem :=
  let frontmatter := mdFrontmatter file in
  let isTask := isTaskFile frontmatter in
  {| fiPath := mdPath file;
     fiTitle := firstTruthy (frontmatter ≫= (fun fm => fm !! "title"))
                            (frontmatter ≫= (fun fm => fm !! titleField))
                            (VStr (mdBasename file));
     fiIsTask := isTask;
     fiStatus := if isTask then frontmatter ≫= (fun fm => fm !! "status") else None |}.

(** [evaluateSourceFilter] *)
Definition evaluateSourceFilter (source : option string) : list FilterItem :=
  if negb (truthy (default "" source)) then []
  else match folderMatch (default "" source) with
       | Some folder => map itemOf (List.filter (inFolder folder) markdownFiles)
       | None => []
       end.

End Filter.

End SourceFilter.

Module SourceFilterExtras.
Import JsString Host SourceFilter ReferenceProofs.

Lemma dropPrefix_append lit s : dropPrefix lit (lit ++ s) = Some s.
Proof.
  induction lit as [|a r IH]; [reflexivity|].
  rewrite append_cons. cbn [dropPrefix]. now rewrite Ascii.eqb_refl.
Qed.

Lemma dropPrefix_spec lit s r : dropPrefix lit s = Some r -> s = lit ++ r.
Proof.
  revert s. induction lit as [|a l IH]; intros s; cbn [dropPrefix].
  - now intros [= ->].
  - destruct s as [|b s']; [discriminate|].
    destruct (Ascii.eqb_spec a b) as [<-|]; [|discriminate].
    intros H. rewrite append_cons. f_equal. now apply IH.
Qed.

Lemma span_all p s a b : span p s = (a, b) -> allChars p a = true /\ stopsAt p b.
Proof.
  revert a b. induction s as [|c r IH]; cbn [span]; intros a b H.
  - now injection H as <- <-.
  - destruct (p c) eqn:Hc.
    + destruct (span p r) as [a' b'] eqn:E. injection H as <- <-.
      destruct (IH a' b' eq_refl) as [Ha Hb]. cbn [allChars]. now rewrite Hc, Ha.
    + injection H as <- <-. now split.
Qed.

Lemma skipSpaces_append ws rest :
  allChars isWhiteSpace ws = true -> stopsAt isWhiteSpace rest ->
  skipSpaces (ws ++ rest) = rest.
Proof. intros Hws Hrest. unfold skipSpaces. now rewrite span_append. Qed.

Lemma skipSpaces_spec s :
  exists ws, s = ws ++ skipSpaces s /\ allChars isWhiteSpace ws = true.
Proof.
  unfold skipSpaces. destruct (span isWhiteSpace s) as [ws rest] eqn:E.
  exists ws. cbn [snd]. split; [exact (span_spec _ _ _ _ E)|].
  exact (proj1 (span_all _ _ _ _ E)).
Qed.

Lemma expect_spec p s r : expect p s = Some r -> exists c, s = String c r /\ p c = true.
Proof.
  destruct s as [|c s']; [discriminate|]. cbn [expect].
  destruct (p c) eqn:Hc; [|discriminate]. intros [= ->]. now exists c.
Qed.

(** The shape of a text that matches the pattern at its beginning. *)
Definition Call (folder text : string) : Prop :=
  exists ws1 ws2 ws3 q1 q2 after,
    text = "file.inFolder" ++ ws1 ++ "(" ++ ws2 ++ String q1 (folder ++ String q2 (ws3 ++ ")" ++ after))
    /\ allChars isWhiteSpace ws1 = true /\ allChars isWhiteSpace ws2 = true
    /\ allChars isWhiteSpace ws3 = true
    /\ isQuote q1 = true /\ isQuote q2 = true
    /\ folder <> "" /\ allChars notQuote folder = true.

Lemma matchAt_complete folder text : Call folder text -> matchAt text = Some folder.
Proof.
  intros (ws1 & ws2 & ws3 & q1 & q2 & after & -> & H1 & H2 & H3 & Hq1 & Hq2 & Hne & Hf).
  unfold matchAt. rewrite dropPrefix_append.
  rewrite skipSpaces_append by (try exact H1; reflexivity).
  rewrite append_cons, append_nil. cbn [expect]. rewrite Ascii.eqb_refl.
  rewrite skipSpaces_append.
  2: exact H2.
  2:{ cbn [stopsAt]. unfold isQuote in Hq1. apply orb_true_iff in Hq1.
      destruct Hq1 as [Hq|Hq]; apply Ascii.eqb_eq in Hq; subst q1; reflexivity. }
  cbn [expect]. rewrite Hq1.
  rewrite (span_append notQuote folder (String q2 (ws3 ++ ")" ++ after)) Hf)
    by (cbn [stopsAt]; unfold notQuote; now rewrite Hq2).
  destruct (String.eqb_spec folder "") as [->|_]; [contradiction|].
  cbn [expect]. rewrite Hq2.
  rewrite skipSpaces_append by (try exact H3; reflexivity).
  rewrite append_cons, append_nil. cbn [expect]. now rewrite Ascii.eqb_refl.
Qed.

Lemma matchAt_sound folder text : matchAt text = Some folder -> Call folder text.
Proof.
  unfold matchAt.
  destruct (dropPrefix "file.inFolder" text) as [r1|] eqn:E1; [|discriminate].
  apply dropPrefix_spec in E1.
  destruct (skipSpaces_spec r1) as (ws1 & Hr1 & Hws1).
  destruct (expect (Ascii.eqb "(") (skipSpaces r1)) as [r2|] eqn:E2; [|discriminate].
  apply expect_spec in E2 as (c2 & Hc2 & Hp2). apply Ascii.eqb_eq in Hp2. subst c2.
  destruct (skipSpaces_spec r2) as (ws2 & Hr2 & Hws2).
  destruct (expect isQuote (skipSpaces r2)) as [r3|] eqn:E3; [|discriminate].
  apply expect_spec in E3 as (q1 & Hc3 & Hq1).
  destruct (span notQuote r3) as [f r4] eqn:E4.
  destruct (String.eqb_spec f "") as [|Hne]; [discriminate|].
  destruct (expect isQuote r4) as [r5|] eqn:E5; [|discriminate].
  apply expect_spec in E5 as (q2 & Hc5 & Hq2).
  destruct (skipSpaces_spec r5) as (ws3 & Hr5 & Hws3).
  destruct (expect (Ascii.eqb ")") (skipSpaces r5)) as [after|] eqn:E6; [|discriminate].
  apply expect_spec in E6 as (c6 & Hc6 & Hp6). apply Ascii.eqb_eq in Hp6. subst c6.
  intros [= ->].
  pose proof (span_spec _ _ _ _ E4) as Hr3. apply span_all in E4 as [Hf _].
  exists ws1, ws2, ws3, q1, q2, after. repeat split; try assumption.
  rewrite E1, Hr1, Hc2, Hr2, Hc3, Hr3, Hc5, Hr5, Hc6.
  now rewrite !append_cons, !append_nil.
Qed.

Definition noLetterF (s : string) : bool :=
  allChars (fun c => negb (Ascii.eqb c "f")) s.

Lemma folderMatch_complete folder before call :
  noLetterF before = true -> Call folder call ->
  folderMatch (before ++ call) = Some folder.
Proof.
  unfold noLetterF. intros Hbefore Hcall. induction before as [|c r IH].
  - rewrite append_nil. pose proof (matchAt_complete _ _ Hcall) as Hm.
    destruct call; cbn [folderMatch]; now rewrite Hm.
  - cbn [allChars] in Hbefore. apply andb_true_iff in Hbefore as [Hc Hr].
    rewrite append_cons. cbn [folderMatch].
    assert (Hno : matchAt (String c (r ++ call)) = None).
    { unfold matchAt. cbn [dropPrefix]. apply negb_true_iff in Hc.
      rewrite Ascii.eqb_sym in Hc. now rewrite Hc. }
    rewrite Hno. now apply IH.
Qed.

Lemma folderMatch_sound folder text :
  folderMatch text = Some folder ->
  exists before call, text = before ++ call /\ Call folder call.
Proof.
  induction text as [|c r IH]; cbn [folderMatch].
  - destruct (matchAt "") eqn:E; [|discriminate]. intros [= ->].
    exists "", "". split; [reflexivity|now apply matchAt_sound].
  - destruct (matchAt (String c r)) as [f|] eqn:E.
    + intros [= ->]. exists "", (String c r). split; [reflexivity|].
      now apply matchAt_sound.
    + intros H. destruct (IH H) as (before & call & -> & Hcall).
      exists (String c before), call. split; [reflexivity|exact Hcall].
Qed.

(** The folder named by a source filter.  The pattern is found, and its
    folder returned, in every text that holds a call of [file.inFolder] on
    a quoted folder name after a stretch without the letter [f]: the two
    quotes may be of either kind and need not be the same, and white space
    may surround the parenthesis and the quoted name.  Conversely a folder
    is returned only if the text holds such a call, so the folder is never
    empty and holds no quote, and a filter written in any other way yields
    no folder. *)
Theorem inFolder_pattern_spec (folder : string) :
  (forall before call,
      noLetterF before = true -> Call folder call ->
      folderMatch (before ++ call) = Some folder)
  /\ (forall text,
         folderMatch text = Some folder ->
         exists before call, text = before ++ call /\ Call folder call).
Proof.
  split; [apply folderMatch_complete|apply folderMatch_sound].
Qed.

(** A call with a single quote before the name, a double quote after it
    and blanks around the parenthesis. *)
Definition mixedCall : string :=
  "file.inFolder ( " ++ String singleQuote ("Library" ++ String doubleQuote " )").

Lemma mixedCall_ok : Call "Library" mixedCall.
Proof.
  exists " ", " ", " ", singleQuote, doubleQuote, "".
  repeat split; try reflexivity. discriminate.
Defined.

Lemma inFolder_pattern_spec_witness :
  folderMatch ("(" ++ mixedCall) = Some "Library".
Proof.
  exact (proj1 (inFolder_pattern_spec "Library") "(" mixedCall eq_refl mixedCall_ok).
Defined.

Lemma startsWith_spec s prefix :
  startsWith s prefix = true <-> exists rest, s = prefix ++ rest.
Proof.
  unfold startsWith. split.
  - destruct (dropPrefix prefix s) as [r|] eqn:E; [|discriminate].
    intros _. exists r. now apply dropPrefix_spec.
  - intros [rest ->]. now rewrite dropPrefix_append.
Qed.

Section Listing.
Variable titleField : string.
Variable isTaskFile : option Frontmatter -> bool.
Variable markdownFiles : list MarkdownFile.

(** The fallback evaluation lists, in vault order, exactly the markdown
    files whose path begins with the folder of the filter followed by a
    slash (so files of sub-folders at any depth are listed) or whose parent
    folder has exactly that path; every item carries the path of its file.
    A filter that holds no call of [file.inFolder] on a quoted name, and an
    absent or empty filter, list nothing. *)
Theorem fallback_lists_folder_files (source : option string) (p : string) :
  let listed := evaluateSourceFilter titleField isTaskFile markdownFiles source in
  map fiPath listed
  = match folderMatch (default "" source) with
    | Some folder => map mdPath (List.filter (inFolder folder) markdownFiles)
    | None => []
    end
  /\ (forall folder,
         folderMatch (default "" source) = Some folder ->
         (In p (map fiPath listed)
          <-> exists file, In file markdownFiles /\ mdPath file = p
                           /\ ((exists rest, p = folder ++ "/" ++ rest)
                               \/ mdParent file = Some folder)))
  /\ ((forall before call folder, default "" source = before ++ call -> ~ Call folder call) ->
      listed = []).
Proof.
  cbv zeta.
  assert (Hpaths : map fiPath (evaluateSourceFilter titleField isTaskFile markdownFiles source)
                   = match folderMatch (default "" source) with
                     | Some folder => map mdPath (List.filter (inFolder folder) markdownFiles)
                     | None => []
                     end).
  { unfold evaluateSourceFilter.
    destruct (truthy (default "" source)) eqn:Ht; cbn [negb].
    - destruct (folderMatch (default "" source)); [|reflexivity].
      rewrite map_map. reflexivity.
    - unfold truthy in Ht. apply negb_false_iff, String.eqb_eq in Ht. now rewrite Ht. }
  split; [exact Hpaths|]. split.
  - intros folder Hfolder. rewrite Hpaths, Hfolder. rewrite in_map_iff. split.
    + intros (file & Hp & Hin). apply filter_In in Hin as [Hin Hf].
      exists file. split; [exact Hin|]. split; [exact Hp|].
      unfold inFolder in Hf. apply orb_true_iff in Hf as [Hf|Hf].
      * left. apply startsWith_spec in Hf as [rest Hrest]. exists rest.
        rewrite <- Hp, Hrest. now rewrite ReferenceExtras.append_assoc.
      * right. destruct (mdParent file) as [parent|]; [|discriminate].
        apply String.eqb_eq in Hf. now subst.
    + intros (file & Hin & Hp & Hwhere). exists file. split; [exact Hp|].
      apply filter_In. split; [exact Hin|]. unfold inFolder. apply orb_true_iff.
      destruct Hwhere as [[rest Hrest]|Hparent].
      * left. apply startsWith_spec. exists rest. rewrite Hp, Hrest.
        now rewrite ReferenceExtras.append_assoc.
      * right. rewrite Hparent. apply String.eqb_refl.
  - intros Hnone. unfold evaluateSourceFilter.
    destruct (negb (truthy (default "" source))); [reflexivity|].
    destruct (folderMatch (default "" source)) as [folder|] eqn:E; [|reflexivity].
    apply folderMatch_sound in E as (before & call & Htext & Hcall).
    now destruct (Hnone before call folder Htext).
Qed.

End Listing.

End SourceFilterExtras.

(** ** The conversion engine on plain objects *)

Module ConvertExecutionProofs.
Import JsString Host PlainObject BulkConvertEngine ConversionExtras.

(** *** What one conversion does to one key *)

Lemma inherited_proto key :
  inherited key = false -> String.eqb key "__proto__" = false.
Proof.
  intros H. destruct (String.eqb_spec key "__proto__") as [->|Hne]; [|reflexivity].
  vm_compute in H. discriminate H.
Qed.

Definition assignedAt (key : string) (v : value) (o : option value) : option value :=
  if String.eqb key "__proto__" && isUndefined o then o else Some v.

Definition whenUndefinedAt (key : string) (v : value) (o : option value)
  : option value :=
  if isUndefined o && negb (inherited key) then Some v else o.

Definition parsedValue (propValue : string) : value :=
  if String.eqb propValue "true" then VBool true
  else if String.eqb propValue "false" then VBool false
  else VStr propValue.

Definition propertyValueAt (propName propValue : string) (o : option value)
  : option value :=
  if truthy propName && (isUndefined o && negb (inherited propName))
  then Some (parsedValue propValue) else o.

Definition linkValueAt (key : string) (link : option string) (o : option value)
  : option value :=
  match link with
  | Some l => match o with
              | None => if inherited key then None else Some (VList [VStr l])
              | _ => appendMissing l o
              end
  | None => o
  end.

Lemma readsUndefined_spec (fm : Frontmatter) key :
  readsUndefined fm key = isUndefined (fm !! key) && negb (inherited key).
Proof. unfold readsUndefined. now destruct (fm !! key). Qed.

Lemma assign_lookup key v (fm : Frontmatter) j :
  assign key v fm !! j = atKey j key (assignedAt key v) (fm !! j).
Proof.
  unfold assign, atKey, assignedAt. destruct (decide (j = key)) as [->|Hne].
  - destruct (String.eqb key "__proto__" && isUndefined (fm !! key));
      [reflexivity|apply lookup_insert_eq].
  - destruct (String.eqb key "__proto__" && isUndefined (fm !! key));
      [reflexivity|now rewrite lookup_insert_ne].
Qed.

(** A write guarded by [=== undefined] always creates the property. *)
Lemma assign_guarded key v (fm : Frontmatter) :
  readsUndefined fm key = true -> assign key v fm = <[ key := v ]> fm.
Proof.
  rewrite readsUndefined_spec. intros H. apply andb_true_iff in H as [_ H].
  apply negb_true_iff, inherited_proto in H. unfold assign. now rewrite H.
Qed.

(** So does a write to a property the object has. *)
Lemma assign_own key v (fm : Frontmatter) :
  fm !! key <> None -> assign key v fm = <[ key := v ]> fm.
Proof.
  intros H. unfold assign. destruct (fm !! key); [|contradiction].
  cbn [isUndefined]. now rewrite andb_false_r.
Qed.

Section Pointwise.
Variable settings : Settings.
Variable fieldMapper : FieldMapper.
Variable host : ConvertExecution.Runtime.

Lemma setIfUndefined_at key v (fm : Frontmatter) j :
  ConvertExecution.setIfUndefined key v fm !! j
  = atKey j key (whenUndefinedAt key v) (fm !! j).
Proof.
  unfold ConvertExecution.setIfUndefined.
  destruct (readsUndefined fm key) eqn:E.
  - rewrite (assign_guarded key v fm E). rewrite readsUndefined_spec in E.
    unfold atKey, whenUndefinedAt. destruct (decide (j = key)) as [->|Hne].
    + rewrite E. apply lookup_insert_eq.
    + now rewrite lookup_insert_ne.
  - rewrite readsUndefined_spec in E. unfold atKey, whenUndefinedAt.
    destruct (decide (j = key)) as [->|Hne]; [now rewrite E|reflexivity].
Qed.

Lemma identifyByProperty_at (fm : Frontmatter) j :
  ConvertExecution.identifyByProperty settings fm !! j
  = atKey j (taskPropertyName settings)
          (propertyValueAt (taskPropertyName settings) (taskPropertyValue settings))
          (fm !! j).
Proof.
  unfold ConvertExecution.identifyByProperty. cbv zeta.
  set (name := taskPropertyName settings).
  assert (Hw : forall v, (if truthy name && readsUndefined fm name
                          then assign name v fm else fm) !! j
                         = atKey j name
                                 (fun o => if truthy name
                                              && (isUndefined o && negb (inherited name))
                                           then Some v else o) (fm !! j)).
  { intros v. destruct (truthy name); cbn [andb].
    - exact (setIfUndefined_at name v fm j).
    - unfold atKey. now destruct (decide (j = name)). }
  unfold propertyValueAt, parsedValue.
  destruct (String.eqb (taskPropertyValue settings) "true");
    [|destruct (String.eqb (taskPropertyValue settings) "false")];
    rewrite <- Hw; now destruct (truthy name && readsUndefined fm name).
Qed.

Definition identifyValueAt : option value -> option value :=
  match taskIdentificationMethod settings with
  | PropertyMethod =>
      propertyValueAt (taskPropertyName settings) (taskPropertyValue settings)
  | TagMethod => tagValue (orElse (taskTag settings) "task")
  end.

Lemma identify_at (fm : Frontmatter) j :
  ConvertExecution.identify settings fm !! j
  = atKey j (identifyKey settings) identifyValueAt (fm !! j).
Proof.
  unfold ConvertExecution.identify, identifyKey, identifyValueAt.
  destruct (taskIdentificationMethod settings);
    [apply identifyByTag_lookup|apply identifyByProperty_at].
Qed.

(** The link that step 2.5 adds for the note at [filePath], if any. *)
Definition linkAt (vault : Vault) (options : BulkConvertOptions) (filePath : string)
  : option string :=
  linkFor (ConvertExecution.services host) vault options filePath.

Lemma linkToBaseView_at vault options filePath (fm : Frontmatter) j :
  ConvertExecution.linkToBaseView fieldMapper host vault options filePath fm !! j
  = atKey j (projectsField fieldMapper)
          (linkValueAt (projectsField fieldMapper) (linkAt vault options filePath))
          (fm !! j).
Proof.
  unfold ConvertExecution.linkToBaseView, linkAt, linkFor, linkValueAt.
  destruct (linkTarget vault options) as [base|]; cbn [fmap option_fmap option_map];
    [|unfold atKey; now destruct (decide _)].
  set (pf := projectsField fieldMapper).
  set (link := generateMarkdownLink (ConvertExecution.services host) base filePath).
  destruct (readsUndefined fm pf) eqn:E.
  - rewrite (assign_guarded pf _ fm E). rewrite readsUndefined_spec in E.
    apply andb_true_iff in E as [E1 E2]. apply negb_true_iff in E2.
    unfold atKey. destruct (decide (j = pf)) as [->|Hne].
    + rewrite lookup_insert_eq. destruct (fm !! pf); [discriminate E1|].
      now rewrite E2.
    + now rewrite lookup_insert_ne.
  - rewrite readsUndefined_spec in E. unfold atKey, appendMissing.
    destruct (fm !! pf) as [[| | | |ps]|] eqn:Hpf;
      try (destruct (decide (j = pf)) as [->|Hne]; [now rewrite Hpf|reflexivity]).
    + destruct (negb (includesStr ps link)) eqn:Hinc.
      * rewrite assign_own by congruence.
        destruct (decide (j = pf)) as [->|Hne].
        -- rewrite lookup_insert_eq, Hpf. now rewrite Hinc.
        -- now rewrite lookup_insert_ne.
      * destruct (decide (j = pf)) as [->|Hne]; [|reflexivity].
        rewrite Hpf. now rewrite Hinc.
    + cbn [isUndefined andb] in E. apply negb_false_iff in E.
      destruct (decide (j = pf)) as [->|Hne]; [|reflexivity].
      rewrite Hpf. now rewrite E.
Qed.

Definition defaultsOn (j : string) (created : string) (o : option value)
  : option value :=
  atKey j (dateCreatedField fieldMapper)
        (whenUndefinedAt (dateCreatedField fieldMapper) (VStr created))
    (atKey j (priorityField fieldMapper)
       (whenUndefinedAt (priorityField fieldMapper)
          (VStr (orElse (defaultTaskPriority settings) "normal")))
       (atKey j (statusField fieldMapper)
          (whenUndefinedAt (statusField fieldMapper)
             (VStr (orElse (defaultTaskStatus settings) "open"))) o)).

(** The steps before the modification stamp, as they act on the value
    under the key [j]. *)
Definition beforeStampOn (vault : Vault) (options : BulkConvertOptions)
           (filePath j : string) (o : option value) : option value :=
  atKey j (projectsField fieldMapper)
        (linkValueAt (projectsField fieldMapper) (linkAt vault options filePath))
    ((if applyDefaults options
      then defaultsOn j (timestampCreated (ConvertExecution.services host) filePath)
      else id)
       (atKey j (identifyKey settings) identifyValueAt o)).

Lemma convertFrontmatter_at vault options filePath (fm : Frontmatter) j :
  ConvertExecution.convertFrontmatter settings fieldMapper host vault options filePath fm
    !! j
  = atKey j (dateModifiedField fieldMapper)
          (assignedAt (dateModifiedField fieldMapper)
             (VStr (timestampModified (ConvertExecution.services host) filePath)))
          (beforeStampOn vault options filePath j (fm !! j)).
Proof.
  unfold ConvertExecution.convertFrontmatter, beforeStampOn. cbv zeta.
  rewrite assign_lookup, linkToBaseView_at. do 2 f_equal.
  destruct (applyDefaults options).
  - unfold ConvertExecution.applyDefaultFields, defaultsOn. cbv zeta.
    now rewrite !setIfUndefined_at, identify_at.
  - apply identify_at.
Qed.

End Pointwise.

(** *** Fields that are present before a conversion *)

(** A step that never turns a defined value into an undefined one. *)
Definition Keeps (H : option value -> option value) : Prop :=
  forall o, o <> None -> H o <> None.

Lemma atKey_Keeps j k H : Keeps H -> Keeps (atKey j k H).
Proof.
  intros HK o Ho. unfold atKey. destruct (decide (j = k)); [now apply HK|exact Ho].
Qed.

Lemma whenUndefinedAt_defined key v o :
  o <> None -> whenUndefinedAt key v o = o.
Proof. intros H. unfold whenUndefinedAt. now destruct o. Qed.

Lemma propertyValueAt_defined name value o :
  o <> None -> propertyValueAt name value o = o.
Proof.
  intros H. unfold propertyValueAt. destruct o; [|contradiction].
  cbn [isUndefined andb]. now rewrite andb_false_r.
Qed.

Lemma appendMissing_Keeps s : Keeps (appendMissing s).
Proof.
  intros o Ho. unfold appendMissing.
  destruct o as [[| | | |l]|]; try exact Ho. now destruct (negb _).
Qed.

Lemma linkValueAt_Keeps key link : Keeps (linkValueAt key link).
Proof.
  intros o Ho. unfold linkValueAt. destruct link as [l|]; [|exact Ho].
  destruct o; [|contradiction]. now apply appendMissing_Keeps.
Qed.

Lemma tagValue_defined tag o : tagValue tag o <> None.
Proof.
  unfold tagValue, appendMissing.
  destruct o as [[| | | |l]|]; cbn [isArray negb includesStr existsb app];
    try discriminate.
  now destruct (negb _).
Qed.

(** The string [s] appended to a list that lacks it; any other value is
    left as it is. *)
Definition appended (s : string) (v : value) : value :=
  match v with
  | VList l => if includesStr l s then v else VList (l ++ [VStr s])
  | _ => v
  end.

Lemma appendMissing_Some s v : appendMissing s (Some v) = Some (appended s v).
Proof.
  unfold appendMissing, appended. destruct v as [| | | |l]; try reflexivity.
  now destruct (includesStr l s).
Qed.

(** A list value that contains [s]. *)
Definition Lists (s : string) (o : option value) : Prop :=
  exists l, o = Some (VList l) /\ includesStr l s = true.

Lemma tagValue_Lists tag o : Lists tag (tagValue tag o).
Proof.
  unfold tagValue, appendMissing, Lists.
  destruct o as [[| | | |l]|]; cbn [isArray negb includesStr existsb app];
    try (eexists; split; [reflexivity|apply (includesStr_last [] tag)]).
  destruct (includesStr l tag) eqn:E; cbn [negb].
  - now exists l.
  - eexists. split; [reflexivity|apply includesStr_last].
Qed.

Lemma appendMissing_Lists s t o : Lists s o -> Lists s (appendMissing t o).
Proof.
  intros (l & -> & Hl). unfold appendMissing, Lists.
  destruct (negb (includesStr l t)); [|now exists l].
  eexists. split; [reflexivity|]. now rewrite includesStr_app, Hl.
Qed.

Section NonClobber.
Variable settings : Settings.
Variable fieldMapper : FieldMapper.
Variable host : ConvertExecution.Runtime.

Lemma identifyValueAt_Keeps : Keeps (identifyValueAt settings).
Proof.
  unfold identifyValueAt. destruct (taskIdentificationMethod settings); intros o Ho.
  - apply tagValue_defined.
  - now rewrite propertyValueAt_defined.
Qed.

Lemma defaultsOn_defined j created o :
  o <> None -> defaultsOn settings fieldMapper j created o = o.
Proof.
  intros Ho. unfold defaultsOn.
  assert (H : forall k v, atKey j k (whenUndefinedAt k v) o = o).
  { intros k v. unfold atKey. destruct (decide (j = k)); [|reflexivity].
    now apply whenUndefinedAt_defined. }
  now rewrite !H.
Qed.

Lemma beforeStampOn_Keeps vault options filePath j :
  Keeps (beforeStampOn settings fieldMapper host vault options filePath j).
Proof.
  intros o Ho. unfold beforeStampOn.
  apply atKey_Keeps; [apply linkValueAt_Keeps|].
  assert (H1 : atKey j (identifyKey settings) (identifyValueAt settings) o <> None)
    by (apply atKey_Keeps; [apply identifyValueAt_Keeps|exact Ho]).
  destruct (applyDefaults options); [|exact H1].
  now rewrite defaultsOn_defined.
Qed.

(** A name the object inherits and does not own is never written by the
    steps before the stamp. *)
Lemma beforeStampOn_shadowed vault options filePath j :
  inherited j = true ->
  beforeStampOn settings fieldMapper host vault options filePath j None = None.
Proof.
  intros Hj. unfold beforeStampOn.
  assert (H1 : atKey j (identifyKey settings) (identifyValueAt settings) None = None).
  { unfold atKey, identifyKey, identifyValueAt.
    destruct (taskIdentificationMethod settings).
    - destruct (decide (j = "tags")) as [->|]; [|reflexivity].
      vm_compute in Hj. discriminate Hj.
    - destruct (decide (j = taskPropertyName settings)) as [->|]; [|reflexivity].
      unfold propertyValueAt. rewrite Hj. cbn [isUndefined negb andb].
      now rewrite andb_false_r. }
  assert (H2 : (if applyDefaults options
                then defaultsOn settings fieldMapper j
                       (timestampCreated (ConvertExecution.services host) filePath)
                else id)
                 (atKey j (identifyKey settings) (identifyValueAt settings) None) = None).
  { rewrite H1. destruct (applyDefaults options); [|reflexivity].
    unfold defaultsOn, atKey.
    repeat match goal with
           | |- context [decide (j = ?k)] => destruct (decide (j = k)) as [<-|]
           end; unfold whenUndefinedAt; rewrite ?Hj; reflexivity. }
  rewrite H2. unfold atKey.
  destruct (decide (j = projectsField fieldMapper)) as [<-|]; [|reflexivity].
  unfold linkValueAt. destruct (linkAt host vault options filePath); [|reflexivity].
  now rewrite Hj.
Qed.

(** The case that the statement on present fields leaves out: under the
    tag method, a [tags] field that is present and not a list. *)
Definition nonListTags (k : string) (v : value) : bool :=
  match taskIdentificationMethod settings with
  | TagMethod => String.eqb k "tags" && negb (isArray (Some v))
  | PropertyMethod => false
  end.

(** The two appends: the task tag to the [tags] list under the tag
    method, and the link to the list of the link field when a link to an
    existing base file is requested. *)
Definition withMarker (k : string) (v : value) : value :=
  match taskIdentificationMethod settings with
  | TagMethod =>
      if String.eqb k "tags" then appended (orElse (taskTag settings) "task") v else v
  | PropertyMethod => v
  end.

Definition withLink (vault : Vault) (options : BulkConvertOptions)
           (filePath k : string) (v : value) : value :=
  match linkAt host vault options filePath with
  | Some link =>
      if String.eqb k (projectsField fieldMapper) then appended link v else v
  | None => v
  end.

Lemma beforeStampOn_present vault options filePath k v :
  nonListTags k v = false ->
  beforeStampOn settings fieldMapper host vault options filePath k (Some v)
  = Some (withLink vault options filePath k (withMarker k v)).
Proof.
  intros Hout. unfold beforeStampOn.
  assert (H1 : atKey k (identifyKey settings) (identifyValueAt settings) (Some v)
               = Some (withMarker k v)).
  { unfold atKey, identifyKey, identifyValueAt, withMarker, nonListTags in *.
    destruct (taskIdentificationMethod settings).
    - destruct (decide (k = "tags")) as [->|Hne].
      + cbn [String.eqb Ascii.eqb Bool.eqb andb] in *.
        destruct v as [| | | |l]; try discriminate Hout.
        unfold tagValue. cbn [isArray negb]. apply appendMissing_Some.
      + apply String.eqb_neq in Hne. now rewrite Hne.
    - destruct (decide (k = taskPropertyName settings)); [|reflexivity].
      now rewrite propertyValueAt_defined. }
  rewrite H1.
  assert (H2 : (if applyDefaults options
                then defaultsOn settings fieldMapper k
                       (timestampCreated (ConvertExecution.services host) filePath)
                else id) (Some (withMarker k v)) = Some (withMarker k v)).
  { destruct (applyDefaults options); [|reflexivity]. now rewrite defaultsOn_defined. }
  rewrite H2. unfold atKey, withLink, linkValueAt.
  destruct (decide (k = projectsField fieldMapper)) as [->|Hne].
  - rewrite String.eqb_refl.
    destruct (linkAt host vault options filePath); [apply appendMissing_Some|reflexivity].
  - apply String.eqb_neq in Hne. rewrite Hne.
    now destruct (linkAt host vault options filePath).
Qed.

Lemma stamp_written vault options filePath (fm : Frontmatter) :
  dateModifiedField fieldMapper <> "__proto__" \/ fm !! "__proto__" <> None ->
  ConvertExecution.convertFrontmatter settings fieldMapper host vault options filePath fm
    !! dateModifiedField fieldMapper
  = Some (VStr (timestampModified (ConvertExecution.services host) filePath)).
Proof.
  intros Hcan. rewrite convertFrontmatter_at.
  unfold atKey. destruct (decide _) as [_|Hne]; [|contradiction].
  unfold assignedAt.
  destruct (String.eqb_spec (dateModifiedField fieldMapper) "__proto__") as [E|Hne];
    [|reflexivity].
  destruct Hcan as [Hcan|Hown]; [contradiction|].
  rewrite E.
  pose proof (beforeStampOn_Keeps vault options filePath "__proto__" _ Hown) as Hk.
  destruct (beforeStampOn _ _ _ _ _ _ _ _); [reflexivity|contradiction].
Qed.

(** *** Claim C1 *)

(** C1 (amended): when [convertSingleNote] rewrites a note, whether or
    not the wait for the cache that follows succeeds, the
    modification-timestamp field is overwritten, and a field that is
    present before keeps its value, with two exceptions that append one
    element to a list and change nothing else: under the tag strategy the
    task tag is appended to a list-valued [tags] field that lacks it, and
    when a link to an existing base file is requested the link is
    appended to a list-valued link field that lacks it.  The statement
    leaves out a [tags] field that is present but is not a list under the
    tag strategy.  (The stamp is written by a plain assignment, which has
    no effect for the field name [__proto__] on a note without such a
    field.) *)
Theorem conversion_keeps_present_fields
        (vault : Vault) (options : BulkConvertOptions) (filePath : string)
        (fm : Frontmatter) (k : string) (v : value) :
  processFrontMatterFails (ConvertExecution.services host) filePath = None ->
  frontmatterOf vault filePath = Some fm ->
  fm !! k = Some v ->
  k <> dateModifiedField fieldMapper ->
  nonListTags k v = false ->
  let after :=
    ConvertExecution.convertSingleNote settings fieldMapper host vault options filePath in
  exists fm',
    frontmatterOf (fst after) filePath = Some fm'
    /\ snd after = ConvertExecution.awaitFreshTaskData host filePath
    /\ (dateModifiedField fieldMapper <> "__proto__" \/ fm !! "__proto__" <> None ->
        fm' !! dateModifiedField fieldMapper
        = Some (VStr (timestampModified (ConvertExecution.services host) filePath)))
    /\ fm' !! k = Some (withLink vault options filePath k (withMarker k v))
    /\ (withLink vault options filePath k (withMarker k v) = v
        \/ exists l s, v = VList l /\ includesStr l s = false
                       /\ (withLink vault options filePath k (withMarker k v)
                           = VList (l ++ [VStr s])
                           \/ exists t, includesStr (l ++ [VStr s]) t = false
                                        /\ withLink vault options filePath k (withMarker k v)
                                           = VList ((l ++ [VStr s]) ++ [VStr t])))
    /\ (withMarker k v = v
        \/ taskIdentificationMethod settings = TagMethod /\ k = "tags")
    /\ (withLink vault options filePath k (withMarker k v) = withMarker k v
        \/ k = projectsField fieldMapper
           /\ linkAt host vault options filePath <> None).
Proof.
  intros Hok Hfm Hk Hne Hout after. subst after.
  unfold ConvertExecution.convertSingleNote. rewrite Hok, Hfm. cbn [default fst snd].
  eexists. split; [unfold frontmatterOf; now rewrite lookup_insert_eq|].
  split; [reflexivity|]. split; [apply stamp_written|]. unfold id. split.
  - rewrite convertFrontmatter_at, atKey_ne by exact Hne. rewrite Hk.
    now apply beforeStampOn_present.
  - split; [|split].
    + unfold withLink, withMarker, appended.
      destruct (taskIdentificationMethod settings);
        destruct (linkAt host vault options filePath) as [link|];
        destruct (String.eqb k "tags"), (String.eqb k (projectsField fieldMapper));
        destruct v as [| | | |l]; try (now left);
        repeat match goal with
               | |- context [includesStr ?a ?b] =>
                   lazymatch goal with
                   | H : includesStr a b = _ |- _ => fail
                   | _ => destruct (includesStr a b) eqn:?
                   end
               end; try (now left);
        right; eauto 10.
    + unfold withMarker. destruct (taskIdentificationMethod settings); [|now left].
      destruct (String.eqb_spec k "tags"); [now right|now left].
    + unfold withLink. destruct (linkAt host vault options filePath); [|now left].
      destruct (String.eqb_spec k (projectsField fieldMapper)); [|now left].
      right. split; [assumption|discriminate].
Qed.

End NonClobber.

(** A vault with one note, a host whose cache manager has the wait and
    whose calls all succeed. *)
Definition quietRuntime : ConvertExecution.Runtime :=
  {| ConvertExecution.services := ConvertProofs.quietHost;
     ConvertExecution.isTaskFileFails := fun _ => None;
     ConvertExecution.waitForFreshTaskData := Some (fun _ => None) |}.

(** The value of a field of the note at a path. *)
Definition fieldOf (vault : Vault) (filePath key : string) : option value :=
  match frontmatterOf vault filePath with
  | Some fm => fm !! key
  | None => None
  end.

(** C1, as stated, fails: the [tags] field is present before the
    conversion, is not the modification timestamp, and holds another
    value afterwards. *)
Lemma conversion_appends_task_tag :
  let after :=
    fst (ConvertExecution.convertSingleNote
           ConvertProofs.tagSettings ConvertProofs.plainMapper quietRuntime
           ConvertProofs.oneNoteVault ConvertProofs.noExtras
           "Library/Password-Policy.md") in
  "tags" <> dateModifiedField ConvertProofs.plainMapper
  /\ fieldOf ConvertProofs.oneNoteVault "Library/Password-Policy.md" "tags"
     = Some (VList [VStr "document"])
  /\ fieldOf after "Library/Password-Policy.md" "tags"
     = Some (VList [VStr "document"; VStr "task"])
  /\ fieldOf after "Library/Password-Policy.md" "tags"
     <> fieldOf ConvertProofs.oneNoteVault "Library/Password-Policy.md" "tags".
Proof.
  cbv zeta. split; [discriminate|].
  split; [vm_compute; reflexivity|].
  split; [vm_compute; reflexivity|]. vm_compute. discriminate.
Qed.

Lemma conversion_keeps_present_fields_witness :
  exists fm',
    frontmatterOf
      (fst (ConvertExecution.convertSingleNote
              ConvertProofs.tagSettings ConvertProofs.plainMapper quietRuntime
              ConvertProofs.oneNoteVault ConvertProofs.noExtras
              "Library/Password-Policy.md"))
      "Library/Password-Policy.md" = Some fm'
    /\ fm' !! "dateModified" = Some (VStr "2026-01-16T09:00:01")
    /\ fm' !! "title" = Some (VStr "Password Policy").
Proof.
  destruct (conversion_keeps_present_fields
              ConvertProofs.tagSettings ConvertProofs.plainMapper quietRuntime
              ConvertProofs.oneNoteVault ConvertProofs.noExtras
              "Library/Password-Policy.md" ConvertProofs.taggedNote
              "title" (VStr "Password Policy"))
    as (fm' & Hfm & _ & Hmod & Hkeep & _).
  - reflexivity.
  - vm_compute. reflexivity.
  - vm_compute. reflexivity.
  - intros H. apply String.eqb_eq in H. vm_compute in H. discriminate H.
  - reflexivity.
  - exists fm'. split; [exact Hfm|]. split.
    + apply Hmod. left. intros H. apply String.eqb_eq in H. vm_compute in H.
      discriminate H.
    + exact Hkeep.
Defined.

(** The case left out above.  Under the tag method a [tags] field that
    is present but is not a list (here the string [document]) does not
    survive the conversion: it is replaced by a list that holds the task
    tag only. *)
Definition labelledNote : Frontmatter :=
  {[ "tags" := VStr "document"; "title" := VStr "Password Policy" ]}.

Lemma non_list_tags_are_replaced :
  let before : Vault := {[ "Library/Password-Policy.md" := Some labelledNote ]} in
  let after :=
    fst (ConvertExecution.convertSingleNote
           ConvertProofs.tagSettings ConvertProofs.plainMapper quietRuntime
           before ConvertProofs.noExtras "Library/Password-Policy.md") in
  fieldOf before "Library/Password-Policy.md" "tags" = Some (VStr "document")
  /\ fieldOf after "Library/Password-Policy.md" "tags" = Some (VList [VStr "task"]).
Proof.
  cbv zeta. split; vm_compute; reflexivity.
Qed.

(** *** What a conversion leaves in the note *)

Section Marking.
Variable settings : Settings.
Variable fieldMapper : FieldMapper.
Variable host : ConvertExecution.Runtime.

Lemma assignedAt_Keeps key v : Keeps (assignedAt key v).
Proof.
  intros o Ho. unfold assignedAt.
  destruct (String.eqb key "__proto__" && isUndefined o); [exact Ho|discriminate].
Qed.

(** Once the identification step has defined the value, it stays
    defined. *)
Lemma beforeStampOn_identified vault options filePath j o :
  atKey j (identifyKey settings) (identifyValueAt settings) o <> None ->
  beforeStampOn settings fieldMapper host vault options filePath j o <> None.
Proof.
  intros H. unfold beforeStampOn.
  apply atKey_Keeps; [apply linkValueAt_Keeps|].
  destruct (applyDefaults options); [|exact H]. now rewrite defaultsOn_defined.
Qed.

Lemma defaultsOn_sets j created o :
  inherited j = false ->
  j = statusField fieldMapper \/ j = priorityField fieldMapper
  \/ j = dateCreatedField fieldMapper ->
  defaultsOn settings fieldMapper j created o <> None.
Proof.
  intros Hinh Hj. destruct o as [v|]; [now rewrite defaultsOn_defined|].
  unfold defaultsOn, atKey.
  destruct (decide (j = statusField fieldMapper)) as [E1|N1];
    destruct (decide (j = priorityField fieldMapper)) as [E2|N2];
    destruct (decide (j = dateCreatedField fieldMapper)) as [E3|N3];
    try (destruct Hj as [Hj|[Hj|Hj]]; contradiction);
    rewrite <- ?E1, <- ?E2, <- ?E3; unfold whenUndefinedAt; rewrite ?Hinh;
    cbn [isUndefined negb andb]; try discriminate.
Qed.

(** A conversion removes no frontmatter field and writes the modification
    stamp (by a plain assignment, which has no effect for the name
    [__proto__] on a note without such a field).  Unless the field in
    question is the one that holds the stamp: under the tag method [tags]
    ends as a list that contains the task tag; under the property method
    with a non-empty property name the property ends defined exactly when
    the note had it or the name is not one that every object inherits
    ([constructor], [toString], ...), for which the guard
    [=== undefined] is false and nothing is written; and with defaults
    requested the same holds of the status, priority and creation-date
    fields. *)
Theorem conversion_marks_the_note (vault : Vault) (options : BulkConvertOptions)
        (filePath : string) (fm : Frontmatter) :
  let fm' := ConvertExecution.convertFrontmatter settings fieldMapper host vault
                                                 options filePath fm in
  let stamp := dateModifiedField fieldMapper in
  (forall k, fm !! k <> None -> fm' !! k <> None)
  /\ (stamp <> "__proto__" \/ fm !! "__proto__" <> None ->
      fm' !! stamp
      = Some (VStr (timestampModified (ConvertExecution.services host) filePath)))
  /\ match taskIdentificationMethod settings with
     | TagMethod =>
         "tags" <> stamp ->
         exists tags, fm' !! "tags" = Some (VList tags)
                      /\ includesStr tags (orElse (taskTag settings) "task") = true
     | PropertyMethod =>
         taskPropertyName settings <> "" -> taskPropertyName settings <> stamp ->
         (fm' !! taskPropertyName settings <> None
          <-> inherited (taskPropertyName settings) = false
              \/ fm !! taskPropertyName settings <> None)
     end
  /\ (applyDefaults options = true ->
      forall k, k <> stamp ->
                k = statusField fieldMapper \/ k = priorityField fieldMapper
                \/ k = dateCreatedField fieldMapper ->
                (fm' !! k <> None <-> inherited k = false \/ fm !! k <> None)).
Proof.
  cbv zeta.
  assert (Hshadow : forall k, k <> dateModifiedField fieldMapper ->
            ConvertExecution.convertFrontmatter settings fieldMapper host vault
                                                options filePath fm !! k <> None ->
            inherited k = false \/ fm !! k <> None).
  { intros k Hne Hdef. destruct (inherited k) eqn:Hinh; [|now left]. right.
    intros Hnone. apply Hdef. rewrite convertFrontmatter_at, atKey_ne by exact Hne.
    rewrite Hnone. now apply beforeStampOn_shadowed. }
  split; [|split; [|split]].
  - intros k Hk. rewrite convertFrontmatter_at.
    apply atKey_Keeps; [apply assignedAt_Keeps|]. now apply beforeStampOn_Keeps.
  - apply stamp_written.
  - destruct (taskIdentificationMethod settings) eqn:Hmethod.
    + intros Hne. rewrite convertFrontmatter_at, atKey_ne by exact Hne.
      unfold beforeStampOn.
      assert (H1 : Lists (orElse (taskTag settings) "task")
                         (atKey "tags" (identifyKey settings) (identifyValueAt settings)
                                (fm !! "tags"))).
      { unfold identifyKey, identifyValueAt. rewrite Hmethod.
        unfold atKey. destruct (decide _) as [_|]; [|contradiction].
        apply tagValue_Lists. }
      assert (H2 : Lists (orElse (taskTag settings) "task")
                     ((if applyDefaults options
                       then defaultsOn settings fieldMapper "tags"
                              (timestampCreated (ConvertExecution.services host) filePath)
                       else id)
                        (atKey "tags" (identifyKey settings) (identifyValueAt settings)
                               (fm !! "tags")))).
      { destruct (applyDefaults options); [|exact H1].
        rewrite defaultsOn_defined; [exact H1|].
        destruct H1 as (l & -> & _). discriminate. }
      revert H2. generalize ((if applyDefaults options
                       then defaultsOn settings fieldMapper "tags"
                              (timestampCreated (ConvertExecution.services host) filePath)
                       else id)
                        (atKey "tags" (identifyKey settings) (identifyValueAt settings)
                               (fm !! "tags"))).
      intros o Ho. unfold atKey. destruct (decide _); [|exact Ho].
      unfold linkValueAt. destruct (linkAt host vault options filePath); [|exact Ho].
      pose proof (appendMissing_Lists _ s o Ho) as H3.
      destruct Ho as (l & -> & _). exact H3.
    + intros Hname Hne. split; [now apply Hshadow|].
      intros Hcan. rewrite convertFrontmatter_at, atKey_ne by exact Hne.
      apply beforeStampOn_identified.
      unfold identifyKey, identifyValueAt. rewrite Hmethod.
      unfold atKey. destruct (decide _) as [_|]; [|contradiction].
      destruct (fm !! taskPropertyName settings) as [v|] eqn:Hown.
      * now rewrite propertyValueAt_defined.
      * destruct Hcan as [Hinh|Hown']; [|contradiction].
        unfold propertyValueAt. rewrite Hinh.
        apply GenerationExtras.truthy_nonempty in Hname. now rewrite Hname.
  - intros Hdefaults k Hne Hk. split; [now apply Hshadow|].
    intros Hcan. rewrite convertFrontmatter_at, atKey_ne by exact Hne.
    unfold beforeStampOn. apply atKey_Keeps; [apply linkValueAt_Keeps|].
    rewrite Hdefaults.
    destruct Hcan as [Hinh|Hown]; [now apply defaultsOn_sets|].
    rewrite defaultsOn_defined; apply atKey_Keeps;
      try apply identifyValueAt_Keeps; exact Hown.
Qed.

End Marking.

(** *** A batch of conversions *)

(** [item.path || ""] is the path of the item, or the empty string when
    the item has none. *)
Definition pathOfItem (p : option string) : string := default "" p.

Lemma sourcePath_pathOfItem p : orElse (default "" p) "" = pathOfItem p.
Proof.
  unfold pathOfItem, orElse, truthy. destruct (default "" p =? "") eqn:E; [|reflexivity].
  apply String.eqb_eq in E. now rewrite E.
Qed.

(** What happens to one item of a batch. *)
Inductive Verdict :=
| AlreadyTask
| NoFile
| WriteFailed (message : string)
| WaitFailed (message : string)
| Converted.

Section Batch.
Variable settings : Settings.
Variable fieldMapper : FieldMapper.
Variable host : ConvertExecution.Runtime.

(** The fate of an item, read off the dry run, the files of the vault
    when the batch starts and the answers of the host for its path. *)
Definition verdict (pre : ConvertPreCheckResult) (vault0 : Vault)
           (p : option string) : Verdict :=
  if decide (pathOfItem p ∈ alreadyTaskPaths pre) then AlreadyTask
  else if negb (isTFile vault0 (pathOfItem p)) then NoFile
  else match processFrontMatterFails (ConvertExecution.services host) (pathOfItem p) with
       | Some message => WriteFailed message
       | None =>
           match ConvertExecution.awaitFreshTaskData host (pathOfItem p) with
           | Threw message => WaitFailed message
           | Returned _ => Converted
           end
       end.

(** The message an item leaves in the error list, if any. *)
Definition convertMessage (pre : ConvertPreCheckResult) (vault0 : Vault)
           (p : option string) : option string :=
  match verdict pre vault0 p with
  | NoFile => Some ("File not found: " ++ pathOfItem p)
  | WriteFailed message | WaitFailed message =>
      Some ("Error for " ++ pathOfItem p ++ ": " ++ message)
  | AlreadyTask | Converted => None
  end.

Definition convertedPath (pre : ConvertPreCheckResult) (vault0 : Vault)
           (p : option string) : option string :=
  match verdict pre vault0 p with
  | Converted => Some (pathOfItem p)
  | _ => None
  end.

(** The items whose note is rewritten: the converted ones, and those for
    which the wait after the write was rejected. *)
Definition rewritten (pre : ConvertPreCheckResult) (vault0 : Vault)
           (p : option string) : bool :=
  match verdict pre vault0 p with
  | Converted | WaitFailed _ => true
  | _ => false
  end.

Definition stampedAt (vault : Vault) (q : string) : Prop :=
  exists fm, vault !! q = Some (Some fm)
             /\ (dateModifiedField fieldMapper <> "__proto__" ->
                 fm !! dateModifiedField fieldMapper
                 = Some (VStr (timestampModified (ConvertExecution.services host) q))).

(** What the loop of [convertNotes] maintains. *)
Record Batched (pre : ConvertPreCheckResult) (vault0 : Vault)
       (processed : list (option string))
       (vault : Vault) (r : BulkConvertResult) : Prop := {
  batched_files : forall q, isTFile vault q = isTFile vault0 q;
  batched_total : converted r + skipped r + failed r = List.length processed;
  batched_errors : errors r = omap (convertMessage pre vault0) processed;
  batched_failed : failed r = List.length (errors r);
  batched_paths : convertedPaths r = omap (convertedPath pre vault0) processed;
  batched_converted : converted r = List.length (convertedPaths r);
  batched_skipped :
    skipped r
    = List.length (List.filter (fun p => bool_decide (pathOfItem p ∈ alreadyTaskPaths pre))
                               processed);
  batched_rewritten :
    forall q, vault !! q <> vault0 !! q ->
              exists p, In p processed /\ pathOfItem p = q
                        /\ rewritten pre vault0 p = true;
  batched_stamped :
    forall p, In p processed -> rewritten pre vault0 p = true ->
              stampedAt vault (pathOfItem p)
}.

Lemma omap_snoc {A B} (f : A -> option B) (l : list A) (a : A) :
  omap f (l ++ [a])%list = (omap f l ++ option_list (f a))%list.
Proof. rewrite omap_app. cbn. now destruct (f a). Qed.

Lemma filter_snoc {A} (f : A -> bool) (l : list A) (a : A) :
  List.filter f (l ++ [a])%list = (List.filter f l ++ if f a then [a] else [])%list.
Proof. rewrite List.filter_app. cbn. now destruct (f a). Qed.

Lemma convertStep_batched pre vault0 options processed p st :
  Batched pre vault0 processed (ConvertExecution.vaultNow st) (ConvertExecution.result st) ->
  let st' := ConvertExecution.convertStep settings fieldMapper host pre options
               (orElse (default "" p) "") st in
  Batched pre vault0 (processed ++ [p])%list
          (ConvertExecution.vaultNow st') (ConvertExecution.result st').
Proof.
  destruct st as [vault r log]. cbn [ConvertExecution.vaultNow ConvertExecution.result].
  intros [Hfiles Htotal Herr Hfail Hpaths Hconv Hskip Hrew Hst].
  rewrite Herr in Hfail. rewrite Hpaths in Hconv.
  rewrite sourcePath_pathOfItem. set (q := pathOfItem p).
  assert (Hold : forall x, vault !! x <> vault0 !! x ->
            exists p0, In p0 (processed ++ [p])%list /\ pathOfItem p0 = x
                       /\ rewritten pre vault0 p0 = true).
  { intros x Hx. destruct (Hrew x Hx) as (p0 & Hin & Hp0 & Hr).
    exists p0. split; [|now split]. apply in_or_app. now left. }
  assert (Hv := eq_refl (verdict pre vault0 p)). unfold verdict at 2 in Hv.
  fold q in Hv.
  assert (Hsame : rewritten pre vault0 p = false ->
            forall p0, In p0 (processed ++ [p])%list -> rewritten pre vault0 p0 = true ->
                       stampedAt vault (pathOfItem p0)).
  { intros Hno p0 Hin Hr. apply in_app_or in Hin as [Hin|[<-|[]]]; [now apply Hst|].
    congruence. }
  assert (Hb : forall b : bool,
             bool_decide (q ∈ alreadyTaskPaths pre) = b ->
             List.length (List.filter
                            (fun p => bool_decide (pathOfItem p ∈ alreadyTaskPaths pre))
                            (processed ++ [p])%list)
             = skipped r + (if b then 1 else 0)).
  { intros b Hb. rewrite filter_snoc, length_app, <- Hskip. fold q. rewrite Hb.
    now destruct b. }
  unfold ConvertExecution.convertStep. cbv zeta.
  cbn [ConvertExecution.vaultNow ConvertExecution.result ConvertExecution.reports].
  destruct (decide (q ∈ alreadyTaskPaths pre)) as [Hin|Hout].
  { cbn [ConvertExecution.vaultNow ConvertExecution.result].
    split; cbn [converted skipped failed errors convertedPaths];
      try (apply Hsame; unfold rewritten; now rewrite Hv);
      rewrite ?(Hb true) by (now apply bool_decide_eq_true_2);
      rewrite ?omap_snoc, ?length_app;
      unfold convertMessage, convertedPath; rewrite ?Hv;
      cbn [option_list List.length]; rewrite ?app_nil_r, ?Herr, ?Hpaths;
      try assumption; try reflexivity; try lia. }
  pose proof (Hb false (bool_decide_eq_false_2 _ Hout)) as Hb'.
  rewrite (Hfiles q).
  destruct (isTFile vault0 q) eqn:Hfile; cbn [negb] in *.
  2:{ cbn [ConvertExecution.vaultNow ConvertExecution.result].
      split; cbn [converted skipped failed errors convertedPaths];
        try (apply Hsame; unfold rewritten; now rewrite Hv);
        rewrite ?Hb';
        rewrite ?omap_snoc, ?length_app;
        unfold convertMessage, convertedPath; rewrite ?Hv; fold q;
        cbn [option_list List.length]; rewrite ?app_nil_r, ?Herr, ?Hpaths;
        try assumption; try reflexivity; try lia. }
  unfold ConvertExecution.convertSingleNote.
  destruct (processFrontMatterFails (ConvertExecution.services host) q) as [msg|] eqn:Hw.
  { cbn [ConvertExecution.vaultNow ConvertExecution.result].
    split; cbn [converted skipped failed errors convertedPaths];
      try (apply Hsame; unfold rewritten; now rewrite Hv);
      rewrite ?Hb';
      rewrite ?omap_snoc, ?length_app;
      unfold convertMessage, convertedPath; rewrite ?Hv; fold q;
      cbn [option_list List.length]; rewrite ?app_nil_r, ?Herr, ?Hpaths;
      try assumption; try reflexivity; try lia. }
  set (fm := ConvertExecution.convertFrontmatter settings fieldMapper host vault
               (ConvertExecution.conversion options) q
               (default ∅ (frontmatterOf vault q))).
  assert (Hfiles' : forall x, isTFile (<[q := Some fm]> vault) x = isTFile vault0 x).
  { intros x. rewrite <- Hfiles. apply isTFile_insert. now rewrite Hfiles. }
  assert (Hnew : stampedAt (<[q := Some fm]> vault) q).
  { exists fm. split; [apply lookup_insert_eq|]. intros Hproto.
    apply stamp_written. now left. }
  assert (Hrew' : rewritten pre vault0 p = true ->
             forall x, <[q := Some fm]> vault !! x <> vault0 !! x ->
             exists p0, In p0 (processed ++ [p])%list /\ pathOfItem p0 = x
                        /\ rewritten pre vault0 p0 = true).
  { intros Hr x Hx. destruct (decide (x = q)) as [->|Hne].
    - exists p. split; [apply in_or_app; right; now left|now split].
    - rewrite lookup_insert_ne in Hx by congruence. now apply Hold. }
  assert (Hst' : forall p0, In p0 (processed ++ [p])%list ->
             rewritten pre vault0 p0 = true ->
             stampedAt (<[q := Some fm]> vault) (pathOfItem p0)).
  { intros p0 Hin Hr. destruct (decide (pathOfItem p0 = q)) as [->|Hne]; [exact Hnew|].
    apply in_app_or in Hin as [Hin|[<-|[]]]; [|now contradiction Hne].
    destruct (Hst p0 Hin Hr) as (fm0 & Hf0 & Hs0).
    exists fm0. split; [now rewrite lookup_insert_ne by congruence|exact Hs0]. }
  destruct (ConvertExecution.awaitFreshTaskData host q) as [[]|msg] eqn:Hwait;
    cbn [ConvertExecution.vaultNow ConvertExecution.result];
    (split; cbn [converted skipped failed errors convertedPaths];
     [apply Hfiles'| | | | | | |
      apply Hrew'; unfold rewritten; now rewrite Hv|exact Hst'];
     rewrite ?Hb';
     rewrite ?omap_snoc, ?length_app;
     unfold convertMessage, convertedPath; rewrite ?Hv; fold q;
     cbn [option_list List.length]; rewrite ?app_nil_r, ?Herr, ?Hpaths;
     try assumption; try reflexivity; try lia).
Qed.

(** The progress callback never throws. *)
Definition quietProgress (options : ConvertExecution.RunOptions) : Prop :=
  forall callback current total status,
    ConvertExecution.onProgress options = Some callback ->
    callback current total status = None.

(** A message thrown by the progress callback. *)
Definition thrownByProgress (options : ConvertExecution.RunOptions) (message : string)
  : Prop :=
  exists callback current total status,
    ConvertExecution.onProgress options = Some callback
    /\ callback current total status = Some message.

Lemma report_quiet options current total status :
  quietProgress options -> ConvertExecution.report options current total status = None.
Proof.
  intros Hq. unfold ConvertExecution.report.
  destruct (ConvertExecution.onProgress options) as [f|] eqn:E; [|reflexivity].
  now apply Hq.
Qed.

Lemma report_thrown options current total status message :
  ConvertExecution.report options current total status = Some message ->
  thrownByProgress options message.
Proof.
  unfold ConvertExecution.report, thrownByProgress.
  destruct (ConvertExecution.onProgress options) as [f|]; [|discriminate].
  intros H. now exists f, current, total, status.
Qed.

(** The loop treats the items of a prefix of the batch as the invariant
    says; it stops before the end only when the progress callback
    throws. *)
Lemma convertLoop_batched pre vault0 options total paths :
  forall i processed st,
    Batched pre vault0 processed
            (ConvertExecution.vaultNow st) (ConvertExecution.result st) ->
    let run := ConvertExecution.convertLoop settings fieldMapper host pre options
                                            total i paths st in
    exists reached later r,
      paths = (reached ++ later)%list
      /\ Batched pre vault0 (processed ++ reached)%list (ConvertExecution.vaultAfter run) r
      /\ (ConvertExecution.settled run = Returned r /\ later = []
          \/ exists message,
               ConvertExecution.settled run = Threw message
               /\ thrownByProgress options message)
      /\ (quietProgress options -> ConvertExecution.settled run = Returned r).
Proof.
  induction paths as [|p rest IH]; intros i processed st Hinv; cbn [ConvertExecution.convertLoop].
  - exists [], [], (ConvertExecution.result st).
    cbn [ConvertExecution.vaultAfter ConvertExecution.settled].
    split; [reflexivity|]. rewrite app_nil_r. split; [exact Hinv|].
    split; [now left|reflexivity].
  - cbv zeta.
    destruct (ConvertExecution.report options (i + 1) total
                (ConvertExecution.convertingStatus (i + 1) total)) as [msg|] eqn:Hrep.
    + exists [], (p :: rest), (ConvertExecution.result st).
      cbn [ConvertExecution.vaultAfter ConvertExecution.settled].
      split; [reflexivity|]. rewrite app_nil_r. split; [exact Hinv|]. split.
      * right. exists msg. split; [reflexivity|]. now apply report_thrown in Hrep.
      * intros Hq. rewrite report_quiet in Hrep by exact Hq. discriminate Hrep.
    + set (st1 := {| ConvertExecution.vaultNow := ConvertExecution.vaultNow st;
                     ConvertExecution.result := ConvertExecution.result st;
                     ConvertExecution.reports := _ |}).
      assert (H1 : Batched pre vault0 processed
                           (ConvertExecution.vaultNow st1) (ConvertExecution.result st1))
        by exact Hinv.
      pose proof (convertStep_batched pre vault0 options processed p st1 H1) as H2.
      cbv zeta in H2.
      destruct (IH (S i) (processed ++ [p])%list _ H2)
        as (reached & later & r & Hsplit & Hb & Hs & Hq).
      exists (p :: reached), later, r.
      replace (processed ++ p :: reached)%list
        with ((processed ++ [p]) ++ reached)%list by now rewrite <- app_assoc.
      split; [cbn [app]; now rewrite Hsplit|]. split; [exact Hb|]. split; [exact Hs|exact Hq].
Qed.

Lemma Batched_start pre vault :
  Batched pre vault [] vault emptyResult.
Proof.
  split; try reflexivity; [intros q Hq; now contradiction Hq|intros p []].
Qed.

(** [convertNotes] as a whole: with the dry run returning [pre], the
    call treats a prefix of the batch as the invariant says. *)
Lemma convertNotes_batched vault paths options pre :
  ConvertExecution.preCheck host vault paths = Returned pre ->
  let run := ConvertExecution.convertNotes settings fieldMapper host vault paths options in
  exists reached later r,
    paths = (reached ++ later)%list
    /\ Batched pre vault reached (ConvertExecution.vaultAfter run) r
    /\ (ConvertExecution.settled run = Returned r /\ later = []
        \/ exists message,
             ConvertExecution.settled run = Threw message
             /\ thrownByProgress options message)
    /\ (quietProgress options -> ConvertExecution.settled run = Returned r).
Proof.
  intros Hpre. unfold ConvertExecution.convertNotes.
  destruct paths as [|p rest].
  - exists [], [], emptyResult. cbn [ConvertExecution.vaultAfter ConvertExecution.settled].
    split; [reflexivity|]. split; [apply Batched_start|]. split; [now left|reflexivity].
  - cbv zeta. set (paths := p :: rest) in *.
    destruct (ConvertExecution.report options 0 (List.length paths)
                "Checking existing tasks...") as [msg|] eqn:Hrep.
    + exists [], paths, emptyResult.
      cbn [ConvertExecution.vaultAfter ConvertExecution.settled].
      split; [reflexivity|]. split; [apply Batched_start|]. split.
      * right. exists msg. split; [reflexivity|]. now apply report_thrown in Hrep.
      * intros Hq. rewrite report_quiet in Hrep by exact Hq. discriminate Hrep.
    + rewrite Hpre.
      exact (convertLoop_batched pre vault options (List.length paths) paths 0 []
               {| ConvertExecution.vaultNow := vault;
                  ConvertExecution.result := emptyResult;
                  ConvertExecution.reports := _ |} (Batched_start pre vault)).
Qed.

(** When the dry run fails, the call fails with it (or with the progress
    callback, which is called first) and changes nothing. *)
Lemma convertNotes_rejected vault paths options message :
  ConvertExecution.preCheck host vault paths = Threw message ->
  paths <> [] ->
  let run := ConvertExecution.convertNotes settings fieldMapper host vault paths options in
  ConvertExecution.vaultAfter run = vault
  /\ (ConvertExecution.settled run = Threw message
      \/ exists message',
           ConvertExecution.settled run = Threw message'
           /\ thrownByProgress options message')
  /\ (quietProgress options -> ConvertExecution.settled run = Threw message).
Proof.
  intros Hpre Hne. unfold ConvertExecution.convertNotes.
  destruct paths as [|p rest]; [contradiction|]. cbv zeta.
  set (paths := p :: rest) in *.
  destruct (ConvertExecution.report options 0 (List.length paths)
              "Checking existing tasks...") as [msg|] eqn:Hrep.
  - cbn [ConvertExecution.vaultAfter ConvertExecution.settled].
    split; [reflexivity|]. split.
    + right. exists msg. split; [reflexivity|]. now apply report_thrown in Hrep.
    + intros Hq. rewrite report_quiet in Hrep by exact Hq. discriminate Hrep.
  - rewrite Hpre. cbn [ConvertExecution.vaultAfter ConvertExecution.settled].
    split; [reflexivity|]. split; [now left|reflexivity].
Qed.

End Batch.

Section Frame.
Variable settings : Settings.
Variable fieldMapper : FieldMapper.
Variable host : ConvertExecution.Runtime.

Lemma In_omap {A B} (f : A -> option B) (l : list A) (b : B) :
  In b (omap f l) <-> exists a, In a l /\ f a = Some b.
Proof.
  rewrite <- list_elem_of_In, list_elem_of_omap. split; intros (a & Ha & Hf);
    exists a; (split; [now apply list_elem_of_In|exact Hf]).
Qed.

Lemma rewritten_inv pre vault0 p :
  rewritten host pre vault0 p = true ->
  isTFile vault0 (pathOfItem p) = true
  /\ (pathOfItem p ∉ alreadyTaskPaths pre)
  /\ processFrontMatterFails (ConvertExecution.services host) (pathOfItem p) = None
  /\ (verdict host pre vault0 p = Converted
      \/ exists message,
           ConvertExecution.awaitFreshTaskData host (pathOfItem p) = Threw message
           /\ verdict host pre vault0 p = WaitFailed message).
Proof.
  unfold rewritten, verdict.
  destruct (decide _) as [|Hout]; [discriminate|].
  destruct (isTFile vault0 (pathOfItem p)); cbn [negb]; [|discriminate].
  destruct (processFrontMatterFails _ _); [discriminate|].
  destruct (ConvertExecution.awaitFreshTaskData host (pathOfItem p)) as [[]|msg];
    intros _; repeat split; try assumption; [now left|right; now exists msg].
Qed.

Lemma converted_inv pre vault0 p :
  verdict host pre vault0 p = Converted
  <-> (pathOfItem p ∉ alreadyTaskPaths pre)
      /\ isTFile vault0 (pathOfItem p) = true
      /\ processFrontMatterFails (ConvertExecution.services host) (pathOfItem p) = None
      /\ ConvertExecution.awaitFreshTaskData host (pathOfItem p) = Returned tt.
Proof.
  unfold verdict. destruct (decide _) as [Hin|Hout].
  - split; [discriminate|]. now intros [H _].
  - destruct (isTFile vault0 (pathOfItem p)); cbn [negb].
    + destruct (processFrontMatterFails _ _).
      * split; [discriminate|]. now intros (_ & _ & H & _).
      * destruct (ConvertExecution.awaitFreshTaskData host (pathOfItem p)) as [[]|msg].
        -- now split.
        -- split; [discriminate|]. now intros (_ & _ & _ & H).
    + split; [discriminate|]. now intros (_ & H & _).
Qed.

(** [convertNotes] creates and deletes no file, and whatever way the call
    ends, a note whose entry differs afterwards is the note of an item of
    the batch, a file, rewritten by a frontmatter write that succeeded,
    and carries the modification stamp.  When the call returns a result,
    the converted paths are exactly the paths of the items that were not
    classified as tasks by the dry run, are files, and for which both the
    write and the wait for the cache succeeded; and a note can be
    rewritten without being listed as converted: exactly when the wait
    after its write was rejected, in which case the item is reported
    among the errors. *)
Theorem convertNotes_frame (vault : Vault) (paths : list (option string))
        (options : ConvertExecution.RunOptions) (q : string) :
  let run := ConvertExecution.convertNotes settings fieldMapper host vault paths options in
  let after := ConvertExecution.vaultAfter run in
  let written x := processFrontMatterFails (ConvertExecution.services host) x = None in
  isTFile after q = isTFile vault q
  /\ (after !! q <> vault !! q ->
      isTFile vault q = true
      /\ (exists p, In p paths /\ pathOfItem p = q)
      /\ written q
      /\ stampedAt fieldMapper host after q)
  /\ (forall r pre,
         ConvertExecution.settled run = Returned r ->
         ConvertExecution.preCheck host vault paths = Returned pre ->
         (In q (convertedPaths r)
          <-> (exists p, In p paths /\ pathOfItem p = q)
              /\ (q ∉ alreadyTaskPaths pre)
              /\ isTFile vault q = true
              /\ written q
              /\ ConvertExecution.awaitFreshTaskData host q = Returned tt)
         /\ (In q (convertedPaths r) -> stampedAt fieldMapper host after q)
         /\ (after !! q <> vault !! q ->
             In q (convertedPaths r)
             \/ exists message,
                  ConvertExecution.awaitFreshTaskData host q = Threw message
                  /\ In ("Error for " ++ q ++ ": " ++ message) (errors r))).
Proof.
  cbv zeta.
  destruct (ConvertExecution.preCheck host vault paths) as [pre|msg] eqn:Hpre.
  - destruct (convertNotes_batched settings fieldMapper host vault paths options pre Hpre)
      as (reached & later & r & Hsplit & Hb & Hs & _). cbv zeta in Hb, Hs.
    destruct Hb as [Hfiles _ Herr _ Hpaths _ _ Hrew Hst].
    assert (Hsub : forall p, In p reached -> In p paths).
    { intros p Hin. rewrite Hsplit. apply in_or_app. now left. }
    split; [apply Hfiles|]. split.
    + intros Hq. destruct (Hrew q Hq) as (p & Hin & Hp & Hr).
      destruct (rewritten_inv pre vault p Hr) as (H1 & _ & H3 & _). rewrite Hp in *.
      split; [exact H1|]. split; [exists p; split; [now apply Hsub|exact Hp]|].
      split; [exact H3|]. rewrite <- Hp. now apply Hst.
    + intros r' pre' Hr' [= <-].
      destruct Hs as [[Hs ->]|(m & Hm & _)]; [|congruence].
      rewrite app_nil_r in Hsplit. subst reached.
      assert (r' = r) by congruence. subst r'.
      assert (Hconv : In q (convertedPaths r)
                      <-> exists p, In p paths /\ pathOfItem p = q
                                    /\ verdict host pre vault p = Converted).
      { rewrite Hpaths, In_omap. unfold convertedPath.
        split; intros (p & Hin & Hp); exists p; (split; [exact Hin|]).
        - destruct (verdict host pre vault p); try discriminate.
          injection Hp as Hp. now split.
        - destruct Hp as [Hp ->]. now rewrite Hp. }
      split; [|split].
      * rewrite Hconv. split.
        -- intros (p & Hin & Hp & Hv). apply converted_inv in Hv. rewrite Hp in Hv.
           split; [now exists p|exact Hv].
        -- intros ((p & Hin & Hp) & Hv). exists p. split; [exact Hin|].
           split; [exact Hp|]. apply converted_inv. now rewrite Hp.
      * intros Hin. apply Hconv in Hin as (p & Hin & Hp & Hv). rewrite <- Hp.
        apply Hst; [exact Hin|]. unfold rewritten. now rewrite Hv.
      * intros Hq. destruct (Hrew q Hq) as (p & Hin & Hp & Hr).
        destruct (rewritten_inv pre vault p Hr) as (_ & _ & _ & [Hv|(m & Hw & Hv)]).
        -- left. apply Hconv. now exists p.
        -- right. exists m. rewrite Hp in Hw. split; [exact Hw|].
           rewrite Herr, In_omap. exists p. split; [exact Hin|].
           unfold convertMessage. now rewrite Hv, Hp.
  - destruct paths as [|p rest].
    + cbn. split; [reflexivity|]. split; [now intros []|]. intros r pre _ H.
      discriminate H.
    + destruct (convertNotes_rejected settings fieldMapper host vault (p :: rest)
                  options msg Hpre) as (Hsame & _); [discriminate|].
      cbv zeta in Hsame. rewrite Hsame.
      split; [reflexivity|]. split; [now intros []|]. intros r pre _ H. discriminate H.
Qed.

End Frame.

(** The wait for the cache is rejected after the note has been
    rewritten. *)
Definition staleCacheRuntime : ConvertExecution.Runtime :=
  {| ConvertExecution.services := ConvertProofs.quietHost;
     ConvertExecution.isTaskFileFails := fun _ => None;
     ConvertExecution.waitForFreshTaskData :=
       Some (fun _ => Some "Timed out waiting for fresh task data") |}.

Definition silentConversion : ConvertExecution.RunOptions :=
  {| ConvertExecution.conversion := ConvertProofs.noExtras;
     ConvertExecution.onProgress := None |}.

(** The note is rewritten, counted as failed and not listed as
    converted. *)
Lemma convertNotes_frame_witness :
  let run := ConvertExecution.convertNotes
               ConvertProofs.tagSettings ConvertProofs.plainMapper staleCacheRuntime
               ConvertProofs.oneNoteVault [Some "Library/Password-Policy.md"]
               silentConversion in
  ConvertExecution.settled run
  = Returned {| converted := 0; skipped := 0; failed := 1;
                errors := [ "Error for Library/Password-Policy.md: Timed out waiting for fresh task data" ];
                convertedPaths := [] |}
  /\ fieldOf (ConvertExecution.vaultAfter run) "Library/Password-Policy.md" "tags"
     = Some (VList [VStr "document"; VStr "task"])
  /\ stampedAt ConvertProofs.plainMapper staleCacheRuntime
               (ConvertExecution.vaultAfter run) "Library/Password-Policy.md".
Proof.
  cbv zeta.
  set (run := ConvertExecution.convertNotes
                ConvertProofs.tagSettings ConvertProofs.plainMapper staleCacheRuntime
                ConvertProofs.oneNoteVault [Some "Library/Password-Policy.md"]
                silentConversion).
  assert (Hfield : fieldOf (ConvertExecution.vaultAfter run)
                           "Library/Password-Policy.md" "tags"
                   = Some (VList [VStr "document"; VStr "task"]))
    by (vm_compute; reflexivity).
  assert (Hchanged : ConvertExecution.vaultAfter run !! "Library/Password-Policy.md"
                     <> ConvertProofs.oneNoteVault !! "Library/Password-Policy.md").
  { intros Hsame. unfold fieldOf, frontmatterOf in Hfield. rewrite Hsame in Hfield.
    vm_compute in Hfield. discriminate Hfield. }
  split; [vm_compute; reflexivity|]. split; [exact Hfield|].
  destruct (convertNotes_frame
              ConvertProofs.tagSettings ConvertProofs.plainMapper staleCacheRuntime
              ConvertProofs.oneNoteVault [Some "Library/Password-Policy.md"]
              silentConversion "Library/Password-Policy.md") as (_ & Hwritten & _).
  exact (proj2 (proj2 (proj2 (Hwritten Hchanged)))).
Defined.

Section Clobber.
Variable settings : Settings.
Variable fieldMapper : FieldMapper.
Variable host : ConvertExecution.Runtime.

(** Under the tag method a [tags] field that is present but is not a
    list is not kept: whatever it held, the conversion leaves the list
    that holds the task tag only. *)
Lemma non_list_tags_are_lost vault options filePath (fm : Frontmatter) v :
  taskIdentificationMethod settings = TagMethod ->
  fm !! "tags" = Some v -> isArray (Some v) = false ->
  "tags" <> dateModifiedField fieldMapper -> "tags" <> projectsField fieldMapper ->
  ConvertExecution.convertFrontmatter settings fieldMapper host vault options filePath fm
    !! "tags"
  = Some (VList [VStr (orElse (taskTag settings) "task")]).
Proof.
  intros Hmethod Hv Hlist Hstamp Hlink.
  rewrite convertFrontmatter_at, atKey_ne by exact Hstamp.
  unfold beforeStampOn. rewrite atKey_ne by exact Hlink.
  assert (H1 : atKey "tags" (identifyKey settings) (identifyValueAt settings) (fm !! "tags")
               = Some (VList [VStr (orElse (taskTag settings) "task")])).
  { unfold identifyKey, identifyValueAt. rewrite Hmethod, Hv.
    unfold atKey. destruct (decide _) as [_|]; [|contradiction].
    unfold tagValue. rewrite Hlist. reflexivity. }
  rewrite H1. destruct (applyDefaults options); [|reflexivity].
  now rewrite defaultsOn_defined.
Qed.

End Clobber.

End ConvertExecutionProofs.

(** ** The batch boundary *)

Module BatchBoundary.
Import JsString Host DuplicateDetector BulkTaskEngine BulkProofs.

Section Creation.
Variable host : CreateExecution.Runtime.
Variable vault : Vault.

(** The progress callback never throws. *)
Definition quietReports (options : CreateExecution.RunOptions) : Prop :=
  forall callback current total status,
    CreateExecution.onProgress options = Some callback ->
    callback current total status = None.

(** A message thrown by the progress callback. *)
Definition thrownByReport (options : CreateExecution.RunOptions) (message : string)
  : Prop :=
  exists callback current total status,
    CreateExecution.onProgress options = Some callback
    /\ callback current total status = Some message.

Lemma createReport_quiet options current total status :
  quietReports options -> CreateExecution.report options current total status = None.
Proof.
  intros Hq. unfold CreateExecution.report.
  destruct (CreateExecution.onProgress options) as [f|] eqn:E; [|reflexivity].
  now apply Hq.
Qed.

Lemma createReport_thrown options current total status message :
  CreateExecution.report options current total status = Some message ->
  thrownByReport options message.
Proof.
  unfold CreateExecution.report, thrownByReport.
  destruct (CreateExecution.onProgress options) as [f|]; [|discriminate].
  intros H. now exists f, current, total, status.
Qed.

(** The loop runs [createStep] over a prefix of the batch; it stops
    before the end only when the progress callback throws. *)
Lemma createLoop_prefix options dup total items :
  forall i st log,
    let run := CreateExecution.createLoop host vault options dup total i items st log in
    exists reached later,
      items = (reached ++ later)%list
      /\ let st' := fold_left (fun st item =>
                                 createStep (CreateExecution.services host) vault
                                            (CreateExecution.creation options) dup item st)
                              reached st in
         CreateExecution.serviceRequests run = serviceCalls st'
         /\ (CreateExecution.settled run = Returned (result st') /\ later = []
             \/ exists message,
                  CreateExecution.settled run = Threw message
                  /\ thrownByReport options message)
         /\ (quietReports options ->
             CreateExecution.settled run = Returned (result st') /\ later = []).
Proof.
  induction items as [|item rest IH]; intros i st log; cbn [CreateExecution.createLoop].
  - exists [], []. cbn [fold_left CreateExecution.serviceRequests CreateExecution.settled].
    split; [reflexivity|]. split; [reflexivity|]. split; [now left|now split].
  - cbv zeta.
    destruct (CreateExecution.report options (i + 1) total
                (CreateExecution.creatingStatus (i + 1) total)) as [msg|] eqn:Hrep.
    + exists [], (item :: rest).
      cbn [fold_left CreateExecution.serviceRequests CreateExecution.settled].
      split; [reflexivity|]. split; [reflexivity|]. split.
      * right. exists msg. split; [reflexivity|]. now apply createReport_thrown in Hrep.
      * intros Hq. rewrite createReport_quiet in Hrep by exact Hq. discriminate Hrep.
    + destruct (IH (S i)
                  (createStep (CreateExecution.services host) vault
                              (CreateExecution.creation options) dup item st)
                  (CreateExecution.reported options (i + 1) total
                     (CreateExecution.creatingStatus (i + 1) total) log))
        as (reached & later & Hsplit & Hrun).
      exists (item :: reached), later. split; [cbn [app]; now rewrite Hsplit|].
      exact Hrun.
Qed.

(** The path of an item, empty when it has none. *)
Definition pathOfItem (item : BasesDataItem) : string := default "" (itemPath item).

Lemma sourcePathOf_pathOfItem item : sourcePathOf item = pathOfItem item.
Proof.
  unfold sourcePathOf, pathOfItem, orElse, truthy.
  destruct (default "" (itemPath item) =? "") eqn:E; [|reflexivity].
  apply String.eqb_eq in E. now rewrite E.
Qed.

(** The message an item leaves in the error list, if any: it names the
    path of the item. *)
Definition createMessage (options : BulkCreationOptions)
           (dup : option DuplicateCheckResult) (item : BasesDataItem)
  : option string :=
  if isSkipped options dup (pathOfItem item) then None
  else match createTask (CreateExecution.services host)
               (taskDataFor (CreateExecution.services host) vault item options) with
       | Returned (Some _) => None
       | Returned None => Some ("Failed to create task for: " ++ pathOfItem item)
       | Threw errorMsg => Some ("Error for " ++ pathOfItem item ++ ": " ++ errorMsg)
       end.

Lemma itemError_createMessage options dup item :
  itemError (CreateExecution.services host) vault options dup item
  = createMessage options dup item.
Proof.
  unfold itemError, createMessage, createTaskForItem.
  now rewrite sourcePathOf_pathOfItem.
Qed.

(** The items that are not skipped. *)
Definition wanted (options : BulkCreationOptions)
           (dup : option DuplicateCheckResult) (items : list BasesDataItem)
  : list BasesDataItem :=
  List.filter (fun item => negb (isSkipped options dup (pathOfItem item))) items.

(** What a result says about a batch. *)
Definition Accounted (options : BulkCreationOptions)
           (dup : option DuplicateCheckResult) (items : list BasesDataItem)
           (requests : list TaskCreationData) (r : BulkCreationResult) : Prop :=
  created r + skipped r + failed r = List.length items
  /\ errors r = omap (createMessage options dup) items
  /\ failed r = List.length (errors r)
  /\ created r = List.length (createdPaths r)
  /\ skipped r = List.length items - List.length (wanted options dup items)
  /\ requests
     = map (fun item => taskDataFor (CreateExecution.services host) vault item options)
           (wanted options dup items).

Lemma filter_length_le {A} (f : A -> bool) l :
  List.length (List.filter f l) <= List.length l.
Proof. induction l as [|a r IH]; cbn; [lia|]. destruct (f a); cbn; lia. Qed.

Lemma fold_accounted options dup items :
  let st := fold_left (fun st item =>
                         createStep (CreateExecution.services host) vault options dup item st)
                      items {| result := emptyResult; serviceCalls := [] |} in
  Accounted options dup items (serviceCalls st) (result st).
Proof.
  cbv zeta.
  pose proof (createLoop_progress (CreateExecution.services host) vault options dup
                items [] {| result := emptyResult; serviceCalls := [] |}) as H.
  destruct H as [Ht He Hf Hp Hc]; [now split|]. cbn [app] in *.
  pose proof (createLoop_calls_exact (CreateExecution.services host) vault options dup
                items {| result := emptyResult; serviceCalls := [] |}) as Hcalls.
  cbn [serviceCalls app] in Hcalls.
  assert (Hw : attempted (CreateExecution.services host) vault options dup items
               = map (fun item => taskDataFor (CreateExecution.services host) vault
                                              item options)
                     (wanted options dup items)).
  { unfold attempted, wanted. f_equal. apply List.filter_ext. intros item.
    now rewrite sourcePathOf_pathOfItem. }
  unfold Accounted. split; [exact Ht|]. split.
  { rewrite He. clear. induction items as [|a r IH]; [reflexivity|].
    cbn [omap list_omap]. now rewrite itemError_createMessage, IH. }
  split; [exact Hf|]. split; [exact Hp|]. split.
  - rewrite Hcalls, Hw, length_map in Hc. lia.
  - now rewrite Hcalls, Hw.
Qed.

End Creation.

Section Boundary.
Variable gen : CreateExecution.Runtime.
Variable settings : BulkConvertEngine.Settings.
Variable fieldMapper : BulkConvertEngine.FieldMapper.
Variable conv : ConvertExecution.Runtime.
Variable vault : Vault.

(** The duplicate check made up front by [createTasks]: none without
    [skipExisting]; with it, the check awaits the task cache. *)
Definition upFrontCheck (items : list BasesDataItem)
           (options : CreateExecution.RunOptions)
  : outcome (option DuplicateCheckResult) :=
  if skipExisting (CreateExecution.creation options) then
    match CreateExecution.getAllTasks gen with
    | Returned allTasks =>
        Returned (Some (checkForDuplicates allTasks (checkedSourcePaths items)))
    | Threw message => Threw message
    end
  else Returned None.

(** What a conversion result says about a batch. *)
Definition ConvertAccounted (pre : BulkConvertEngine.ConvertPreCheckResult)
           (paths : list (option string)) (r : BulkConvertEngine.BulkConvertResult)
  : Prop :=
  BulkConvertEngine.converted r + BulkConvertEngine.skipped r
  + BulkConvertEngine.failed r = List.length paths
  /\ BulkConvertEngine.errors r
     = omap (ConvertExecutionProofs.convertMessage conv pre vault) paths
  /\ BulkConvertEngine.failed r = List.length (BulkConvertEngine.errors r)
  /\ BulkConvertEngine.convertedPaths r
     = omap (ConvertExecutionProofs.convertedPath conv pre vault) paths
  /\ BulkConvertEngine.converted r = List.length (BulkConvertEngine.convertedPaths r)
  /\ BulkConvertEngine.skipped r
     = List.length
         (List.filter
            (fun p => bool_decide (ConvertExecutionProofs.pathOfItem p
                                   ∈ BulkConvertEngine.alreadyTaskPaths pre))
            paths).

Lemma createTasks_boundary items options :
  let run := CreateExecution.createTasks gen vault items options in
  (forall message,
      CreateExecution.settled run = Threw message ->
      thrownByReport options message
      \/ (items <> [] /\ upFrontCheck items options = Threw message))
  /\ (quietReports options ->
      match upFrontCheck items options with
      | Returned dup =>
          exists r, CreateExecution.settled run = Returned r
                    /\ Accounted gen vault (CreateExecution.creation options) dup items
                                 (CreateExecution.serviceRequests run) r
      | Threw message => items <> [] -> CreateExecution.settled run = Threw message
      end).
Proof.
  cbv zeta. unfold CreateExecution.createTasks, upFrontCheck.
  destruct items as [|item rest].
  - cbn [CreateExecution.settled CreateExecution.serviceRequests].
    split; [discriminate|]. intros _.
    assert (Hempty : forall dup,
               exists r, Returned emptyResult = Returned r
                         /\ Accounted gen vault (CreateExecution.creation options) dup []
                                      [] r).
    { intros dup. exists emptyResult. split; [reflexivity|].
      exact (fold_accounted gen vault (CreateExecution.creation options) dup []). }
    destruct (skipExisting (CreateExecution.creation options)); [|apply Hempty].
    destruct (CreateExecution.getAllTasks gen); [apply Hempty|now intros []].
  - set (items := item :: rest). cbv zeta.
    assert (Hloop : forall dup log,
      let run := CreateExecution.createLoop gen vault options dup (List.length items) 0
                   items {| result := emptyResult; serviceCalls := [] |} log in
      (forall message, CreateExecution.settled run = Threw message ->
                       thrownByReport options message)
      /\ (quietReports options ->
          exists r, CreateExecution.settled run = Returned r
                    /\ Accounted gen vault (CreateExecution.creation options) dup items
                                 (CreateExecution.serviceRequests run) r)).
    { intros dup log. cbv zeta.
      destruct (createLoop_prefix gen vault options dup (List.length items) items 0
                  {| result := emptyResult; serviceCalls := [] |} log)
        as (reached & later & Hsplit & Hcalls & Hs & Hq). split.
      - intros m Hm. destruct Hs as [[Hs _]|(m' & Hm' & Ht)]; [congruence|].
        assert (m' = m) by congruence. now subst.
      - intros Hquiet. destruct (Hq Hquiet) as [Hr ->].
        rewrite app_nil_r in Hsplit. subst reached.
        eexists. split; [exact Hr|]. rewrite Hcalls. apply fold_accounted. }
    destruct (skipExisting (CreateExecution.creation options)).
    + destruct (CreateExecution.report options 0 (List.length items)
                  "Checking for existing tasks...") as [msg|] eqn:Hrep.
      * cbn [CreateExecution.settled]. split.
        -- intros m [= <-]. left. now apply createReport_thrown in Hrep.
        -- intros Hq. rewrite createReport_quiet in Hrep by exact Hq. discriminate Hrep.
      * destruct (CreateExecution.getAllTasks gen) as [allTasks|msg].
        -- destruct (Hloop (Some (checkForDuplicates allTasks (checkedSourcePaths items)))
                       (CreateExecution.reported options 0 (List.length items)
                          "Checking for existing tasks..." [])) as [H1 H2].
           split; [intros m Hm; left; now apply H1|exact H2].
        -- cbn [CreateExecution.settled]. split.
           ++ intros m [= <-]. right. split; [discriminate|reflexivity].
           ++ intros _ _. reflexivity.
    + destruct (Hloop None []) as [H1 H2].
      split; [intros m Hm; left; now apply H1|exact H2].
Qed.

Lemma convertNotes_boundary paths options :
  let run := ConvertExecution.convertNotes settings fieldMapper conv vault paths options in
  (forall message,
      ConvertExecution.settled run = Threw message ->
      ConvertExecutionProofs.thrownByProgress options message
      \/ (paths <> [] /\ ConvertExecution.preCheck conv vault paths = Threw message))
  /\ (ConvertExecutionProofs.quietProgress options ->
      match ConvertExecution.preCheck conv vault paths with
      | Returned pre =>
          exists r, ConvertExecution.settled run = Returned r /\ ConvertAccounted pre paths r
      | Threw message => paths <> [] -> ConvertExecution.settled run = Threw message
      end).
Proof.
  cbv zeta.
  destruct (ConvertExecution.preCheck conv vault paths) as [pre|msg] eqn:Hpre.
  - destruct (ConvertExecutionProofs.convertNotes_batched settings fieldMapper conv vault
                paths options pre Hpre)
      as (reached & later & r & Hsplit & Hb & Hs & Hq). cbv zeta in Hb, Hs, Hq.
    split.
    + intros m Hm. left. destruct Hs as [[Hs _]|(m' & Hm' & Ht)]; [congruence|].
      assert (m' = m) by congruence. now subst.
    + intros Hquiet. exists r. split; [now apply Hq|].
      destruct Hs as [[_ ->]|(m' & Hm' & _)]; [|rewrite (Hq Hquiet) in Hm'; discriminate].
      rewrite app_nil_r in Hsplit. subst reached.
      destruct Hb as [_ Ht He Hf Hp Hc Hsk _ _]. unfold ConvertAccounted. tauto.
  - split.
    + intros m Hm. destruct paths as [|p rest]; [discriminate Hm|].
      destruct (ConvertExecutionProofs.convertNotes_rejected settings fieldMapper conv vault
                  (p :: rest) options msg Hpre) as (_ & [H|(m' & Hm' & Ht)] & _);
        [discriminate| |].
      * right. split; [discriminate|]. cbv zeta in H. congruence.
      * left. cbv zeta in Hm'. assert (m' = m) by congruence. now subst.
    + intros Hquiet Hne.
      now destruct (ConvertExecutionProofs.convertNotes_rejected settings fieldMapper conv
                      vault paths options msg Hpre Hne) as (_ & _ & H); apply H.
Qed.

(** *** Claim C9 *)

(** C9 (amended): in [createTasks] and [convertNotes] a failure on a
    single item, thrown or returned (by the task service, the frontmatter
    write, the wait for the cache, or a missing file), never ends the
    batch and is never what rejects the call: the call is rejected only
    by what runs outside the per-item guard, the progress callback and
    the up-front duplicate check or dry run.  When those do not fail the
    call returns a result in which every item is counted exactly once as
    created or converted, skipped, or failed; the error list holds, in
    batch order, one message for each failed item and nothing else, each
    message naming the path of its item; and the task service is asked
    for every item that is not skipped.  When the up-front check fails,
    the call is rejected with its error. *)
Theorem item_failures_never_abort
        (items : list BasesDataItem) (options : CreateExecution.RunOptions)
        (paths : list (option string)) (convertOptions : ConvertExecution.RunOptions) :
  let created := CreateExecution.createTasks gen vault items options in
  let converted :=
    ConvertExecution.convertNotes settings fieldMapper conv vault paths convertOptions in
  ((forall message,
       CreateExecution.settled created = Threw message ->
       thrownByReport options message
       \/ (items <> [] /\ upFrontCheck items options = Threw message))
   /\ (quietReports options ->
       match upFrontCheck items options with
       | Returned dup =>
           exists r, CreateExecution.settled created = Returned r
                     /\ Accounted gen vault (CreateExecution.creation options) dup items
                                  (CreateExecution.serviceRequests created) r
       | Threw message => items <> [] -> CreateExecution.settled created = Threw message
       end))
  /\ ((forall message,
          ConvertExecution.settled converted = Threw message ->
          ConvertExecutionProofs.thrownByProgress convertOptions message
          \/ (paths <> [] /\ ConvertExecution.preCheck conv vault paths = Threw message))
      /\ (ConvertExecutionProofs.quietProgress convertOptions ->
          match ConvertExecution.preCheck conv vault paths with
          | Returned pre =>
              exists r, ConvertExecution.settled converted = Returned r
                        /\ ConvertAccounted pre paths r
          | Threw message =>
              paths <> [] -> ConvertExecution.settled converted = Threw message
          end)).
Proof.
  cbv zeta. split; [apply createTasks_boundary|apply convertNotes_boundary].
Qed.

End Boundary.

(** *** A batch with failing items, and a batch that is rejected *)

Definition policyItem : BasesDataItem :=
  {| itemPath := Some "Library/Password-Policy.md"; itemName := None;
     fileBasename := Some "Password-Policy"; properties := None |}.

Definition backupItem : BasesDataItem :=
  {| itemPath := Some "Library/Backup-Recovery-Procedure.md"; itemName := None;
     fileBasename := Some "Backup-Recovery-Procedure"; properties := None |}.

Definition untitledItem : BasesDataItem :=
  {| itemPath := None; itemName := Some "Quarterly review";
     fileBasename := None; properties := None |}.

(** The task service throws for the first note, returns no file for the
    second and creates the task for anything else. *)
Definition moodyService : Collaborators :=
  {| generateMarkdownLink := fun p _ => "[[" ++ p ++ "]]";
     jsString := fun _ => "";
     createTask :=
       fun data =>
         if String.eqb (title data) "Password-Policy"
         then Threw "EEXIST: file already exists"
         else if String.eqb (title data) "Backup-Recovery-Procedure"
              then Returned None
              else Returned (Some ("TaskNotes/Tasks/" ++ title data ++ ".md")) |}.

Definition readyRuntime : CreateExecution.Runtime :=
  {| CreateExecution.services := moodyService;
     CreateExecution.getAllTasks := Returned [] |}.

(** The task cache cannot be read. *)
Definition cacheDownRuntime : CreateExecution.Runtime :=
  {| CreateExecution.services := moodyService;
     CreateExecution.getAllTasks := Threw "Task cache is not ready" |}.

Definition silentCreation (skip : bool) : CreateExecution.RunOptions :=
  {| CreateExecution.creation :=
       {| skipExisting := skip; useParentAsProject := false |};
     CreateExecution.onProgress := None |}.

(** A progress callback that fails on its second report. *)
Definition brokenProgress : ConvertExecution.RunOptions :=
  {| ConvertExecution.conversion := ConvertProofs.noExtras;
     ConvertExecution.onProgress :=
       Some (fun current _ _ =>
               if Nat.eqb current 1 then Some "progress view is gone" else None) |}.

(** C9, as stated, fails: a call of [createTasks] whose duplicate check
    cannot read the task cache, and a call of [convertNotes] whose
    progress callback throws, return no result; the promise is rejected
    and the error passes the batch boundary. *)
Lemma batch_call_can_be_rejected :
  CreateExecution.settled
    (CreateExecution.createTasks cacheDownRuntime ∅ [policyItem; backupItem]
                                 (silentCreation true))
  = Threw "Task cache is not ready"
  /\ ConvertExecution.settled
       (ConvertExecution.convertNotes
          ConvertProofs.tagSettings ConvertProofs.plainMapper
          ConvertExecutionProofs.quietRuntime ConvertProofs.oneNoteVault
          [Some "Library/Password-Policy.md"] brokenProgress)
     = Threw "progress view is gone".
Proof. split; vm_compute; reflexivity. Qed.

Lemma item_failures_never_abort_witness :
  exists r,
    CreateExecution.settled
      (CreateExecution.createTasks readyRuntime ∅
                                   [policyItem; backupItem; untitledItem]
                                   (silentCreation false))
    = Returned r
    /\ created r = 1 /\ skipped r = 0 /\ failed r = 2
    /\ errors r
       = [ "Error for Library/Password-Policy.md: EEXIST: file already exists";
           "Failed to create task for: Library/Backup-Recovery-Procedure.md" ]
    /\ createdPaths r = [ "TaskNotes/Tasks/Quarterly review.md" ]
    /\ List.length
         (CreateExecution.serviceRequests
            (CreateExecution.createTasks readyRuntime ∅
                                         [policyItem; backupItem; untitledItem]
                                         (silentCreation false))) = 3.
Proof.
  destruct (item_failures_never_abort
              readyRuntime ConvertProofs.tagSettings ConvertProofs.plainMapper
              ConvertExecutionProofs.quietRuntime ∅
              [policyItem; backupItem; untitledItem] (silentCreation false)
              [] brokenProgress) as [[_ Hresult] _].
  assert (Hquiet : quietReports (silentCreation false)) by (intros f c t s [=]).
  destruct (Hresult Hquiet) as (r & Hr & Hacc).
  exists r. split; [exact Hr|].
  assert (Hrun : CreateExecution.settled
                   (CreateExecution.createTasks readyRuntime ∅
                      [policyItem; backupItem; untitledItem] (silentCreation false))
                 = Returned
                     {| created := 1; skipped := 0; failed := 2;
                        errors :=
                          [ "Error for Library/Password-Policy.md: EEXIST: file already exists";
                            "Failed to create task for: Library/Backup-Recovery-Procedure.md" ];
                        createdPaths := [ "TaskNotes/Tasks/Quarterly review.md" ] |})
    by (vm_compute; reflexivity).
  rewrite Hrun in Hr. injection Hr as <-. cbn [created skipped failed errors createdPaths].
  repeat split; vm_compute; reflexivity.
Defined.

End BatchBoundary.

(** ** The snooze window *)

Module SnoozeWindow.
Import JsString Host BasesQueryWatcher WatcherProofs WatcherExtras.

(** The notifications opened from [w] to [w'] are none of them for [q]. *)
Definition NoModalFor (q : string) (w w' : World) : Prop :=
  exists added,
    openedModals w' = (openedModals w ++ added)%list
    /\ Forall (fun n => fst (fst n) <> q) added.

Lemma NoModalFor_same q w w' : openedModals w' = openedModals w -> NoModalFor q w w'.
Proof. intros H. exists []. split; [now rewrite app_nil_r|constructor]. Qed.

Lemma NoModalFor_trans q w1 w2 w3 :
  NoModalFor q w1 w2 -> NoModalFor q w2 w3 -> NoModalFor q w1 w3.
Proof.
  intros (a & Ha & Fa) (b & Hb & Fb). exists (a ++ b)%list. split.
  - now rewrite Hb, Ha, app_assoc.
  - apply List.Forall_app. now split.
Qed.

Lemma dueTimers_due now tbl u : In u (dueTimers now tbl) -> (due u <= now)%Z.
Proof.
  unfold dueTimers.
  assert (H : forall l acc, In u (fold_left (fun acc t => insertByDue t acc) l acc) ->
                            In u l \/ In u acc).
  { induction l as [|x r IH]; intros acc Hin; [now right|].
    cbn [fold_left] in Hin. destruct (IH _ Hin) as [Hr|Hacc]; [left; now right|].
    apply TimerExtras.insertByDue_In in Hacc as [->|Hacc]; [left; now left|now right]. }
  intros Hin. apply H in Hin as [Hin|[]].
  apply filter_In in Hin as [_ Hd]. now apply Z.leb_le.
Qed.

Section Window.
Variable env : Env.
Variable q : string.
Variable deadline : Z.

(** Whenever the watcher reads the definition of [q] before the deadline,
    it still asks for notifications (or the read fails). *)
Definition StaysMonitored : Prop :=
  forall t c, (t < deadline)%Z -> readBaseConfig env t q = Returned c -> notify c = true.

(** The actions that leave the registration of [q] and its snooze to the
    watcher: not the teardown, not another snooze of [q], not the deletion
    of its file, not a rename of its file or onto its path. *)
Definition leavesRegistered (a : Action) : bool :=
  match a with
  | Destroy => false
  | SnoozeBase basePath _ => negb (String.eqb basePath q)
  | Dispatch (FileDeletedEvent file) =>
      negb (String.eqb (extension file) "base" && String.eqb (filePath file) q)
  | Dispatch (FileRenamedEvent file oldPath) =>
      negb (String.eqb (extension file) "base"
            && (String.eqb oldPath q || String.eqb (filePath file) q))
  | _ => true
  end.

(** [q] is registered with the deadline. *)
Definition SnoozedIn (reg : list (string * MonitoredBase)) : Prop :=
  exists m, mapGet q reg = Some m /\ snoozedUntil m = deadline.

Definition Snoozed (w : World) : Prop :=
  WellKeyedWorld w /\ SnoozedIn (monitoredBases (self w)).

Hypothesis monitored : StaysMonitored.

Lemma SnoozedIn_checkAndRegisterBase t file reg :
  (t < deadline)%Z -> SnoozedIn reg -> SnoozedIn (checkAndRegisterBase env t file reg).
Proof.
  intros Ht (m & Hget & Hs). destruct file as [fp bn]. unfold SnoozedIn.
  rewrite checkAndRegisterBase_lookup.
  destruct (String.eqb_spec fp q) as [->|Hne]; [|now exists m].
  destruct (readBaseConfig env t q) as [c|msg] eqn:Hread; [|now exists m].
  rewrite (monitored t c Ht Hread), Hget. eexists. split; [reflexivity|exact Hs].
Qed.

Lemma Snoozed_scan t w :
  (t < deadline)%Z -> Snoozed w ->
  Snoozed (scanForMonitoredBases env t w)
  /\ openedModals (scanForMonitoredBases env t w) = openedModals w.
Proof.
  intros Ht [Hwk Hs]. split; [|reflexivity]. split; [now apply WellKeyed_scan|].
  unfold scanForMonitoredBases. cbn [onSelf withSelf self withBases monitoredBases].
  revert Hs. generalize (monitoredBases (self w)).
  induction (baseFiles env t) as [|f r IH]; intros reg Hs; cbn [fold_left]; [exact Hs|].
  apply IH. now apply SnoozedIn_checkAndRegisterBase.
Qed.

Lemma Snoozed_pass t w :
  (t < deadline)%Z -> Snoozed w ->
  Snoozed (evaluatePendingBases env t w)
  /\ NoModalFor q w (evaluatePendingBases env t w)
  /\ mapGet q (monitoredBases (self (evaluatePendingBases env t w)))
     = mapGet q (monitoredBases (self w)).
Proof.
  intros Ht [Hwk (m & Hget & Hs)].
  assert (Hlt : (t < snoozedUntil m)%Z) by lia.
  destruct (snoozed_entry_is_skipped env t w q m Hget Hwk) as (_ & Hpass & _).
  destruct (Hpass Hlt) as (Hsame & Hmod & _).
  split; [|split].
  - split; [now apply WellKeyed_evaluatePendingBases|]. now exists m.
  - exact Hmod.
  - now rewrite Hsame, Hget.
Qed.

Lemma handlePathChange_modals changed t w :
  openedModals (handlePathChange changed t w) = openedModals w.
Proof.
  unfold handlePathChange, scheduleEvaluation. cbv zeta.
  cbn [onSelf withSelf self withPending evaluationDebounceTimer].
  now destruct (evaluationDebounceTimer (self w)).
Qed.

Lemma Snoozed_handlePathChange changed t w :
  Snoozed w ->
  Snoozed (handlePathChange changed t w)
  /\ NoModalFor q w (handlePathChange changed t w).
Proof.
  intros [Hwk Hs]. split.
  - split; [now apply WellKeyed_handlePathChange|].
    now rewrite (proj2 (handlePathChange_frame changed t w)).
  - apply NoModalFor_same, handlePathChange_modals.
Qed.

(** Changes of the world that leave the watcher's registry and the
    opened notifications alone. *)
Lemma Snoozed_registry w w' :
  monitoredBases (self w') = monitoredBases (self w) ->
  openedModals w' = openedModals w ->
  Snoozed w -> Snoozed w' /\ NoModalFor q w w'.
Proof.
  intros Hreg Hmod [Hwk Hs]. split; [|now apply NoModalFor_same].
  unfold Snoozed, WellKeyedWorld. now rewrite Hreg.
Qed.

Lemma Snoozed_fireTimer t w timer :
  (t < deadline)%Z -> Snoozed w ->
  Snoozed (fireTimer env t w timer) /\ NoModalFor q w (fireTimer env t w timer).
Proof.
  intros Ht Hs. unfold fireTimer.
  destruct (existsb _ (timers w)); [|split; [exact Hs|now apply NoModalFor_same]].
  set (w0 := {| self := self w; timers := _ |}).
  assert (H0 : Snoozed w0) by exact Hs.
  assert (Hm0 : openedModals w0 = openedModals w) by reflexivity.
  clearbody w0.
  assert (Hgoal : Snoozed (runCallback env (callback timer) t w0)
                  /\ NoModalFor q w0 (runCallback env (callback timer) t w0)).
  { destruct (callback timer); cbn [runCallback].
    - unfold startupScan.
      destruct (Snoozed_scan t w0 Ht H0) as [H1 Hm1].
      destruct (Snoozed_registry
                  (scanForMonitoredBases env t w0)
                  (startPeriodicScan t
                     (setupEventListeners (scanForMonitoredBases env t w0)))
                  eq_refl eq_refl H1) as [H2 _].
      split; [exact H2|]. apply NoModalFor_same. exact Hm1.
    - unfold debouncedEvaluation.
      assert (H1 : Snoozed (onSelf (withDebounceTimer None) w0)) by exact H0.
      destruct (Snoozed_pass t _ Ht H1) as (H2 & H3 & _). split; [exact H2|exact H3].
    - unfold periodicScan. cbv zeta.
      destruct (Snoozed_scan t w0 Ht H0) as [H1 Hm1].
      set (w2 := onSelf _ (scanForMonitoredBases env t w0)).
      assert (H2 : Snoozed w2) by exact H1.
      assert (Hm2 : openedModals w2 = openedModals w0) by exact Hm1.
      clearbody w2.
      destruct (0 <? _)%nat.
      + destruct (Snoozed_pass t w2 Ht H2) as (H3 & H4 & _). split; [exact H3|].
        apply (NoModalFor_trans q w0 w2); [now apply NoModalFor_same|exact H4].
      + split; [exact H2|now apply NoModalFor_same]. }
  destruct Hgoal as [H1 H2]. split; [exact H1|].
  apply (NoModalFor_trans q w w0); [now apply NoModalFor_same|exact H2].
Qed.

Lemma Snoozed_advanceTo t w :
  (t < deadline)%Z -> Snoozed w ->
  Snoozed (advanceTo env t w) /\ NoModalFor q w (advanceTo env t w).
Proof.
  intros Ht. unfold advanceTo.
  pose proof (dueTimers_due t (timers w)) as Hdue.
  revert Hdue. generalize (dueTimers t (timers w)). intros ts. revert w.
  induction ts as [|timer r IH]; intros w Hdue Hs; cbn [fold_left].
  - split; [exact Hs|now apply NoModalFor_same].
  - assert (Hd : (due timer < deadline)%Z)
      by (specialize (Hdue timer (or_introl eq_refl)); lia).
    destruct (Snoozed_fireTimer (due timer) w timer Hd Hs) as [H1 H2].
    destruct (IH (fireTimer env (due timer) w timer)) as [H3 H4];
      [intros u Hu; apply Hdue; now right|exact H1|].
    split; [exact H3|]. now apply (NoModalFor_trans q _ _ _ H2).
Qed.

Lemma SnoozedIn_other (f : list (string * MonitoredBase) -> list (string * MonitoredBase))
      reg :
  mapGet q (f reg) = mapGet q reg -> SnoozedIn reg -> SnoozedIn (f reg).
Proof. intros H (m & Hget & Hs). exists m. now rewrite H. Qed.

Lemma Snoozed_handleEvent ev t w :
  (t < deadline)%Z -> leavesRegistered (Dispatch ev) = true -> Snoozed w ->
  Snoozed (handleEvent env ev t w) /\ NoModalFor q w (handleEvent env ev t w).
Proof.
  intros Ht Hok Hs. pose proof Hs as [Hwk Hin].
  assert (Hwk' : WellKeyedWorld (handleEvent env ev t w))
    by now apply WellKeyed_handleEvent.
  destruct ev as [taskPath|file|file|file oldPath]; cbn [handleEvent] in *.
  - destruct (truthy _); [now apply Snoozed_handlePathChange|].
    split; [exact Hs|now apply NoModalFor_same].
  - destruct (String.eqb (extension file) "base").
    + split; [|now apply NoModalFor_same]. split; [exact Hwk'|].
      now apply SnoozedIn_checkAndRegisterBase.
    + destruct (String.eqb (extension file) "md");
        [now apply Snoozed_handlePathChange|].
      split; [exact Hs|now apply NoModalFor_same].
  - cbn [leavesRegistered] in Hok.
    destruct (String.eqb (extension file) "base"); cbn [andb] in Hok.
    + split; [|now apply NoModalFor_same]. split; [exact Hwk'|].
      apply negb_true_iff, String.eqb_neq in Hok.
      apply (SnoozedIn_other (mapDelete (filePath file))); [|exact Hin].
      now apply mapGet_mapDelete_ne.
    + now apply Snoozed_handlePathChange.
  - cbn [leavesRegistered] in Hok.
    destruct (String.eqb (extension file) "base"); cbn [andb] in Hok.
    + apply negb_true_iff, orb_false_iff in Hok as [Hold Hnew].
      apply String.eqb_neq in Hold, Hnew.
      destruct (mapGet oldPath (monitoredBases (self w))) as [existing|];
        [|split; [exact Hs|now apply NoModalFor_same]].
      split; [|now apply NoModalFor_same]. split; [exact Hwk'|].
      apply (SnoozedIn_other
               (fun reg => mapSet (filePath file) (setPath (filePath file) existing)
                                  (mapDelete oldPath reg))); [|exact Hin].
      rewrite mapGet_mapSet_ne by exact Hnew. now apply mapGet_mapDelete_ne.
    + destruct (Snoozed_handlePathChange (filePath file) t w Hs) as [H1 H2].
      destruct (Snoozed_handlePathChange oldPath t _ H1) as [H3 H4].
      split; [exact H3|]. now apply (NoModalFor_trans q _ _ _ H2).
Qed.

Lemma WellKeyed_path reg k m :
  WellKeyed reg -> mapGet k reg = Some m -> path m = k.
Proof.
  intros Hwk Hget. apply mapGet_In in Hget. unfold WellKeyed in Hwk.
  rewrite List.Forall_forall in Hwk. exact (Hwk _ Hget).
Qed.

Lemma Snoozed_showNotificationFromView basePath baseName items t w :
  (t < deadline)%Z -> Snoozed w ->
  Snoozed (showNotificationFromView basePath baseName items t w)
  /\ NoModalFor q w (showNotificationFromView basePath baseName items t w).
Proof.
  intros Ht Hs. pose proof Hs as [Hwk (m & Hget & Hsn)].
  destruct (String.eqb_spec basePath q) as [->|Hne].
  - assert (Hlt : (t < snoozedUntil m)%Z) by lia.
    destruct (snoozed_entry_is_skipped env t w q m Hget Hwk) as (_ & Hpass & _).
    destruct (Hpass Hlt) as (_ & _ & Hview). rewrite Hview.
    split; [exact Hs|now apply NoModalFor_same].
  - unfold showNotificationFromView. destruct items as [|i rest];
      [split; [exact Hs|now apply NoModalFor_same]|].
    set (items := i :: rest).
    set (fresh := {| path := basePath; name := baseName; snoozedUntil := 0;
                     lastResultCount := 0; cachedPaths := ∅ |}).
    set (w1 := match mapGet basePath (monitoredBases (self w)) with
               | Some _ => w
               | None => onSelf (fun s => withBases (mapSet basePath fresh
                                                       (monitoredBases s)) s) w
               end).
    assert (H1 : Snoozed w1 /\ openedModals w1 = openedModals w).
    { subst w1. destruct (mapGet basePath (monitoredBases (self w))); [now split|].
      split; [|reflexivity]. split.
      - apply WellKeyed_mapSet; [reflexivity|exact Hwk].
      - exists m. cbn [onSelf withSelf self withBases monitoredBases].
        now rewrite mapGet_mapSet_ne. }
    assert (Hp : path (default fresh (mapGet basePath (monitoredBases (self w1))))
                 = basePath).
    { destruct H1 as [[Hwk1 _] _].
      destruct (mapGet basePath (monitoredBases (self w1))) as [m1|] eqn:E; [|reflexivity].
      exact (WellKeyed_path _ _ _ Hwk1 E). }
    clearbody w1. destruct H1 as [[Hwk1 (m1 & Hget1 & Hsn1)] Hm1].
    destruct (snoozedUntil _ >? t)%Z.
    + split; [split; [exact Hwk1|now exists m1]|now apply NoModalFor_same].
    + unfold Snoozed, SnoozedIn, WellKeyedWorld, NoModalFor.
      cbn [showNotification openModal onSelf withSelf self withBases monitoredBases
           openedModals].
      split.
      * split; [now apply WellKeyed_setCached|]. exists m1.
        now rewrite mapGet_mapAlter_ne.
      * eexists. rewrite Hm1. split; [reflexivity|].
        constructor; [|constructor]. cbn [fst setCached path]. now rewrite Hp.
Qed.

(** One action before the deadline. *)
Lemma Snoozed_act w step :
  (fst step < deadline)%Z -> leavesRegistered (snd step) = true -> Snoozed w ->
  Snoozed (act env w step) /\ NoModalFor q w (act env w step).
Proof.
  destruct step as [t a]. cbn [fst snd]. intros Ht Hok Hs. unfold act. cbn [fst snd].
  destruct a as [| | |ev|basePath minutes|basePath|basePath baseName items].
  - unfold initialize. destruct (initialized (self w));
      [split; [exact Hs|now apply NoModalFor_same]|].
    now apply Snoozed_registry.
  - discriminate Hok.
  - now apply Snoozed_advanceTo.
  - unfold dispatch. destruct (existsb _ _); [now apply Snoozed_handleEvent|].
    split; [exact Hs|now apply NoModalFor_same].
  - cbn [leavesRegistered] in Hok. apply negb_true_iff, String.eqb_neq in Hok.
    unfold snoozeBase. destruct (mapGet basePath (monitoredBases (self w))) as [m0|];
      [|split; [exact Hs|now apply NoModalFor_same]].
    split; [|now apply NoModalFor_same]. destruct Hs as [Hwk (m & Hget & Hsn)]. split.
    + now apply WellKeyed_mapAlter.
    + exists m. cbn [onSelf withSelf self withBases monitoredBases].
      now rewrite mapGet_mapAlter_ne.
  - unfold triggerEvaluation.
    set (w0 := onSelf _ w). assert (H0 : Snoozed w0) by exact Hs.
    assert (Hm0 : openedModals w0 = openedModals w) by reflexivity. clearbody w0.
    destruct (Snoozed_pass t w0 Ht H0) as (H1 & H2 & _). split; [exact H1|].
    apply (NoModalFor_trans q w w0); [now apply NoModalFor_same|exact H2].
  - now apply Snoozed_showNotificationFromView.
Qed.

Lemma Snoozed_history later w :
  Forall (fun step => (fst step < deadline)%Z /\ leavesRegistered (snd step) = true)
         later ->
  Snoozed w ->
  Snoozed (fold_left (act env) later w) /\ NoModalFor q w (fold_left (act env) later w).
Proof.
  intros Hall. revert w. induction Hall as [|step rest [Ht Hok] _ IH]; intros w Hs;
    cbn [fold_left].
  - split; [exact Hs|now apply NoModalFor_same].
  - destruct (Snoozed_act w step Ht Hok Hs) as [H1 H2].
    destruct (IH _ H1) as [H3 H4]. split; [exact H3|].
    now apply (NoModalFor_trans q _ _ _ H2).
Qed.

End Window.

(** *** Claim C7 *)

(** C7 (amended): [snoozeBase] sets the deadline of a registered query to
    [now + durationMinutes * 60 * 1000].  From then on, through every
    history of watcher actions that take place before the deadline, as
    long as the query stays registered (its definition, whenever the
    watcher reads it, still asks for notifications or cannot be read; its
    file is neither deleted nor renamed, no other file is renamed onto its
    path, the watcher is not torn down) and is not snoozed again: the
    entry keeps the deadline, re-registrations included; no notification
    is opened for the query by any of these actions; an evaluation pass
    begun before the deadline leaves the entry untouched and opens no
    notification for it, and a result pushed by a view is dropped; while a
    change to a path of its cached set still puts the query into the
    pending set.  A registration that finds the definition no longer
    asking for notifications removes the entry, and a registration that
    finds no entry starts one that is not snoozed.  Each action runs to
    its end before the next one starts:
    an evaluation of the query that is already waiting for its result
    when [snoozeBase] is called is left out. *)
Theorem snooze_silences_until_deadline
        (env : Env) (history later : list (Z * Action))
        (now durationMinutes : Z) (q : string) :
  let deadline := (now + durationMinutes * 60 * 1000)%Z in
  let w0 := run env history in
  let w1 := snoozeBase q durationMinutes now w0 in
  let w2 := fold_left (act env) later w1 in
  mapGet q (monitoredBases (self w0)) <> None ->
  StaysMonitored env q deadline ->
  Forall (fun step => (fst step < deadline)%Z /\ leavesRegistered q (snd step) = true)
         later ->
  (exists m0, mapGet q (monitoredBases (self w0)) = Some m0
              /\ mapGet q (monitoredBases (self w1)) = Some (setSnoozedUntil deadline m0))
  /\ (exists m,
         mapGet q (monitoredBases (self w2)) = Some m
         /\ snoozedUntil m = deadline
         /\ (forall changed t,
                changed ∈ cachedPaths m ->
                In q (pendingEvaluations (self (handlePathChange changed t w2))))
         /\ (forall t,
                (t < deadline)%Z ->
                mapGet q (monitoredBases (self (evaluatePendingBases env t w2))) = Some m
                /\ NoModalFor q w2 (evaluatePendingBases env t w2)
                /\ forall baseName items,
                    showNotificationFromView q baseName items t w2 = w2))
  /\ NoModalFor q w1 w2
  /\ (forall reg t baseName c,
         readBaseConfig env t q = Returned c ->
         (notify c = false ->
          mapGet q (checkAndRegisterBase env t (q, baseName) reg) = None)
         /\ (notify c = true -> mapGet q reg = None ->
             (snoozedUntil <$> mapGet q (checkAndRegisterBase env t (q, baseName) reg))
             = Some 0%Z)).
Proof.
  intros deadline w0 w1 w2 Hreg Hmon Hlater.
  pose proof (run_WellKeyed env history) as Hwk0. fold w0 in Hwk0.
  destruct (mapGet q (monitoredBases (self w0))) as [m0|] eqn:Hget0; [|contradiction].
  assert (Hget1 : mapGet q (monitoredBases (self w1)) = Some (setSnoozedUntil deadline m0)).
  { subst w1. unfold snoozeBase. rewrite Hget0.
    cbn [onSelf withSelf self withBases monitoredBases].
    now rewrite mapGet_mapAlter_eq, Hget0. }
  assert (Hs1 : Snoozed q deadline w1).
  { split; [|eexists; split; [exact Hget1|reflexivity]].
    subst w1. unfold snoozeBase, WellKeyedWorld. rewrite Hget0.
    cbn [onSelf withSelf self withBases monitoredBases].
    now apply WellKeyed_mapAlter. }
  destruct (Snoozed_history env q deadline Hmon later w1 Hlater Hs1)
    as [[Hwk2 (m & Hget2 & Hsn2)] Hquiet].
  fold w2 in Hwk2, Hget2, Hquiet.
  split; [exists m0; now split|].
  split; [|split; [exact Hquiet|]].
  2:{ intros reg t baseName c Hread. rewrite checkAndRegisterBase_lookup.
      rewrite String.eqb_refl, Hread.
      split; [now intros ->|]. intros -> ->. reflexivity. }
  exists m. split; [exact Hget2|]. split; [exact Hsn2|].
  split.
  - intros changed t Hc.
    destruct (snoozed_entry_is_skipped env t w2 q m Hget2 Hwk2) as (_ & _ & Hmark).
    now apply Hmark.
  - intros t Ht.
    destruct (snoozed_entry_is_skipped env t w2 q m Hget2 Hwk2) as (_ & Hpass & _).
    assert (Hlt : (t < snoozedUntil m)%Z) by lia.
    destruct (Hpass Hlt) as (H1 & H2 & H3). split; [exact H1|]. split; [exact H2|exact H3].
Qed.

(** The query file, as the host reports it. *)
Definition overdueBaseFile : FileRef :=
  {| filePath := overdueBase; fileBasename := "Overdue"; extension := "base" |}.

(** The watcher starts, notifies once after a change, and the query is
    snoozed for a quarter of an hour at 8 s: the deadline is 908 s. *)
Definition untilSnooze : list (Z * Action) :=
  [ (0, Initialize); (5000, Advance);
    (6000, Dispatch (MetadataChangedEvent policyFile)); (7000, Advance);
    (8000, SnoozeBase overdueBase 15) ]%Z.

(** Between 10 s and 20 s the definition file is being edited and does
    not ask for notifications (so reads [parseBaseConfig] a file it cannot
    parse, too); before and after it does. *)
Definition editedEnv : Env :=
  {| baseFiles := fun _ => [(overdueBase, "Overdue")];
     readBaseConfig :=
       fun t _ =>
         if ((10000 <=? t) && (t <? 20000))%Z
         then Returned {| configName := Some "Overdue reviews"; notify := false;
                          source := Some "file.inFolder('Library')" |}
         else Returned overdueConfig;
     isFile := fun _ _ => true;
     liveView := fun _ _ => Returned None;
     evaluateSourceFilter := fun _ _ => Returned libraryItems |}.

(** The host reports the definition file changed at 12 s and again at
    25 s, then a changed note at 26 s; the debounce timer fires at 27 s. *)
Definition afterSnooze : list (Z * Action) :=
  [ (12000, Dispatch (MetadataChangedEvent overdueBaseFile));
    (25000, Dispatch (MetadataChangedEvent overdueBaseFile));
    (26000, Dispatch (MetadataChangedEvent policyFile));
    (27000, Advance) ]%Z.

(** C7, as stated, fails: the query is snoozed at 8 s until 908 s, every
    later action takes place within the quarter of an hour, and yet a
    second notification is opened for the query at 27 s.  The definition
    file stopped asking for notifications for a moment, the entry was
    removed with its deadline, and the next registration started it
    unsnoozed. *)
Lemma snooze_lost_on_reregistration :
  (snoozedUntil <$> mapGet overdueBase
                      (monitoredBases (self (run editedEnv untilSnooze))))
  = Some 908000%Z
  /\ map (fun n => fst (fst n)) (openedModals (run editedEnv untilSnooze))
     = [overdueBase]
  /\ Forall (fun step => (8000 <= fst step < 908000)%Z) afterSnooze
  /\ (snoozedUntil <$> mapGet overdueBase
                         (monitoredBases
                            (self (run editedEnv (untilSnooze ++ afterSnooze)))))
     = Some 0%Z
  /\ map (fun n => fst (fst n))
         (openedModals (run editedEnv (untilSnooze ++ afterSnooze)))
     = [overdueBase; overdueBase].
Proof.
  split; [vm_compute; reflexivity|]. split; [vm_compute; reflexivity|].
  split; [repeat constructor; cbn; lia|].
  split; vm_compute; reflexivity.
Qed.

(** With a definition that keeps asking for notifications, nothing is
    shown for the snoozed query: not after changed notes, not at the
    periodic scan, not on a manual evaluation. *)
Definition quietAfterSnooze : list (Z * Action) :=
  [ (9000, Dispatch (MetadataChangedEvent policyFile)); (10000, Advance);
    (12000, Dispatch (MetadataChangedEvent overdueBaseFile));
    (305000, Advance); (400000, TriggerEvaluation overdueBase) ]%Z.

Definition beforeSnooze : list (Z * Action) :=
  [ (0, Initialize); (5000, Advance);
    (6000, Dispatch (MetadataChangedEvent policyFile)); (7000, Advance) ]%Z.

Lemma snooze_silences_until_deadline_witness :
  let w1 := snoozeBase overdueBase 15 8000 (run steadyEnv beforeSnooze) in
  let w2 := fold_left (act steadyEnv) quietAfterSnooze w1 in
  (exists m, mapGet overdueBase (monitoredBases (self w2)) = Some m
             /\ snoozedUntil m = (8000 + 15 * 60 * 1000)%Z)
  /\ NoModalFor overdueBase w1 w2.
Proof.
  cbv zeta.
  destruct (snooze_silences_until_deadline
              steadyEnv beforeSnooze quietAfterSnooze 8000 15 overdueBase)
    as (_ & (m & Hget & Hsn & _) & Hquiet & _).
  - vm_compute. discriminate.
  - intros t c _ [= <-]. reflexivity.
  - repeat constructor; cbn; lia.
  - split; [exists m; split; [exact Hget|exact Hsn]|exact Hquiet].
Defined.

End SnoozeWindow.

(** ** Evaluations and the identity of entries *)

Module WatcherObjectsProofs.
Import JsString Host BasesQueryWatcher WatcherProofs WatcherObjects.

(** What an evaluation that resumes with a result makes of the fields of
    the object it holds. *)
Definition refreshed (e : EntryObject) (results : option (list NotificationItem))
  : MonitoredBase :=
  {| path := entryPath e; name := entryName e; snoozedUntil := entrySnoozedUntil e;
     lastResultCount := List.length (default [] results);
     cachedPaths := pathSet (default [] results) |}.

(** The notification opened for a result, if any. *)
Definition announced (e : EntryObject) (results : option (list NotificationItem))
  : list (string * string * list NotificationItem) :=
  match results with
  | Some (r :: rs) => [(entryPath e, entryName e, r :: rs)]
  | _ => []
  end.

(** The evaluation resumes on the object that is still registered. *)
Lemma resumeWith_registered held answer st q e :
  entries st !! held = Some e ->
  registeredObject st q = Some held ->
  match answer with
  | Returned results =>
      lookup (resumeWith held answer st) q = Some (refreshed e results)
      /\ modals (resumeWith held answer st) = (modals st ++ announced e results)%list
  | Threw _ => resumeWith held answer st = st
  end.
Proof.
  intros He Hreg. unfold resumeWith. rewrite He.
  destruct answer as [[[|r rs]|]|msg]; [| | |reflexivity];
    unfold lookup, registeredObject, resolve, refreshed, announced in *;
    cbn [newSet withEntries withSets entries sets registry modals nextRef
         entryPath entryName entrySnoozedUntil entryResultCount entryCachedPaths
         default];
    rewrite Hreg, !lookup_insert_eq;
    cbn [entryPath entryName entrySnoozedUntil entryResultCount entryCachedPaths];
    rewrite ?lookup_insert_eq, ?app_nil_r; split; reflexivity.
Qed.

(** The evaluation resumes after the entry has been replaced: the result
    and the count go to the object held, the notification is opened, and
    the registered entry is as the replacement left it. *)
Lemma resumeWith_replaced held r rs st q other e e' :
  entries st !! held = Some e ->
  registeredObject st q = Some other ->
  other <> held ->
  entries st !! other = Some e' ->
  entryCachedPaths e' <> nextRef st ->
  let after := resumeWith held (Returned (Some (r :: rs))) st in
  lookup after q = lookup st q
  /\ modals after = (modals st ++ [(entryPath e, entryName e, r :: rs)])%list.
Proof.
  intros He Hreg Hne He' Hfresh. cbv zeta. unfold resumeWith. rewrite He.
  unfold lookup, registeredObject, resolve in *.
  cbn [newSet withEntries entries sets registry modals nextRef].
  rewrite Hreg. rewrite lookup_insert_ne by congruence. rewrite He'.
  rewrite lookup_insert_ne by congruence. split; reflexivity.
Qed.

Section Pass.
Variable env : Env.
Variable now : Z.

(** *** Claim C5 *)

(** C5 (amended): an evaluation of a monitored query takes the entry
    object of the query from the registry, awaits [evaluateBaseQuery] and
    resumes on that object.  Whatever the watcher did in between, if the
    object is still the one registered under the path of the query when
    the evaluation resumes, then: when [evaluateBaseQuery] returned, the
    cached result-path set of the query is exactly the returned path set
    (the empty set when nothing or an empty list was returned) and the
    result count the number of results; when [evaluateBaseQuery] itself
    threw, nothing changes.  In a pass that runs in one piece this holds
    of every query that was pending and not snoozed, every other entry
    is unchanged, and what happens to one query of the pass does not
    keep the others from being evaluated.  A failure inside the fallback
    evaluator (the definition cannot be read, or the source filter
    throws) is caught there, counts as an evaluation that returned no
    results, and empties the cached set.  The statement leaves out what
    the registered entry holds when the entry object has been replaced
    during the wait. *)
Theorem evaluation_cache_follows_results
        (meanwhile : Store -> Store) (st : Store) (q : string)
        (held : positive) (e : EntryObject)
        (w : World) (m : MonitoredBase) :
  (holdEntry now st q = Some held ->
   entries (meanwhile st) !! held = Some e ->
   registeredObject (meanwhile st) q = Some held ->
   match evaluateBaseQuery env now q with
   | Returned results =>
       lookup (WatcherObjects.evaluateOne env now meanwhile st q) q
       = Some (refreshed e results)
       /\ modals (WatcherObjects.evaluateOne env now meanwhile st q)
          = (modals (meanwhile st) ++ announced e results)%list
   | Threw _ => WatcherObjects.evaluateOne env now meanwhile st q = meanwhile st
   end)
  /\ (mapGet q (monitoredBases (self w)) = Some m ->
      exists m',
        mapGet q (monitoredBases (self (evaluatePendingBases env now w))) = Some m'
        /\ (if existsb (String.eqb q) (pendingEvaluations (self w))
               && negb (snoozedUntil m >? now)%Z
            then match evaluateBaseQuery env now q with
                 | Returned results =>
                     cachedPaths m' = pathSet (default [] results)
                     /\ lastResultCount m' = List.length (default [] results)
                     /\ snoozedUntil m' = snoozedUntil m
                 | Threw _ => m' = m
                 end
            else m' = m))
  /\ ((exists msg, readBaseConfig env now q = Threw msg)
      \/ (exists cfg msg,
             readBaseConfig env now q = Returned cfg
             /\ evaluateSourceFilter env now (default "" (source cfg)) = Threw msg) ->
      isFile env now q = true ->
      liveView env now q = Returned None ->
      evaluateBaseQuery env now q = Returned None).
Proof.
  split; [|split].
  - intros Hheld He Hreg. unfold WatcherObjects.evaluateOne. rewrite Hheld.
    exact (resumeWith_registered held (evaluateBaseQuery env now q) (meanwhile st) q e
             He Hreg).
  - intros Hget. rewrite evaluatePendingBases_get, Hget.
    destruct (existsb _ _); cbn [fmap option_fmap option_map andb].
    + exists (evaluated env now q m). split; [reflexivity|].
      unfold evaluated. destruct (snoozedUntil m >? now)%Z; cbn [negb]; [reflexivity|].
      now destruct (evaluateBaseQuery env now q) as [[[|r rs]|]|msg].
    + exists m. now split.
  - intros Hfail Hfile Hview. unfold evaluateBaseQuery.
    rewrite Hfile, Hview. cbn [negb].
    now rewrite (evaluateWithTemporaryView_failure env now q Hfail).
Qed.

End Pass.

(** *** Two interleavings *)

(** The query is registered, with no result cached yet. *)
Definition registeredStore : Store :=
  registerBase overdueConfig (overdueBase, "Overdue") emptyStore.

(** While the evaluation awaits its result, the host reports the
    definition file changed and the query is registered again. *)
Definition reregistered : Store -> Store :=
  WatcherObjects.checkAndRegisterBase steadyEnv 1000 (overdueBase, "Overdue").

(** The evaluation finds the two notes and opens the notification, but
    the entry that is registered when it ends has no cached path and a
    result count of zero: the results went to the object that the
    registration replaced.  Without the registration in between, the entry
    holds the two paths and the count two. *)
Lemma replaced_entry_misses_results :
  let after := WatcherObjects.evaluateOne steadyEnv 1000 reregistered registeredStore
                                          overdueBase in
  let alone := WatcherObjects.evaluateOne steadyEnv 1000 id registeredStore
                                          overdueBase in
  evaluateBaseQuery steadyEnv 1000 overdueBase = Returned (Some libraryItems)
  /\ modals after = [(overdueBase, "Overdue reviews", libraryItems)]
  /\ (lastResultCount <$> lookup after overdueBase) = Some 0
  /\ (cachedPaths <$> lookup after overdueBase) = Some ∅
  /\ (lastResultCount <$> lookup alone overdueBase) = Some 2
  /\ (cachedPaths <$> lookup alone overdueBase) = Some (pathSet libraryItems).
Proof.
  cbv zeta. repeat split; vm_compute; reflexivity.
Qed.

(** While the evaluation awaits its result, the query is snoozed for a
    quarter of an hour. *)
Definition snoozedMeanwhile : Store -> Store :=
  WatcherObjects.snoozeBase overdueBase 15 1000.

(** The evaluation resumes and opens the notification although the query
    is snoozed by then: the deadline is looked at before the wait only. *)
Lemma late_snooze_is_not_seen :
  let after := WatcherObjects.evaluateOne steadyEnv 1000 snoozedMeanwhile registeredStore
                                          overdueBase in
  (snoozedUntil <$> lookup (snoozedMeanwhile registeredStore) overdueBase)
  = Some 901000%Z
  /\ (snoozedUntil <$> lookup after overdueBase) = Some 901000%Z
  /\ modals (snoozedMeanwhile registeredStore) = []
  /\ modals after = [(overdueBase, "Overdue reviews", libraryItems)].
Proof.
  cbv zeta. repeat split; vm_compute; reflexivity.
Qed.

(** A snooze arriving during the wait leaves the object registered: the
    results reach the registered entry. *)
Lemma evaluation_cache_follows_results_witness :
  lookup (WatcherObjects.evaluateOne steadyEnv 1000 snoozedMeanwhile registeredStore
                                     overdueBase) overdueBase
  = Some {| path := overdueBase; name := "Overdue reviews"; snoozedUntil := 901000;
            lastResultCount := 2; cachedPaths := pathSet libraryItems |}.
Proof.
  destruct (evaluation_cache_follows_results
              steadyEnv 1000 snoozedMeanwhile registeredStore overdueBase 2%positive
              {| entryPath := overdueBase; entryName := "Overdue reviews";
                 entrySnoozedUntil := 901000; entryResultCount := 0;
                 entryCachedPaths := 1%positive |}
              newWorld (overdueEntry 0)) as [Hresumed _].
  assert (Hanswer : evaluateBaseQuery steadyEnv 1000 overdueBase
                    = Returned (Some libraryItems)) by reflexivity.
  rewrite Hanswer in Hresumed.
  destruct Hresumed as [Hlookup _].
  - vm_compute. reflexivity.
  - vm_compute. reflexivity.
  - vm_compute. reflexivity.
  - rewrite Hlookup. reflexivity.
Defined.

(** *** The evaluation in one piece *)

(** With nothing in between, an evaluation does to the entry of the query
    what the pass of [BasesQueryWatcher] does to it. *)
Lemma evaluateOne_alone env now st q m :
  lookup st q = Some m ->
  lookup (WatcherObjects.evaluateOne env now id st q) q = Some (evaluated env now q m).
Proof.
  intros Hm. unfold WatcherObjects.evaluateOne, holdEntry, evaluated.
  pose proof Hm as Hm'. unfold lookup, resolve in Hm'.
  destruct (registeredObject st q) as [ref|] eqn:Hreg; [|discriminate].
  destruct (entries st !! ref) as [e|] eqn:He; [|discriminate].
  destruct (sets st !! entryCachedPaths e) as [paths|] eqn:Hs; [|discriminate].
  injection Hm' as <-. cbn [snoozedUntil].
  destruct (entrySnoozedUntil e >? now)%Z; [exact Hm|].
  pose proof (resumeWith_registered ref (evaluateBaseQuery env now q) st q e He Hreg) as H.
  unfold id. destruct (evaluateBaseQuery env now q) as [[[|r rs]|]|msg].
  - destruct H as [-> _]. reflexivity.
  - destruct H as [-> _]. reflexivity.
  - destruct H as [-> _]. reflexivity.
  - rewrite H. unfold lookup, resolve. now rewrite Hreg, He, Hs.
Qed.

End WatcherObjectsProofs.

(** ** The first models as special cases

    Where no field name is inherited, the wait for the cache succeeds,
    the progress callback does not throw and the up-front checks return,
    the engines of [ConvertExecution] and [CreateExecution] do what
    [BulkConvertEngine] and [BulkTaskEngine] say. *)

Module ModelAgreement.
Import JsString Host PlainObject ConversionExtras ConvertExecutionProofs.

Section Conversion.
Import BulkConvertEngine.
Variable settings : Settings.
Variable fieldMapper : FieldMapper.
Variable host : ConvertExecution.Runtime.

(** None of the configured field names is a name that objects inherit. *)
Definition PlainNames : Prop :=
  inherited (taskPropertyName settings) = false
  /\ inherited (statusField fieldMapper) = false
  /\ inherited (priorityField fieldMapper) = false
  /\ inherited (dateCreatedField fieldMapper) = false
  /\ inherited (projectsField fieldMapper) = false
  /\ inherited (dateModifiedField fieldMapper) = false.

Hypothesis plain : PlainNames.

Lemma whenUndefinedAt_plain key v o :
  inherited key = false -> whenUndefinedAt key v o = whenUndefined v o.
Proof.
  intros H. unfold whenUndefinedAt, whenUndefined. rewrite H. cbn [negb].
  now rewrite andb_true_r.
Qed.

Lemma convertFrontmatter_agrees vault options filePath (fm : Frontmatter) :
  ConvertExecution.convertFrontmatter settings fieldMapper host vault options filePath fm
  = convertFrontmatter settings fieldMapper (ConvertExecution.services host)
                       vault options filePath fm.
Proof.
  destruct plain as (Hname & Hstatus & Hpriority & Hcreated & Hprojects & Hstamp).
  apply map_eq. intros j.
  rewrite convertFrontmatter_at, convertFrontmatter_lookup.
  unfold atKey at 1 2.
  destruct (decide (j = dateModifiedField fieldMapper)) as [->|Hne].
  - unfold assignedAt. now rewrite (inherited_proto _ Hstamp).
  - unfold beforeStampOn, beforeStampAt, linkAt.
    assert (Hlink : forall o,
               atKey j (projectsField fieldMapper)
                     (linkValueAt (projectsField fieldMapper)
                        (linkFor (ConvertExecution.services host) vault options filePath)) o
               = atKey j (projectsField fieldMapper)
                       (linkValue
                          (linkFor (ConvertExecution.services host) vault options filePath))
                       o).
    { intros o. unfold atKey. destruct (decide _); [|reflexivity].
      unfold linkValueAt, linkValue. rewrite Hprojects. reflexivity. }
    rewrite Hlink. f_equal.
    assert (Hid : atKey j (identifyKey settings) (identifyValueAt settings) (fm !! j)
                  = atKey j (identifyKey settings) (identifyValue settings) (fm !! j)).
    { unfold atKey. destruct (decide _); [|reflexivity].
      unfold identifyValueAt, identifyValue.
      destruct (taskIdentificationMethod settings); [reflexivity|].
      unfold propertyValueAt, propertyValue, parsedValue. rewrite Hname. cbn [negb].
      now rewrite andb_true_r. }
    rewrite Hid. destruct (applyDefaults options); [|reflexivity].
    unfold defaultsOn, defaultsAt, atKey.
    repeat match goal with
           | |- context [decide ?P] => destruct (decide P)
           end;
      rewrite ?(whenUndefinedAt_plain _ _ _ Hstatus),
              ?(whenUndefinedAt_plain _ _ _ Hpriority),
              ?(whenUndefinedAt_plain _ _ _ Hcreated); reflexivity.
Qed.

(** The wait for the cache never fails. *)
Definition WaitSucceeds : Prop :=
  forall filePath, ConvertExecution.awaitFreshTaskData host filePath = Returned tt.

(** The classifier of the dry run never throws. *)
Definition ClassifierReturns : Prop :=
  forall fm, ConvertExecution.isTaskFileFails host fm = None.

Lemma alreadyTaskLoop_agrees vault paths acc :
  ClassifierReturns ->
  ConvertExecution.alreadyTaskLoop host vault paths acc
  = Returned (alreadyTaskLoop (ConvertExecution.services host) vault paths acc).
Proof.
  intros Hc. revert acc.
  induction paths as [|p rest IH]; intros acc;
    cbn [ConvertExecution.alreadyTaskLoop alreadyTaskLoop]; [reflexivity|].
  cbv zeta. destruct (negb (truthy _)); [apply IH|].
  destruct (negb (isTFile vault _)); [apply IH|].
  destruct (frontmatterOf vault _) as [fm|]; [|apply IH].
  unfold ConvertExecution.classify. rewrite Hc.
  destruct (isTaskFile (ConvertExecution.services host) fm); apply IH.
Qed.

Lemma preCheck_agrees vault paths :
  ClassifierReturns ->
  ConvertExecution.preCheck host vault paths
  = Returned (preCheck (ConvertExecution.services host) vault paths).
Proof.
  intros Hc. unfold ConvertExecution.preCheck, preCheck.
  now rewrite alreadyTaskLoop_agrees.
Qed.

Lemma convertStep_agrees pre options p st :
  WaitSucceeds ->
  let st' := ConvertExecution.convertStep settings fieldMapper host pre options
               (orElse (default "" p) "") st in
  (ConvertExecution.vaultNow st', ConvertExecution.result st')
  = convertStep settings fieldMapper (ConvertExecution.services host) pre
                (ConvertExecution.conversion options) p
                (ConvertExecution.vaultNow st, ConvertExecution.result st).
Proof.
  intros Hw. cbv zeta. unfold ConvertExecution.convertStep, convertStep. cbv zeta.
  destruct (decide _); [reflexivity|].
  destruct (negb (isTFile _ _)); [reflexivity|].
  unfold ConvertExecution.convertSingleNote, convertSingleNote.
  destruct (processFrontMatterFails _ _); [reflexivity|].
  rewrite Hw, convertFrontmatter_agrees. reflexivity.
Qed.

Lemma convertLoop_agrees pre options total paths :
  WaitSucceeds -> quietProgress options ->
  forall i st,
    let run := ConvertExecution.convertLoop settings fieldMapper host pre options
                                            total i paths st in
    let final := fold_left
                   (fun st p => convertStep settings fieldMapper
                                            (ConvertExecution.services host) pre
                                            (ConvertExecution.conversion options) p st)
                   paths (ConvertExecution.vaultNow st, ConvertExecution.result st) in
    ConvertExecution.vaultAfter run = fst final
    /\ ConvertExecution.settled run = Returned (snd final).
Proof.
  intros Hw Hq. induction paths as [|p rest IH]; intros i st;
    cbn [ConvertExecution.convertLoop fold_left]; [now split|].
  cbv zeta. rewrite (report_quiet options _ _ _ Hq).
  set (st1 := {| ConvertExecution.vaultNow := ConvertExecution.vaultNow st;
                 ConvertExecution.result := ConvertExecution.result st;
                 ConvertExecution.reports := _ |}).
  pose proof (convertStep_agrees pre options p st1 Hw) as Hstep. cbv zeta in Hstep.
  specialize (IH (S i) (ConvertExecution.convertStep settings fieldMapper host pre options
                          (orElse (default "" p) "") st1)).
  cbv zeta in IH. rewrite Hstep in IH. exact IH.
Qed.

(** A call of [convertNotes] in which nothing outside the per-item [try]
    fails and no wait fails returns what [BulkConvertEngine.convertNotes]
    says, and leaves the vault it says. *)
Lemma convertNotes_agrees vault paths options :
  WaitSucceeds -> ClassifierReturns -> quietProgress options ->
  let run := ConvertExecution.convertNotes settings fieldMapper host vault paths options in
  let first := convertNotes settings fieldMapper (ConvertExecution.services host)
                            vault paths (ConvertExecution.conversion options) in
  ConvertExecution.vaultAfter run = fst first
  /\ ConvertExecution.settled run = Returned (snd first).
Proof.
  intros Hw Hc Hq. cbv zeta. unfold ConvertExecution.convertNotes, convertNotes.
  destruct paths as [|p rest]; [now split|]. cbv zeta.
  rewrite (report_quiet options _ _ _ Hq), (preCheck_agrees _ _ Hc).
  exact (convertLoop_agrees _ options _ (p :: rest) Hw Hq 0
           {| ConvertExecution.vaultNow := vault;
              ConvertExecution.result := emptyResult;
              ConvertExecution.reports := _ |}).
Qed.

End Conversion.

Section Creation.
Import DuplicateDetector BulkTaskEngine BatchBoundary.
Variable host : CreateExecution.Runtime.
Variable vault : Vault.

(** A call of [createTasks] in which the progress callback does not
    throw and the task cache answers returns what
    [BulkTaskEngine.createTasks] says, after the same calls to the task
    service. *)
Lemma createTasks_agrees items options allTasks :
  quietReports options ->
  (skipExisting (CreateExecution.creation options) = true ->
   CreateExecution.getAllTasks host = Returned allTasks) ->
  let run := CreateExecution.createTasks host vault items options in
  let first := createTasksLoop (CreateExecution.services host) vault allTasks items
                               (CreateExecution.creation options) in
  CreateExecution.settled run = Returned (result first)
  /\ CreateExecution.serviceRequests run = serviceCalls first.
Proof.
  intros Hq Hcache. cbv zeta.
  unfold CreateExecution.createTasks, createTasksLoop, duplicateCheckFor.
  destruct items as [|item rest]; [now split|]. cbv zeta.
  set (items := item :: rest).
  assert (Hloop : forall dup log,
    CreateExecution.settled
      (CreateExecution.createLoop host vault options dup (List.length items) 0 items
         {| result := emptyResult; serviceCalls := [] |} log)
    = Returned (result (fold_left
                          (fun st item =>
                             createStep (CreateExecution.services host) vault
                                        (CreateExecution.creation options) dup item st)
                          items {| result := emptyResult; serviceCalls := [] |}))
    /\ CreateExecution.serviceRequests
         (CreateExecution.createLoop host vault options dup (List.length items) 0 items
            {| result := emptyResult; serviceCalls := [] |} log)
       = serviceCalls (fold_left
                         (fun st item =>
                            createStep (CreateExecution.services host) vault
                                       (CreateExecution.creation options) dup item st)
                         items {| result := emptyResult; serviceCalls := [] |})).
  { intros dup log.
    destruct (createLoop_prefix host vault options dup (List.length items) items 0
                {| result := emptyResult; serviceCalls := [] |} log)
      as (reached & later & Hsplit & Hcalls & _ & Hquiet).
    destruct (Hquiet Hq) as [Hr ->]. rewrite app_nil_r in Hsplit. subst reached.
    now split. }
  destruct (skipExisting (CreateExecution.creation options)).
  - rewrite (createReport_quiet options _ _ _ Hq), (Hcache eq_refl). apply Hloop.
  - apply Hloop.
Qed.

End Creation.

End ModelAgreement.
